(** * N64 support core of MiSTer: cartridge detection and save-memory mapping

    Shallow embedding of [support/n64/n64.cpp].  Fixed-width integers are
    [Z] with the wrap-around written out, buffers are [list Z] of bytes,
    C strings are [string], and the global state of the translation unit
    is threaded explicitly. *)

From Stdlib Require Import ZArith Lia Bool List String Ascii DecimalString.
From stdpp Require Import base option list strings gmap.

Open Scope Z_scope.

(** ** Machine integers *)

Definition uint8 (x : Z) : Z := x mod 2 ^ 8.
Definition uint32 (x : Z) : Z := x mod 2 ^ 32.
Definition uint64 (x : Z) : Z := x mod 2 ^ 64.

(** Conversion of a 64-bit pattern to [int64_t]. *)
Definition int64 (x : Z) : Z :=
  let u := uint64 x in if u <? 2 ^ 63 then u else u - 2 ^ 64.

(** [data[i]] of a byte buffer; the callers stay inside the buffer. *)
Definition byte_at (data : list Z) (i : nat) : Z := default 0 (data !! i).

(** [((uint32_t * )buf)[i]] on the little-endian host. *)
Definition load32 (data : list Z) (i : nat) : Z :=
  byte_at data (4 * i)
  + byte_at data (4 * i + 1) * 2 ^ 8
  + byte_at data (4 * i + 2) * 2 ^ 16
  + byte_at data (4 * i + 3) * 2 ^ 24.

(** ** Enumerations *)

Module MemoryType.
Inductive t : Set :=
  NONE | EEPROM_512 | EEPROM_2k | SRAM_32k | SRAM_96k | FLASH_128k
| CPAK | TPAK | UNKNOWN.
End MemoryType.

Module CIC.
Inductive t : Set :=
  CIC_NUS_6101 | CIC_NUS_6102 | CIC_NUS_7101 | CIC_NUS_7102 | CIC_NUS_6103
| CIC_NUS_7103 | CIC_NUS_6105 | CIC_NUS_7105 | CIC_NUS_6106 | CIC_NUS_7106
| CIC_NUS_8303 | CIC_NUS_8401 | CIC_NUS_5167 | CIC_NUS_DDUS | CIC_NUS_5101
| UNKNOWN.
End CIC.

Module SystemType.
Inductive t : Set := NTSC | PAL | UNKNOWN.
End SystemType.

Module DataFormat.
Inductive t : Set := BIG_ENDIAN | BYTE_SWAPPED | LITTLE_ENDIAN | UNKNOWN.
End DataFormat.

Module PadType.
Inductive t : Set :=
  N64_PAD | UNPLUGGED | N64_PAD_WITH_CPAK | N64_PAD_WITH_RPAK | SNAC
| N64_PAD_WITH_TPAK | UNKNOWN.
End PadType.

Module AspectRatio.
Inductive t : Set := ORIGINAL | FULL | CUSTOM_1 | CUSTOM_2 | UNKNOWN.
End AspectRatio.

#[global] Instance MemoryType_eq_dec : EqDecision MemoryType.t.
Proof. solve_decision. Defined.
#[global] Instance CIC_eq_dec : EqDecision CIC.t.
Proof. solve_decision. Defined.
#[global] Instance SystemType_eq_dec : EqDecision SystemType.t.
Proof. solve_decision. Defined.
#[global] Instance DataFormat_eq_dec : EqDecision DataFormat.t.
Proof. solve_decision. Defined.
#[global] Instance PadType_eq_dec : EqDecision PadType.t.
Proof. solve_decision. Defined.
#[global] Instance AspectRatio_eq_dec : EqDecision AspectRatio.t.
Proof. solve_decision. Defined.

(** ** Byte-order normalizer *)

Definition detectRomFormat (data : list Z) : DataFormat.t :=
  let val := load32 data 0 in
  if (val =? 0x40123780) || (val =? 0x40072780) || (val =? 0x41123780)
  then DataFormat.BIG_ENDIAN
  else if (val =? 0x12408037) || (val =? 0x07408027) || (val =? 0x12418037)
  then DataFormat.BYTE_SWAPPED
  else if (val =? 0x80371240) || (val =? 0x80270740) || (val =? 0x80371241)
  then DataFormat.LITTLE_ENDIAN
  else
    let b := Z.land val 0xff in
    if b =? 0x80 then DataFormat.BIG_ENDIAN
    else if (b =? 0x37) || (b =? 0x27) then DataFormat.BYTE_SWAPPED
    else if (b =? 0x40) || (b =? 0x41) then DataFormat.LITTLE_ENDIAN
    else DataFormat.UNKNOWN.

(** The [BYTE_SWAPPED] loop: [n] iterations, each exchanging [data[0]]
    and [data[1]] and advancing [data] by two. *)
Fixpoint swap16 (n : nat) (data : list Z) : list Z :=
  match n, data with
  | S n', c0 :: c1 :: rest => c1 :: c0 :: swap16 n' rest
  | _, _ => data
  end.

(** The [LITTLE_ENDIAN] loop: [n] iterations, each reversing
    [data[0..3]] and advancing [data] by four. *)
Fixpoint swap32 (n : nat) (data : list Z) : list Z :=
  match n, data with
  | S n', c0 :: c1 :: c2 :: c3 :: rest =>
      c3 :: c2 :: c1 :: c0 :: swap32 n' rest
  | _, _ => data
  end.

(** [size] is a 32-bit [size_t]; [size &= ~1U] and [size &= ~3U] round it
    down, and the loops then run [size / 2] and [size / 4] times. *)
Definition normalizeData (data : list Z) (size : Z) (format : DataFormat.t)
  : list Z :=
  match format with
  | DataFormat.BYTE_SWAPPED =>
      let size := Z.land size 0xFFFFFFFE in
      swap16 (Z.to_nat (size / 2)) data
  | DataFormat.LITTLE_ENDIAN =>
      let size := Z.land size 0xFFFFFFFC in
      swap32 (Z.to_nat (size / 4)) data
  | _ => data
  end.

(** ** Save sizes *)

Definition get_save_size (v : MemoryType.t) : Z :=
  match v with
  | MemoryType.EEPROM_512 => 0x200
  | MemoryType.EEPROM_2k => 0x800
  | MemoryType.SRAM_32k => 0x8000
  | MemoryType.SRAM_96k => 0x18000
  | MemoryType.FLASH_128k => 0x20000
  | MemoryType.CPAK | MemoryType.TPAK => 0x8000
  | _ => 0
  end.

(** ** Host configuration store *)

(** Modelled from the spec: the host's persistent configuration-option
    store ([user_io_status_get] / [user_io_status_set], declared in
    [user_io.h]).  It offers read/write access to typed options
    identified by stable keys; a key ["[hi:lo]"] names the bits [lo..hi]
    of the status word, so an option holds [hi - lo + 1] bits. *)
Record status_opt : Set := Opt { opt_hi : Z; opt_lo : Z }.

Definition opt_width (o : status_opt) : Z := opt_hi o - opt_lo o + 1.

Definition user_io_status_get (o : status_opt) (status : Z) : Z :=
  Z.land (Z.shiftr status (opt_lo o)) (Z.ones (opt_width o)).

Definition user_io_status_set (o : status_opt) (value : Z) (status : Z) : Z :=
  Z.lor (Z.ldiff status (Z.shiftl (Z.ones (opt_width o)) (opt_lo o)))
        (Z.shiftl (Z.land value (Z.ones (opt_width o))) (opt_lo o)).

Definition AR_TYPE_OPT := Opt 48 47.
Definition AUTODETECT_OPT := Opt 64 64.
Definition CIC_TYPE_OPT := Opt 68 65.
Definition NO_EPAK_OPT := Opt 70 70.
Definition CPAK_OPT := Opt 71 71.
Definition RPAK_OPT := Opt 72 72.
Definition TPAK_OPT := Opt 73 73.
Definition RTC_OPT := Opt 74 74.
Definition SAVE_TYPE_OPT := Opt 77 75.
Definition SYS_TYPE_OPT := Opt 80 79.
Definition CONTROLLER_OPTS : list status_opt :=
  [Opt 51 49; Opt 54 52; Opt 57 55; Opt 60 58].
Definition CONTROLLER_OPT (c_idx : nat) : status_opt :=
  nth c_idx CONTROLLER_OPTS (Opt 0 0).
(** The key ["[0]"] of the reset pulse. *)
Definition RESET_OPT := Opt 0 0.

(** ** Casts between the enumerations and [uint32_t] *)

Definition MemoryType_to_uint32 (v : MemoryType.t) : Z :=
  match v with
  | MemoryType.NONE => 0
  | MemoryType.EEPROM_512 => 1
  | MemoryType.EEPROM_2k => 2
  | MemoryType.SRAM_32k => 3
  | MemoryType.SRAM_96k => 4
  | MemoryType.FLASH_128k => 5
  | MemoryType.CPAK => 0xFFFFFFFD
  | MemoryType.TPAK => 0xFFFFFFFE
  | MemoryType.UNKNOWN => 0xFFFFFFFF
  end.

(** A value that is no enumerator takes the [default] branch of every
    [switch] on a [MemoryType], as [UNKNOWN] does. *)
Definition MemoryType_of_uint32 (v : Z) : MemoryType.t :=
  if v =? 0 then MemoryType.NONE
  else if v =? 1 then MemoryType.EEPROM_512
  else if v =? 2 then MemoryType.EEPROM_2k
  else if v =? 3 then MemoryType.SRAM_32k
  else if v =? 4 then MemoryType.SRAM_96k
  else if v =? 5 then MemoryType.FLASH_128k
  else if v =? 0xFFFFFFFD then MemoryType.CPAK
  else if v =? 0xFFFFFFFE then MemoryType.TPAK
  else MemoryType.UNKNOWN.

Definition CIC_to_uint32 (v : CIC.t) : Z :=
  match v with
  | CIC.CIC_NUS_6101 => 0 | CIC.CIC_NUS_6102 => 1 | CIC.CIC_NUS_7101 => 2
  | CIC.CIC_NUS_7102 => 3 | CIC.CIC_NUS_6103 => 4 | CIC.CIC_NUS_7103 => 5
  | CIC.CIC_NUS_6105 => 6 | CIC.CIC_NUS_7105 => 7 | CIC.CIC_NUS_6106 => 8
  | CIC.CIC_NUS_7106 => 9 | CIC.CIC_NUS_8303 => 10 | CIC.CIC_NUS_8401 => 11
  | CIC.CIC_NUS_5167 => 12 | CIC.CIC_NUS_DDUS => 13 | CIC.CIC_NUS_5101 => 14
  | CIC.UNKNOWN => 0xFFFFFFFF
  end.

Definition SystemType_to_uint32 (v : SystemType.t) : Z :=
  match v with
  | SystemType.NTSC => 0
  | SystemType.PAL => 1
  | SystemType.UNKNOWN => 0xFFFFFFFF
  end.

Definition PadType_to_uint32 (v : PadType.t) : Z :=
  match v with
  | PadType.N64_PAD => 0
  | PadType.UNPLUGGED => 1
  | PadType.N64_PAD_WITH_CPAK => 2
  | PadType.N64_PAD_WITH_RPAK => 3
  | PadType.SNAC => 4
  | PadType.N64_PAD_WITH_TPAK => 5
  | PadType.UNKNOWN => 0xFFFFFFFF
  end.

Definition AspectRatio_to_uint32 (v : AspectRatio.t) : Z :=
  match v with
  | AspectRatio.ORIGINAL => 0
  | AspectRatio.FULL => 1
  | AspectRatio.CUSTOM_1 => 2
  | AspectRatio.CUSTOM_2 => 3
  | AspectRatio.UNKNOWN => 0xFFFFFFFF
  end.

(** The display-aspect option holds two bits, so every value read from
    it is one of the first four enumerators. *)
Definition AspectRatio_of_uint32 (v : Z) : AspectRatio.t :=
  if v =? 0 then AspectRatio.ORIGINAL
  else if v =? 1 then AspectRatio.FULL
  else if v =? 2 then AspectRatio.CUSTOM_1
  else if v =? 3 then AspectRatio.CUSTOM_2
  else AspectRatio.UNKNOWN.

Definition bool_to_uint32 (b : bool) : Z := if b then 1 else 0.

(** ** C strings and characters *)

(** [(unsigned char)c] *)
Definition code (c : ascii) : Z := Z.of_N (N_of_ascii c).

(** [s[i]]; reading at the end of a string gives the terminating NUL. *)
Definition c_at (s : string) (i : nat) : ascii :=
  default Ascii.zero (String.get i s).

(** The pointer [s + n]. *)
Fixpoint str_plus (s : string) (n : nat) : string :=
  match n, s with
  | S n', String _ s' => str_plus s' n'
  | _, _ => s
  end.

Definition isspace (c : ascii) : bool :=
  let a := code c in (a =? 32) || ((9 <=? a) && (a <=? 13)).

Definition isalnum (c : ascii) : bool :=
  let a := code c in
  ((48 <=? a) && (a <=? 57)) || ((65 <=? a) && (a <=? 90))
  || ((97 <=? a) && (a <=? 122)).

Definition tolower (a : Z) : Z :=
  if (65 <=? a) && (a <=? 90) then a + 32 else a.

Definition hex_to_dec (x : ascii) : Z :=
  let a := code x in
  if (48 <=? a) && (a <=? 57) then a - 48
  else if (65 <=? a) && (a <=? 70) then a - 65 + 10
  else if (97 <=? a) && (a <=? 102) then a - 97 + 10
  else 0.

(** ** Console output *)

(** One constructor per [printf], carrying the values that the format
    string prints. *)
Inductive Message : Set :=
| MsgUnknownTag (tag : string)
| MsgTagSummary (system_type : SystemType.t) (save_type : MemoryType.t)
    (cic_type : CIC.t) (cpak rpak tpak rtc no_epak : bool)
| MsgAutoDetectOff
| MsgAutoDetectOn
| MsgDbOpenFailed (db_file_name : string)
| MsgMalformedMD5 (lookup_hash s : string)
| MsgFoundMD5 (lookup_hash tags : string)
| MsgMalformedID (cart_id s : string)
| MsgFoundID (cart_id tags : string)
| MsgInvalidCartID (lookup_id : string)
| MsgHomebrewHeader
| MsgUnknownCICTriesNext (signature : Z)
| MsgUnknownCICUsesDefault (signature : Z)
| MsgRegionCIC (system_type : SystemType.t) (cic : CIC.t)
| MsgHeaderMD5 (md5_hex : string)
| MsgNoInfoForHeaderHash (md5_hex : string)
| MsgCartridgeID (cart_id : string)
| MsgFileMD5 (md5_hex : string)
| MsgNoInfoForFileHash (md5_hex : string)
| MsgNoInfoForCartID (cart_id : string)
| MsgRomTooShort
| MsgDone
| MsgN64File (name : string) (data_size : Z) (idx : Z)
| MsgOpenFile (full_path : string)
| MsgWroteBytes (sz : Z)
| MsgFileSize (fs : Z)
| MsgReading (offset until : Z)
| MsgReadBytes (sz : Z)
| MsgFoundOldSave (old_path : string) (type : MemoryType.t)
| MsgCreatedFile (path : string) (sz : Z).

(** ** Transport *)

Inductive spi_cmd : Set := UIO_SECTOR_RD | UIO_SECTOR_WR.

(** What the engine asks of the bus that streams bytes to and from the
    attached hardware, in the order of the calls. *)
Inductive IoEvent : Set :=
| io_set_index (idx : Z)
| io_set_download (on : bool)
| io_file_tx_data (data : list Z)
| io_file_mount (path : string) (idx : Z)
| io_spi_w (cmd : spi_cmd) (ack : Z)
| io_spi_block_write (data : list Z)
| io_spi_block_read (data : list Z).

(** ** Global state *)

Module SaveFile.
Record t : Set := mk { idx : Z; type : MemoryType.t }.
(** [SaveFile()] *)
Definition empty : t := mk (-1) MemoryType.NONE.
Definition get_size (f : t) : Z := get_save_size (type f).
End SaveFile.

(** The statics of the translation unit ([old_ar], [mounted_save_files],
    [save_files]) together with the collaborators it talks to: the host
    configuration word, the images returned by [get_image], the files
    below the root directory, the knowledge-base files below the home
    directory (as the lines [FileReadLine] returns), the transport and
    the console.  [writable path] tells whether the storage opens
    [path] for writing, that is, whether [fopen(path, "w")] succeeds;
    nothing in this file changes it. *)
Record State : Type := mkState {
  status : Z;
  old_ar : AspectRatio.t;
  mounted_save_files : Z;
  save_files : list SaveFile.t;
  sd_image : list (option string);
  files : gmap string (list Z);
  db_files : gmap string (list string);
  io : list IoEvent;
  console : list Message;
  writable : string -> bool
}.

Definition with_status (v : Z) (st : State) : State :=
  mkState v (old_ar st) (mounted_save_files st) (save_files st)
          (sd_image st) (files st) (db_files st) (io st) (console st)
          (writable st).

Definition with_old_ar (v : AspectRatio.t) (st : State) : State :=
  mkState (status st) v (mounted_save_files st) (save_files st)
          (sd_image st) (files st) (db_files st) (io st) (console st)
          (writable st).

Definition with_mounted_save_files (v : Z) (st : State) : State :=
  mkState (status st) (old_ar st) v (save_files st)
          (sd_image st) (files st) (db_files st) (io st) (console st)
          (writable st).

Definition with_save_files (v : list SaveFile.t) (st : State) : State :=
  mkState (status st) (old_ar st) (mounted_save_files st) v
          (sd_image st) (files st) (db_files st) (io st) (console st)
          (writable st).

Definition with_sd_image (v : list (option string)) (st : State) : State :=
  mkState (status st) (old_ar st) (mounted_save_files st) (save_files st)
          v (files st) (db_files st) (io st) (console st)
          (writable st).

Definition with_files (v : gmap string (list Z)) (st : State) : State :=
  mkState (status st) (old_ar st) (mounted_save_files st) (save_files st)
          (sd_image st) v (db_files st) (io st) (console st)
          (writable st).

Definition printf (m : Message) (st : State) : State :=
  mkState (status st) (old_ar st) (mounted_save_files st) (save_files st)
          (sd_image st) (files st) (db_files st) (io st) (console st ++ [m])
          (writable st).

Definition emit (e : IoEvent) (st : State) : State :=
  mkState (status st) (old_ar st) (mounted_save_files st) (save_files st)
          (sd_image st) (files st) (db_files st) (io st ++ [e]) (console st)
          (writable st).

Definition status_get (o : status_opt) (st : State) : Z :=
  user_io_status_get o (status st).

Definition status_set (o : status_opt) (value : Z) (st : State) : State :=
  with_status (user_io_status_set o value (status st)) st.

Definition get_cart_save_type (st : State) : MemoryType.t :=
  let v := MemoryType_of_uint32 (status_get SAVE_TYPE_OPT st) in
  if get_save_size v =? 0 then MemoryType.NONE else v.

Definition set_cart_save_type (v : MemoryType.t) (st : State) : State :=
  status_set SAVE_TYPE_OPT
    (MemoryType_to_uint32
       (if get_save_size v =? 0 then MemoryType.NONE else v)) st.

(** [idx] is an [unsigned char], [offset] a [uint32_t]. *)
Definition get_save_file_offset (idx : Z) (st : State) : Z :=
  let offset := 0 in
  let save_type := get_cart_save_type st in
  let '(offset, idx) :=
    if negb (idx =? 0) && bool_decide (save_type <> MemoryType.NONE)
    then (uint32 (offset + get_save_size save_type), uint8 (idx - 1))
    else (offset, idx) in
  let '(offset, idx) :=
    if negb (idx =? 0) && negb (status_get TPAK_OPT st =? 0)
    then (uint32 (offset + get_save_size MemoryType.TPAK), uint8 (idx - 1))
    else (offset, idx) in
  uint32 (offset + get_save_size MemoryType.CPAK * idx).

Definition is_auto (st : State) : bool :=
  status_get AUTODETECT_OPT st =? 0.

(** ** Tag interpreter *)

Definition FNV_PRIME : Z := 0x100000001b3.
Definition FNV_OFFSET_BASIS : Z := 0xcbf29ce484222325.

(** The loop of [fnv_hash]: [h = (h ^ lower(a)) * FNV_PRIME] on 64 bits
    for every byte [a] up to the terminating NUL. *)
Fixpoint fnv_hash_from (s : string) (h : Z) : Z :=
  match s with
  | EmptyString => h
  | String c s' =>
      let a := code c in
      if a =? 0 then h
      else fnv_hash_from s' (uint64 (Z.lxor h (tolower a) * FNV_PRIME))
  end.

Definition fnv_hash (s : string) : Z := fnv_hash_from s FNV_OFFSET_BASIS.

(** All tokens that successive [strtok] calls return: the maximal runs
    of characters outside [separator]; [cur] is the token being read. *)
Fixpoint strtok_from (separator : string) (s cur : string) : list string :=
  match s with
  | EmptyString => if String.eqb cur "" then [] else [cur]
  | String c s' =>
      if existsb (Ascii.eqb c) (list_ascii_of_string separator)
      then (if String.eqb cur "" then strtok_from separator s' ""
            else cur :: strtok_from separator s' "")
      else strtok_from separator s' (cur +:+ String c "")
  end.

Definition strtok (s separator : string) : list string :=
  strtok_from separator s "".

(** The locals of [parse_and_apply_db_tags]. *)
Record TagLocals : Set := mkTagLocals {
  save_type : MemoryType.t;
  system_type : SystemType.t;
  cic_type : CIC.t;
  no_epak : bool;
  cpak : bool;
  rpak : bool;
  tpak : bool;
  rtc : bool;
  wide : bool;
  prefered_pad : PadType.t
}.

Definition TagLocals_init : TagLocals :=
  mkTagLocals MemoryType.NONE SystemType.UNKNOWN CIC.UNKNOWN
              false false false false false false PadType.N64_PAD.

Definition set_save_type (v : MemoryType.t) (l : TagLocals) : TagLocals :=
  mkTagLocals v (system_type l) (cic_type l) (no_epak l) (cpak l) (rpak l)
              (tpak l) (rtc l) (wide l) (prefered_pad l).

Definition set_system_type (v : SystemType.t) (l : TagLocals) : TagLocals :=
  mkTagLocals (save_type l) v (cic_type l) (no_epak l) (cpak l) (rpak l)
              (tpak l) (rtc l) (wide l) (prefered_pad l).

Definition set_cic_type (v : CIC.t) (l : TagLocals) : TagLocals :=
  mkTagLocals (save_type l) (system_type l) v (no_epak l) (cpak l) (rpak l)
              (tpak l) (rtc l) (wide l) (prefered_pad l).

Definition set_no_epak (l : TagLocals) : TagLocals :=
  mkTagLocals (save_type l) (system_type l) (cic_type l) true (cpak l)
              (rpak l) (tpak l) (rtc l) (wide l) (prefered_pad l).

(** [prefered_pad] changes only while it still is [N64_PAD]. *)
Definition prefer_pad (v : PadType.t) (l : TagLocals) : PadType.t :=
  if bool_decide (prefered_pad l = PadType.N64_PAD) then v
  else prefered_pad l.

Definition set_cpak (l : TagLocals) : TagLocals :=
  mkTagLocals (save_type l) (system_type l) (cic_type l) (no_epak l) true
              (rpak l) (tpak l) (rtc l) (wide l)
              (prefer_pad PadType.N64_PAD_WITH_CPAK l).

Definition set_rpak (l : TagLocals) : TagLocals :=
  mkTagLocals (save_type l) (system_type l) (cic_type l) (no_epak l) (cpak l)
              true (tpak l) (rtc l) (wide l)
              (prefer_pad PadType.N64_PAD_WITH_RPAK l).

Definition set_tpak (l : TagLocals) : TagLocals :=
  mkTagLocals (save_type l) (system_type l) (cic_type l) (no_epak l) (cpak l)
              (rpak l) true (rtc l) (wide l)
              (prefer_pad PadType.N64_PAD_WITH_TPAK l).

Definition set_rtc (l : TagLocals) : TagLocals :=
  mkTagLocals (save_type l) (system_type l) (cic_type l) (no_epak l) (cpak l)
              (rpak l) (tpak l) true (wide l) (prefered_pad l).

Definition set_wide (l : TagLocals) : TagLocals :=
  mkTagLocals (save_type l) (system_type l) (cic_type l) (no_epak l) (cpak l)
              (rpak l) (tpak l) (rtc l) true (prefered_pad l).

(** The labels [ntsc:] and [pal:] that the boot-chip cases jump to. *)
Definition goto_ntsc (l : TagLocals) : TagLocals :=
  set_system_type SystemType.NTSC l.
Definition goto_pal (l : TagLocals) : TagLocals :=
  set_system_type SystemType.PAL l.

(** The [switch (fnv_hash(tag))] of the token loop; [None] is the
    [default] case. *)
Definition tag_case (tag : string) (l : TagLocals) : option TagLocals :=
  let h := fnv_hash tag in
  if h =? fnv_hash "eeprom512" then Some (set_save_type MemoryType.EEPROM_512 l)
  else if h =? fnv_hash "eeprom2k" then Some (set_save_type MemoryType.EEPROM_2k l)
  else if h =? fnv_hash "sram32k" then Some (set_save_type MemoryType.SRAM_32k l)
  else if h =? fnv_hash "sram96k" then Some (set_save_type MemoryType.SRAM_96k l)
  else if h =? fnv_hash "flash128k" then Some (set_save_type MemoryType.FLASH_128k l)
  else if h =? fnv_hash "noepak" then Some (set_no_epak l)
  else if h =? fnv_hash "cpak" then Some (set_cpak l)
  else if h =? fnv_hash "rpak" then Some (set_rpak l)
  else if h =? fnv_hash "tpak" then Some (set_tpak l)
  else if h =? fnv_hash "rtc" then Some (set_rtc l)
  else if h =? fnv_hash "ntsc" then Some (goto_ntsc l)
  else if h =? fnv_hash "pal" then Some (goto_pal l)
  else if h =? fnv_hash "wide" then Some (set_wide l)
  else if h =? fnv_hash "cic6101" then Some (goto_ntsc (set_cic_type CIC.CIC_NUS_6101 l))
  else if h =? fnv_hash "cic6102" then Some (goto_ntsc (set_cic_type CIC.CIC_NUS_6102 l))
  else if h =? fnv_hash "cic6103" then Some (goto_ntsc (set_cic_type CIC.CIC_NUS_6103 l))
  else if h =? fnv_hash "cic6105" then Some (goto_ntsc (set_cic_type CIC.CIC_NUS_6105 l))
  else if h =? fnv_hash "cic6106" then Some (goto_ntsc (set_cic_type CIC.CIC_NUS_6106 l))
  else if h =? fnv_hash "cic7101" then Some (goto_pal (set_cic_type CIC.CIC_NUS_7101 l))
  else if h =? fnv_hash "cic7102" then Some (goto_pal (set_cic_type CIC.CIC_NUS_7102 l))
  else if h =? fnv_hash "cic7103" then Some (goto_pal (set_cic_type CIC.CIC_NUS_7103 l))
  else if h =? fnv_hash "cic7105" then Some (goto_pal (set_cic_type CIC.CIC_NUS_7105 l))
  else if h =? fnv_hash "cic7106" then Some (goto_pal (set_cic_type CIC.CIC_NUS_7106 l))
  else if h =? fnv_hash "cic8303" then Some (set_cic_type CIC.CIC_NUS_8303 l)
  else if h =? fnv_hash "cic8401" then Some (set_cic_type CIC.CIC_NUS_8401 l)
  else if h =? fnv_hash "cic5167" then Some (set_cic_type CIC.CIC_NUS_5167 l)
  else if h =? fnv_hash "cicddus" then Some (set_cic_type CIC.CIC_NUS_DDUS l)
  else if h =? fnv_hash "cic5101" then Some (set_cic_type CIC.CIC_NUS_5101 l)
  else None.

(** The token loop: unknown tokens are printed and skipped. *)
Fixpoint parse_tags (toks : list string) (l : TagLocals) (st : State)
  : TagLocals * State :=
  match toks with
  | [] => (l, st)
  | tag :: toks' =>
      match tag_case tag l with
      | Some l' => parse_tags toks' l' st
      | None => parse_tags toks' l (printf (MsgUnknownTag tag) st)
      end
  end.

(** The wide-display part of [parse_and_apply_db_tags]: [old_ar] is the
    one-slot memory of the ratio that ["wide"] replaced. *)
Definition apply_wide (wide : bool) (st : State) : State :=
  let current_ar := AspectRatio_of_uint32 (status_get AR_TYPE_OPT st) in
  if wide then
    let st := if bool_decide (current_ar <> AspectRatio.FULL)
              then with_old_ar current_ar st else st in
    status_set AR_TYPE_OPT (AspectRatio_to_uint32 AspectRatio.FULL) st
  else if bool_decide (current_ar = AspectRatio.FULL)
          && bool_decide (old_ar st <> AspectRatio.UNKNOWN)
  then
    let st := status_set AR_TYPE_OPT (AspectRatio_to_uint32 (old_ar st)) st in
    with_old_ar AspectRatio.UNKNOWN st
  else st.

(** Returns [true] if boot chip and region are detected, or if
    auto-detection is turned off.  [tags] is never null at a call. *)
Definition parse_and_apply_db_tags (tags : string) (st : State)
  : bool * State :=
  let '(l, st) := parse_tags (strtok tags "| ") TagLocals_init st in
  let l :=
    if bool_decide (system_type l = SystemType.UNKNOWN)
       && bool_decide (cic_type l <> CIC.UNKNOWN)
    then set_system_type SystemType.NTSC l else l in
  let st := printf (MsgTagSummary (system_type l) (save_type l) (cic_type l)
                      (cpak l) (rpak l) (tpak l) (rtc l) (no_epak l)) st in
  if negb (is_auto st) then (true, printf MsgAutoDetectOff st)
  else
    let st := printf MsgAutoDetectOn st in
    let st := if bool_decide (system_type l <> SystemType.UNKNOWN)
              then status_set SYS_TYPE_OPT
                     (SystemType_to_uint32 (system_type l)) st
              else st in
    let st := if bool_decide (cic_type l <> CIC.UNKNOWN)
              then status_set CIC_TYPE_OPT (CIC_to_uint32 (cic_type l)) st
              else st in
    let st := status_set NO_EPAK_OPT (bool_to_uint32 (no_epak l)) st in
    let st := status_set CPAK_OPT (bool_to_uint32 (cpak l)) st in
    let st := status_set RPAK_OPT (bool_to_uint32 (rpak l)) st in
    let st := status_set TPAK_OPT (bool_to_uint32 (tpak l)) st in
    let st := status_set RTC_OPT (bool_to_uint32 (rtc l)) st in
    let st := set_cart_save_type (save_type l) st in
    let st :=
      if negb (status_get (CONTROLLER_OPT 0) st =? PadType_to_uint32 PadType.SNAC)
      then status_set (CONTROLLER_OPT 0) (PadType_to_uint32 (prefered_pad l)) st
      else st in
    let st := apply_wide (wide l) st in
    (bool_decide (system_type l <> SystemType.UNKNOWN)
     && bool_decide (cic_type l <> CIC.UNKNOWN), st).

(** ** Identity resolver: knowledge-base lookup *)

Definition CARTID_LENGTH : Z := 6.
Definition MD5_LENGTH : Z := 16.
Definition CARTID_PREFIX : string := "ID:".

(** The loop of [md5_matches]; [n] counts down from [MD5_LENGTH * 2]. *)
Fixpoint md5_matches_from (n : nat) (line md5 : string) : bool :=
  match n with
  | O => true
  | S n' =>
      let c := code (c_at line 0) in
      if (c =? 0) || negb (code (c_at md5 0) =? tolower c) then false
      else md5_matches_from n' (str_plus line 1) (str_plus md5 1)
  end.

Definition md5_matches (line md5 : string) : bool :=
  md5_matches_from (Z.to_nat (MD5_LENGTH * 2)) line md5.

(** The loop of [cart_id_is_match]: [i] is the position, [n] the number
    of positions left below [CARTID_LENGTH], [lp] the line pointer. *)
Fixpoint cart_id_loop (n i : nat) (lp cart_id : string) : Z :=
  match n with
  | O => CARTID_LENGTH
  | S n' =>
      let c := c_at lp 0 in
      if code c =? 0 then CARTID_LENGTH
      else if negb (Nat.eqb i 0) && isspace c then Z.of_nat i
      else if negb (Ascii.eqb c "_") && negb (Ascii.eqb c (c_at cart_id i))
      then 0
      else cart_id_loop n' (S i) (str_plus lp 1) cart_id
  end.

(** Returns the number of matching characters if match, otherwise 0. *)
Definition cart_id_is_match (line cart_id : string) : Z :=
  if negb (String.prefix CARTID_PREFIX line) then 0
  else cart_id_loop (Z.to_nat CARTID_LENGTH) 0
         (str_plus line (String.length CARTID_PREFIX)) cart_id.

(** The longest prefix of [s] whose characters satisfy [p], and what
    follows it: one scanset conversion of [sscanf]. *)
Fixpoint scanset (p : ascii -> bool) (s : string) : string * string :=
  match s with
  | EmptyString => (EmptyString, EmptyString)
  | String c s' =>
      if p c then let '(m, r) := scanset p s' in (String c m, r)
      else (EmptyString, s)
  end.

(** [sscanf(s, "%*[ \t]%[^#;]", tags)]: [Some tags] when the call
    returns 1, [None] when it returns 0 or [EOF].  A scanset conversion
    fails on an empty match. *)
Definition sscanf_tags (s : string) : option string :=
  let '(blanks, rest) :=
    scanset (fun c => Ascii.eqb c " " || (code c =? 9)) s in
  if String.eqb blanks "" then None
  else
    let '(tags, _) :=
      scanset (fun c => negb (Ascii.eqb c "#" || Ascii.eqb c ";")) rest in
    if String.eqb tags "" then None else Some tags.

(** The [while (line = FileReadLine(&reader))] loop of
    [detect_rom_settings_in_db]. *)
Fixpoint scan_db_md5 (lookup_hash : string) (lines : list string)
  (st : State) : Z * State :=
  match lines with
  | [] => (0, st)
  | line :: lines' =>
      if negb (md5_matches line lookup_hash)
      then scan_db_md5 lookup_hash lines' st
      else
        let s := str_plus line (Z.to_nat (MD5_LENGTH * 2)) in
        match sscanf_tags s with
        | None => (2, printf (MsgMalformedMD5 lookup_hash s) st)
        | Some tags =>
            let st := printf (MsgFoundMD5 lookup_hash tags) st in
            let '(ok, st) := parse_and_apply_db_tags tags st in
            (if ok then 3 else 2, st)
        end
  end.

Definition detect_rom_settings_in_db (lookup_hash db_file_name : string)
  (st : State) : Z * State :=
  match db_files st !! db_file_name with
  | None => (0, printf (MsgDbOpenFailed db_file_name) st)
  | Some lines => scan_db_md5 lookup_hash lines st
  end.

(** The [while] loop of [detect_rom_settings_in_db_with_cartid].  The
    tag text is what the line holds from [strlen(CARTID_PREFIX) + i]
    on.  That is the code's [line + strlen(CARTID_PREFIX) + i] as long
    as the line holds its key, [3 + i <= strlen(line)].  On a shorter
    line, where [cart_id_is_match] counts 6 at the terminator, the code
    reads the buffer of the text reader behind the line; the lines that
    [FileReadLine] returns do not tell what is there, and the theorems
    on what this lookup makes of a fitting line are stated for lines
    that hold their key. *)
Fixpoint scan_db_cartid (cart_id : string) (lines : list string)
  (st : State) : Z * State :=
  match lines with
  | [] => (0, st)
  | line :: lines' =>
      let i := cart_id_is_match line cart_id in
      if i =? 0 then scan_db_cartid cart_id lines' st
      else
        let s := str_plus line (String.length CARTID_PREFIX + Z.to_nat i) in
        match sscanf_tags s with
        | None => (2, printf (MsgMalformedID cart_id s) st)
        | Some tags =>
            let st := printf (MsgFoundID cart_id tags) st in
            let '(ok, st) := parse_and_apply_db_tags tags st in
            (if ok then 3 else 2, st)
        end
  end.

Definition detect_rom_settings_in_db_with_cartid
  (cart_id db_file_name : string) (st : State) : Z * State :=
  match db_files st !! db_file_name with
  | None => (0, printf (MsgDbOpenFailed db_file_name) st)
  | Some lines => scan_db_cartid cart_id lines st
  end.

Definition DB_FILE_NAMES : list string :=
  ["N64-database_user.txt"; "N64-database.txt"].

(** The loop over [DB_FILE_NAMES] of the two [detect_..._in_dbs_...]
    functions: it stops at the first file with a non-zero result. *)
Fixpoint in_dbs (lookup : string -> State -> Z * State)
  (names : list string) (st : State) : Z * State :=
  match names with
  | [] => (0, st)
  | db_file_name :: names' =>
      let '(detected, st) := lookup db_file_name st in
      if negb (detected =? 0) then (detected, st)
      else in_dbs lookup names' st
  end.

Definition detect_rom_settings_in_dbs_with_md5 (lookup_hash : string)
  (st : State) : Z * State :=
  in_dbs (detect_rom_settings_in_db lookup_hash) DB_FILE_NAMES st.

Definition detect_rom_settings_in_dbs_with_cartid (lookup_id : string)
  (st : State) : Z * State :=
  if negb (forallb (fun i => isalnum (c_at lookup_id i))
             (seq 0 (Z.to_nat CARTID_LENGTH)))
  then (0, printf (MsgInvalidCartID lookup_id) st)
  else in_dbs (detect_rom_settings_in_db_with_cartid lookup_id)
              DB_FILE_NAMES st.

(** ** Identity resolver: homebrew header *)

Definition any_controller (controller_settings : list Z) (v : Z) : bool :=
  (byte_at controller_settings 0 =? v) || (byte_at controller_settings 1 =? v)
  || (byte_at controller_settings 2 =? v)
  || (byte_at controller_settings 3 =? v).

(** The body of the loop over [CONTROLLER_OPTS]. *)
Definition homebrew_controller (controller_settings : list Z) (c_idx : nat)
  (st : State) : State :=
  let c_opt := CONTROLLER_OPT c_idx in
  let cs := byte_at controller_settings c_idx in
  if negb (cs =? 0)
     && negb (status_get c_opt st =? PadType_to_uint32 PadType.SNAC)
  then
    if cs <? 0x80 then
      status_set c_opt
        (PadType_to_uint32
           (if cs =? 0x01 then PadType.N64_PAD_WITH_RPAK
            else if cs =? 0x02 then PadType.N64_PAD_WITH_CPAK
            else if (cs =? 0x03) && Nat.eqb c_idx 0
                 then PadType.N64_PAD_WITH_TPAK
            else PadType.N64_PAD)) st
    else if cs =? 0xff then
      status_set c_opt (PadType_to_uint32 PadType.UNPLUGGED) st
    else st
  else st.

Definition detect_homebrew_header (controller_settings : list Z)
  (cart_id : string) (st : State) : bool * State :=
  if negb (Ascii.eqb (c_at cart_id 1) "E")
     || negb (Ascii.eqb (c_at cart_id 2) "D")
  then (false, st)
  else
    let st := printf MsgHomebrewHeader st in
    if negb (is_auto st) then (false, printf MsgAutoDetectOff st)
    else
      let v := hex_to_dec (c_at cart_id 4) in
      let st :=
        set_cart_save_type
          (if v =? 1 then MemoryType.EEPROM_512
           else if v =? 2 then MemoryType.EEPROM_2k
           else if v =? 3 then MemoryType.SRAM_32k
           else if v =? 4 then MemoryType.SRAM_96k
           else if v =? 5 then MemoryType.FLASH_128k
           else MemoryType.NONE) st in
      let st := printf MsgAutoDetectOn st in
      let st := status_set RTC_OPT
                  (Z.land (hex_to_dec (c_at cart_id 5)) 1) st in
      let st := status_set RPAK_OPT
                  (bool_to_uint32 (any_controller controller_settings 0x01))
                  st in
      let st := status_set CPAK_OPT
                  (bool_to_uint32 (any_controller controller_settings 0x02))
                  st in
      let st := status_set TPAK_OPT
                  (bool_to_uint32 (any_controller controller_settings 0x03))
                  st in
      let st := homebrew_controller controller_settings 0 st in
      let st := homebrew_controller controller_settings 1 st in
      let st := homebrew_controller controller_settings 2 st in
      let st := homebrew_controller controller_settings 3 st in
      (true, st).

(** ** Identity resolver: boot-chip signature *)

(** The case groups of the signature [switch], in source order. *)
Inductive SignatureCase : Set :=
| ipl3_x102 | ipl3_7102 | ipl3_6101 | ipl3_x103 | ipl3_x105 | ipl3_x106
| ipl3_5167 | ipl3_8303 | ipl3_8401 | ipl3_ddus | ipl3_5101.

(** The case labels; [None] is [default]. *)
Definition signature_case (signature : Z) : option SignatureCase :=
  if (signature =? 0x000000a316adc55a) || (signature =? 0x000000a30dacd530)
     || (signature =? 0x000000039c981107) || (signature =? 0x000000d2828281b0)
     || (signature =? 0x000000d2be3c4486) || (signature =? 0x0000009acc31e644)
     || (signature =? 0x0000009474732e6b)
  then Some ipl3_x102
  else if (signature =? 0x000000a405397b05)
          || (signature =? 0x000000a3fc388adb)
  then Some ipl3_7102
  else if (signature =? 0x000000a0f26f62fe)
          || (signature =? 0x000000a0e96e72d4)
  then Some ipl3_6101
  else if (signature =? 0x000000a9229d7c45)
          || (signature =? 0x000000a9199c8c1b)
          || (signature =? 0x000000271316d406)
  then Some ipl3_x103
  else if (signature =? 0x000000f8b860ed00)
          || (signature =? 0x000000f8af5ffcd6)
  then Some ipl3_x105
  else if signature =? 0x000000ba5ba4b8cd then Some ipl3_x106
  else if signature =? 0x0000012daafc8aab then Some ipl3_5167
  else if signature =? 0x000000a9df4b39e1 then Some ipl3_8303
  else if signature =? 0x000000aa764e39e1 then Some ipl3_8401
  else if signature =? 0x000000abb0b739e1 then Some ipl3_ddus
  else if (signature =? 0x00000081ce470326)
          || (signature =? 0x000000827a47195a)
          || (signature =? 0x00000082551e4848)
  then Some ipl3_5101
  else None.

(** The statements of a case group: the new [system_type] and [cic]. *)
Definition signature_result (c : SignatureCase)
  (system_type : SystemType.t) : SystemType.t * CIC.t :=
  let by_region (ntsc pal : CIC.t) :=
    if bool_decide (system_type <> SystemType.PAL) then ntsc else pal in
  match c with
  | ipl3_x102 => (system_type, by_region CIC.CIC_NUS_6102 CIC.CIC_NUS_7101)
  | ipl3_7102 => (SystemType.PAL, CIC.CIC_NUS_7102)
  | ipl3_6101 => (SystemType.NTSC, CIC.CIC_NUS_6101)
  | ipl3_x103 => (system_type, by_region CIC.CIC_NUS_6103 CIC.CIC_NUS_7103)
  | ipl3_x105 => (system_type, by_region CIC.CIC_NUS_6105 CIC.CIC_NUS_7105)
  | ipl3_x106 => (system_type, by_region CIC.CIC_NUS_6106 CIC.CIC_NUS_7106)
  | ipl3_5167 => (system_type, CIC.CIC_NUS_5167)
  | ipl3_8303 => (system_type, CIC.CIC_NUS_8303)
  | ipl3_8401 => (system_type, CIC.CIC_NUS_8401)
  | ipl3_ddus => (system_type, CIC.CIC_NUS_DDUS)
  | ipl3_5101 => (system_type, CIC.CIC_NUS_5101)
  end.

(** The [if (n) do { switch ( *signatures ) ... } while (cic == UNKNOWN)]
    loop: [n] signatures are left to try and [signatures] points at the
    current one.  The result is [(system_type, cic, is_known_cic)]. *)
Fixpoint signature_loop (n : nat) (signatures : list Z)
  (system_type : SystemType.t) (st : State)
  : SystemType.t * CIC.t * bool * State :=
  match n with
  | O => (system_type, CIC.UNKNOWN, true, st)
  | S n' =>
      let signature := hd 0 signatures in
      match signature_case signature with
      | Some c =>
          let '(system_type, cic) := signature_result c system_type in
          (system_type, cic, true, st)
      | None =>
          match n' with
          | S _ =>
              let st := printf (MsgUnknownCICTriesNext signature) st in
              signature_loop n' (tl signatures) system_type st
          | O =>
              let st := printf (MsgUnknownCICUsesDefault signature) st in
              let '(system_type, cic) :=
                signature_result ipl3_x102 system_type in
              (system_type, cic, false, st)
          end
      end
  end.

Definition region_is_pal (region_code : ascii) : bool :=
  existsb (Ascii.eqb region_code)
    (list_ascii_of_string "DFHILPSUWXYZ").

Definition detect_rom_settings_from_first_chunk (region_code : ascii)
  (signatures : list Z) (st : State) : bool * State :=
  let system_type :=
    if region_is_pal region_code then SystemType.PAL else SystemType.NTSC in
  let '(system_type, cic, is_known_cic, st) :=
    signature_loop 2 signatures system_type st in
  let st := printf (MsgRegionCIC system_type cic) st in
  if negb (is_auto st) then (true, printf MsgAutoDetectOff st)
  else
    let st := printf MsgAutoDetectOn st in
    let st := status_set SYS_TYPE_OPT (SystemType_to_uint32 system_type) st in
    let st := status_set CIC_TYPE_OPT (CIC_to_uint32 cic) st in
    (is_known_cic, st).

(** The accumulation loops of [calc_bootcode_checksums]: [n] words from
    word index [i] are added to the 64-bit [sum]. *)
Fixpoint sum_words (buf : list Z) (i n : nat) (sum : Z) : Z :=
  match n with
  | O => sum
  | S n' => sum_words buf (S i) n' (uint64 (sum + load32 buf i))
  end.

(** [bootcode_sums[1]] is the sum over bytes 0x40 - 0xc00 (Aleck64),
    [bootcode_sums[0]] the sum over bytes 0x40 - 0x1000. *)
Definition calc_bootcode_checksums (buf : list Z) : list Z :=
  let sum1 := sum_words buf (0x40 / 4) (0xc00 / 4 - 0x40 / 4) 0 in
  let sum0 := sum_words buf (0xc00 / 4) (0x1000 / 4 - 0xc00 / 4) sum1 in
  [sum0; sum1].

(** ** Files *)

(** Modelled from the spec: the storage collaborator (open, create,
    read, write and close of named files; [file_io.h] and the C library).
    A file is the list of its bytes, found under its path below the root
    directory; an image returned by [get_image] is closed ([None]) or
    open on a path; [file->size] is the length of the file behind it.
    A file that exists can be read; a file can be created where
    [writable] says so, and a write to an open file succeeds. *)
Definition FileExists (path : string) (st : State) : bool :=
  bool_decide (is_Some (files st !! path)).

Definition get_image (idx : Z) (st : State) : option string :=
  mjoin (sd_image st !! Z.to_nat idx).

Definition image_data (file : option string) (st : State) : list Z :=
  default [] (file ≫= fun path => files st !! path).

Definition file_size (file : option string) (st : State) : Z :=
  Z.of_nat (length (image_data file st)).

(** [FileSeek(file, pos, SEEK_SET)] fails on a closed image and on a
    negative offset. *)
Definition FileSeek (file : option string) (pos : Z) : bool :=
  bool_decide (is_Some file) && (0 <=? pos).

(** The bytes that replace the head of a buffer. *)
Definition overlay (data buffer : list Z) : list Z :=
  data ++ drop (length data) buffer.

(** [FileReadAdv(file, buffer, length)] at offset [pos]: the bytes read,
    at most [length] and fewer at the end of the file. *)
Definition FileReadAdv (file : option string) (pos len : Z) (st : State)
  : list Z :=
  take (Z.to_nat len) (drop (Z.to_nat pos) (image_data file st)).

(** [FileWriteAdv(file, buffer, length)] at offset [pos]; a gap behind
    the end of the file reads as zeros. *)
Definition FileWriteAdv (file : option string) (pos : Z) (data : list Z)
  (st : State) : State :=
  match file with
  | None => st
  | Some path =>
      let old := image_data file st in
      let p := Z.to_nat pos in
      with_files
        (<[path := take p (old ++ repeat 0 (p - length old)) ++ data
                   ++ drop (p + length data) old]> (files st)) st
  end.

(** [user_io_file_mount(path, idx, 1)] opens the file as image [idx]. *)
Definition user_io_file_mount (path : string) (idx : Z) (st : State)
  : State :=
  let st := emit (io_file_mount path idx) st in
  with_sd_image
    (<[Z.to_nat idx := if FileExists path st then Some path else None]>
       (sd_image st)) st.

(** [FileClose] of an image. *)
Definition FileClose (idx : nat) (st : State) : State :=
  with_sd_image (<[idx := None]> (sd_image st)) st.

(** Returns the number of bytes written, 0 if the file cannot be opened
    for writing. *)
Definition create_file (filename : string) (data : list Z) (sz : Z)
  (st : State) : Z * State :=
  let st := printf (MsgOpenFile filename) st in
  if negb (writable st filename) then (0, st)
  else
    let written := take (Z.to_nat sz) data in
    let st := with_files (<[filename := written]> (files st)) st in
    let sz := Z.of_nat (length written) in
    let st := printf (MsgWroteBytes sz) st in
    (sz, st).

(** Returns the number of bytes read and the buffer. *)
Definition read_file (filename : string) (data : list Z) (offset sz : Z)
  (st : State) : Z * list Z * State :=
  let st := printf (MsgOpenFile filename) st in
  match files st !! filename with
  | None => (0, data, st)
  | Some content =>
      let fs := Z.of_nat (length content) in
      let st := printf (MsgFileSize fs) st in
      if offset >? fs then (0, data, st)
      else
        let sz := if uint32 (offset + sz) >? fs then fs - offset else sz in
        let st := printf (MsgReading offset (uint32 (offset + sz))) st in
        let got := take (Z.to_nat sz) (drop (Z.to_nat offset) content) in
        let sz := Z.of_nat (length got) in
        let st := printf (MsgReadBytes sz) st in
        (sz, overlay got data, st)
  end.

(** ** Save-memory address-space manager *)

Definition is_pak (type : MemoryType.t) : bool :=
  bool_decide (type = MemoryType.CPAK) || bool_decide (type = MemoryType.TPAK).

(** [strrchr]: the text before and after the last [c] of [s]. *)
Fixpoint strrchr (s : string) (c : ascii) : option (string * string) :=
  match s with
  | EmptyString => None
  | String a s' =>
      match strrchr s' c with
      | Some (before, after) => Some (String a before, after)
      | None => if Ascii.eqb a c then Some (EmptyString, s') else None
      end
  end.

(** ["%u"] *)
Definition decimal (v : Z) : string :=
  NilZero.string_of_uint (Nat.to_uint (Z.to_nat v)).

Section Host.

(** What the headers outside this file provide: the save directory and
    the core name of the path helpers, and the built-in controller-pak
    images of [n64_cpak_header.h] (all of one length). *)
Variable SAVE_DIR : string.
Variable CoreName : string.
Variable cpak_header : list (list Z).

(** [(idx < 0) ? mounted_save_files : idx] *)
Definition slot_of (f : SaveFile.t) (st : State) : Z :=
  if SaveFile.idx f <? 0 then mounted_save_files st else SaveFile.idx f.

(** Returns [true] if created.  [save_file_buf] is local here: only its
    first [sz] bytes, cleared at the start, are ever used. *)
Definition create_if_missing (f : SaveFile.t) (path old_path : string)
  (st : State) : bool * State :=
  if FileExists path st then (false, st)
  else
    let sz := SaveFile.get_size f in
    let save_file_buf := repeat 0 (Z.to_nat sz) in
    let '(found_old_data, save_file_buf, st) :=
      if negb (sz =? 0) && FileExists old_path st then
        let off := get_save_file_offset (uint8 (slot_of f st)) st in
        let '(n, buf, st) := read_file old_path save_file_buf off sz st in
        if negb (n =? 0) then
          let st := printf (MsgFoundOldSave old_path (SaveFile.type f)) st in
          (true,
           if is_pak (SaveFile.type f)
           then normalizeData buf sz DataFormat.LITTLE_ENDIAN else buf,
           st)
        else (false, buf, st)
      else (false, save_file_buf, st) in
    let save_file_buf :=
      if negb found_old_data
         && bool_decide (SaveFile.type f = MemoryType.CPAK)
      then overlay
             (nth (Z.to_nat (slot_of f st)
                   mod length cpak_header)%nat cpak_header [])
             save_file_buf
      else save_file_buf in
    let '(n, st) := create_file path save_file_buf sz st in
    if n =? 0 then (false, st)
    else (true, printf (MsgCreatedFile path sz) st).

(** [mount]: [idx = mounted_save_files++]. *)
Definition SaveFile_mount (f : SaveFile.t) (path : string) (st : State)
  : SaveFile.t * State :=
  let idx := mounted_save_files st in
  let st := with_mounted_save_files (uint8 (mounted_save_files st + 1)) st in
  (SaveFile.mk idx (SaveFile.type f), user_io_file_mount path idx st).

(** The extension that [mount_save_file] gives to a backing file. *)
Definition save_ext (type : MemoryType.t) (st : State) : string :=
  match type with
  | MemoryType.EEPROM_512 | MemoryType.EEPROM_2k => ".eep"
  | MemoryType.SRAM_32k | MemoryType.SRAM_96k => ".sra"
  | MemoryType.FLASH_128k => ".fla"
  | MemoryType.CPAK | MemoryType.TPAK =>
      "_" +:+ decimal (mounted_save_files st
                       + (if bool_decide (get_cart_save_type st
                                          = MemoryType.NONE)
                          then 1 else 0))
          +:+ (if bool_decide (type = MemoryType.CPAK) then ".cpk" else ".tpk")
  | _ => ".sav"
  end.

(** [SAVE_DIR/CoreName/] followed by the base name of [name] with its
    extension replaced by [ext]. *)
Definition save_path_of (name ext : string) : string :=
  let fname := match strrchr name "/" with
               | Some (_, p) => p
               | None => name
               end in
  let fname := match strrchr fname "." with
               | Some (stem, _) => stem +:+ ext
               | None => fname +:+ ext
               end in
  SAVE_DIR +:+ "/" +:+ CoreName +:+ "/" +:+ fname.

(** Mount a save file; returns [true] if the save file was created. *)
Definition mount_save_file (name : string) (type : MemoryType.t)
  (old_path : string) (st : State) : bool * State :=
  let save_path := save_path_of name (save_ext type st) in
  let save_file := SaveFile.mk (-1) type in
  let '(is_new, st) := create_if_missing save_file save_path old_path st in
  let '(save_file, st) := SaveFile_mount save_file save_path st in
  let st := with_save_files
              (<[Z.to_nat (SaveFile.idx save_file) := save_file]>
                 (save_files st)) st in
  (is_new, st).

Definition get_old_save_path (name : string) : string :=
  save_path_of name ".sav".

End Host.

(** ** Block I/O on the mounted regions *)

(** The search loop of the read and the write path,
    [while (pos >= get_save_file_offset(file_idx + 1))]; the result is
    [(file_idx, invalid)].  Every round increments the 8-bit [file_idx],
    so 256 rounds of [fuel] are never used up. *)
Fixpoint find_save_file (fuel : nat) (pos file_idx : Z) (st : State)
  : option (Z * bool) :=
  match fuel with
  | O => None
  | S fuel' =>
      if pos >=? get_save_file_offset (uint8 (file_idx + 1)) st then
        let file_idx := uint8 (file_idx + 1) in
        if file_idx >=? mounted_save_files st then Some (file_idx, true)
        else find_save_file fuel' pos file_idx st
      else Some (file_idx, false)
  end.

(** [save_files[file_idx].type] is a pak type. *)
Definition region_is_pak (file_idx : Z) (st : State) : bool :=
  is_pak (SaveFile.type
            (nth (Z.to_nat file_idx) (save_files st) SaveFile.empty)).

(** The read path.  [lba] is 64 bits wide, [blksz], [buffer_size] and
    [sz] are 32 bits wide; the result is [(buffer_lba, buffer)] and the
    state, whose transport has received the block. *)
Definition n64_load_savedata (lba ack : Z) (buffer : list Z)
  (buffer_size blksz sz : Z) (st : State)
  : option (Z * list Z * State) :=
  let buffer_lba := uint64 (-1) in
  let pos := int64 (lba * blksz) in
  match find_save_file 256 pos 0 st with
  | None => None
  | Some (file_idx, invalid) =>
  let buffer_lba := if invalid then lba else buffer_lba in
  let '(done, buffer_lba, buffer) :=
    if negb invalid then
      let file := get_image file_idx st in
      let pos := pos - get_save_file_offset file_idx st in
      if negb (file_size file st =? 0) then
        let got := FileReadAdv file pos buffer_size st in
        if FileSeek file pos && negb (Z.of_nat (length got) =? 0)
        then (true, lba, overlay got buffer)
        else (false, buffer_lba, buffer)
      else (false, buffer_lba, buffer)
    else (false, buffer_lba, buffer) in
  let buffer :=
    if negb done || invalid
    then overlay (repeat 0 (Z.to_nat buffer_size)) buffer
    else if region_is_pak file_idx st
         then normalizeData buffer sz DataFormat.LITTLE_ENDIAN
         else buffer in
  let st := emit (io_spi_w UIO_SECTOR_RD ack) st in
  let st := emit (io_spi_block_write (take (Z.to_nat sz) buffer)) st in
  Some (buffer_lba, buffer, st)
  end.

(** The write path.  [block] holds the [sz] bytes that the hardware
    delivers to [spi_block_read]. *)
Definition n64_save_savedata (lba ack : Z) (buffer : list Z)
  (blksz sz : Z) (block : list Z) (st : State)
  : option (Z * list Z * State) :=
  let buffer_lba := uint64 (-1) in
  let pos := int64 (lba * blksz) in
  match find_save_file 256 pos 0 st with
  | None => None
  | Some (file_idx, invalid) =>
  let st := emit (io_spi_w UIO_SECTOR_WR ack) st in
  let block := take (Z.to_nat sz) block in
  let st := emit (io_spi_block_read block) st in
  let buffer := overlay block buffer in
  if invalid then Some (buffer_lba, buffer, st)
  else
    let file := get_image file_idx st in
    let pos := pos - get_save_file_offset file_idx st in
    if negb (sz =? 0) && FileSeek file pos then
      let buffer :=
        if region_is_pak file_idx st
        then normalizeData buffer sz DataFormat.LITTLE_ENDIAN
        else buffer in
      Some (buffer_lba, buffer,
            FileWriteAdv file pos (take (Z.to_nat sz) buffer) st)
    else Some (buffer_lba, buffer, st)
  end.

(** Closes the images of the eight slots and clears the registry. *)
Definition unmount_all_save_files (st : State) : State :=
  let st := foldl (fun st i => FileClose i st) st (seq 0 8) in
  let st := with_save_files (repeat SaveFile.empty 8) st in
  with_mounted_save_files 0 st.

(** ** ROM transfer *)

Definition hex_digit (upper : bool) (d : Z) : ascii :=
  ascii_of_N (Z.to_N (if d <? 10 then 48 + d
                      else (if upper then 65 else 97) + d - 10)).

(** ["%02x"] and ["%02X"] of a byte. *)
Definition hex_byte (upper : bool) (b : Z) : string :=
  String (hex_digit upper (b / 16)) (String (hex_digit upper (b mod 16)) "").

(** Creates a lower-case hex string out of the MD5 buffer. *)
Definition md5_to_hex (md5 : list Z) : string :=
  String.concat "" (map (fun i => hex_byte false (byte_at md5 i))
                        (seq 0 (Z.to_nat MD5_LENGTH))).

(** The chunks that the transfer loops read: [sizeof(buf)] bytes each,
    the last one what is left.  Every chunk takes at least one byte, so
    [fuel] above the length of [data] is never used up. *)
Fixpoint rom_chunks (fuel : nat) (data : list Z) : list (list Z) :=
  match fuel, data with
  | S fuel', _ :: _ => take 4096 data :: rom_chunks fuel' (drop 4096 data)
  | _, _ => []
  end.

(** The locals of [n64_rom_tx] that outlive the first chunk.  [ctx] is
    the MD5 context, held as the bytes fed to it so far. *)
Record RomLocals : Set := mkRomLocals {
  rom_settings_detected : Z;
  rom_format : DataFormat.t;
  ctx : list Z;
  bootcode_sums : list Z;
  controller_settings : list Z;
  cart_id : string
}.

(** The four characters of [cart_id] that come from the header bytes
    0x3b .. 0x3e of the first chunk. *)
Definition read_cart_id (buf : list Z) : string :=
  let ch i := let c := ascii_of_N (Z.to_N (byte_at buf i)) in
              if isalnum c then c else "?"%char in
  String (ch 0x3b%nat) (String (ch 0x3c%nat)
    (String (ch 0x3d%nat) (String (ch 0x3e%nat) ""))).

Section Rom.

Variable SAVE_DIR : string.
Variable CoreName : string.
Variable cpak_header : list (list Z).
(** The hashing primitive of [lib/md5]: the digest of a byte sequence. *)
Variable MD5 : list Z -> list Z.

(** The GameBoy branch: every chunk goes to the core as it is. *)
Definition gb_tx (chunks : list (list Z)) (st : State) : State :=
  foldl (fun st buf => emit (io_file_tx_data buf) st) st chunks.

(** The work on the first chunk once it is normalized: header-hash
    lookup, controller settings, checksums and cart ID. *)
Definition first_chunk (buf : list Z) (l : RomLocals) (st : State)
  : RomLocals * State :=
  let md5_hex := md5_to_hex (MD5 (ctx l)) in
  let st := printf (MsgHeaderMD5 md5_hex) st in
  let '(detected, st) := detect_rom_settings_in_dbs_with_md5 md5_hex st in
  let st := if detected =? 0
            then printf (MsgNoInfoForHeaderHash md5_hex) st else st in
  let cart_id := read_cart_id buf in
  let '(cart_id, st) :=
    if negb (String.eqb cart_id "????") then
      let cart_id := cart_id +:+ hex_byte true (byte_at buf 0x3f) in
      (cart_id, printf (MsgCartridgeID cart_id) st)
    else (string_of_list_ascii (repeat Ascii.zero 6), st) in
  (mkRomLocals detected (rom_format l) (ctx l)
     (calc_bootcode_checksums buf)
     (take 4 (drop 0x34 buf)) cart_id, st).

(** The body of the N64 transfer loop for one chunk; [None] when the
    first chunk is too short. *)
Definition rom_chunk (is_first_chunk : bool) (buf : list Z)
  (l : RomLocals) (st : State) : option (RomLocals * State) :=
  let chunk := Z.of_nat (length buf) in
  if is_first_chunk && (chunk <? 4096) then None
  else
    let rom_format :=
      if is_first_chunk then detectRomFormat buf else rom_format l in
    let buf := normalizeData buf chunk rom_format in
    let l := mkRomLocals (rom_settings_detected l) rom_format
               (ctx l ++ buf) (bootcode_sums l) (controller_settings l)
               (cart_id l) in
    let '(l, st) := if is_first_chunk then first_chunk buf l st
                    else (l, st) in
    Some (l, emit (io_file_tx_data buf) st).

Fixpoint rom_loop (is_first_chunk : bool) (chunks : list (list Z))
  (l : RomLocals) (st : State) : option (RomLocals * State) :=
  match chunks with
  | [] => Some (l, st)
  | buf :: chunks' =>
      match rom_chunk is_first_chunk buf l st with
      | None => None
      | Some (l, st) => rom_loop false chunks' l st
      end
  end.

(** The settings that apply when no strategy found the ROM. *)
Definition default_settings (st : State) : State :=
  let st :=
    if bool_decide (old_ar st <> AspectRatio.UNKNOWN) then
      with_old_ar AspectRatio.UNKNOWN
        (status_set AR_TYPE_OPT (AspectRatio_to_uint32 (old_ar st)) st)
    else st in
  let st := status_set NO_EPAK_OPT 0 st in
  let st := status_set CPAK_OPT 0 st in
  let st := status_set RPAK_OPT 0 st in
  let st := status_set TPAK_OPT 0 st in
  let st := status_set RTC_OPT 0 st in
  set_cart_save_type MemoryType.NONE st.

(** The fallbacks after the stream is consumed; [detected] is the
    result of the header-hash lookup.
    0 = nothing detected, 1 = region and boot chip detected,
    2 = ROM info found but region and/or boot chip not determined,
    3 = everything detected. *)
Definition resolve_settings (detected : Z) (md5_hex : string)
  (l : RomLocals) (st : State) : Z * State :=
  let '(detected, st) :=
    if detected =? 0 then detect_rom_settings_in_dbs_with_md5 md5_hex st
    else (detected, st) in
  if detected =? 0 then
    let st := printf (MsgNoInfoForFileHash md5_hex) st in
    let '(detected, st) :=
      detect_rom_settings_in_dbs_with_cartid (cart_id l) st in
    let '(detected, st) :=
      if detected =? 0 then
        let '(homebrew, st) :=
          detect_homebrew_header (controller_settings l) (cart_id l) st in
        if homebrew then (2, st)
        else
          let st := printf (MsgNoInfoForCartID (cart_id l)) st in
          (detected, if is_auto st then default_settings st else st)
      else (detected, st) in
    if (detected =? 0) || (detected =? 2) then
      let '(ok, st) :=
        detect_rom_settings_from_first_chunk (c_at (cart_id l) 3)
          (bootcode_sums l) st in
      (if ok then Z.lor detected 1 else detected, st)
    else (detected, st)
  else if detected =? 2 then
    let '(ok, st) :=
      detect_rom_settings_from_first_chunk (c_at (cart_id l) 3)
        (bootcode_sums l) st in
    (if ok then 3 else detected, st)
  else (detected, st).

(** The mounts at the end of a transfer; returns [do_reset]. *)
Definition mount_save_files (name : string) (st : State) : bool * State :=
  let mount := mount_save_file SAVE_DIR CoreName cpak_header in
  let save_type := get_cart_save_type st in
  let old_save_path := get_old_save_path SAVE_DIR CoreName name in
  let do_reset := false in
  let '(do_reset, st) :=
    if bool_decide (save_type <> MemoryType.NONE) then
      let '(is_new, st) := mount name save_type old_save_path st in
      (do_reset || is_new, st)
    else (do_reset, st) in
  let use_cpak := negb (status_get CPAK_OPT st =? 0) in
  let use_tpak := negb (status_get TPAK_OPT st =? 0) in
  let '(do_reset, st) :=
    if use_tpak || use_cpak then
      let '(is_new, st) :=
        mount name (if use_tpak then MemoryType.TPAK else MemoryType.CPAK)
              old_save_path st in
      (do_reset || is_new, st)
    else (do_reset, st) in
  if use_cpak then
    let '(n1, st) := mount name MemoryType.CPAK old_save_path st in
    let '(n2, st) := mount name MemoryType.CPAK old_save_path st in
    let '(n3, st) := mount name MemoryType.CPAK old_save_path st in
    (do_reset || n1 || n2 || n3, st)
  else (do_reset, st).

(** The transfer of the file [name] to the core.  Progress and summary
    messages of the user interface and the save-state handling of
    [process_ss] leave the state as it is. *)
Definition n64_rom_tx (name : string) (idx : Z) (st : State) : Z * State :=
  match files st !! name with
  | None => (0, st)
  | Some data =>
      let data_size := uint32 (Z.of_nat (length data)) in
      let st := printf (MsgN64File name data_size idx) st in
      let st := emit (io_set_index idx) st in
      let st := emit (io_set_download true) st in
      let chunks :=
        rom_chunks (S (Z.to_nat data_size)) (take (Z.to_nat data_size) data) in
      if Z.land idx 0x3f =? 2 then
        let st := gb_tx chunks st in
        let st := printf MsgDone st in
        (1, emit (io_set_download false) st)
      else
        let st := unmount_all_save_files st in
        let l := mkRomLocals 0 DataFormat.UNKNOWN [] [0; 0] [0; 0; 0; 0]
                   (string_of_list_ascii
                      [Ascii.zero; Ascii.zero; Ascii.zero; Ascii.zero;
                       "0"%char; "0"%char]) in
        match rom_loop true chunks l st with
        | None =>
            let st := printf MsgRomTooShort st in
            (0, emit (io_set_download false) st)
        | Some (l, st) =>
            let md5_hex := md5_to_hex (MD5 (ctx l)) in
            let st := printf (MsgFileMD5 md5_hex) st in
            let '(detected, st) :=
              resolve_settings (rom_settings_detected l) md5_hex l st in
            let st := printf MsgDone st in
            let '(do_reset, st) := mount_save_files name st in
            let st := emit (io_set_download false) st in
            let st := if do_reset
                      then status_set RESET_OPT 0 (status_set RESET_OPT 1 st)
                      else st in
            (1, st)
        end
  end.

End Rom.
(** * Specification-side definitions and example data *)

(** The 64-bit sum of the 32-bit words in the byte range [lo .. hi) of
    the first chunk. *)
Definition bootcode_sum (buf : list Z) (lo hi : nat) : Z :=
  uint64 (foldr Z.add 0 (map (load32 buf) (seq (lo / 4) (hi / 4 - lo / 4)))).

(** A state to run examples in: every option zero (auto-detection is
    on), nothing mounted, no files, every path writable. *)
Definition power_on : State :=
  mkState 0 AspectRatio.UNKNOWN 0 (repeat SaveFile.empty 8) (repeat None 16)
          ∅ ∅ [] []
          (fun _ => true).

Definition le32 (w : Z) : list Z :=
  [w mod 2 ^ 8; w / 2 ^ 8 mod 2 ^ 8; w / 2 ^ 16 mod 2 ^ 8; w / 2 ^ 24 mod 2 ^ 8].

Definition words (n : nat) (w : Z) : list Z := concat (repeat (le32 w) n).

(** A first chunk whose words sum to the CIC-6101 signature over bytes
    0x40 - 0xc00 and to the CIC-7102 signature over bytes 0x40 - 0x1000. *)
Definition chunk_6101_short_7102_long : list Z :=
  words 16 0
  ++ words 160 0xFFFFFFFF ++ le32 0xf26f639e ++ words 591 0
  ++ words 3 0xFFFFFFFF ++ le32 0x12ca180a ++ words 252 0.

(** The order of comparison in the words of the specification: the
    short-range checksum first, then the long-range checksum. *)
Definition short_range_first (buf : list Z) : list Z :=
  [bootcode_sum buf 0x40 0xc00; bootcode_sum buf 0x40 0x1000].


(** A state whose bundled knowledge-base file holds [lines]; [status]
    is the configuration word. *)
Definition kb_state (status : Z) (lines : list string) : State :=
  mkState status AspectRatio.UNKNOWN 0 (repeat SaveFile.empty 8)
          (repeat None 16) ∅ (<["N64-database.txt" := lines]> ∅) [] []
          (fun _ => true).

(** The line holds the key that [cart_id_is_match] counted on it: the
    tag text, [strlen(CARTID_PREFIX) + i] characters into the line,
    starts inside the line or at its terminator.  It fails only where
    the count is 6 on a line that ends inside its key. *)
Definition holds_key (line cart_id : string) : bool :=
  (String.length CARTID_PREFIX + Z.to_nat (cart_id_is_match line cart_id)
   <=? String.length line)%nat.

(** Steps 1 to 3 of the resolution order of the specification: the
    header-hash lookup (whose result is [detected]), then the
    full-content-hash lookup, then the cart-code lookup, each only if
    the ones before found nothing. *)
Definition kb_lookup (detected : Z) (md5_hex : string) (l : RomLocals)
  (st : State) : Z * State :=
  if negb (detected =? 0) then (detected, st)
  else
    let '(detected, st) := detect_rom_settings_in_dbs_with_md5 md5_hex st in
    if negb (detected =? 0) then (detected, st)
    else detect_rom_settings_in_dbs_with_cartid (cart_id l)
           (printf (MsgNoInfoForFileHash md5_hex) st).

(** One of the two checksums is a case label of the signature table. *)
Definition chip_identified (signatures : list Z) : bool :=
  bool_decide (is_Some (signature_case (nth 0 signatures 0)))
  || bool_decide (is_Some (signature_case (nth 1 signatures 0))).

(** Two states that differ in the console output at most. *)
Definition same_but_console (st st' : State) : Prop :=
  status st' = status st /\ old_ar st' = old_ar st /\
  mounted_save_files st' = mounted_save_files st /\
  save_files st' = save_files st /\ sd_image st' = sd_image st /\
  files st' = files st /\ db_files st' = db_files st /\ io st' = io st.

(** A step that leaves the auto-detect option as it is. *)
Definition keeps_auto (st st' : State) : Prop := is_auto st' = is_auto st.

(** A step that only prints if auto-detection is off. *)
Definition quiet_when_off (st st' : State) : Prop :=
  is_auto st = false -> same_but_console st st'.

(** The display-aspect option, read as the interpreter reads it. *)
Definition aspect_ratio (st : State) : AspectRatio.t :=
  AspectRatio_of_uint32 (status_get AR_TYPE_OPT st).

(** The tag list holds a token that the interpreter takes for ["wide"]. *)
Definition has_wide_tag (tags : string) : bool :=
  existsb (fun tag => fnv_hash tag =? fnv_hash "wide") (strtok tags "| ").

(** The loads of a session so far, each applying the tag list of its
    knowledge-base record. *)
Definition apply_tag_lists (history : list string) (st : State) : State :=
  foldl (fun st tags => snd (parse_and_apply_db_tags tags st)) st history.

(** The regions of one ROM load in the order of the specification: the
    save-type region first if there is one, then the transfer-pak
    region or else the first controller-pak region, then the three
    further controller-pak regions. *)
Definition mount_order (st : State) : list MemoryType.t :=
  (if bool_decide (get_cart_save_type st <> MemoryType.NONE)
   then [get_cart_save_type st] else [])
  ++ (if negb (status_get TPAK_OPT st =? 0) then [MemoryType.TPAK]
      else if negb (status_get CPAK_OPT st =? 0) then [MemoryType.CPAK]
      else [])
  ++ (if negb (status_get CPAK_OPT st =? 0)
      then [MemoryType.CPAK; MemoryType.CPAK; MemoryType.CPAK] else []).

(** The mounted regions, in slot order. *)
Definition mounted_regions (st : State) : list SaveFile.t :=
  take (Z.to_nat (mounted_save_files st)) (save_files st).

(** The sum of the sizes of a list of regions. *)
Definition total_size (regions : list SaveFile.t) : Z :=
  foldr Z.add 0 (map SaveFile.get_size regions).

(** A session before the mounts of a ROM load: the transfer-pak option
    is on, and the backing file of the transfer pak exists already. *)
Definition tpak_session : State :=
  mkState (2 ^ 73) AspectRatio.UNKNOWN 0 (repeat SaveFile.empty 8)
          (repeat None 16)
          (<["saves/N64/mario_1.tpk" := [1; 2; 3; 4; 5; 6; 7; 8]]> ∅) ∅ [] []
          (fun _ => true).

(** A block request of the hardware: a read served by
    [n64_load_savedata] or a write served by [n64_save_savedata]. *)
Inductive BlockRequest : Type :=
| ReadBlock (lba ack : Z) (buffer : list Z) (buffer_size blksz sz : Z)
| WriteBlock (lba ack : Z) (buffer : list Z) (blksz sz : Z) (block : list Z).

(** The state after one request, and after a sequence of requests. *)
Definition serve (request : BlockRequest) (st : State) : State :=
  match request with
  | ReadBlock lba ack buffer buffer_size blksz sz =>
      match n64_load_savedata lba ack buffer buffer_size blksz sz st with
      | Some (_, _, st') => st'
      | None => st
      end
  | WriteBlock lba ack buffer blksz sz block =>
      match n64_save_savedata lba ack buffer blksz sz block st with
      | Some (_, _, st') => st'
      | None => st
      end
  end.


(** Two states with the same registry, images, files and transport:
    they differ in the configuration, the slot and the console at most. *)
Definition same_devices (st st' : State) : Prop :=
  mounted_save_files st' = mounted_save_files st /\
  save_files st' = save_files st /\ sd_image st' = sd_image st /\
  files st' = files st /\ db_files st' = db_files st /\ io st' = io st.

(** A stand-in for the hashing primitive in examples. *)
Definition toy_digest (data : list Z) : list Z :=
  repeat (Z.of_nat (length data) mod 256) 16.

(** A big-endian ROM of one chunk and four more bytes; its header
    carries the game code NSME and the revision 0. *)
Definition example_rom : list Z :=
  [0x80; 0x37; 0x12; 0x40] ++ repeat 0 55 ++ [78; 83; 77; 69; 0]
  ++ repeat 0 4032 ++ [1; 2; 3; 4].

(** A session before the load of [example_rom]: the knowledge base
    knows the cart code, and the backing files exist already. *)
Definition example_session : State :=
  mkState 0 AspectRatio.UNKNOWN 0 (repeat SaveFile.empty 8) (repeat None 16)
          (<["games/mario.z64" := example_rom]>
             (<["saves/N64/mario.eep" := [0; 0; 0; 0; 0; 0; 0; 0]]>
                (<["saves/N64/mario_1.tpk" := [1; 2; 3; 4; 5; 6; 7; 8]]> ∅)))
          (<["N64-database.txt" := ["ID:NSME00 eeprom512|tpak"]]> ∅) [] []
          (fun _ => true).

(** A byte-swapped ROM of one chunk and four more bytes. *)
Definition example_rom_v64 : list Z :=
  [0x37; 0x80; 0x40; 0x12] ++ repeat 0 4092 ++ [0xAA; 0xBB; 0xCC; 0xDD].

(** The pattern characters [p], compared one by one with the cart code
    from position [i] on, are all confirmed: none is the end of the
    line or, behind the first position, white space, and each is ['_']
    or the character of the cart code at its position. *)
Fixpoint confirms (i : nat) (p cart_id : string) : bool :=
  match p with
  | EmptyString => true
  | String c p' =>
      negb (code c =? 0) && negb (negb (Nat.eqb i 0) && isspace c)
      && (Ascii.eqb c "_" || Ascii.eqb c (c_at cart_id i))
      && confirms (S i) p' cart_id
  end.

(** ** Further specification-side definitions *)

(** The lower-case form of a character, as [fnv_hash] and [md5_matches]
    compute it: ['A' .. 'Z'] become ['a' .. 'z']. *)
Definition lower (c : ascii) : ascii :=
  ascii_of_N (Z.to_N (tolower (code c))).

Fixpoint lower_string (s : string) : string :=
  match s with
  | EmptyString => EmptyString
  | String c s' => String (lower c) (lower_string s')
  end.

(** The first 64 bytes of a ROM with an advanced homebrew header: the
    game code is [NEDE], the byte at 0x3f asks for 256K SRAM (3) and a
    clock (1), and the second controller holds a rumble pak. *)
Definition homebrew_rom_header : list Z :=
  [0x80; 0x37; 0x12; 0x40] ++ repeat 0 48 ++ [0; 1; 0; 0]
  ++ repeat 0 3 ++ [78; 69; 68; 69; 0x31].

(** The locals of [n64_rom_tx] before the first chunk. *)
Definition RomLocals_init : RomLocals :=
  mkRomLocals 0 DataFormat.UNKNOWN [] [0; 0] [0; 0; 0; 0]
    (string_of_list_ascii
       [Ascii.zero; Ascii.zero; Ascii.zero; Ascii.zero; "0"%char; "0"%char]).

(** A state like [power_on] on a storage that opens no file for
    writing. *)
Definition read_only_storage : State :=
  mkState 0 AspectRatio.UNKNOWN 0 (repeat SaveFile.empty 8) (repeat None 16)
          ∅ ∅ [] [] (fun _ => false).

(** Two states with the same registry, images and files: the
    transport aside, the devices are as they were. *)
Definition same_devices_but_io (st st' : State) : Prop :=
  mounted_save_files st' = mounted_save_files st /\
  save_files st' = save_files st /\ sd_image st' = sd_image st /\
  files st' = files st /\ db_files st' = db_files st.

(** The settings that a tag list stands for: the locals at the end of
    the token loop, the region defaulting to NTSC when only a boot chip
    is named. *)
Definition tag_settings (tags : string) : TagLocals :=
  let l := fst (parse_tags (strtok tags "| ") TagLocals_init power_on) in
  if bool_decide (system_type l = SystemType.UNKNOWN)
     && bool_decide (cic_type l <> CIC.UNKNOWN)
  then set_system_type SystemType.NTSC l else l.

(** *** What a tag list says

    The names of the knowledge-base tags and what each stands for,
    written down apart from the hashes and the locals of the token
    loop: a save type, a switch, a region or a boot chip. *)
Inductive Tag : Set :=
| SaveTag (type : MemoryType.t)
| NoEpakTag | CpakTag | RpakTag | TpakTag | RtcTag | WideTag
| RegionTag (region : SystemType.t)
| ChipTag (chip : CIC.t).

#[global] Instance Tag_eq_dec : EqDecision Tag.
Proof. solve_decision. Defined.

Definition tag_names : list (string * Tag) :=
  [("eeprom512", SaveTag MemoryType.EEPROM_512);
   ("eeprom2k", SaveTag MemoryType.EEPROM_2k);
   ("sram32k", SaveTag MemoryType.SRAM_32k);
   ("sram96k", SaveTag MemoryType.SRAM_96k);
   ("flash128k", SaveTag MemoryType.FLASH_128k);
   ("noepak", NoEpakTag); ("cpak", CpakTag); ("rpak", RpakTag);
   ("tpak", TpakTag); ("rtc", RtcTag);
   ("ntsc", RegionTag SystemType.NTSC); ("pal", RegionTag SystemType.PAL);
   ("wide", WideTag);
   ("cic6101", ChipTag CIC.CIC_NUS_6101);
   ("cic6102", ChipTag CIC.CIC_NUS_6102);
   ("cic6103", ChipTag CIC.CIC_NUS_6103);
   ("cic6105", ChipTag CIC.CIC_NUS_6105);
   ("cic6106", ChipTag CIC.CIC_NUS_6106);
   ("cic7101", ChipTag CIC.CIC_NUS_7101);
   ("cic7102", ChipTag CIC.CIC_NUS_7102);
   ("cic7103", ChipTag CIC.CIC_NUS_7103);
   ("cic7105", ChipTag CIC.CIC_NUS_7105);
   ("cic7106", ChipTag CIC.CIC_NUS_7106);
   ("cic8303", ChipTag CIC.CIC_NUS_8303);
   ("cic8401", ChipTag CIC.CIC_NUS_8401);
   ("cic5167", ChipTag CIC.CIC_NUS_5167);
   ("cicddus", ChipTag CIC.CIC_NUS_DDUS);
   ("cic5101", ChipTag CIC.CIC_NUS_5101)].

(** The tag that a token spells: the one whose name the token is,
    letter case aside; no tag for any other token. *)
Definition tag_of (token : string) : option Tag :=
  snd <$> List.find (fun entry => String.eqb (lower_string token) (fst entry))
            tag_names.

(** The region that comes with a boot chip: NTSC with a chip of the
    61xx family, PAL with one of the 71xx family, none with the others. *)
Definition chip_region (chip : CIC.t) : option SystemType.t :=
  match chip with
  | CIC.CIC_NUS_6101 | CIC.CIC_NUS_6102 | CIC.CIC_NUS_6103
  | CIC.CIC_NUS_6105 | CIC.CIC_NUS_6106 => Some SystemType.NTSC
  | CIC.CIC_NUS_7101 | CIC.CIC_NUS_7102 | CIC.CIC_NUS_7103
  | CIC.CIC_NUS_7105 | CIC.CIC_NUS_7106 => Some SystemType.PAL
  | _ => None
  end.

(** What a tag says about the save type, the boot chip, the region and
    the pad of the first controller. *)
Definition save_of (tag : Tag) : option MemoryType.t :=
  match tag with SaveTag type => Some type | _ => None end.

Definition chip_of (tag : Tag) : option CIC.t :=
  match tag with ChipTag chip => Some chip | _ => None end.

Definition region_of (tag : Tag) : option SystemType.t :=
  match tag with
  | RegionTag region => Some region
  | ChipTag chip => chip_region chip
  | _ => None
  end.

Definition pad_of (tag : Tag) : option PadType.t :=
  match tag with
  | CpakTag => Some PadType.N64_PAD_WITH_CPAK
  | RpakTag => Some PadType.N64_PAD_WITH_RPAK
  | TpakTag => Some PadType.N64_PAD_WITH_TPAK
  | _ => None
  end.

(** The tag list names the tag. *)
Definition names (tag : Tag) (tags : list Tag) : bool :=
  existsb (fun t => bool_decide (t = tag)) tags.

(** The save type of a tag list: that of its last save tag, none
    without one. *)
Definition named_save_type (tags : list Tag) : MemoryType.t :=
  default MemoryType.NONE (last (omap save_of tags)).

(** The boot chip of a tag list: that of its last chip tag. *)
Definition named_chip (tags : list Tag) : CIC.t :=
  default CIC.UNKNOWN (last (omap chip_of tags)).

(** The region of a tag list: that of the last tag that says one, a
    region tag or a chip tag of the 61xx or 71xx family; NTSC if no
    tag says one but a chip is named. *)
Definition named_region (tags : list Tag) : SystemType.t :=
  let region := default SystemType.UNKNOWN (last (omap region_of tags)) in
  if bool_decide (region = SystemType.UNKNOWN)
     && bool_decide (named_chip tags <> CIC.UNKNOWN)
  then SystemType.NTSC else region.

(** The pad of a tag list: the pad with the pak of its first pak tag,
    the plain pad without one. *)
Definition named_pad (tags : list Tag) : PadType.t :=
  default PadType.N64_PAD (head (omap pad_of tags)).

(** The save types of a cartridge: what the save-type option can name. *)
Definition cart_save_types : list MemoryType.t :=
  [MemoryType.NONE; MemoryType.EEPROM_512; MemoryType.EEPROM_2k;
   MemoryType.SRAM_32k; MemoryType.SRAM_96k; MemoryType.FLASH_128k].

(** The pads that a tag list can prefer for the first controller. *)
Definition tag_pads : list PadType.t :=
  [PadType.N64_PAD; PadType.N64_PAD_WITH_CPAK; PadType.N64_PAD_WITH_RPAK;
   PadType.N64_PAD_WITH_TPAK].

(** An option of the configuration word that lies outside every option
    this file writes: the reset bit [0], the display aspect [48:47],
    the four controllers [60:49], the boot chip [68:65], the switches
    and the save type [77:70] and the region [80:79]. *)
Definition untouched_option (o : status_opt) : Prop :=
  0 <= opt_lo o /\ 0 <= opt_width o /\
  ((0 < opt_lo o /\ opt_hi o < 47) \/ (60 < opt_lo o /\ opt_hi o < 65)
   \/ (68 < opt_lo o /\ opt_hi o < 70) \/ (77 < opt_lo o /\ opt_hi o < 79)
   \/ 80 < opt_lo o).

(** The options that are written without a guard. *)
Definition written_options : list status_opt :=
  [RESET_OPT; AR_TYPE_OPT; CIC_TYPE_OPT; NO_EPAK_OPT; CPAK_OPT; RPAK_OPT;
   TPAK_OPT; RTC_OPT; SAVE_TYPE_OPT; SYS_TYPE_OPT].

(** A step that leaves every untouched option as it is and every
    controller that is set to SNAC on SNAC. *)
Definition keeps_options (st st' : State) : Prop :=
  (forall o, untouched_option o -> status_get o st' = status_get o st) /\
  (forall i, (i < 4)%nat ->
     status_get (CONTROLLER_OPT i) st = PadType_to_uint32 PadType.SNAC ->
     status_get (CONTROLLER_OPT i) st' = PadType_to_uint32 PadType.SNAC).

(** A step that leaves the knowledge base as it is and every file that
    exists with the bytes it has. *)
Definition keeps_files (st st' : State) : Prop :=
  db_files st' = db_files st /\
  forall path data, files st !! path = Some data ->
                    files st' !! path = Some data.

(** The extension of the backing file of a region; [pak] is the number
    of a pak among the paks of the load, counted from 1. *)
Definition region_ext (type : MemoryType.t) (pak : Z) : string :=
  match type with
  | MemoryType.EEPROM_512 | MemoryType.EEPROM_2k => ".eep"
  | MemoryType.SRAM_32k | MemoryType.SRAM_96k => ".sra"
  | MemoryType.FLASH_128k => ".fla"
  | MemoryType.CPAK => "_" +:+ decimal pak +:+ ".cpk"
  | MemoryType.TPAK => "_" +:+ decimal pak +:+ ".tpk"
  | _ => ".sav"
  end.

(** The pak regions of a ROM load, in mount order. *)
Definition mount_order_paks (st : State) : list MemoryType.t :=
  (if negb (status_get TPAK_OPT st =? 0) then [MemoryType.TPAK]
   else if negb (status_get CPAK_OPT st =? 0) then [MemoryType.CPAK]
   else [])
  ++ (if negb (status_get CPAK_OPT st =? 0)
      then [MemoryType.CPAK; MemoryType.CPAK; MemoryType.CPAK] else []).

(** The character [c] occurs in [s]. *)
Fixpoint occurs (c : ascii) (s : string) : bool :=
  match s with
  | EmptyString => false
  | String a s' => Ascii.eqb a c || occurs c s'
  end.
(** * Properties *)

(** ** Bit fields of the configuration word *)

Lemma status_get_range o s :
  0 <= opt_width o -> 0 <= user_io_status_get o s < 2 ^ opt_width o.
Proof.
  intros Hw. unfold user_io_status_get.
  rewrite Z.land_ones by assumption. apply Z.mod_pos_bound.
  apply Z.pow_pos_nonneg; lia.
Qed.

Lemma status_get_set_same o v s :
  0 <= opt_lo o -> 0 <= opt_width o ->
  user_io_status_get o (user_io_status_set o v s) = Z.land v (Z.ones (opt_width o)).
Proof.
  intros Hlo Hw. unfold user_io_status_get, user_io_status_set.
  apply Z.bits_inj'. intros n Hn.
  rewrite !Z.land_spec, Z.shiftr_spec, Z.lor_spec, Z.ldiff_spec by lia.
  rewrite !Z.shiftl_spec by lia.
  replace (n + opt_lo o - opt_lo o) with n by lia.
  rewrite Z.land_spec.
  rewrite !Z.testbit_ones by lia.
  destruct (Z.ltb_spec n (opt_width o)); destruct (Z.leb_spec 0 n); try lia;
    simpl; rewrite ?andb_false_r, ?andb_true_r, ?orb_false_r; auto.
Qed.

Lemma status_get_set_other o o' v s :
  0 <= opt_lo o -> 0 <= opt_lo o' -> 0 <= opt_width o -> 0 <= opt_width o' ->
  opt_hi o < opt_lo o' \/ opt_hi o' < opt_lo o ->
  user_io_status_get o' (user_io_status_set o v s) = user_io_status_get o' s.
Proof.
  intros Hlo Hlo' Hw Hw' Hd. unfold user_io_status_get, user_io_status_set.
  apply Z.bits_inj'. intros n Hn.
  rewrite !Z.land_spec, !Z.shiftr_spec, Z.lor_spec, Z.ldiff_spec by lia.
  rewrite !Z.testbit_ones by lia.
  destruct (Z.ltb_spec n (opt_width o')); destruct (Z.leb_spec 0 n); try lia;
    simpl; rewrite ?andb_false_r, ?andb_true_r; auto.
  unfold opt_width in *.
  destruct (Z.lt_ge_cases (n + opt_lo o') (opt_lo o)).
  - rewrite !Z.shiftl_spec_low by lia. simpl. now rewrite andb_true_r, orb_false_r.
  - rewrite !Z.shiftl_spec by lia. rewrite Z.land_spec, !Z.testbit_ones by lia.
    destruct (Z.ltb_spec (n + opt_lo o' - opt_lo o) (opt_hi o - opt_lo o + 1));
    destruct (Z.leb_spec 0 (n + opt_lo o' - opt_lo o)); try lia; simpl;
    rewrite ?andb_false_r, ?andb_true_r, ?orb_false_r; auto.
Qed.
(** ** Byte-order normalizer *)

Lemma land_round_down size k :
  0 <= size < 2 ^ 32 -> 0 <= k <= 32 ->
  Z.land size (2 ^ 32 - 2 ^ k) = 2 ^ k * (size / 2 ^ k).
Proof.
  intros Hs Hk.
  replace (2 ^ 32 - 2 ^ k) with (Z.shiftl (Z.ones (32 - k)) k).
  2:{ rewrite Z.shiftl_mul_pow2, Z.ones_equiv by lia. unfold Z.pred.
      rewrite Z.mul_add_distr_r, <- Z.pow_add_r by lia.
      replace (32 - k + k) with 32 by lia. lia. }
  rewrite Z.mul_comm, <- Z.shiftl_mul_pow2, <- Z.shiftr_div_pow2 by lia.
  apply Z.bits_inj'. intros n Hn.
  rewrite Z.land_spec.
  destruct (Z.lt_ge_cases n k).
  - rewrite !Z.shiftl_spec_low by lia. apply andb_false_r.
  - rewrite !Z.shiftl_spec, Z.shiftr_spec, Z.testbit_ones by lia.
    replace (n - k + k) with n by lia.
    destruct (Z.leb_spec 0 (n - k)); try lia.
    destruct (Z.ltb_spec (n - k) (32 - k)); simpl.
    + apply andb_true_r.
    + rewrite andb_false_r. symmetry. apply Z.bits_above_log2; try lia.
      destruct (Z.eq_dec size 0) as [->|]; [simpl; lia|].
      apply Z.log2_lt_pow2; try lia.
      apply Z.lt_le_trans with (2 ^ 32); try lia.
      apply Z.pow_le_mono_r; lia.
Qed.

Lemma swap16_length n data : length (swap16 n data) = length data.
Proof.
  revert data. induction n as [|n IH]; intros data; [reflexivity|].
  destruct data as [|c0 [|c1 rest]]; simpl; auto.
Qed.

Lemma swap32_length n data : length (swap32 n data) = length data.
Proof.
  revert data. induction n as [|n IH]; intros data; [reflexivity|].
  destruct data as [|c0 [|c1 [|c2 [|c3 rest]]]]; simpl; auto.
Qed.

Lemma normalizeData_length data size format :
  length (normalizeData data size format) = length data.
Proof.
  destruct format; simpl; auto using swap16_length, swap32_length.
Qed.

(** Inside the first [n] pairs the two bytes of a pair change places. *)
Lemma swap16_pair n (data : list Z) i :
  (i < n)%nat -> (2 * i + 1 < length data)%nat ->
  swap16 n data !! (2 * i)%nat = data !! (2 * i + 1)%nat /\
  swap16 n data !! (2 * i + 1)%nat = data !! (2 * i)%nat.
Proof.
  revert data i. induction n as [|n IH]; intros data i Hi Hlen; [lia|].
  destruct data as [|c0 [|c1 rest]]; simpl in Hlen; try lia.
  destruct i as [|i]; [simpl; auto|].
  replace (2 * S i)%nat with (S (S (2 * i))) by lia.
  replace (S (S (2 * i)) + 1)%nat with (S (S (2 * i + 1))) by lia.
  simpl. apply IH; lia.
Qed.

(** Behind the first [n] pairs nothing changes. *)
Lemma swap16_rest n (data : list Z) k :
  (2 * n <= k)%nat -> swap16 n data !! k = data !! k.
Proof.
  revert data k. induction n as [|n IH]; intros data k Hk; [reflexivity|].
  destruct data as [|c0 [|c1 rest]]; try reflexivity.
  destruct k as [|[|k]]; try lia. simpl. apply IH. lia.
Qed.

(** Inside the first [n] words the four bytes of a word are reversed. *)
Lemma swap32_word n (data : list Z) i j :
  (i < n)%nat -> (4 * i + 3 < length data)%nat -> (j < 4)%nat ->
  swap32 n data !! (4 * i + j)%nat = data !! (4 * i + (3 - j))%nat.
Proof.
  revert data i. induction n as [|n IH]; intros data i Hi Hlen Hj; [lia|].
  destruct data as [|c0 [|c1 [|c2 [|c3 rest]]]]; simpl in Hlen; try lia.
  destruct i as [|i].
  - destruct j as [|[|[|[|j]]]]; try lia; reflexivity.
  - replace (4 * S i + j)%nat with (S (S (S (S (4 * i + j))))) by lia.
    replace (4 * S i + (3 - j))%nat
      with (S (S (S (S (4 * i + (3 - j)))))) by lia.
    simpl. apply IH; lia.
Qed.

Lemma swap32_rest n (data : list Z) k :
  (4 * n <= k)%nat -> swap32 n data !! k = data !! k.
Proof.
  revert data k. induction n as [|n IH]; intros data k Hk; [reflexivity|].
  destruct data as [|c0 [|c1 [|c2 [|c3 rest]]]]; try reflexivity.
  destruct k as [|[|[|[|k]]]]; try lia. simpl. apply IH. lia.
Qed.

(** Reversing the words twice gives the buffer back, whatever the
    number of words and the length of the buffer. *)
Lemma swap32_involutive n data : swap32 n (swap32 n data) = data.
Proof.
  revert data. induction n as [|n IH]; intros data; [reflexivity|].
  destruct data as [|c0 [|c1 [|c2 [|c3 rest]]]]; try reflexivity.
  simpl. now rewrite IH.
Qed.

Lemma swap16_involutive n data : swap16 n (swap16 n data) = data.
Proof.
  revert data. induction n as [|n IH]; intros data; [reflexivity|].
  destruct data as [|c0 [|c1 rest]]; try reflexivity.
  simpl. now rewrite IH.
Qed.

Lemma normalizeData_involutive data size format :
  normalizeData (normalizeData data size format) size format = data.
Proof.
  destruct format; simpl; auto using swap16_involutive, swap32_involutive.
Qed.

Lemma pairs_of_size size :
  0 <= size < 2 ^ 32 -> Z.to_nat (Z.land size 0xFFFFFFFE / 2) = Z.to_nat (size / 2).
Proof.
  intros H. change 0xFFFFFFFE with (2 ^ 32 - 2 ^ 1).
  rewrite land_round_down by lia. change (2 ^ 1) with 2.
  now rewrite Z.mul_comm, Z.div_mul by lia.
Qed.

Lemma words_of_size size :
  0 <= size < 2 ^ 32 -> Z.to_nat (Z.land size 0xFFFFFFFC / 4) = Z.to_nat (size / 4).
Proof.
  intros H. change 0xFFFFFFFC with (2 ^ 32 - 2 ^ 2).
  rewrite land_round_down by lia. change (2 ^ 2) with 4.
  now rewrite Z.mul_comm, Z.div_mul by lia.
Qed.

(** What [normalizeData] does to a chunk under each format: byte-swapped
    data has the two bytes of every pair exchanged, little-endian data
    has the four bytes of every word reversed (bytes behind the last
    whole pair or word stay), big-endian and undetermined data is
    unchanged.  The length is kept. *)
Lemma normalizeData_by_format (chunk : list Z) (format : DataFormat.t) :
  Z.of_nat (length chunk) < 2 ^ 32 ->
  let out := normalizeData chunk (Z.of_nat (length chunk)) format in
  length out = length chunk /\
  (format = DataFormat.BYTE_SWAPPED ->
     (forall i, (2 * i + 1 < length chunk)%nat ->
        out !! (2 * i)%nat = chunk !! (2 * i + 1)%nat /\
        out !! (2 * i + 1)%nat = chunk !! (2 * i)%nat) /\
     (forall k, (2 * (length chunk / 2) <= k)%nat -> out !! k = chunk !! k)) /\
  (format = DataFormat.LITTLE_ENDIAN ->
     (forall i j, (4 * i + 3 < length chunk)%nat -> (j < 4)%nat ->
        out !! (4 * i + j)%nat = chunk !! (4 * i + (3 - j))%nat) /\
     (forall k, (4 * (length chunk / 4) <= k)%nat -> out !! k = chunk !! k)) /\
  (format = DataFormat.BIG_ENDIAN \/ format = DataFormat.UNKNOWN ->
     out = chunk).
Proof.
  intros Hlen out.
  assert (Hsz : 0 <= Z.of_nat (length chunk) < 2 ^ 32) by lia.
  assert (Hp : Z.to_nat (Z.of_nat (length chunk) / 2) = (length chunk / 2)%nat).
  { change 2 with (Z.of_nat 2). rewrite <- Nat2Z.inj_div. apply Nat2Z.id. }
  assert (Hw : Z.to_nat (Z.of_nat (length chunk) / 4) = (length chunk / 4)%nat).
  { change 4 with (Z.of_nat 4). rewrite <- Nat2Z.inj_div. apply Nat2Z.id. }
  split; [apply normalizeData_length|].
  split; [|split].
  - intros Hf. subst out. rewrite Hf. simpl.
    rewrite (pairs_of_size _ Hsz), Hp. split.
    + intros i Hi. apply swap16_pair; [|assumption].
      apply Nat.div_le_lower_bound; lia.
    + intros k Hk. now apply swap16_rest.
  - intros Hf. subst out. rewrite Hf. simpl.
    rewrite (words_of_size _ Hsz), Hw. split.
    + intros i j Hi Hj. apply swap32_word; try assumption.
      apply Nat.div_le_lower_bound; lia.
    + intros k Hk. now apply swap32_rest.
  - intros [Hf|Hf]; subst out; now rewrite Hf.
Qed.

(** ** Cart-code patterns *)

Lemma str_plus_0 s : str_plus s 0 = s.
Proof. now destruct s. Qed.

Lemma append_empty_r (s : string) : s +:+ "" = s.
Proof.
  induction s as [|c s IH]; [reflexivity|].
  change (String c s +:+ "") with (String c (s +:+ "")). now rewrite IH.
Qed.

(** The loop walks over confirmed pattern characters. *)
Lemma cart_id_loop_confirms (p rest cart_id : string) (n i : nat) :
  confirms i p cart_id = true -> (String.length p <= n)%nat ->
  cart_id_loop n i (p +:+ rest) cart_id
  = cart_id_loop (n - String.length p) (i + String.length p) rest cart_id.
Proof.
  revert n i. induction p as [|c p IH]; intros n i Hc Hn.
  - cbn [String.length String.append]. now rewrite Nat.sub_0_r, Nat.add_0_r.
  - cbn [confirms] in Hc. cbn [String.length] in Hn |- *.
    apply andb_prop in Hc as [Hc Hp]. apply andb_prop in Hc as [Hc Hm].
    apply andb_prop in Hc as [Hz Hs].
    apply negb_true_iff in Hz, Hs.
    destruct n as [|n]; [lia|].
    change (String c p +:+ rest) with (String c (p +:+ rest)).
    cbn [cart_id_loop]. change (c_at (String c (p +:+ rest)) 0) with c.
    rewrite Hz, Hs.
    replace (negb (Ascii.eqb c "_") && negb (Ascii.eqb c (c_at cart_id i)))
      with false by (rewrite <- negb_orb, Hm; reflexivity).
    change (str_plus (String c (p +:+ rest)) 1)
      with (str_plus (p +:+ rest) 0).
    rewrite str_plus_0, IH by (assumption || lia).
    now replace (i + S (String.length p))%nat with (S i + String.length p)%nat
      by lia.
Qed.

Lemma isspace_not_nul c : isspace c = true -> (code c =? 0) = false.
Proof.
  unfold isspace. cbv zeta. intros H. apply Z.eqb_neq. intros E.
  rewrite E in H. discriminate.
Qed.

(** C5. [cart_id_is_match] on a line that starts with ["ID:"] and goes on
    with confirmed pattern characters [p].  Six of them give 6.  Fewer,
    followed by white space, give their number; followed by a character
    that is neither ['_'] nor the character of the cart code, give 0.
    Fewer than six at the end of the line give 6 as well: the loop stops
    at the terminating NUL and falls through to [return CARTID_LENGTH].
    The line ["ID:NS"] confirms two positions of ["NSME00"], and the
    line ["ID:"] confirms none of any cart code, yet both yield 6. *)
Theorem cart_id_is_match_short_line (p cart_id : string) :
  confirms 0 p cart_id = true ->
  (String.length p = 6%nat ->
   forall rest, cart_id_is_match ("ID:" +:+ (p +:+ rest)) cart_id = 6) /\
  ((1 <= String.length p <= 5)%nat ->
   forall c rest, isspace c = true ->
     cart_id_is_match ("ID:" +:+ (p +:+ String c rest)) cart_id
     = Z.of_nat (String.length p)) /\
  ((String.length p < 6)%nat ->
   forall c rest,
     code c <> 0 -> (String.length p = 0%nat \/ isspace c = false) ->
     c <> "_"%char -> c <> c_at cart_id (String.length p) ->
     cart_id_is_match ("ID:" +:+ (p +:+ String c rest)) cart_id = 0) /\
  ((String.length p < 6)%nat ->
   cart_id_is_match ("ID:" +:+ p) cart_id = 6) /\
  cart_id_is_match "ID:NS" "NSME00" = 6 /\
  (forall cart_id', cart_id_is_match "ID:" cart_id' = 6).
Proof.
  intros Hc.
  assert (Hrun : forall rest, (String.length p <= 6)%nat ->
            cart_id_is_match ("ID:" +:+ (p +:+ rest)) cart_id
            = cart_id_loop (6 - String.length p) (String.length p) rest
                cart_id).
  { intros rest Hn. unfold cart_id_is_match.
    change (String.prefix CARTID_PREFIX ("ID:" +:+ (p +:+ rest)))
      with (String.prefix "" (p +:+ rest)).
    replace (String.prefix "" (p +:+ rest)) with true
      by (now destruct (p +:+ rest)).
    cbn [negb].
    change (str_plus ("ID:" +:+ (p +:+ rest)) (String.length CARTID_PREFIX))
      with (str_plus (p +:+ rest) 0).
    rewrite str_plus_0.
    change (Z.to_nat CARTID_LENGTH) with 6%nat.
    now rewrite cart_id_loop_confirms by assumption. }
  split; [|split; [|split; [|split; [|split]]]].
  - intros Hn rest. rewrite Hrun by lia. now rewrite Hn.
  - intros Hn c rest Hs. rewrite Hrun by lia.
    destruct (6 - String.length p)%nat as [|n] eqn:En; [lia|].
    cbn [cart_id_loop]. change (c_at (String c rest) 0) with c.
    rewrite (isspace_not_nul _ Hs), Hs.
    destruct (String.length p) as [|k]; [lia|]. reflexivity.
  - intros Hn c rest Hz Hs Hu Hm. rewrite Hrun by lia.
    destruct (6 - String.length p)%nat as [|n] eqn:En; [lia|].
    cbn [cart_id_loop]. change (c_at (String c rest) 0) with c.
    apply Z.eqb_neq in Hz. rewrite Hz.
    apply Ascii.eqb_neq in Hu, Hm. rewrite Hu, Hm.
    destruct Hs as [Hs | Hs]; rewrite Hs; [reflexivity|].
    now rewrite andb_false_r.
  - intros Hn. rewrite <- (append_empty_r p) at 1.
    rewrite Hrun by lia.
    destruct (6 - String.length p)%nat as [|n] eqn:En; [lia|].
    reflexivity.
  - reflexivity.
  - intros cart_id'. reflexivity.
Qed.

Lemma cart_id_is_match_short_line_witness :
  confirms 0 "NS" "NSME00" = true /\
  cart_id_is_match ("ID:" +:+ ("NS" +:+ " eeprom512")) "NSME00" = 2 /\
  cart_id_is_match ("ID:" +:+ "NS") "NSME00" = 6.
Proof.
  assert (Hc : confirms 0 "NS" "NSME00" = true) by reflexivity.
  destruct (cart_id_is_match_short_line "NS" "NSME00" Hc)
    as (_ & Hspace & _ & Hend & _).
  split; [exact Hc|]. split.
  - apply (Hspace ltac:(cbn; lia) " "%char "eeprom512"). reflexivity.
  - apply Hend. cbn. lia.
Defined.

(** ** Boot-chip signature *)

Lemma sum_words_spec buf i n sum :
  sum_words buf i n sum
  = uint64 (sum + foldr Z.add 0 (map (load32 buf) (seq i n)))
    \/ (n = O /\ sum_words buf i n sum = sum).
Proof.
  revert i sum. induction n as [|n IH]; intros i sum; [right; auto|left].
  simpl. destruct (IH (S i) (uint64 (sum + load32 buf i))) as [->|[-> ->]].
  - unfold uint64. rewrite Zplus_mod_idemp_l. f_equal. lia.
  - simpl. f_equal. lia.
Qed.

Lemma calc_bootcode_checksums_spec buf :
  calc_bootcode_checksums buf
  = [bootcode_sum buf 0x40 0x1000; bootcode_sum buf 0x40 0xc00].
Proof.
  unfold calc_bootcode_checksums, bootcode_sum.
  destruct (sum_words_spec buf (0x40 / 4) (0xc00 / 4 - 0x40 / 4) 0)
    as [E1|[E1 _]]; [|discriminate E1].
  destruct (sum_words_spec buf (0xc00 / 4) (0x1000 / 4 - 0xc00 / 4)
              (sum_words buf (0x40 / 4) (0xc00 / 4 - 0x40 / 4) 0))
    as [E0|[E0 _]]; [|discriminate E0].
  rewrite E0, E1. f_equal.
  unfold uint64. rewrite Zplus_mod_idemp_l. f_equal.
  change (seq (0x40 / 4) (0x1000 / 4 - 0x40 / 4))
    with (seq (0x40 / 4) ((0xc00 / 4 - 0x40 / 4) + (0x1000 / 4 - 0xc00 / 4))).
  rewrite seq_app, map_app. 
  change (0x40 / 4 + (0xc00 / 4 - 0x40 / 4))%nat with (0xc00 / 4)%nat.
  generalize (map (load32 buf) (seq (0x40 / 4) (0xc00 / 4 - 0x40 / 4))).
  generalize (map (load32 buf) (seq (0xc00 / 4) (0x1000 / 4 - 0xc00 / 4))).
  intros l2 l1. induction l1 as [|x l1 IH]; simpl; lia.
Qed.

(** C2, as stated, fails: on this chunk the short-range checksum is the
    CIC-6101 signature, so a heuristic that tried it first would settle
    on NTSC and CIC-6101; the code reports PAL and CIC-7102, which is
    what the long-range checksum stands for. *)
Lemma short_range_checksum_is_not_first :
  let buf := chunk_6101_short_7102_long in
  let result := detect_rom_settings_from_first_chunk "E"
                  (calc_bootcode_checksums buf) power_on in
  length buf = 4096%nat /\
  signature_case (bootcode_sum buf 0x40 0xc00) = Some ipl3_6101 /\
  signature_case (bootcode_sum buf 0x40 0x1000) = Some ipl3_7102 /\
  fst result = true /\
  console (snd result)
  = [MsgRegionCIC SystemType.PAL CIC.CIC_NUS_7102; MsgAutoDetectOn] /\
  status_get SYS_TYPE_OPT (snd result) = SystemType_to_uint32 SystemType.PAL /\
  status_get CIC_TYPE_OPT (snd result) = CIC_to_uint32 CIC.CIC_NUS_7102 /\
  result <> detect_rom_settings_from_first_chunk "E"
              (short_range_first buf) power_on.
Proof.
  vm_compute. repeat split; try reflexivity. discriminate.
Qed.

(** C2, amended. The heuristic compares the long-range checksum (bytes
    0x40 - 0x1000, [bootcode_sums[0]]) first; only when it matches no
    signature does it report so and compare the short-range checksum
    (bytes 0x40 - 0xc00, [bootcode_sums[1]]); when neither matches it
    falls back to the CIC-x102 default and marks the chip as unknown.
    A long-range match makes the outcome independent of the short-range
    checksum. *)
Theorem long_range_checksum_is_compared_first
  (buf : list Z) (region_code : ascii) (st : State) :
  let long := bootcode_sum buf 0x40 0x1000 in
  let short := bootcode_sum buf 0x40 0xc00 in
  let system_type :=
    if region_is_pal region_code then SystemType.PAL else SystemType.NTSC in
  calc_bootcode_checksums buf = [long; short] /\
  signature_loop 2 (calc_bootcode_checksums buf) system_type st
  = match signature_case long with
    | Some c => (signature_result c system_type, true, st)
    | None =>
        let st := printf (MsgUnknownCICTriesNext long) st in
        match signature_case short with
        | Some c => (signature_result c system_type, true, st)
        | None => (signature_result ipl3_x102 system_type, false,
                   printf (MsgUnknownCICUsesDefault short) st)
        end
    end /\
  (forall c other,
     signature_case long = Some c ->
     detect_rom_settings_from_first_chunk region_code
       (calc_bootcode_checksums buf) st
     = detect_rom_settings_from_first_chunk region_code [long; other] st).
Proof.
  intros long short system_type.
  rewrite calc_bootcode_checksums_spec. fold long short.
  clearbody long short.
  split; [reflexivity|split].
  - simpl. destruct (signature_case long) as [c|].
    + now destruct (signature_result c system_type).
    + destruct (signature_case short) as [c|].
      * now destruct (signature_result c system_type).
      * now destruct (signature_result ipl3_x102 system_type).
  - intros c other Hc. unfold detect_rom_settings_from_first_chunk.
    cbn [signature_loop hd]. now rewrite Hc.
Qed.

(** ** Knowledge-base lookup *)

Lemma scan_db_md5_skip lookup_hash before lines st :
  Forall (fun line => md5_matches line lookup_hash = false) before ->
  scan_db_md5 lookup_hash (before ++ lines) st
  = scan_db_md5 lookup_hash lines st.
Proof.
  induction 1 as [|line before Hline _ IH]; [reflexivity|].
  simpl. now rewrite Hline.
Qed.

Lemma scan_db_cartid_skip cart_id before lines st :
  Forall (fun line => cart_id_is_match line cart_id = 0) before ->
  scan_db_cartid cart_id (before ++ lines) st
  = scan_db_cartid cart_id lines st.
Proof.
  induction 1 as [|line before Hline _ IH]; [reflexivity|].
  simpl. now rewrite Hline.
Qed.

(** C3, as stated, fails: the first line carries the key of the ROM and
    no tag; the lookup ends there with status 2 and never reads the
    second line, which alone would give status 3.  Both the cart-code
    and the hash lookup behave so. *)
Lemma malformed_tag_is_not_skipped :
  let id_lines := ["ID:NSME00 # no tags yet"; "ID:NSME00 cic6102"] in
  let md5 := "0123456789abcdef0123456789abcdef" in
  let md5_lines := [md5 +:+ " ; no tags yet"; md5 +:+ " cic7101"] in
  (cart_id_is_match "ID:NSME00 # no tags yet" "NSME00" = 6 /\
   sscanf_tags " # no tags yet" = None /\
   fst (detect_rom_settings_in_db_with_cartid "NSME00" "N64-database.txt"
          (kb_state 0 id_lines)) = 2 /\
   fst (detect_rom_settings_in_db_with_cartid "NSME00" "N64-database.txt"
          (kb_state 0 (tl id_lines))) = 3) /\
  (md5_matches (md5 +:+ " ; no tags yet") md5 = true /\
   sscanf_tags " ; no tags yet" = None /\
   fst (detect_rom_settings_in_db md5 "N64-database.txt"
          (kb_state 0 md5_lines)) = 2 /\
   fst (detect_rom_settings_in_db md5 "N64-database.txt"
          (kb_state 0 (tl md5_lines))) = 3).
Proof. vm_compute. repeat split; reflexivity. Qed.

(** C3, amended. When the first line of a knowledge-base file that
    carries the key of the ROM (its hash, or a pattern for its cart
    code) has no tag text after the key, the lookup reports it, ends
    with status 2 and leaves everything but the console as it was; no
    later line is read.  For a cart-code pattern this is stated of a
    line that holds its key; a line that ends inside its key is the
    case of C5 and is left out. *)
Theorem malformed_tag_ends_lookup
  (db_file_name line : string) (before rest : list string) (st : State) :
  db_files st !! db_file_name = Some (before ++ line :: rest) ->
  (forall lookup_hash,
     Forall (fun l => md5_matches l lookup_hash = false) before ->
     md5_matches line lookup_hash = true ->
     sscanf_tags (str_plus line 32) = None ->
     detect_rom_settings_in_db lookup_hash db_file_name st
     = (2, printf (MsgMalformedMD5 lookup_hash (str_plus line 32)) st)) /\
  (forall cart_id,
     Forall (fun l => cart_id_is_match l cart_id = 0) before ->
     cart_id_is_match line cart_id <> 0 ->
     holds_key line cart_id = true ->
     let s := str_plus line (3 + Z.to_nat (cart_id_is_match line cart_id)) in
     sscanf_tags s = None ->
     detect_rom_settings_in_db_with_cartid cart_id db_file_name st
     = (2, printf (MsgMalformedID cart_id s) st)).
Proof.
  intros Hdb. split.
  - intros lookup_hash Hbefore Hline Htags.
    unfold detect_rom_settings_in_db. rewrite Hdb.
    rewrite scan_db_md5_skip by assumption.
    cbn [scan_db_md5]. rewrite Hline. cbn [negb].
    change (Z.to_nat (MD5_LENGTH * 2)) with 32%nat. now rewrite Htags.
  - intros cart_id Hbefore Hline _ s Htags.
    unfold detect_rom_settings_in_db_with_cartid. rewrite Hdb.
    rewrite scan_db_cartid_skip by assumption.
    cbn [scan_db_cartid].
    destruct (Z.eqb_spec (cart_id_is_match line cart_id) 0) as [E|_];
      [contradiction|].
    change (String.length CARTID_PREFIX) with 3%nat. fold s.
    now rewrite Htags.
Qed.

Lemma malformed_tag_ends_lookup_witness :
  let st := kb_state 0 ["# header"; "ID:NSME00 # no tags yet"; "ID:NSME00 cpak"] in
  db_files st !! "N64-database.txt"
  = Some (["# header"] ++ "ID:NSME00 # no tags yet" :: ["ID:NSME00 cpak"]) /\
  detect_rom_settings_in_db_with_cartid "NSME00" "N64-database.txt" st
  = (2, printf (MsgMalformedID "NSME00" " # no tags yet") st).
Proof.
  intros st.
  assert (Hdb : db_files st !! "N64-database.txt"
                = Some (["# header"] ++ "ID:NSME00 # no tags yet"
                          :: ["ID:NSME00 cpak"])) by reflexivity.
  split; [exact Hdb|].
  apply (proj2 (malformed_tag_ends_lookup _ _ _ _ _ Hdb) "NSME00").
  - repeat constructor.
  - vm_compute. discriminate.
  - reflexivity.
  - reflexivity.
Defined.

(** ** What detection may change *)

Lemma status_get_status_set_other o o' v st :
  0 <= opt_lo o -> 0 <= opt_lo o' -> 0 <= opt_width o -> 0 <= opt_width o' ->
  opt_hi o < opt_lo o' \/ opt_hi o' < opt_lo o ->
  status_get o' (status_set o v st) = status_get o' st.
Proof. intros. unfold status_get, status_set. now apply status_get_set_other. Qed.

Lemma status_get_status_set_same o v st :
  0 <= opt_lo o -> 0 <= opt_width o ->
  status_get o (status_set o v st) = Z.land v (Z.ones (opt_width o)).
Proof. intros. unfold status_get, status_set. now apply status_get_set_same. Qed.

(** Side conditions on the bit ranges of the named options. *)
Ltac opt_side :=
  cbv [opt_width opt_lo opt_hi AR_TYPE_OPT AUTODETECT_OPT CIC_TYPE_OPT
       NO_EPAK_OPT CPAK_OPT RPAK_OPT TPAK_OPT RTC_OPT SAVE_TYPE_OPT
       SYS_TYPE_OPT CONTROLLER_OPT CONTROLLER_OPTS RESET_OPT nth] in *;
  lia.

(** No option that the engine writes overlaps the auto-detect bit. *)
Lemma is_auto_status_set o v st :
  0 <= opt_lo o -> 0 <= opt_width o ->
  opt_hi o < 64 \/ 64 < opt_lo o ->
  is_auto (status_set o v st) = is_auto st.
Proof.
  intros Hlo Hw Hd. unfold is_auto.
  rewrite status_get_status_set_other; auto; opt_side.
Qed.

Lemma is_auto_set_cart_save_type v st :
  is_auto (set_cart_save_type v st) = is_auto st.
Proof. apply is_auto_status_set; opt_side. Qed.

Lemma same_but_console_refl st : same_but_console st st.
Proof. repeat split. Qed.

Lemma same_but_console_trans st1 st2 st3 :
  same_but_console st1 st2 -> same_but_console st2 st3 ->
  same_but_console st1 st3.
Proof.
  unfold same_but_console. intros (?&?&?&?&?&?&?&?) (?&?&?&?&?&?&?&?).
  repeat split; congruence.
Qed.

Lemma same_but_console_printf m st : same_but_console st (printf m st).
Proof. repeat split. Qed.

Lemma same_but_console_is_auto st st' :
  same_but_console st st' -> is_auto st' = is_auto st.
Proof. intros (H&_). unfold is_auto, status_get. now rewrite H. Qed.

Lemma parse_tags_console toks l st :
  same_but_console st (snd (parse_tags toks l st)).
Proof.
  revert l st. induction toks as [|tag toks IH]; intros l st.
  - apply same_but_console_refl.
  - simpl. destruct (tag_case tag l); [apply IH|].
    eapply same_but_console_trans; [apply same_but_console_printf|apply IH].
Qed.

Lemma is_auto_apply_wide w st : is_auto (apply_wide w st) = is_auto st.
Proof.
  unfold apply_wide.
  repeat case_match; try reflexivity;
    repeat first [ rewrite is_auto_status_set by opt_side
                 | progress (change (is_auto (with_old_ar ?a ?s)) with (is_auto s)) ];
    reflexivity.
Qed.

(** The tag interpreter never touches the auto-detect option. *)
Lemma is_auto_parse_and_apply_db_tags tags st :
  is_auto (snd (parse_and_apply_db_tags tags st)) = is_auto st.
Proof.
  unfold parse_and_apply_db_tags.
  pose proof (parse_tags_console (strtok tags "| ") TagLocals_init st) as Hc.
  destruct (parse_tags (strtok tags "| ") TagLocals_init st) as [l st1].
  apply same_but_console_is_auto in Hc. cbn [snd] in Hc.
  set (l' := if _ : bool then set_system_type SystemType.NTSC l else l).
  change (is_auto (printf ?m ?s)) with (is_auto s). rewrite Hc.
  destruct (is_auto st) eqn:Ha; cbn [negb snd]; [|exact Hc].
  rewrite is_auto_apply_wide.
  repeat case_match;
    repeat first [ rewrite is_auto_status_set by opt_side
                 | rewrite is_auto_set_cart_save_type
                 | progress (change (is_auto (printf ?m ?s)) with (is_auto s)) ];
    exact Hc.
Qed.

(** With auto-detection off the tag interpreter only prints. *)
Lemma parse_and_apply_db_tags_auto_off tags st :
  is_auto st = false ->
  fst (parse_and_apply_db_tags tags st) = true /\
  same_but_console st (snd (parse_and_apply_db_tags tags st)).
Proof.
  intros Ha. unfold parse_and_apply_db_tags.
  pose proof (parse_tags_console (strtok tags "| ") TagLocals_init st) as Hc.
  destruct (parse_tags (strtok tags "| ") TagLocals_init st) as [l st1].
  cbn [snd] in Hc.
  set (l' := if _ : bool then set_system_type SystemType.NTSC l else l).
  change (is_auto (printf ?m ?s)) with (is_auto s).
  rewrite (same_but_console_is_auto _ _ Hc), Ha. cbn [negb fst snd].
  split; [reflexivity|].
  eapply same_but_console_trans; [exact Hc|].
  eapply same_but_console_trans; apply same_but_console_printf.
Qed.

Lemma keeps_auto_refl st : keeps_auto st st.
Proof. reflexivity. Qed.

Lemma keeps_auto_trans st1 st2 st3 :
  keeps_auto st1 st2 -> keeps_auto st2 st3 -> keeps_auto st1 st3.
Proof. unfold keeps_auto. congruence. Qed.

Lemma quiet_when_off_refl st : quiet_when_off st st.
Proof. intros _. apply same_but_console_refl. Qed.

Lemma quiet_when_off_trans st1 st2 st3 :
  quiet_when_off st1 st2 -> quiet_when_off st2 st3 -> quiet_when_off st1 st3.
Proof.
  intros H12 H23 Ha. specialize (H12 Ha).
  eapply same_but_console_trans; [exact H12|]. apply H23.
  now rewrite (same_but_console_is_auto _ _ H12).
Qed.

Lemma quiet_when_off_printf m st : quiet_when_off st (printf m st).
Proof. intros _. apply same_but_console_printf. Qed.

(** The loop over the knowledge-base files inherits what every single
    lookup guarantees, for any reflexive and transitive guarantee. *)
Lemma in_dbs_inherits (R : State -> State -> Prop) lookup names st :
  (forall st, R st st) ->
  (forall st1 st2 st3, R st1 st2 -> R st2 st3 -> R st1 st3) ->
  (forall name st, R st (snd (lookup name st))) ->
  R st (snd (in_dbs lookup names st)).
Proof.
  intros Hrefl Htrans Hlookup. revert st.
  induction names as [|name names IH]; intros st; [apply Hrefl|].
  cbn [in_dbs]. specialize (Hlookup name st).
  destruct (lookup name st) as [detected st1]. cbn [snd] in Hlookup.
  destruct (negb (detected =? 0)); [exact Hlookup|].
  eapply Htrans; [exact Hlookup|apply IH].
Qed.

Lemma scan_db_md5_keeps_auto lookup_hash lines st :
  keeps_auto st (snd (scan_db_md5 lookup_hash lines st)).
Proof.
  induction lines as [|line lines IH]; [reflexivity|].
  cbn [scan_db_md5]. destruct (negb (md5_matches line lookup_hash)); [exact IH|].
  destruct (sscanf_tags _) as [tags|]; [|reflexivity].
  pose proof (is_auto_parse_and_apply_db_tags tags
                (printf (MsgFoundMD5 lookup_hash tags) st)) as H.
  destruct (parse_and_apply_db_tags tags _) as [ok st1]. exact H.
Qed.

Lemma scan_db_cartid_keeps_auto cart_id lines st :
  keeps_auto st (snd (scan_db_cartid cart_id lines st)).
Proof.
  induction lines as [|line lines IH]; [reflexivity|].
  cbn [scan_db_cartid]. destruct (cart_id_is_match line cart_id =? 0); [exact IH|].
  destruct (sscanf_tags _) as [tags|]; [|reflexivity].
  pose proof (is_auto_parse_and_apply_db_tags tags
                (printf (MsgFoundID cart_id tags) st)) as H.
  destruct (parse_and_apply_db_tags tags _) as [ok st1]. exact H.
Qed.

Lemma scan_db_md5_quiet lookup_hash lines st :
  quiet_when_off st (snd (scan_db_md5 lookup_hash lines st)).
Proof.
  induction lines as [|line lines IH]; [apply quiet_when_off_refl|].
  cbn [scan_db_md5]. destruct (negb (md5_matches line lookup_hash)); [exact IH|].
  destruct (sscanf_tags _) as [tags|]; [|apply quiet_when_off_printf].
  intros Ha.
  destruct (parse_and_apply_db_tags_auto_off tags
              (printf (MsgFoundMD5 lookup_hash tags) st) Ha) as [_ H].
  destruct (parse_and_apply_db_tags tags _) as [ok st1]. cbn [snd] in *.
  eapply same_but_console_trans; [apply same_but_console_printf|exact H].
Qed.

Lemma scan_db_cartid_quiet cart_id lines st :
  quiet_when_off st (snd (scan_db_cartid cart_id lines st)).
Proof.
  induction lines as [|line lines IH]; [apply quiet_when_off_refl|].
  cbn [scan_db_cartid]. destruct (cart_id_is_match line cart_id =? 0); [exact IH|].
  destruct (sscanf_tags _) as [tags|]; [|apply quiet_when_off_printf].
  intros Ha.
  destruct (parse_and_apply_db_tags_auto_off tags
              (printf (MsgFoundID cart_id tags) st) Ha) as [_ H].
  destruct (parse_and_apply_db_tags tags _) as [ok st1]. cbn [snd] in *.
  eapply same_but_console_trans; [apply same_but_console_printf|exact H].
Qed.

Lemma detect_rom_settings_in_dbs_with_md5_keeps_auto lookup_hash st :
  keeps_auto st (snd (detect_rom_settings_in_dbs_with_md5 lookup_hash st)).
Proof.
  unfold detect_rom_settings_in_dbs_with_md5.
  apply (in_dbs_inherits keeps_auto);
    [apply keeps_auto_refl|apply keeps_auto_trans|].
  intros name st'. unfold detect_rom_settings_in_db.
  destruct (db_files st' !! name); [apply scan_db_md5_keeps_auto|reflexivity].
Qed.

Lemma detect_rom_settings_in_dbs_with_cartid_keeps_auto lookup_id st :
  keeps_auto st (snd (detect_rom_settings_in_dbs_with_cartid lookup_id st)).
Proof.
  unfold detect_rom_settings_in_dbs_with_cartid.
  destruct (negb _); [reflexivity|].
  apply (in_dbs_inherits keeps_auto);
    [apply keeps_auto_refl|apply keeps_auto_trans|].
  intros name st'. unfold detect_rom_settings_in_db_with_cartid.
  destruct (db_files st' !! name); [apply scan_db_cartid_keeps_auto|reflexivity].
Qed.

Lemma detect_rom_settings_in_dbs_with_md5_quiet lookup_hash st :
  quiet_when_off st (snd (detect_rom_settings_in_dbs_with_md5 lookup_hash st)).
Proof.
  unfold detect_rom_settings_in_dbs_with_md5.
  apply (in_dbs_inherits quiet_when_off);
    [apply quiet_when_off_refl|apply quiet_when_off_trans|].
  intros name st'. unfold detect_rom_settings_in_db.
  destruct (db_files st' !! name);
    [apply scan_db_md5_quiet|apply quiet_when_off_printf].
Qed.

Lemma detect_rom_settings_in_dbs_with_cartid_quiet lookup_id st :
  quiet_when_off st (snd (detect_rom_settings_in_dbs_with_cartid lookup_id st)).
Proof.
  unfold detect_rom_settings_in_dbs_with_cartid.
  destruct (negb _); [apply quiet_when_off_printf|].
  apply (in_dbs_inherits quiet_when_off);
    [apply quiet_when_off_refl|apply quiet_when_off_trans|].
  intros name st'. unfold detect_rom_settings_in_db_with_cartid.
  destruct (db_files st' !! name);
    [apply scan_db_cartid_quiet|apply quiet_when_off_printf].
Qed.

Lemma kb_lookup_keeps_auto detected md5_hex l st :
  keeps_auto st (snd (kb_lookup detected md5_hex l st)).
Proof.
  unfold kb_lookup. destruct (negb (detected =? 0)); [reflexivity|].
  pose proof (detect_rom_settings_in_dbs_with_md5_keeps_auto md5_hex st) as H1.
  destruct (detect_rom_settings_in_dbs_with_md5 md5_hex st) as [d st1].
  cbn [snd] in H1. destruct (negb (d =? 0)); [exact H1|].
  eapply keeps_auto_trans; [exact H1|].
  apply (detect_rom_settings_in_dbs_with_cartid_keeps_auto (cart_id l)
           (printf (MsgNoInfoForFileHash md5_hex) st1)).
Qed.

(** ** Boot-chip heuristic after a metadata-only match *)

Lemma signature_loop_known signatures system_type st :
  let '(_, _, is_known_cic, st') := signature_loop 2 signatures system_type st in
  is_known_cic = chip_identified signatures /\ same_but_console st st'.
Proof.
  unfold chip_identified. cbn [signature_loop].
  replace (hd 0 signatures) with (nth 0 signatures 0)
    by now destruct signatures.
  replace (hd 0 (tl signatures)) with (nth 1 signatures 0)
    by now destruct signatures as [|? [|? ?]].
  destruct (signature_case (nth 0 signatures 0)) as [c|].
  - destruct (signature_result c system_type). split; [|apply same_but_console_refl].
    symmetry. apply orb_true_iff. left. apply bool_decide_eq_true. eauto.
  - destruct (signature_case (nth 1 signatures 0)) as [c|].
    + destruct (signature_result c system_type).
      split; [|apply same_but_console_printf].
      symmetry. apply orb_true_iff. right. apply bool_decide_eq_true. eauto.
    + destruct (signature_result ipl3_x102 system_type).
      split; [|eapply same_but_console_trans; apply same_but_console_printf].
      symmetry. apply orb_false_iff.
      split; apply bool_decide_eq_false; intros [? ?]; discriminate.
Qed.

(** The heuristic reports success when auto-detection is off or a
    checksum is in the signature table. *)
Lemma detect_rom_settings_from_first_chunk_result region_code signatures st :
  fst (detect_rom_settings_from_first_chunk region_code signatures st)
  = negb (is_auto st) || chip_identified signatures.
Proof.
  unfold detect_rom_settings_from_first_chunk.
  set (system_type := if region_is_pal region_code then _ else _).
  pose proof (signature_loop_known signatures system_type st) as H.
  destruct (signature_loop 2 signatures system_type st) as [[[sys cic] known] st1].
  destruct H as [-> Hc].
  change (is_auto (printf ?m ?s)) with (is_auto s).
  rewrite (same_but_console_is_auto _ _ Hc).
  now destruct (is_auto st).
Qed.

Lemma detect_rom_settings_from_first_chunk_quiet region_code signatures st :
  quiet_when_off st
    (snd (detect_rom_settings_from_first_chunk region_code signatures st)).
Proof.
  intros Ha. unfold detect_rom_settings_from_first_chunk.
  set (system_type := if region_is_pal region_code then _ else _).
  pose proof (signature_loop_known signatures system_type st) as H.
  destruct (signature_loop 2 signatures system_type st) as [[[sys cic] known] st1].
  destruct H as [_ Hc].
  change (is_auto (printf ?m ?s)) with (is_auto s).
  rewrite (same_but_console_is_auto _ _ Hc), Ha. cbn [negb snd].
  eapply same_but_console_trans; [exact Hc|].
  eapply same_but_console_trans; apply same_but_console_printf.
Qed.

(** C4, as stated, fails.  Auto-detection is off and the record of the
    ROM carries no tag, so the lookup yields the metadata-only status 2;
    neither checksum is in the signature table, the heuristic says so
    and falls back to the default chip; it still reports success, and
    the final outcome is 3 although the boot chip stayed unknown. *)
Lemma outcome_3_with_unknown_chip :
  let md5 := "0123456789abcdef0123456789abcdef" in
  let st := kb_state (2 ^ 64) [md5] in
  let l := mkRomLocals 0 DataFormat.BIG_ENDIAN [] [0; 0] [0; 0; 0; 0]
             "NSME00" in
  let final := resolve_settings 0 md5 l st in
  is_auto st = false /\
  fst (kb_lookup 0 md5 l st) = 2 /\
  chip_identified (bootcode_sums l) = false /\
  In (MsgUnknownCICUsesDefault 0) (console (snd final)) /\
  fst final = 3 /\
  ~ (Z.testbit (fst final) 0 = true
     <-> chip_identified (bootcode_sums l) = true).
Proof.
  vm_compute. repeat split; try reflexivity.
  - repeat ((left; reflexivity) || right).
  - intros [H _]. specialize (H eq_refl). discriminate.
Qed.

(** C4, amended. Whenever the knowledge-base lookup (header hash, then
    content hash, then cart code) yields the metadata-only status 2, the
    boot-chip heuristic runs next, on the state the lookup left, and
    decides the outcome: 3 if it reports success, else 2.  It reports
    success, and so bit 0 is set, exactly when auto-detection is off or
    one of the two checksums is in the signature table. *)
Theorem metadata_only_match_is_complemented
  (detected : Z) (md5_hex : string) (l : RomLocals) (st st1 : State) :
  kb_lookup detected md5_hex l st = (2, st1) ->
  let heuristic :=
    detect_rom_settings_from_first_chunk (c_at (cart_id l) 3)
      (bootcode_sums l) st1 in
  let final := resolve_settings detected md5_hex l st in
  final = (if fst heuristic then 3 else 2, snd heuristic) /\
  (Z.testbit (fst final) 0 = true
   <-> is_auto st = false \/ chip_identified (bootcode_sums l) = true) /\
  (fst final = 3
   <-> is_auto st = false \/ chip_identified (bootcode_sums l) = true).
Proof.
  intros Hkb heuristic final.
  assert (Hfinal : final = (if fst heuristic then 3 else 2, snd heuristic)).
  { subst final heuristic. unfold resolve_settings, kb_lookup in *.
    destruct (Z.eqb_spec detected 0) as [->|Hd]; cbn [negb] in Hkb.
    - destruct (detect_rom_settings_in_dbs_with_md5 md5_hex st) as [d st'].
      destruct (Z.eqb_spec d 0) as [->|Hd]; cbn [negb] in Hkb.
      + cbn [Z.eqb]. rewrite Hkb. cbn [Z.eqb orb].
        now destruct (detect_rom_settings_from_first_chunk _ _ st1) as [[|] ?].
      + injection Hkb as -> ->. cbn [Z.eqb Pos.eqb].
        now destruct (detect_rom_settings_from_first_chunk _ _ st1) as [[|] ?].
    - injection Hkb as -> ->. cbn [Z.eqb Pos.eqb].
      now destruct (detect_rom_settings_from_first_chunk _ _ st1) as [[|] ?]. }
  assert (Hok : fst heuristic = negb (is_auto st)
                                || chip_identified (bootcode_sums l)).
  { subst heuristic. rewrite detect_rom_settings_from_first_chunk_result.
    pose proof (kb_lookup_keeps_auto detected md5_hex l st) as Hk.
    rewrite Hkb in Hk. cbn [snd] in Hk. unfold keeps_auto in Hk.
    now rewrite Hk. }
  split; [exact Hfinal|]. rewrite Hfinal. cbn [fst]. rewrite Hok.
  destruct (is_auto st), (chip_identified (bootcode_sums l));
    cbn; intuition congruence.
Qed.

Lemma metadata_only_match_is_complemented_witness :
  let l := mkRomLocals 0 DataFormat.BIG_ENDIAN [] [0x000000a316adc55a; 0]
             [0; 0; 0; 0] "NSME00" in
  let st := kb_state 0 ["ID:NSME00 sram32k|cpak"] in
  let st1 := snd (kb_lookup 0 "" l st) in
  kb_lookup 0 "" l st = (2, st1) /\
  (fst (resolve_settings 0 "" l st) = 3
   <-> is_auto st = false \/ chip_identified (bootcode_sums l) = true).
Proof.
  intros l st st1.
  assert (H : kb_lookup 0 "" l st = (2, st1)) by (vm_compute; reflexivity).
  split; [exact H|].
  apply (metadata_only_match_is_complemented 0 "" l st st1 H).
Defined.

(** ** Auto-detection switched off *)

Lemma same_but_console_status_get st st' o :
  same_but_console st st' -> status_get o st' = status_get o st.
Proof. intros (H&_). unfold status_get. now rewrite H. Qed.

Lemma parse_tags_console_app toks l st :
  exists msgs, console (snd (parse_tags toks l st)) = console st ++ msgs.
Proof.
  revert l st. induction toks as [|tag toks IH]; intros l st.
  - exists []. symmetry. apply app_nil_r.
  - simpl. destruct (tag_case tag l); [apply IH|].
    destruct (IH l (printf (MsgUnknownTag tag) st)) as [msgs ->].
    exists (MsgUnknownTag tag :: msgs). simpl. now rewrite <- app_assoc.
Qed.

Lemma detect_homebrew_header_quiet controller_settings cart_id st :
  quiet_when_off st
    (snd (detect_homebrew_header controller_settings cart_id st)).
Proof.
  intros Ha. unfold detect_homebrew_header.
  destruct (_ || _); [apply same_but_console_refl|].
  change (is_auto (printf ?m ?s)) with (is_auto s). rewrite Ha. cbn [negb snd].
  eapply same_but_console_trans; apply same_but_console_printf.
Qed.

Lemma detect_homebrew_header_auto_off controller_settings cart_id st :
  is_auto st = false ->
  fst (detect_homebrew_header controller_settings cart_id st) = false.
Proof.
  intros Ha. unfold detect_homebrew_header.
  destruct (_ || _); [reflexivity|].
  change (is_auto (printf ?m ?s)) with (is_auto s). now rewrite Ha.
Qed.

Lemma resolve_settings_quiet detected md5_hex l st :
  quiet_when_off st (snd (resolve_settings detected md5_hex l st)).
Proof.
  intros Ha. unfold resolve_settings.
  assert (H1 : exists d1 st1,
             (if detected =? 0
              then detect_rom_settings_in_dbs_with_md5 md5_hex st
              else (detected, st)) = (d1, st1)
             /\ same_but_console st st1).
  { destruct (detected =? 0).
    - pose proof (detect_rom_settings_in_dbs_with_md5_quiet md5_hex st Ha) as H.
      destruct (detect_rom_settings_in_dbs_with_md5 md5_hex st) as [d1 st1].
      eauto.
    - eauto using same_but_console_refl. }
  destruct H1 as (d1 & st1 & -> & Hc1).
  assert (Ha1 : is_auto st1 = false)
    by now rewrite (same_but_console_is_auto _ _ Hc1).
  eapply same_but_console_trans; [exact Hc1|]. clear Hc1 Ha st.
  assert (Hfc : forall st, is_auto st = false ->
            same_but_console st
              (snd (detect_rom_settings_from_first_chunk
                      (c_at (cart_id l) 3) (bootcode_sums l) st)))
    by (intros st; apply detect_rom_settings_from_first_chunk_quiet).
  destruct (d1 =? 0).
  - set (st2 := printf (MsgNoInfoForFileHash md5_hex) st1).
    pose proof (detect_rom_settings_in_dbs_with_cartid_quiet (cart_id l) st2 Ha1)
      as Hc2.
    destruct (detect_rom_settings_in_dbs_with_cartid (cart_id l) st2)
      as [d2 st3]. cbn [snd] in Hc2.
    assert (Hc3 : same_but_console st1 st3)
      by (eapply same_but_console_trans;
          [apply same_but_console_printf|exact Hc2]).
    assert (Ha3 : is_auto st3 = false)
      by now rewrite (same_but_console_is_auto _ _ Hc3).
    eapply same_but_console_trans; [exact Hc3|]. clear Hc2 Hc3 st2 Ha1 st1.
    assert (Htail : forall d st, is_auto st = false ->
              same_but_console st
                (snd (if (d =? 0) || (d =? 2)
                      then
                        let '(ok, st0) :=
                          detect_rom_settings_from_first_chunk
                            (c_at (cart_id l) 3) (bootcode_sums l) st in
                        (if ok then Z.lor d 1 else d, st0)
                      else (d, st)))).
    { intros d st Hst. destruct (_ || _); [|apply same_but_console_refl].
      specialize (Hfc st Hst).
      destruct (detect_rom_settings_from_first_chunk _ _ st). exact Hfc. }
    destruct (d2 =? 0); [|apply Htail; exact Ha3].
    pose proof (detect_homebrew_header_quiet (controller_settings l)
                  (cart_id l) st3 Ha3) as Hh.
    pose proof (detect_homebrew_header_auto_off (controller_settings l)
                  (cart_id l) st3 Ha3) as Hf.
    destruct (detect_homebrew_header _ _ st3) as [homebrew st4].
    cbn [fst snd] in Hh, Hf. subst homebrew.
    assert (Ha4 : is_auto st4 = false)
      by now rewrite (same_but_console_is_auto _ _ Hh).
    change (is_auto (printf ?m ?s)) with (is_auto s). rewrite Ha4.
    eapply same_but_console_trans; [exact Hh|].
    eapply same_but_console_trans; [apply same_but_console_printf|].
    apply Htail. exact Ha4.
  - destruct (d1 =? 2); [|apply same_but_console_refl].
    specialize (Hfc st1 Ha1).
    destruct (detect_rom_settings_from_first_chunk _ _ st1). exact Hfc.
Qed.

(** C9. With auto-detection off, each detection path still analyses
    its input and prints what it found, and changes nothing but the
    console: every configuration option reads as before.  The same
    holds for the whole chain of fallbacks. *)
Theorem auto_off_leaves_configuration (st : State) :
  is_auto st = false ->
  (forall tags,
     let r := parse_and_apply_db_tags tags st in
     same_but_console st (snd r) /\
     (forall o, status_get o (snd r) = status_get o st) /\
     fst r = true /\
     exists msgs system_type save_type cic_type cpak rpak tpak rtc no_epak,
       console (snd r)
       = console st ++ msgs
         ++ [MsgTagSummary system_type save_type cic_type
               cpak rpak tpak rtc no_epak; MsgAutoDetectOff]) /\
  (forall controller_settings cart_id,
     let r := detect_homebrew_header controller_settings cart_id st in
     same_but_console st (snd r) /\
     (forall o, status_get o (snd r) = status_get o st) /\
     (c_at cart_id 1 = "E"%char -> c_at cart_id 2 = "D"%char ->
      console (snd r)
      = console st ++ [MsgHomebrewHeader; MsgAutoDetectOff])) /\
  (forall region_code signatures,
     let r := detect_rom_settings_from_first_chunk region_code signatures st in
     same_but_console st (snd r) /\
     (forall o, status_get o (snd r) = status_get o st) /\
     fst r = true /\
     exists msgs system_type cic,
       console (snd r)
       = console st ++ msgs
         ++ [MsgRegionCIC system_type cic; MsgAutoDetectOff]) /\
  (forall detected md5_hex l,
     let r := resolve_settings detected md5_hex l st in
     same_but_console st (snd r) /\
     (forall o, status_get o (snd r) = status_get o st)).
Proof.
  intros Ha. split; [|split; [|split]].
  - intros tags r.
    destruct (parse_and_apply_db_tags_auto_off tags st Ha) as [Hok Hc].
    fold r in Hok, Hc.
    split; [exact Hc|]. split; [intros o; now apply same_but_console_status_get|].
    split; [exact Hok|].
    subst r. unfold parse_and_apply_db_tags.
    pose proof (parse_tags_console (strtok tags "| ") TagLocals_init st) as Hp.
    destruct (parse_tags_console_app (strtok tags "| ") TagLocals_init st)
      as [msgs Hm].
    destruct (parse_tags (strtok tags "| ") TagLocals_init st) as [l st1].
    cbn [snd] in Hp, Hm.
    set (l' := if _ : bool then set_system_type SystemType.NTSC l else l).
    change (is_auto (printf ?m ?s)) with (is_auto s).
    rewrite (same_but_console_is_auto _ _ Hp), Ha. cbn [negb snd].
    exists msgs, (system_type l'), (save_type l'), (cic_type l'), (cpak l'),
      (rpak l'), (tpak l'), (rtc l'), (no_epak l').
    cbn [printf console]. rewrite Hm, <- !app_assoc. reflexivity.
  - intros cs id r.
    pose proof (detect_homebrew_header_quiet cs id st Ha) as Hc. fold r in Hc.
    split; [exact Hc|]. split; [intros o; now apply same_but_console_status_get|].
    intros H1 H2. subst r. unfold detect_homebrew_header.
    rewrite H1, H2. cbn [Ascii.eqb Bool.eqb negb orb andb].
    change (is_auto (printf ?m ?s)) with (is_auto s). rewrite Ha.
    cbn [negb snd printf console]. now rewrite <- app_assoc.
  - intros region sums r.
    pose proof (detect_rom_settings_from_first_chunk_quiet region sums st Ha)
      as Hc. fold r in Hc.
    split; [exact Hc|]. split; [intros o; now apply same_but_console_status_get|].
    split.
    { subst r. rewrite detect_rom_settings_from_first_chunk_result.
      now rewrite Ha. }
    subst r. unfold detect_rom_settings_from_first_chunk.
    set (sys0 := if region_is_pal region then _ else _).
    assert (Hl : exists msgs,
               console (signature_loop 2 sums sys0 st).2
               = console st ++ msgs
               /\ same_but_console st (signature_loop 2 sums sys0 st).2).
    { cbn [signature_loop].
      destruct (signature_case (hd 0 sums)) as [c|].
      - destruct (signature_result c sys0). exists [].
        split; [symmetry; apply app_nil_r|apply same_but_console_refl].
      - destruct (signature_case (hd 0 (tl sums))) as [c|].
        + destruct (signature_result c sys0). eexists [_].
          split; [reflexivity|apply same_but_console_printf].
        + destruct (signature_result ipl3_x102 sys0). eexists [_; _].
          split; [cbn; now rewrite <- app_assoc|].
          eapply same_but_console_trans; apply same_but_console_printf. }
    destruct (signature_loop 2 sums sys0 st) as [[[sys cic] known] st1].
    destruct Hl as (msgs & Hm & Hs). cbn [snd] in Hm, Hs.
    change (is_auto (printf ?m ?s)) with (is_auto s).
    rewrite (same_but_console_is_auto _ _ Hs), Ha. cbn [negb snd].
    exists msgs, sys, cic. cbn [printf console].
    rewrite Hm, <- !app_assoc. reflexivity.
  - intros detected md5_hex l r.
    pose proof (resolve_settings_quiet detected md5_hex l st Ha) as Hc.
    split; [exact Hc|]. intros o. now apply same_but_console_status_get.
Qed.

Lemma auto_off_leaves_configuration_witness :
  let st := kb_state (2 ^ 64 + 2 ^ 47) [] in
  is_auto st = false /\
  (let r := parse_and_apply_db_tags "sram32k|cpak|wide" st in
   same_but_console st (snd r) /\
   (forall o, status_get o (snd r) = status_get o st) /\
   fst r = true /\
   exists msgs system_type save_type cic_type cpak rpak tpak rtc no_epak,
     console (snd r)
     = console st ++ msgs
       ++ [MsgTagSummary system_type save_type cic_type
             cpak rpak tpak rtc no_epak; MsgAutoDetectOff]).
Proof.
  intros st.
  assert (Ha : is_auto st = false) by reflexivity.
  split; [exact Ha|].
  apply (proj1 (auto_off_leaves_configuration st Ha) "sram32k|cpak|wide").
Defined.

(** ** Wide display *)

Lemma tag_case_wide tag l :
  match tag_case tag l with
  | Some l' => wide l' = wide l || (fnv_hash tag =? fnv_hash "wide")
  | None => (fnv_hash tag =? fnv_hash "wide") = false
  end.
Proof.
  destruct (Z.eqb_spec (fnv_hash tag) (fnv_hash "wide")) as [E|E].
  - unfold tag_case. rewrite E. vm_compute. now destruct l as [? ? ? ? ? ? ? ? [|] ?].
  - apply Z.eqb_neq in E. unfold tag_case. rewrite E.
    destruct l as [? ? ? ? ? ? ? ? w ?].
    repeat match goal with
           | |- match (if ?b then _ else _) with _ => _ end =>
               destruct b; [cbn; now rewrite ?orb_false_r|]
           end.
    reflexivity.
Qed.

Lemma parse_tags_wide toks l st :
  wide (fst (parse_tags toks l st))
  = wide l || existsb (fun tag => fnv_hash tag =? fnv_hash "wide") toks.
Proof.
  revert l st. induction toks as [|tag toks IH]; intros l st.
  - simpl. now rewrite orb_false_r.
  - cbn [parse_tags existsb]. pose proof (tag_case_wide tag l) as H.
    destruct (tag_case tag l) as [l'|].
    + rewrite IH, H. now rewrite orb_assoc.
    + rewrite IH, H. reflexivity.
Qed.

Lemma aspect_ratio_status_set o v st :
  0 <= opt_lo o -> 0 <= opt_width o ->
  opt_hi o < 47 \/ 48 < opt_lo o ->
  aspect_ratio (status_set o v st) = aspect_ratio st.
Proof.
  intros Hlo Hw Hd. unfold aspect_ratio.
  rewrite status_get_status_set_other; auto; opt_side.
Qed.

(** With auto-detection on, the interpreter ends in [apply_wide], and
    nothing it writes before touches the display aspect or the slot. *)
Lemma parse_and_apply_db_tags_wide tags st :
  is_auto st = true ->
  exists st1,
    snd (parse_and_apply_db_tags tags st) = apply_wide (has_wide_tag tags) st1
    /\ aspect_ratio st1 = aspect_ratio st /\ old_ar st1 = old_ar st.
Proof.
  intros Ha. unfold parse_and_apply_db_tags, has_wide_tag.
  pose proof (parse_tags_console (strtok tags "| ") TagLocals_init st) as Hc.
  pose proof (parse_tags_wide (strtok tags "| ") TagLocals_init st) as Hw.
  destruct (parse_tags (strtok tags "| ") TagLocals_init st) as [l st0].
  cbn [fst snd] in Hc, Hw. cbn [wide TagLocals_init orb] in Hw.
  rewrite <- Hw. clear Hw.
  change (is_auto (printf ?m ?s)) with (is_auto s).
  rewrite (same_but_console_is_auto _ _ Hc), Ha. cbn [negb snd].
  assert (Hwide : forall b : bool, wide (if b then set_system_type SystemType.NTSC l
                                  else l) = wide l) by now intros [|].
  rewrite Hwide.
  eexists. split; [reflexivity|].
  destruct Hc as (Hs & Ho & _).
  assert (Har : aspect_ratio st0 = aspect_ratio st)
    by (unfold aspect_ratio, status_get; now rewrite Hs).
  rewrite <- Har, <- Ho.
  split.
  - repeat case_match;
      repeat first [ rewrite aspect_ratio_status_set by opt_side
                   | progress (unfold set_cart_save_type)
                   | progress (change (aspect_ratio (printf ?m ?s))
                                 with (aspect_ratio s)) ];
      reflexivity.
  - repeat case_match; reflexivity.
Qed.

Lemma AspectRatio_of_to_uint32 a :
  a <> AspectRatio.UNKNOWN ->
  AspectRatio_of_uint32 (Z.land (AspectRatio_to_uint32 a) (Z.ones 2)) = a.
Proof. destruct a; intros H; try reflexivity. contradiction. Qed.

Lemma aspect_ratio_known st : aspect_ratio st <> AspectRatio.UNKNOWN.
Proof.
  unfold aspect_ratio.
  pose proof (status_get_range AR_TYPE_OPT (status st)) as H.
  unfold status_get. change (opt_width AR_TYPE_OPT) with 2 in H.
  specialize (H ltac:(lia)). change (2 ^ 2) with 4 in H.
  set (v := user_io_status_get AR_TYPE_OPT (status st)) in *.
  assert (Hv : v = 0 \/ v = 1 \/ v = 2 \/ v = 3) by lia.
  destruct Hv as [-> | [-> | [-> | ->]]]; discriminate.
Qed.

(** What [apply_wide] does to the display aspect and to the slot. *)
Lemma apply_wide_on st :
  aspect_ratio (apply_wide true st) = AspectRatio.FULL /\
  old_ar (apply_wide true st)
  = (if bool_decide (aspect_ratio st <> AspectRatio.FULL)
     then aspect_ratio st else old_ar st).
Proof.
  unfold apply_wide. fold (aspect_ratio st).
  split.
  - unfold aspect_ratio. destruct (bool_decide _);
      rewrite status_get_status_set_same by opt_side; reflexivity.
  - now destruct (bool_decide _).
Qed.

Lemma apply_wide_off st :
  apply_wide false st
  = (if bool_decide (aspect_ratio st = AspectRatio.FULL)
        && bool_decide (old_ar st <> AspectRatio.UNKNOWN)
     then with_old_ar AspectRatio.UNKNOWN
            (status_set AR_TYPE_OPT (AspectRatio_to_uint32 (old_ar st)) st)
     else st).
Proof. reflexivity. Qed.

Lemma apply_wide_off_restores st :
  old_ar st <> AspectRatio.UNKNOWN ->
  aspect_ratio st = AspectRatio.FULL ->
  aspect_ratio (apply_wide false st) = old_ar st /\
  old_ar (apply_wide false st) = AspectRatio.UNKNOWN.
Proof.
  intros Ho Hf. rewrite apply_wide_off.
  rewrite (bool_decide_eq_true_2 _ Hf), (bool_decide_eq_true_2 _ Ho).
  cbn [andb]. split; [|reflexivity].
  unfold aspect_ratio.
  change (status_get AR_TYPE_OPT (with_old_ar ?a ?s))
    with (status_get AR_TYPE_OPT s).
  rewrite status_get_status_set_same by opt_side.
  now apply AspectRatio_of_to_uint32.
Qed.

Lemma apply_wide_off_idle st :
  old_ar st = AspectRatio.UNKNOWN -> apply_wide false st = st.
Proof.
  intros Ho. rewrite apply_wide_off.
  rewrite (bool_decide_eq_false_2 (old_ar st <> AspectRatio.UNKNOWN))
    by (intros H; now apply H).
  now rewrite andb_false_r.
Qed.

(** A ratio is pending in the slot only while the display is full. *)
Lemma slot_invariant_step tags st :
  is_auto st = true ->
  (old_ar st <> AspectRatio.UNKNOWN -> aspect_ratio st = AspectRatio.FULL) ->
  let st' := snd (parse_and_apply_db_tags tags st) in
  is_auto st' = true /\
  (old_ar st' <> AspectRatio.UNKNOWN -> aspect_ratio st' = AspectRatio.FULL).
Proof.
  intros Ha Hinv st'. split.
  { subst st'. now rewrite is_auto_parse_and_apply_db_tags. }
  destruct (parse_and_apply_db_tags_wide tags st Ha) as (st1 & E & Har & Ho).
  subst st'. rewrite E. rewrite <- Har, <- Ho in Hinv.
  destruct (has_wide_tag tags).
  - intros _. apply apply_wide_on.
  - destruct (decide (old_ar st1 = AspectRatio.UNKNOWN)) as [Hu|Hu].
    + rewrite (apply_wide_off_idle _ Hu). exact Hinv.
    + destruct (apply_wide_off_restores st1 Hu (Hinv Hu)) as [_ H].
      intros Hn. contradiction.
Qed.

Lemma slot_invariant history st0 :
  is_auto st0 = true -> old_ar st0 = AspectRatio.UNKNOWN ->
  let st := apply_tag_lists history st0 in
  is_auto st = true /\
  (old_ar st <> AspectRatio.UNKNOWN -> aspect_ratio st = AspectRatio.FULL).
Proof.
  intros Ha Ho. unfold apply_tag_lists. cbv zeta.
  assert (H0 : is_auto st0 = true /\
               (old_ar st0 <> AspectRatio.UNKNOWN ->
                aspect_ratio st0 = AspectRatio.FULL))
    by (split; [assumption|intros H; contradiction]).
  clear Ha Ho. revert st0 H0.
  induction history as [|tags history IH]; intros st0 H0; [exact H0|].
  cbn [foldl]. apply IH. destruct H0. now apply slot_invariant_step.
Qed.

(** C10. Start from a state with an empty slot and auto-detection on,
    and apply any sequence of tag lists.  Applying one more list then
    does this to the display aspect and the slot.  With a wide tag: the
    display becomes full; a ratio other than full is saved in the slot,
    and on a display that is full already the slot stays as it is, so
    that a second wide list changes neither.  Without a wide tag: an
    empty slot leaves both as they are, and a pending ratio is restored
    and the slot emptied. *)
Theorem wide_display_slot (st0 : State) (history : list string)
  (tags : string) :
  is_auto st0 = true -> old_ar st0 = AspectRatio.UNKNOWN ->
  let st := apply_tag_lists history st0 in
  let st' := snd (parse_and_apply_db_tags tags st) in
  (has_wide_tag tags = true ->
     aspect_ratio st' = AspectRatio.FULL /\
     (aspect_ratio st <> AspectRatio.FULL -> old_ar st' = aspect_ratio st) /\
     (aspect_ratio st = AspectRatio.FULL -> old_ar st' = old_ar st) /\
     (forall tags2, has_wide_tag tags2 = true ->
        let st'' := snd (parse_and_apply_db_tags tags2 st') in
        aspect_ratio st'' = aspect_ratio st' /\ old_ar st'' = old_ar st')) /\
  (has_wide_tag tags = false ->
     (old_ar st = AspectRatio.UNKNOWN ->
        aspect_ratio st' = aspect_ratio st /\
        old_ar st' = AspectRatio.UNKNOWN) /\
     (old_ar st <> AspectRatio.UNKNOWN ->
        aspect_ratio st' = old_ar st /\
        old_ar st' = AspectRatio.UNKNOWN)).
Proof.
  intros Ha0 Ho0 st st'.
  destruct (slot_invariant history st0 Ha0 Ho0) as [Ha Hinv]. fold st in Ha, Hinv.
  destruct (parse_and_apply_db_tags_wide tags st Ha) as (st1 & E & Har & Ho).
  assert (Ha' : is_auto st' = true)
    by (subst st'; now rewrite is_auto_parse_and_apply_db_tags).
  split; intros Hw; subst st'; rewrite E, Hw in *; rewrite <- Har, <- Ho in *.
  - destruct (apply_wide_on st1) as [Hfull Hslot].
    split; [exact Hfull|]. split; [|split].
    + intros Hn. rewrite Hslot. now rewrite bool_decide_eq_true_2.
    + intros Hf. rewrite Hslot. rewrite bool_decide_eq_false_2; [reflexivity|].
      intros Hn. contradiction.
    + intros tags2 Hw2 st''.
      destruct (parse_and_apply_db_tags_wide tags2 _ Ha')
        as (st2 & E2 & Har2 & Ho2).
      subst st''. rewrite E2, Hw2.
      destruct (apply_wide_on st2) as [Hfull2 Hslot2].
      rewrite Hfull2, Hslot2, Har2, Ho2, Hfull.
      split; [reflexivity|].
      rewrite bool_decide_eq_false_2; [reflexivity|]. intros Hn. now apply Hn.
  - split.
    + intros Hu. rewrite (apply_wide_off_idle _ Hu). split; [reflexivity|exact Hu].
    + intros Hn. apply apply_wide_off_restores; auto.
Qed.

Lemma wide_display_slot_witness :
  let st0 := kb_state (2 ^ 48) [] in
  let history := ["sram32k|wide"; "cpak"] in
  let st := apply_tag_lists history st0 in
  is_auto st0 = true /\ old_ar st0 = AspectRatio.UNKNOWN /\
  aspect_ratio st = AspectRatio.CUSTOM_1 /\
  (let st' := snd (parse_and_apply_db_tags "Wide|rpak" st) in
   aspect_ratio st' = AspectRatio.FULL /\
   (aspect_ratio st <> AspectRatio.FULL -> old_ar st' = aspect_ratio st) /\
   (aspect_ratio st = AspectRatio.FULL -> old_ar st' = old_ar st) /\
   (forall tags2, has_wide_tag tags2 = true ->
      let st'' := snd (parse_and_apply_db_tags tags2 st') in
      aspect_ratio st'' = aspect_ratio st' /\ old_ar st'' = old_ar st')).
Proof.
  intros st0 history st.
  assert (Ha : is_auto st0 = true) by reflexivity.
  assert (Ho : old_ar st0 = AspectRatio.UNKNOWN) by reflexivity.
  split; [exact Ha|]. split; [exact Ho|]. split; [vm_compute; reflexivity|].
  apply (proj1 (wide_display_slot st0 history "Wide|rpak" Ha Ho)).
  vm_compute. reflexivity.
Defined.

(** ** Block I/O *)

Lemma get_save_file_offset_status idx st st' :
  status st' = status st ->
  get_save_file_offset idx st' = get_save_file_offset idx st.
Proof.
  intros H. unfold get_save_file_offset, get_cart_save_type, status_get.
  now rewrite H.
Qed.

Lemma find_save_file_registry fuel pos file_idx st st' :
  status st' = status st ->
  mounted_save_files st' = mounted_save_files st ->
  find_save_file fuel pos file_idx st' = find_save_file fuel pos file_idx st.
Proof.
  intros Hs Hm. revert file_idx.
  induction fuel as [|fuel IH]; intros file_idx; [reflexivity|].
  cbn [find_save_file].
  rewrite (get_save_file_offset_status _ _ _ Hs), Hm.
  destruct (_ >=? _); [|reflexivity].
  destruct (_ >=? _); [reflexivity|apply IH].
Qed.

(** A region found by the search starts at or below the position. *)
Lemma find_save_file_lower fuel pos file_idx st found :
  find_save_file fuel pos file_idx st = Some (found, false) ->
  found = file_idx \/ get_save_file_offset found st <= pos.
Proof.
  revert file_idx. induction fuel as [|fuel IH]; intros file_idx; [discriminate|].
  cbn [find_save_file].
  destruct (Z.geb_spec pos (get_save_file_offset (uint8 (file_idx + 1)) st))
    as [Hge|Hlt].
  - destruct (_ >=? _); [discriminate|]. intros H.
    destruct (IH _ H) as [->|Hle]; right; [lia|exact Hle].
  - intros [= ->]. now left.
Qed.

Lemma get_save_file_offset_0 st : get_save_file_offset 0 st = 0.
Proof. reflexivity. Qed.

Lemma swap32_app n (a b : list Z) :
  (4 * n <= length a)%nat -> swap32 n (a ++ b) = swap32 n a ++ b.
Proof.
  revert a. induction n as [|n IH]; intros a Hlen; [reflexivity|].
  destruct a as [|c0 [|c1 [|c2 [|c3 a]]]]; simpl in Hlen; try lia.
  simpl. rewrite IH by lia. reflexivity.
Qed.

(** Transcoding the first [sz] bytes of a buffer that starts with the
    [sz] bytes [a]. *)
Lemma normalize_head (a b : list Z) sz :
  Z.of_nat (length a) = sz -> sz < 2 ^ 32 ->
  take (Z.to_nat sz) (normalizeData (a ++ b) sz DataFormat.LITTLE_ENDIAN)
  = swap32 (Z.to_nat (sz / 4)) a.
Proof.
  intros Hlen Hsz. cbn [normalizeData].
  rewrite words_of_size by lia.
  assert (H4 : (4 * Z.to_nat (sz / 4) <= length a)%nat).
  { pose proof (Z.mul_div_le sz 4 ltac:(lia)).
    assert (0 <= sz / 4) by (apply Z.div_pos; lia). lia. }
  rewrite swap32_app by exact H4.
  apply take_app_length'. rewrite swap32_length. lia.
Qed.

Lemma image_data_written path pos data st :
  image_data (Some path) (FileWriteAdv (Some path) pos data st)
  = take (Z.to_nat pos)
      (image_data (Some path) st
       ++ repeat 0 (Z.to_nat pos - length (image_data (Some path) st)))
    ++ data
    ++ drop (Z.to_nat pos + length data) (image_data (Some path) st).
Proof.
  unfold FileWriteAdv, image_data at 1. cbn [mbind option_bind files with_files].
  now rewrite lookup_insert_eq.
Qed.

(** Reading back at the offset of a write returns what was written,
    up to the length asked for. *)
Lemma FileReadAdv_written path pos len data st :
  0 <= pos -> Z.of_nat (length data) <= len ->
  exists more,
    FileReadAdv (Some path) pos len (FileWriteAdv (Some path) pos data st)
    = data ++ more.
Proof.
  intros Hpos Hlen. unfold FileReadAdv. rewrite image_data_written.
  set (old := image_data (Some path) st).
  rewrite drop_app_length'.
  2:{ rewrite length_take, length_app, repeat_length. lia. }
  rewrite take_app_ge by lia. eauto.
Qed.

Lemma get_image_emit idx e st : get_image idx (emit e st) = get_image idx st.
Proof. reflexivity. Qed.

Lemma get_save_file_offset_emit idx e st :
  get_save_file_offset idx (emit e st) = get_save_file_offset idx st.
Proof. reflexivity. Qed.

Lemma region_is_pak_emit idx e st :
  region_is_pak idx (emit e st) = region_is_pak idx st.
Proof. reflexivity. Qed.

(** C7. A block written to a pak region through the write path and read
    back through the read path reaches the hardware as it was sent, for
    every block length: the write path stores the block with each
    4-byte word reversed, and the read path reverses the words again. *)
Theorem pak_block_round_trip
  (lba ack blksz sz buffer_size file_idx : Z)
  (block buffer buffer' : list Z) (path : string) (st : State) :
  let pos := int64 (lba * blksz) in
  0 <= pos ->
  find_save_file 256 pos 0 st = Some (file_idx, false) ->
  region_is_pak file_idx st = true ->
  get_image file_idx st = Some path ->
  Z.of_nat (length block) = sz -> sz < 2 ^ 32 -> sz <= buffer_size ->
  exists buffer1 st1 buffer_lba2 buffer2 st2,
    n64_save_savedata lba ack buffer blksz sz block st
    = Some (uint64 (-1), buffer1, st1) /\
    (0 < sz ->
     FileReadAdv (Some path) (pos - get_save_file_offset file_idx st) sz st1
     = normalizeData block sz DataFormat.LITTLE_ENDIAN) /\
    n64_load_savedata lba ack buffer' buffer_size blksz sz st1
    = Some (buffer_lba2, buffer2, st2) /\
    io st2 = io st1 ++ [io_spi_w UIO_SECTOR_RD ack; io_spi_block_write block].
Proof.
  intros pos Hpos Hfind Hpak Himg Hlen Hsz Hbuf.
  assert (Hlocal : 0 <= pos - get_save_file_offset file_idx st).
  { destruct (find_save_file_lower _ _ _ _ _ Hfind) as [->|H]; [|lia].
    rewrite get_save_file_offset_0. lia. }
  set (local := pos - get_save_file_offset file_idx st) in *.
  assert (Hblock : take (Z.to_nat sz) block = block)
    by (apply take_ge; lia).
  unfold n64_save_savedata. fold pos. rewrite Hfind.
  rewrite !get_image_emit, !get_save_file_offset_emit, !region_is_pak_emit.
  rewrite Himg. fold local. rewrite Hblock, Hpak.
  set (st_e := emit (io_spi_block_read block)
                 (emit (io_spi_w UIO_SECTOR_WR ack) st)).
  destruct (Z.eqb_spec sz 0) as [Hz|Hnz]; cbn [negb andb].
  - (* an empty block: nothing is written, nothing is sent back *)
    assert (block = []) as -> by (apply nil_length_inv; lia).
    eexists _, st_e. 
    assert (Hfind' : find_save_file 256 pos 0 st_e = Some (file_idx, false))
      by (rewrite <- Hfind; now apply find_save_file_registry).
    unfold n64_load_savedata. fold pos. rewrite Hfind'. rewrite Hz.
    cbn [Z.to_nat take].
    destruct (if negb false then _ else _) as [[done lba2] buf2].
    eexists _, _, _. split; [reflexivity|]. split; [lia|].
    split; [reflexivity|]. cbn [emit io]. now rewrite <- app_assoc.
  - (* a block of [sz > 0] bytes *)
    assert (Hseek : FileSeek (Some path) local = true).
    { unfold FileSeek. rewrite bool_decide_eq_true_2 by eauto.
      apply Z.leb_le. exact Hlocal. }
    rewrite Hseek.
    set (written := take (Z.to_nat sz)
                      (normalizeData (overlay block buffer) sz
                         DataFormat.LITTLE_ENDIAN)).
    assert (Hwritten : written = swap32 (Z.to_nat (sz / 4)) block)
      by (apply normalize_head; assumption).
    assert (Hwlen : Z.of_nat (length written) = sz)
      by (rewrite Hwritten, swap32_length; exact Hlen).
    set (st1 := FileWriteAdv (Some path) local written st_e).
    eexists _, st1.
    assert (Hfind' : find_save_file 256 pos 0 st1 = Some (file_idx, false))
      by (rewrite <- Hfind; now apply find_save_file_registry).
    assert (Hoff : get_save_file_offset file_idx st1
                   = get_save_file_offset file_idx st)
      by now apply get_save_file_offset_status.
    destruct (FileReadAdv_written path local buffer_size written st_e)
      as [more Hread]; [lia|lia|]. fold st1 in Hread.
    unfold n64_load_savedata. fold pos. rewrite Hfind'.
    change (get_image file_idx st1) with (get_image file_idx st).
    change (region_is_pak file_idx st1) with (region_is_pak file_idx st).
    rewrite Himg, Hoff, Hpak. fold local. rewrite Hread, Hseek.
    assert (Hsize : (file_size (Some path) st1 =? 0) = false).
    { apply Z.eqb_neq. unfold file_size. subst st1.
      rewrite image_data_written, !length_app. lia. }
    rewrite Hsize.
    assert (Hgot : (Z.of_nat (length (written ++ more)) =? 0) = false)
      by (apply Z.eqb_neq; rewrite length_app; lia).
    rewrite Hgot. cbn [negb andb orb].
    eexists _, _, _. split; [reflexivity|]. split; [|split; [reflexivity|]].
    + intros _. unfold FileReadAdv. subst st1.
      rewrite image_data_written.
      rewrite drop_app_length'.
      2:{ rewrite length_take, length_app, repeat_length. lia. }
      rewrite take_app_length' by lia.
      rewrite Hwritten. cbn [normalizeData].
      now rewrite words_of_size by lia.
    + cbn [emit io]. rewrite <- app_assoc. cbn [app]. do 3 f_equal.
      unfold overlay at 1. rewrite <- app_assoc.
      rewrite normalize_head by assumption.
      rewrite Hwritten, swap32_involutive. reflexivity.
Qed.

(** ** Mounting *)

Lemma read_file_registry filename data offset sz st :
  let st' := snd (read_file filename data offset sz st) in
  status st' = status st /\
  mounted_save_files st' = mounted_save_files st /\
  save_files st' = save_files st.
Proof.
  unfold read_file. cbv zeta.
  change (files (printf ?m ?s)) with (files s).
  destruct (files st !! filename); [|now repeat split].
  destruct (_ >? _); now repeat split.
Qed.

Lemma create_if_missing_registry cpak_header f path old_path st :
  let st' := snd (create_if_missing cpak_header f path old_path st) in
  status st' = status st /\
  mounted_save_files st' = mounted_save_files st /\
  save_files st' = save_files st.
Proof.
  unfold create_if_missing. cbv zeta.
  destruct (FileExists path st); [now repeat split|].
  assert (H : exists found buf st1,
             (if negb (SaveFile.get_size f =? 0) && FileExists old_path st
              then
                let '(n, buf, st0) :=
                  read_file old_path
                    (repeat 0 (Z.to_nat (SaveFile.get_size f)))
                    (get_save_file_offset (uint8 (slot_of f st)) st)
                    (SaveFile.get_size f) st in
                if negb (n =? 0)
                then
                  (true,
                   if is_pak (SaveFile.type f)
                   then normalizeData buf (SaveFile.get_size f)
                          DataFormat.LITTLE_ENDIAN
                   else buf,
                   printf (MsgFoundOldSave old_path (SaveFile.type f)) st0)
                else (false, buf, st0)
              else (false, repeat 0 (Z.to_nat (SaveFile.get_size f)), st))
             = (found, buf, st1)
             /\ status st1 = status st
             /\ mounted_save_files st1 = mounted_save_files st
             /\ save_files st1 = save_files st).
  { destruct (_ && _); [|eexists _, _, _; now repeat split].
    pose proof (read_file_registry old_path
                  (repeat 0 (Z.to_nat (SaveFile.get_size f)))
                  (get_save_file_offset (uint8 (slot_of f st)) st)
                  (SaveFile.get_size f) st) as Hr.
    destruct (read_file _ _ _ _ st) as [[n buf] st0]. cbn [snd] in Hr.
    destruct (negb (n =? 0)); eexists _, _, _; split; try reflexivity;
      exact Hr. }
  destruct H as (found & buf & st1 & -> & Hs & Hm & Hf).
  unfold create_file. cbv zeta.
  destruct (negb (writable _ path)); [now repeat split|].
  destruct (_ =? 0); cbn [snd]; now repeat split.
Qed.

(** A mount takes the next slot, whatever happens to the file. *)
Lemma mount_save_file_registry SAVE_DIR CoreName cpak_header
  name type old_path st :
  let st' := snd (mount_save_file SAVE_DIR CoreName cpak_header
                    name type old_path st) in
  status st' = status st /\
  mounted_save_files st' = uint8 (mounted_save_files st + 1) /\
  save_files st'
  = <[Z.to_nat (mounted_save_files st)
      := SaveFile.mk (mounted_save_files st) type]> (save_files st).
Proof.
  unfold mount_save_file. cbv zeta.
  pose proof (create_if_missing_registry cpak_header (SaveFile.mk (-1) type)
                (save_path_of SAVE_DIR CoreName name (save_ext type st))
                old_path st) as H.
  destruct (create_if_missing _ _ _ _ st) as [is_new st1]. cbn [snd] in H.
  destruct H as (Hs & Hm & Hf).
  unfold SaveFile_mount. cbn [snd SaveFile.idx SaveFile.type].
  repeat split; cbn; congruence.
Qed.

(** One call of [mount_save_file] in the goal: name its result and
    record what it did to the registry. *)
Ltac mount_step :=
  match goal with
  | |- context [mount_save_file ?a ?b ?c ?n ?t ?o ?s] =>
      let H := fresh "Hmount" in
      pose proof (mount_save_file_registry a b c n t o s) as H;
      cbv zeta in H;
      destruct (mount_save_file a b c n t o s) as [? ?];
      cbn [snd] in H;
      let Hs := fresh "Hs" in
      let Hm := fresh "Hm" in
      let Hf := fresh "Hf" in
      destruct H as (Hs & Hm & Hf);
      unfold status_get; rewrite ?Hs; fold (status_get CPAK_OPT s);
      fold (status_get TPAK_OPT s)
  end.

(** After the mounts of a ROM load the registry holds the regions of
    [mount_order], each in the slot of its position. *)
Lemma mount_save_files_registry SAVE_DIR CoreName cpak_header name st :
  mounted_save_files st = 0 -> length (save_files st) = 8%nat ->
  let st' := snd (mount_save_files SAVE_DIR CoreName cpak_header name st) in
  status st' = status st /\
  mounted_save_files st' = Z.of_nat (length (mount_order st)) /\
  mounted_regions st'
  = imap (fun i type => SaveFile.mk (Z.of_nat i) type) (mount_order st).
Proof.
  intros Hm0 Hlen.
  destruct (save_files st) as [|s0 [|s1 [|s2 [|s3 [|s4 [|s5 [|s6 [|s7 [|]]]]]]]]]
    eqn:Hfiles; try discriminate Hlen. clear Hlen.
  unfold mount_save_files, mount_order, mounted_regions. cbv zeta.
  destruct (bool_decide (get_cart_save_type st <> MemoryType.NONE));
    [mount_step|];
    (destruct (status_get TPAK_OPT st =? 0);
     destruct (status_get CPAK_OPT st =? 0);
     cbn [negb orb]; repeat mount_step; cbn [snd];
     repeat match goal with
            | H : status _ = _ |- _ => rewrite H
            | H : mounted_save_files _ = _ |- _ => rewrite H
            | H : save_files _ = _ |- _ => rewrite H
            end;
     rewrite ?Hm0; repeat split; reflexivity).
Qed.

(** ** Offsets of the mounted regions *)

Lemma get_cart_save_type_size st :
  get_cart_save_type st = MemoryType.NONE
  \/ 0 < get_save_size (get_cart_save_type st) <= 0x20000.
Proof.
  unfold get_cart_save_type.
  destruct (MemoryType_of_uint32 _); cbn; auto; right; lia.
Qed.

(** [get_save_file_offset] in closed form: the save-type region, if
    there is one, comes first, and every later slot is a pak. *)
Lemma get_save_file_offset_closed idx st :
  0 <= idx < 256 ->
  get_save_file_offset idx st
  = if idx =? 0 then 0
    else if bool_decide (get_cart_save_type st <> MemoryType.NONE)
         then get_save_size (get_cart_save_type st) + 0x8000 * (idx - 1)
         else 0x8000 * idx.
Proof.
  intros Hidx. unfold get_save_file_offset.
  destruct (Z.eqb_spec idx 0) as [->|Hnz]; [reflexivity|].
  assert (Hb : (idx =? 0) = false) by now apply Z.eqb_neq.
  cbn [negb andb]. change (get_save_size MemoryType.TPAK) with 0x8000.
  change (get_save_size MemoryType.CPAK) with 0x8000.
  assert (H8 : uint8 (idx - 1) = idx - 1)
    by (unfold uint8; apply Z.mod_small; lia).
  destruct (get_cart_save_type_size st) as [HT|HT].
  - rewrite HT. rewrite bool_decide_eq_false_2 by (intros H; now apply H).
    cbv beta iota. rewrite Hb. cbn [negb andb].
    destruct (negb (status_get TPAK_OPT st =? 0)); cbv beta iota;
      rewrite ?H8; unfold uint32; change (2 ^ 32) with 4294967296;
      Z.div_mod_to_equations; lia.
  - assert (Hne : get_cart_save_type st <> MemoryType.NONE)
      by (intros E; rewrite E in HT; cbn in HT; lia).
    rewrite bool_decide_eq_true_2 by exact Hne.
    set (size := get_save_size (get_cart_save_type st)) in *.
    cbv beta iota. rewrite H8.
    destruct (Z.eqb_spec (idx - 1) 0) as [E|E]; cbn [negb andb]; cbv beta iota.
    + unfold uint32. change (2 ^ 32) with 4294967296.
      Z.div_mod_to_equations. lia.
    + assert (H8' : uint8 (idx - 1 - 1) = idx - 1 - 1)
        by (unfold uint8; apply Z.mod_small; lia).
      destruct (negb (status_get TPAK_OPT st =? 0)); cbv beta iota;
        rewrite ?H8'; unfold uint32; change (2 ^ 32) with 4294967296;
        Z.div_mod_to_equations; lia.
Qed.


(** ** Ranges laid end to end *)

Lemma sum_take_S (sizes : list Z) i s :
  sizes !! i = Some s ->
  foldr Z.add 0 (take (S i) sizes) = foldr Z.add 0 (take i sizes) + s.
Proof.
  intros H. rewrite (take_S_r _ _ _ H), foldr_app. cbn.
  generalize (take i sizes). intros l. induction l as [|x l IH]; cbn; lia.
Qed.

Lemma sum_take_mono (sizes : list Z) i j :
  Forall (fun s => 0 < s) sizes -> (i <= j)%nat ->
  foldr Z.add 0 (take i sizes) <= foldr Z.add 0 (take j sizes).
Proof.
  intros Hpos Hij. induction Hij as [|j Hij IH]; [lia|].
  destruct (sizes !! j) as [s|] eqn:E.
  - rewrite (sum_take_S _ _ _ E).
    assert (0 < s) by (eapply (proj1 (Forall_lookup _ _) Hpos); eauto). lia.
  - apply lookup_ge_None in E. rewrite (take_ge sizes (S j)) by lia.
    now rewrite (take_ge sizes j) in IH by lia.
Qed.

(** Every position below the total lies in the range of some entry. *)
Lemma sum_take_covers (sizes : list Z) p :
  0 <= p < foldr Z.add 0 sizes ->
  exists i s, sizes !! i = Some s /\
    foldr Z.add 0 (take i sizes) <= p < foldr Z.add 0 (take i sizes) + s.
Proof.
  induction sizes as [|x sizes IH] using rev_ind; cbn; [lia|].
  intros Hp.
  assert (Hsum : foldr Z.add 0 (sizes ++ [x]) = foldr Z.add 0 sizes + x).
  { rewrite foldr_app. cbn. generalize sizes. intros l.
    induction l as [|y l IHl]; cbn; lia. }
  rewrite Hsum in Hp.
  destruct (Z.lt_ge_cases p (foldr Z.add 0 sizes)) as [Hlt|Hge].
  - destruct IH as (i & s & Hi & Hr); [lia|].
    exists i, s. split; [now apply lookup_app_l_Some|].
    rewrite take_app_le; [exact Hr|].
    apply lookup_lt_Some in Hi. lia.
  - exists (length sizes), x. split.
    + rewrite lookup_app_r by lia. now rewrite Nat.sub_diag.
    + rewrite take_app_length. lia.
Qed.

(** The offsets of the slots are the running sums of the sizes of the
    mounted regions, and every mounted region has a size. *)
Lemma mounted_offsets SAVE_DIR CoreName cpak_header name st :
  mounted_save_files st = 0 -> length (save_files st) = 8%nat ->
  let st' := snd (mount_save_files SAVE_DIR CoreName cpak_header name st) in
  let sizes := map SaveFile.get_size (mounted_regions st') in
  Forall (fun s => 0 < s) sizes /\
  (length sizes <= 5)%nat /\
  forall i, (i <= length sizes)%nat ->
    get_save_file_offset (Z.of_nat i) st' = foldr Z.add 0 (take i sizes).
Proof.
  intros Hm0 Hlen st' sizes.
  destruct (mount_save_files_registry SAVE_DIR CoreName cpak_header name st
              Hm0 Hlen) as (Hs & _ & Hr).
  fold st' in Hs, Hr. subst sizes. rewrite Hr.
  assert (Hoff : forall i, (i <= 5)%nat ->
            get_save_file_offset (Z.of_nat i) st'
            = if Z.of_nat i =? 0 then 0
              else if bool_decide (get_cart_save_type st <> MemoryType.NONE)
                   then get_save_size (get_cart_save_type st)
                        + 0x8000 * (Z.of_nat i - 1)
                   else 0x8000 * Z.of_nat i).
  { intros i Hi. rewrite (get_save_file_offset_status _ _ _ Hs).
    apply get_save_file_offset_closed. lia. }
  unfold mount_order.
  destruct (get_cart_save_type_size st) as [HT|HT];
    destruct (get_cart_save_type st); try discriminate HT;
    try (cbn in HT; lia); clear HT;
    [rewrite bool_decide_eq_false_2 in * by (intros H; now apply H)
    |rewrite bool_decide_eq_true_2 in * by discriminate..];
    destruct (negb (status_get TPAK_OPT st =? 0)),
             (negb (status_get CPAK_OPT st =? 0));
    cbn;
    (split; [repeat (apply List.Forall_cons; [lia|]); apply List.Forall_nil
            |split; [lia|]]);
    intros i Hi; rewrite Hoff by lia;
    do 6 (destruct i as [|i];
          [cbn [firstn fold_right get_save_size];
           match goal with
           | |- context [Z.of_nat ?k =? 0] =>
               destruct (Z.eqb_spec (Z.of_nat k) 0)
           end; lia|]);
    lia.
Qed.

Lemma lookup_map_sizes (regions : list SaveFile.t) i :
  map SaveFile.get_size regions !! i = SaveFile.get_size <$> regions !! i.
Proof.
  revert i. induction regions as [|r regions IH]; intros [|i]; cbn; auto.
Qed.

(** ** Out-of-range block I/O *)


Lemma take_repeat_le (x : Z) n m :
  (n <= m)%nat -> take n (repeat x m) = repeat x n.
Proof.
  revert m. induction n as [|n IH]; intros m Hnm; [reflexivity|].
  destruct m as [|m]; [lia|]. cbn. f_equal. apply IH. lia.
Qed.

Lemma pak_block_round_trip_witness :
  let st := snd (mount_save_files "saves" "N64" [] "games/mario.z64"
                   tpak_session) in
  let block := [0x11; 0x22; 0x33; 0x44; 0x55; 0x66] in
  let path := "saves/N64/mario_1.tpk" in
  (0 <= int64 (1 * 4) /\
   find_save_file 256 (int64 (1 * 4)) 0 st = Some (0, false) /\
   region_is_pak 0 st = true /\
   get_image 0 st = Some path /\
   Z.of_nat (length block) = 6 /\ 6 < 2 ^ 32 /\ 6 <= 8) /\
  exists buffer1 st1 buffer_lba2 buffer2 st2,
    n64_save_savedata 1 0 (repeat 0 8) 4 6 block st
    = Some (uint64 (-1), buffer1, st1) /\
    (0 < 6 ->
     FileReadAdv (Some path) (int64 (1 * 4) - get_save_file_offset 0 st) 6 st1
     = normalizeData block 6 DataFormat.LITTLE_ENDIAN) /\
    n64_load_savedata 1 0 (repeat 9 8) 8 4 6 st1
    = Some (buffer_lba2, buffer2, st2) /\
    io st2 = io st1 ++ [io_spi_w UIO_SECTOR_RD 0; io_spi_block_write block].
Proof.
  intros st block path.
  assert (H1 : 0 <= int64 (1 * 4)) by (vm_compute; discriminate).
  assert (H2 : find_save_file 256 (int64 (1 * 4)) 0 st = Some (0, false))
    by (vm_compute; reflexivity).
  assert (H3 : region_is_pak 0 st = true) by (vm_compute; reflexivity).
  assert (H4 : get_image 0 st = Some path) by (vm_compute; reflexivity).
  assert (H5 : Z.of_nat (length block) = 6) by reflexivity.
  assert (H6 : 6 < 2 ^ 32) by reflexivity.
  assert (H7 : 6 <= 8) by (vm_compute; discriminate).
  split; [repeat split; assumption|].
  exact (pak_block_round_trip 1 0 4 6 8 0 block (repeat 0 8) (repeat 9 8)
           path st H1 H2 H3 H4 H5 H6 H7).
Defined.

(** ** Detection leaves the devices alone *)

Lemma same_devices_refl st : same_devices st st.
Proof. repeat split. Qed.

Lemma same_devices_trans st1 st2 st3 :
  same_devices st1 st2 -> same_devices st2 st3 -> same_devices st1 st3.
Proof.
  unfold same_devices. intros (?&?&?&?&?&?) (?&?&?&?&?&?).
  repeat split; congruence.
Qed.

Lemma same_but_console_devices st st' :
  same_but_console st st' -> same_devices st st'.
Proof. intros (_&_&?&?&?&?&?&?). now repeat split. Qed.

Lemma same_devices_printf m st : same_devices st (printf m st).
Proof. repeat split. Qed.

Lemma same_devices_status_set o v st : same_devices st (status_set o v st).
Proof. repeat split. Qed.

Lemma same_devices_with_old_ar a st : same_devices st (with_old_ar a st).
Proof. repeat split. Qed.

(** Chains of option writes, slot updates and prints. *)
Ltac devices :=
  repeat first
    [ assumption
    | apply same_devices_refl
    | match goal with
      | |- same_devices _ (if ?b then _ else _) => destruct b
      | |- same_devices ?s (printf _ ?s') =>
          apply (same_devices_trans s s'); [|apply same_devices_printf]
      | |- same_devices ?s (status_set _ _ ?s') =>
          apply (same_devices_trans s s'); [|apply same_devices_status_set]
      | |- same_devices ?s (with_old_ar _ ?s') =>
          apply (same_devices_trans s s'); [|apply same_devices_with_old_ar]
      end ].

Lemma parse_and_apply_db_tags_devices tags st :
  same_devices st (snd (parse_and_apply_db_tags tags st)).
Proof.
  unfold parse_and_apply_db_tags.
  pose proof (parse_tags_console (strtok tags "| ") TagLocals_init st) as Hc.
  destruct (parse_tags (strtok tags "| ") TagLocals_init st) as [l st1].
  apply same_but_console_devices in Hc. cbn [snd] in Hc.
  destruct (negb _); cbn [snd]; unfold apply_wide, set_cart_save_type;
    devices.
Qed.

Lemma scan_db_md5_devices lookup_hash lines st :
  same_devices st (snd (scan_db_md5 lookup_hash lines st)).
Proof.
  induction lines as [|line lines IH]; [apply same_devices_refl|].
  cbn [scan_db_md5]. destruct (negb (md5_matches line lookup_hash)); [exact IH|].
  destruct (sscanf_tags _) as [tags|]; [|apply same_devices_printf].
  pose proof (parse_and_apply_db_tags_devices tags
                (printf (MsgFoundMD5 lookup_hash tags) st)) as H.
  destruct (parse_and_apply_db_tags tags _) as [ok st1]. cbn [snd] in *.
  eapply same_devices_trans; [apply same_devices_printf|exact H].
Qed.

Lemma scan_db_cartid_devices cart_id lines st :
  same_devices st (snd (scan_db_cartid cart_id lines st)).
Proof.
  induction lines as [|line lines IH]; [apply same_devices_refl|].
  cbn [scan_db_cartid]. destruct (cart_id_is_match line cart_id =? 0); [exact IH|].
  destruct (sscanf_tags _) as [tags|]; [|apply same_devices_printf].
  pose proof (parse_and_apply_db_tags_devices tags
                (printf (MsgFoundID cart_id tags) st)) as H.
  destruct (parse_and_apply_db_tags tags _) as [ok st1]. cbn [snd] in *.
  eapply same_devices_trans; [apply same_devices_printf|exact H].
Qed.

Lemma detect_rom_settings_in_dbs_with_md5_devices lookup_hash st :
  same_devices st (snd (detect_rom_settings_in_dbs_with_md5 lookup_hash st)).
Proof.
  unfold detect_rom_settings_in_dbs_with_md5.
  apply (in_dbs_inherits same_devices);
    [apply same_devices_refl|apply same_devices_trans|].
  intros name st'. unfold detect_rom_settings_in_db.
  destruct (db_files st' !! name);
    [apply scan_db_md5_devices|apply same_devices_printf].
Qed.

Lemma detect_rom_settings_in_dbs_with_cartid_devices lookup_id st :
  same_devices st (snd (detect_rom_settings_in_dbs_with_cartid lookup_id st)).
Proof.
  unfold detect_rom_settings_in_dbs_with_cartid.
  destruct (negb _); [apply same_devices_printf|].
  apply (in_dbs_inherits same_devices);
    [apply same_devices_refl|apply same_devices_trans|].
  intros name st'. unfold detect_rom_settings_in_db_with_cartid.
  destruct (db_files st' !! name);
    [apply scan_db_cartid_devices|apply same_devices_printf].
Qed.

Lemma detect_homebrew_header_devices controller_settings cart_id st :
  same_devices st (snd (detect_homebrew_header controller_settings cart_id st)).
Proof.
  unfold detect_homebrew_header.
  destruct (_ || _); [apply same_devices_refl|].
  destruct (negb _); cbn [snd];
    unfold homebrew_controller, set_cart_save_type; devices.
Qed.

Lemma detect_rom_settings_from_first_chunk_devices region_code signatures st :
  same_devices st
    (snd (detect_rom_settings_from_first_chunk region_code signatures st)).
Proof.
  unfold detect_rom_settings_from_first_chunk.
  set (system_type := if region_is_pal region_code then _ else _).
  pose proof (signature_loop_known signatures system_type st) as H.
  destruct (signature_loop 2 signatures system_type st) as [[[sys cic] known] st1].
  destruct H as [_ Hc]. apply same_but_console_devices in Hc.
  destruct (negb _); cbn [snd]; devices.
Qed.

Lemma default_settings_devices st : same_devices st (default_settings st).
Proof. unfold default_settings, set_cart_save_type. devices. Qed.

Lemma resolve_settings_devices detected md5_hex l st :
  same_devices st (snd (resolve_settings detected md5_hex l st)).
Proof.
  unfold resolve_settings.
  assert (Htail : forall (d : bool -> Z) st0, same_devices st st0 ->
            same_devices st
              (snd (let '(ok, st1) :=
                      detect_rom_settings_from_first_chunk
                        (c_at (cart_id l) 3) (bootcode_sums l) st0 in
                    (d ok, st1)))).
  { intros d st0 H0.
    pose proof (detect_rom_settings_from_first_chunk_devices
                  (c_at (cart_id l) 3) (bootcode_sums l) st0) as H.
    destruct (detect_rom_settings_from_first_chunk _ _ st0).
    eapply same_devices_trans; eauto. }
  assert (H1 : same_devices st
                 (snd (if detected =? 0
                       then detect_rom_settings_in_dbs_with_md5 md5_hex st
                       else (detected, st)))).
  { destruct (detected =? 0);
      [apply detect_rom_settings_in_dbs_with_md5_devices
      |apply same_devices_refl]. }
  destruct (if detected =? 0 then _ else _) as [d1 st1]. cbn [snd] in H1.
  destruct (d1 =? 0).
  - pose proof (detect_rom_settings_in_dbs_with_cartid_devices (cart_id l)
                  (printf (MsgNoInfoForFileHash md5_hex) st1)) as H2.
    destruct (detect_rom_settings_in_dbs_with_cartid _ _) as [d2 st2].
    cbn [snd] in H2.
    assert (H12 : same_devices st st2).
    { eapply same_devices_trans; [exact H1|].
      eapply same_devices_trans; [apply same_devices_printf|exact H2]. }
    clear H1 H2.
    destruct (d2 =? 0).
    + pose proof (detect_homebrew_header_devices (controller_settings l)
                    (cart_id l) st2) as H3.
      destruct (detect_homebrew_header _ _ st2) as [[|] st3]; cbn [snd] in H3.
      * destruct (_ || _); [|eapply same_devices_trans; eauto].
        apply (Htail (fun ok => if ok then Z.lor 2 1 else 2)).
        eapply same_devices_trans; eauto.
      * assert (H4 : same_devices st
                       (if is_auto (printf (MsgNoInfoForCartID (cart_id l)) st3)
                        then default_settings
                               (printf (MsgNoInfoForCartID (cart_id l)) st3)
                        else printf (MsgNoInfoForCartID (cart_id l)) st3)).
        { eapply same_devices_trans; [exact H12|].
          eapply same_devices_trans; [exact H3|].
          destruct (is_auto _).
          - eapply same_devices_trans;
              [apply same_devices_printf|apply default_settings_devices].
          - apply same_devices_printf. }
        destruct (_ || _); [|exact H4].
        apply (Htail (fun ok => if ok then Z.lor d2 1 else d2)). exact H4.
    + destruct (_ || _); [|exact H12].
      apply (Htail (fun ok => if ok then Z.lor d2 1 else d2)). exact H12.
  - destruct (d1 =? 2); [|exact H1].
    apply (Htail (fun ok => if ok then 3 else d1)). exact H1.
Qed.

(** ** The transfer loop *)

Lemma first_chunk_devices MD5 buf l st :
  same_devices st (snd (first_chunk MD5 buf l st)) /\
  rom_format (fst (first_chunk MD5 buf l st)) = rom_format l.
Proof.
  unfold first_chunk.
  pose proof (detect_rom_settings_in_dbs_with_md5_devices
                (md5_to_hex (MD5 (ctx l)))
                (printf (MsgHeaderMD5 (md5_to_hex (MD5 (ctx l)))) st)) as H.
  destruct (detect_rom_settings_in_dbs_with_md5 _ _) as [detected st1].
  cbn [snd] in H.
  assert (H1 : same_devices st st1)
    by (eapply same_devices_trans; [apply same_devices_printf|exact H]).
  destruct (negb (String.eqb _ _)); cbn [fst snd]; split; try reflexivity;
    devices.
Qed.

(** One round of the loop sends the chunk, normalized under the format
    of the first chunk, and keeps the registry. *)
Lemma rom_chunk_sends MD5 is_first_chunk buf l st l' st' :
  rom_chunk MD5 is_first_chunk buf l st = Some (l', st') ->
  let format :=
    if is_first_chunk then detectRomFormat buf else rom_format l in
  rom_format l' = format /\
  io st' = io st ++ [io_file_tx_data
                       (normalizeData buf (Z.of_nat (length buf)) format)] /\
  mounted_save_files st' = mounted_save_files st /\
  save_files st' = save_files st.
Proof.
  unfold rom_chunk. destruct (is_first_chunk && _); [discriminate|].
  cbv zeta.
  set (format := if is_first_chunk then detectRomFormat buf else rom_format l).
  set (l1 := mkRomLocals _ format _ _ _ _).
  destruct is_first_chunk.
  - destruct (first_chunk_devices MD5
                (normalizeData buf (Z.of_nat (length buf)) format) l1 st)
      as [(Hm & Hf & _ & _ & _ & Hio) Hfmt].
    destruct (first_chunk MD5 _ l1 st) as [l2 st2]. cbn [fst snd] in *.
    intros [= <- <-]. cbn [emit io mounted_save_files save_files].
    rewrite Hio, Hm, Hf. now repeat split.
  - intros [= <- <-]. now repeat split.
Qed.

Lemma rom_loop_later MD5 chunks l st l' st' :
  rom_loop MD5 false chunks l st = Some (l', st') ->
  io st' = io st
           ++ map (fun buf =>
                     io_file_tx_data
                       (normalizeData buf (Z.of_nat (length buf))
                          (rom_format l))) chunks /\
  mounted_save_files st' = mounted_save_files st /\
  save_files st' = save_files st.
Proof.
  revert l st. induction chunks as [|buf chunks IH]; intros l st.
  - intros [= <- <-]. rewrite app_nil_r. now repeat split.
  - cbn [rom_loop].
    destruct (rom_chunk MD5 false buf l st) as [[l1 st1]|] eqn:E;
      [|discriminate].
    destruct (rom_chunk_sends _ _ _ _ _ _ _ E) as (Hfmt & Hio & Hm & Hf).
    intros H. destruct (IH _ _ H) as (Hio' & Hm' & Hf').
    rewrite Hio', Hio, Hm', Hm, Hf', Hf, Hfmt, <- app_assoc.
    now repeat split.
Qed.

(** A whole transfer sends every chunk normalized under the format that
    [detectRomFormat] reads off the first one, and keeps the registry. *)
Lemma rom_loop_sends MD5 first chunks l st l' st' :
  rom_loop MD5 true (first :: chunks) l st = Some (l', st') ->
  io st' = io st
           ++ map (fun buf =>
                     io_file_tx_data
                       (normalizeData buf (Z.of_nat (length buf))
                          (detectRomFormat first))) (first :: chunks) /\
  mounted_save_files st' = mounted_save_files st /\
  save_files st' = save_files st.
Proof.
  cbn [rom_loop].
  destruct (rom_chunk MD5 true first l st) as [[l1 st1]|] eqn:E;
    [|discriminate].
  destruct (rom_chunk_sends _ _ _ _ _ _ _ E) as (Hfmt & Hio & Hm & Hf).
  intros H. destruct (rom_loop_later _ _ _ _ _ _ H) as (Hio' & Hm' & Hf').
  rewrite Hio', Hio, Hm', Hm, Hf', Hf, Hfmt, <- app_assoc.
  now repeat split.
Qed.

Lemma rom_loop_registry MD5 chunks l st l' st' :
  rom_loop MD5 true chunks l st = Some (l', st') ->
  mounted_save_files st' = mounted_save_files st /\
  save_files st' = save_files st.
Proof.
  destruct chunks as [|first chunks].
  - intros [= <- <-]. now split.
  - intros H. now destruct (rom_loop_sends _ _ _ _ _ _ _ H) as (_ & ? & ?).
Qed.

(** A loop that ran through, together with its result. *)
Lemma loop_to_end {A : Type} (run : option A) (d : A) :
  match run with Some _ => True | None => False end ->
  run = Some (default d run).
Proof. destruct run; [reflexivity|contradiction]. Qed.

(** C6. In one transfer, every chunk goes to the core normalized under
    the byte order that [detectRomFormat] reads off the first four
    bytes of the first chunk.  Normalizing keeps the length of a chunk
    and: byte-swapped data has the two bytes of every pair exchanged,
    little-endian data has the four bytes of every word reversed (bytes
    behind the last whole pair or word stay), big-endian and
    undetermined data is unchanged.  The word 0x40123780 is big-endian
    and leaves every chunk alone; the word 0x12408037 is byte-swapped
    and turns AA BB CC DD into BB AA DD CC. *)
Theorem normalize_by_first_chunk_word
  (MD5 : list Z -> list Z) (first : list Z) (rest : list (list Z))
  (l l' : RomLocals) (st st' : State) :
  rom_loop MD5 true (first :: rest) l st = Some (l', st') ->
  Forall (fun chunk => Z.of_nat (length chunk) < 2 ^ 32) (first :: rest) ->
  let format := detectRomFormat first in
  let sent chunk := normalizeData chunk (Z.of_nat (length chunk)) format in
  io st' = io st ++ map (fun chunk => io_file_tx_data (sent chunk))
                        (first :: rest) /\
  (forall chunk, In chunk (first :: rest) ->
     length (sent chunk) = length chunk /\
     (format = DataFormat.BYTE_SWAPPED ->
        (forall i, (2 * i + 1 < length chunk)%nat ->
           sent chunk !! (2 * i)%nat = chunk !! (2 * i + 1)%nat /\
           sent chunk !! (2 * i + 1)%nat = chunk !! (2 * i)%nat) /\
        (forall k, (2 * (length chunk / 2) <= k)%nat ->
           sent chunk !! k = chunk !! k)) /\
     (format = DataFormat.LITTLE_ENDIAN ->
        (forall i j, (4 * i + 3 < length chunk)%nat -> (j < 4)%nat ->
           sent chunk !! (4 * i + j)%nat = chunk !! (4 * i + (3 - j))%nat) /\
        (forall k, (4 * (length chunk / 4) <= k)%nat ->
           sent chunk !! k = chunk !! k)) /\
     (format = DataFormat.BIG_ENDIAN \/ format = DataFormat.UNKNOWN ->
        sent chunk = chunk)) /\
  (load32 first 0 = 0x40123780 ->
     format = DataFormat.BIG_ENDIAN /\
     forall chunk, sent chunk = chunk) /\
  (load32 first 0 = 0x12408037 ->
     format = DataFormat.BYTE_SWAPPED /\
     normalizeData [0xAA; 0xBB; 0xCC; 0xDD] 4 format
     = [0xBB; 0xAA; 0xDD; 0xCC]).
Proof.
  intros Hrun Hlen format sent.
  split; [exact (proj1 (rom_loop_sends _ _ _ _ _ _ _ Hrun))|].
  split; [|split].
  - intros chunk Hin.
    apply (normalizeData_by_format chunk format).
    exact (proj1 (List.Forall_forall _ _) Hlen chunk Hin).
  - intros Hv. assert (Hf : format = DataFormat.BIG_ENDIAN).
    { subst format. unfold detectRomFormat. now rewrite Hv. }
    split; [assumption|]. intros chunk. subst sent. cbv beta.
    now rewrite Hf.
  - intros Hv. assert (Hf : format = DataFormat.BYTE_SWAPPED).
    { subst format. unfold detectRomFormat. now rewrite Hv. }
    split; [assumption|]. now rewrite Hf.
Qed.

Lemma normalize_by_first_chunk_word_witness :
  let chunks := rom_chunks 2 example_rom_v64 in
  let l := mkRomLocals 0 DataFormat.UNKNOWN [] [0; 0] [0; 0; 0; 0] "" in
  let run := rom_loop toy_digest true chunks l example_session in
  (chunks = take 4096 example_rom_v64 :: [[0xAA; 0xBB; 0xCC; 0xDD]] /\
   run = Some (default (l, example_session) run) /\
   Forall (fun chunk => Z.of_nat (length chunk) < 2 ^ 32) chunks) /\
  io (default (l, example_session) run).2
  = map io_file_tx_data
      [normalizeData (take 4096 example_rom_v64) 4096
         DataFormat.BYTE_SWAPPED;
       [0xBB; 0xAA; 0xDD; 0xCC]].
Proof.
  intros chunks l run.
  assert (Hc : chunks = take 4096 example_rom_v64 :: [[0xAA; 0xBB; 0xCC; 0xDD]])
    by (vm_compute; reflexivity).
  assert (Hrun : run = Some (default (l, example_session) run)).
  { apply loop_to_end. vm_compute. exact I. }
  assert (Hlen : Forall (fun chunk => Z.of_nat (length chunk) < 2 ^ 32) chunks).
  { rewrite Hc. apply List.Forall_cons; [vm_compute; reflexivity|].
    apply List.Forall_cons; [vm_compute; reflexivity|]. apply List.Forall_nil. }
  split; [exact (conj Hc (conj Hrun Hlen))|].
  revert Hrun Hlen. rewrite Hc. intros Hrun Hlen.
  destruct (default (l, example_session) run) as [l' st'] eqn:E.
  destruct (normalize_by_first_chunk_word toy_digest _ _ l l'
              example_session st' Hrun Hlen) as (Hio & _).
  cbn [snd]. rewrite Hio. vm_compute. reflexivity.
Defined.

(** ** The state after a ROM load *)

Lemma get_cart_save_type_reset v st :
  get_cart_save_type (status_set RESET_OPT v st) = get_cart_save_type st.
Proof.
  unfold get_cart_save_type.
  rewrite status_get_status_set_other; auto; opt_side.
Qed.

Lemma get_save_file_offset_reset idx v st :
  get_save_file_offset idx (status_set RESET_OPT v st)
  = get_save_file_offset idx st.
Proof.
  unfold get_save_file_offset. rewrite get_cart_save_type_reset.
  rewrite (status_get_status_set_other RESET_OPT TPAK_OPT); auto; opt_side.
Qed.

Lemma mount_order_reset v st :
  mount_order (status_set RESET_OPT v st) = mount_order st.
Proof.
  unfold mount_order. rewrite get_cart_save_type_reset.
  rewrite (status_get_status_set_other RESET_OPT TPAK_OPT),
    (status_get_status_set_other RESET_OPT CPAK_OPT); auto; opt_side.
Qed.

Lemma unmount_all_save_files_registry st :
  mounted_save_files (unmount_all_save_files st) = 0 /\
  length (save_files (unmount_all_save_files st)) = 8%nat.
Proof. split; reflexivity. Qed.

(** After a ROM load that reached the end of [n64_rom_tx] on the N64
    path, the registry holds the regions of [mount_order] in their
    slots, every region has a size, and the offsets of the slots are
    the running sums of the sizes. *)
Lemma n64_rom_tx_layout SAVE_DIR CoreName cpak_header MD5 name idx st st' :
  Z.land idx 0x3f <> 2 ->
  n64_rom_tx SAVE_DIR CoreName cpak_header MD5 name idx st = (1, st') ->
  let regions := mounted_regions st' in
  let sizes := map SaveFile.get_size regions in
  mounted_save_files st' = Z.of_nat (length regions) /\
  regions
  = imap (fun slot type => SaveFile.mk (Z.of_nat slot) type) (mount_order st') /\
  Forall (fun s => 0 < s) sizes /\
  (length sizes <= 5)%nat /\
  forall i, (i <= length sizes)%nat ->
    get_save_file_offset (Z.of_nat i) st' = foldr Z.add 0 (take i sizes).
Proof.
  intros Hidx. unfold n64_rom_tx.
  destruct (files st !! name) as [data|]; [|discriminate].
  cbv zeta. destruct (Z.eqb_spec (Z.land idx 0x3f) 2) as [|_]; [contradiction|].
  set (st_u := unmount_all_save_files _).
  destruct (rom_loop MD5 true _ _ st_u) as [[l st_r]|] eqn:Eloop;
    [|discriminate].
  destruct (rom_loop_registry _ _ _ _ _ _ Eloop) as [Hm_r Hf_r].
  set (md5_hex := md5_to_hex (MD5 (ctx l))).
  pose proof (resolve_settings_devices (rom_settings_detected l) md5_hex l
                (printf (MsgFileMD5 md5_hex) st_r)) as (Hm_d & Hf_d & _).
  destruct (resolve_settings _ md5_hex l _) as [detected st_d].
  cbn [snd] in Hm_d, Hf_d.
  set (st_m := printf MsgDone st_d).
  assert (Hm0 : mounted_save_files st_m = 0)
    by (cbn; rewrite Hm_d; cbn; rewrite Hm_r; reflexivity).
  assert (Hlen : length (save_files st_m) = 8%nat)
    by (cbn; rewrite Hf_d; cbn; rewrite Hf_r; reflexivity).
  destruct (mount_save_files_registry SAVE_DIR CoreName cpak_header name st_m
              Hm0 Hlen) as (Hs & Hm & Hr).
  destruct (mounted_offsets SAVE_DIR CoreName cpak_header name st_m Hm0 Hlen)
    as (Hpos & Hle & Hoff).
  destruct (mount_save_files SAVE_DIR CoreName cpak_header name st_m)
    as [do_reset st_a]. cbn [snd] in Hs, Hm, Hr, Hpos, Hle, Hoff.
  assert (Horder : mount_order st_a = mount_order st_m)
    by (unfold mount_order, get_cart_save_type, status_get; now rewrite Hs).
  intros [= <-].
  set (st_e := emit (io_set_download false) st_a).
  assert (Hfinal :
            mounted_regions (if do_reset
                             then status_set RESET_OPT 0
                                    (status_set RESET_OPT 1 st_e)
                             else st_e) = mounted_regions st_a
            /\ mounted_save_files (if do_reset
                                   then status_set RESET_OPT 0
                                          (status_set RESET_OPT 1 st_e)
                                   else st_e) = mounted_save_files st_a
            /\ mount_order (if do_reset
                            then status_set RESET_OPT 0
                                   (status_set RESET_OPT 1 st_e)
                            else st_e) = mount_order st_a
            /\ forall i,
                get_save_file_offset i
                  (if do_reset
                   then status_set RESET_OPT 0 (status_set RESET_OPT 1 st_e)
                   else st_e) = get_save_file_offset i st_a).
  { destruct do_reset; repeat split; try reflexivity.
    - now rewrite !mount_order_reset.
    - intros i. now rewrite !get_save_file_offset_reset. }
  destruct Hfinal as (Hreg & Hmnt & Hord & Hoffs).
  cbv zeta. rewrite Hreg, Hmnt, Hord, Horder.
  split; [rewrite Hm, Hr; now rewrite length_imap|].
  split; [exact Hr|]. split; [exact Hpos|]. split; [exact Hle|].
  intros i Hi. rewrite Hoffs. now apply Hoff.
Qed.

(** A run whose return value is 1, together with its final state. *)
Lemma run_to_end {A : Type} (run : Z * A) : fst run = 1 -> run = (1, snd run).
Proof. destruct run as [r s]. cbn [fst snd]. now intros ->. Qed.

(** ** Regions laid end to end *)

(** Regions whose slot offsets are the running sums of their sizes
    start at 0, follow each other without gap or overlap, and cover
    every position below the total size exactly once. *)
Lemma running_sums_partition (regions : list SaveFile.t) (offset : nat -> Z) :
  Forall (fun s => 0 < s) (map SaveFile.get_size regions) ->
  (forall i, (i <= length regions)%nat ->
     offset i = foldr Z.add 0 (take i (map SaveFile.get_size regions))) ->
  offset 0%nat = 0 /\
  (forall slot r, regions !! slot = Some r ->
     0 < SaveFile.get_size r /\
     offset (S slot) = offset slot + SaveFile.get_size r) /\
  offset (length regions) = total_size regions /\
  (forall i j ri rj, (i < j)%nat ->
     regions !! i = Some ri -> regions !! j = Some rj ->
     offset i + SaveFile.get_size ri <= offset j) /\
  (forall p, 0 <= p < total_size regions ->
     exists slot r,
       regions !! slot = Some r /\
       offset slot <= p < offset slot + SaveFile.get_size r /\
       forall slot' r', regions !! slot' = Some r' ->
         offset slot' <= p < offset slot' + SaveFile.get_size r' ->
         slot' = slot).
Proof.
  intros Hpos Hoff.
  set (sizes := map SaveFile.get_size regions) in *.
  assert (Hsizes : length sizes = length regions) by apply length_map.
  assert (Hsize : forall slot r, regions !! slot = Some r ->
            sizes !! slot = Some (SaveFile.get_size r)).
  { intros slot r H. subst sizes. now rewrite lookup_map_sizes, H. }
  assert (Hnext : forall slot r, regions !! slot = Some r ->
            0 < SaveFile.get_size r /\
            offset (S slot) = offset slot + SaveFile.get_size r).
  { intros slot r H. pose proof (Hsize _ _ H) as Hs.
    pose proof (lookup_lt_Some _ _ _ Hs) as Hlt. split.
    - eapply (proj1 (Forall_lookup _ _) Hpos); eauto.
    - rewrite !Hoff by lia. now apply sum_take_S. }
  assert (Hdisj : forall i j ri rj, (i < j)%nat ->
            regions !! i = Some ri -> regions !! j = Some rj ->
            offset i + SaveFile.get_size ri <= offset j).
  { intros i j ri rj Hij Hi Hj.
    destruct (Hnext _ _ Hi) as [_ <-].
    pose proof (lookup_lt_Some _ _ _ (Hsize _ _ Hj)) as Hlt.
    rewrite !Hoff by lia. apply sum_take_mono; [exact Hpos|lia]. }
  split; [apply (Hoff 0%nat); lia|].
  split; [exact Hnext|]. split; [|split; [exact Hdisj|]].
  - rewrite Hoff by lia. now rewrite take_ge by lia.
  - intros p Hp. unfold total_size in Hp. fold sizes in Hp.
    destruct (sum_take_covers sizes p Hp) as (slot & s & Hs & Hin).
    pose proof (lookup_lt_Some _ _ _ Hs) as Hlt.
    destruct (regions !! slot) as [r|] eqn:Er.
    2:{ apply lookup_ge_None in Er. lia. }
    rewrite (Hsize _ _ Er) in Hs. injection Hs as <-.
    exists slot, r. split; [exact Er|].
    assert (Hslot : offset slot <= p < offset slot + SaveFile.get_size r)
      by (rewrite Hoff by lia; exact Hin).
    split; [exact Hslot|].
    intros slot' r' Hr' Hin'.
    destruct (Nat.lt_trichotomy slot' slot) as [Hlt'|[Heq|Hgt]];
      [|exact Heq|].
    + pose proof (Hdisj _ _ _ _ Hlt' Hr' Er). lia.
    + pose proof (Hdisj _ _ _ _ Hgt Er Hr'). lia.
Qed.

(** C1. After a ROM load (a run of [n64_rom_tx] to its end on the N64
    path), the registry holds the regions in the order save-type
    region, transfer-pak or first controller-pak region, further
    controller-pak regions, each in the slot of its position.  The
    offsets that [get_save_file_offset] gives to the slots start at 0
    and each is the end of the region before, so that the ranges
    [offset slot, offset slot + size) are gap-free, pairwise disjoint
    and end at the total size; every position below the total size
    lies in the range of exactly one region. *)
Theorem mounted_regions_partition_block_space
  (SAVE_DIR CoreName : string) (cpak_header : list (list Z))
  (MD5 : list Z -> list Z) (name : string) (idx : Z) (st st' : State) :
  Z.land idx 0x3f <> 2 ->
  n64_rom_tx SAVE_DIR CoreName cpak_header MD5 name idx st = (1, st') ->
  let regions := mounted_regions st' in
  let offset (slot : nat) := get_save_file_offset (Z.of_nat slot) st' in
  regions
  = imap (fun slot type => SaveFile.mk (Z.of_nat slot) type) (mount_order st') /\
  offset 0%nat = 0 /\
  (forall slot r, regions !! slot = Some r ->
     0 < SaveFile.get_size r /\
     offset (S slot) = offset slot + SaveFile.get_size r) /\
  offset (length regions) = total_size regions /\
  (forall i j ri rj, (i < j)%nat ->
     regions !! i = Some ri -> regions !! j = Some rj ->
     offset i + SaveFile.get_size ri <= offset j) /\
  (forall p, 0 <= p < total_size regions ->
     exists slot r,
       regions !! slot = Some r /\
       offset slot <= p < offset slot + SaveFile.get_size r /\
       forall slot' r', regions !! slot' = Some r' ->
         offset slot' <= p < offset slot' + SaveFile.get_size r' ->
         slot' = slot).
Proof.
  intros Hidx Hrun regions offset.
  destruct (n64_rom_tx_layout _ _ _ _ _ _ _ _ Hidx Hrun)
    as (_ & Hr & Hpos & _ & Hoff).
  fold regions in Hr, Hpos, Hoff. rewrite length_map in Hoff.
  split; [exact Hr|].
  apply running_sums_partition; [exact Hpos|exact Hoff].
Qed.

Lemma mounted_regions_partition_block_space_witness :
  let run := n64_rom_tx "saves" "N64" [] toy_digest "games/mario.z64" 0
               example_session in
  (Z.land 0 0x3f <> 2 /\ run = (1, snd run)) /\
  mounted_regions (snd run)
  = imap (fun slot type => SaveFile.mk (Z.of_nat slot) type)
      (mount_order (snd run)) /\
  get_save_file_offset (Z.of_nat 0) (snd run) = 0.
Proof.
  intros run.
  assert (H1 : Z.land 0 0x3f <> 2) by discriminate.
  assert (H2 : run = (1, snd run)).
  { apply run_to_end. vm_compute. reflexivity. }
  split; [split; assumption|].
  destruct (mounted_regions_partition_block_space "saves" "N64" []
              toy_digest "games/mario.z64" 0 example_session (snd run) H1 H2)
    as (Hr & H0 & _).
  split; [exact Hr|exact H0].
Defined.







(** * Further properties of the code *)

(** ** Characters *)

Lemma code_range c : 0 <= code c < 256.
Proof.
  unfold code. pose proof (N_ascii_bounded c) as H.
  change 256 with (Z.of_N 256). lia.
Qed.

Lemma code_ascii_of z : 0 <= z < 256 -> code (ascii_of_N (Z.to_N z)) = z.
Proof.
  intros H. unfold code. rewrite N_ascii_embedding by lia. lia.
Qed.

Lemma code_inj c d : code c = code d -> c = d.
Proof.
  unfold code. intros H. apply N2Z.inj in H.
  rewrite <- (ascii_N_embedding c), <- (ascii_N_embedding d). now rewrite H.
Qed.

Lemma tolower_range a : 0 <= a < 256 -> 0 <= tolower a < 256.
Proof. unfold tolower. destruct (_ && _) eqn:E; lia. Qed.

Lemma tolower_idem a : tolower (tolower a) = tolower a.
Proof.
  unfold tolower. destruct ((65 <=? a) && (a <=? 90)) eqn:E; [|now rewrite E].
  replace ((65 <=? a + 32) && (a + 32 <=? 90)) with false; [reflexivity|].
  symmetry. apply andb_false_iff. right. lia.
Qed.

Lemma tolower_0 a : (tolower a =? 0) = (a =? 0).
Proof.
  unfold tolower. destruct ((65 <=? a) && (a <=? 90)) eqn:E; [|reflexivity].
  apply andb_prop in E as [E1 E2]. lia.
Qed.

Lemma code_lower c : code (lower c) = tolower (code c).
Proof.
  unfold lower. apply code_ascii_of, tolower_range, code_range.
Qed.

(** ** Tag names *)

Lemma fnv_hash_from_lower s h :
  fnv_hash_from (lower_string s) h = fnv_hash_from s h.
Proof.
  revert h. induction s as [|c s IH]; intros h; [reflexivity|].
  cbn [lower_string fnv_hash_from]. cbv zeta.
  rewrite code_lower, tolower_0, tolower_idem.
  destruct (code c =? 0); [reflexivity|apply IH].
Qed.

Lemma fnv_hash_lower s t :
  lower_string s = lower_string t -> fnv_hash s = fnv_hash t.
Proof.
  intros H. unfold fnv_hash.
  now rewrite <- (fnv_hash_from_lower s), <- (fnv_hash_from_lower t), H.
Qed.

(** X1. Tag names are case-insensitive.  Two spellings with the same
    lower-case form have the same [fnv_hash], so they select the same
    case of the tag [switch]; and two token lists that agree up to
    letter case leave the token loop with the same settings. *)
Theorem tags_are_case_insensitive :
  (forall s t, lower_string s = lower_string t -> fnv_hash s = fnv_hash t) /\
  (forall s t l, lower_string s = lower_string t ->
     tag_case s l = tag_case t l) /\
  (forall toks toks' l st st',
     map lower_string toks = map lower_string toks' ->
     fst (parse_tags toks l st) = fst (parse_tags toks' l st')).
Proof.
  split; [exact fnv_hash_lower|].
  assert (Hcase : forall s t l, lower_string s = lower_string t ->
            tag_case s l = tag_case t l).
  { intros s t l H. unfold tag_case. now rewrite (fnv_hash_lower s t H). }
  split; [exact Hcase|].
  induction toks as [|s toks IH]; intros [|t toks'] l st st' H;
    try discriminate; [reflexivity|].
  injection H as Hs Ht. cbn [parse_tags].
  rewrite (Hcase s t l Hs).
  destruct (tag_case t l); now apply IH.
Qed.

(** ** Hash lines of the knowledge base *)

Lemma c_at_cons c s i : c_at (String c s) (S i) = c_at s i.
Proof. reflexivity. Qed.

Lemma c_at_str_plus_1 s i : c_at (str_plus s 1) i = c_at s (S i).
Proof. destruct s as [|a s]; [reflexivity|]. cbn [str_plus]. now rewrite str_plus_0. Qed.

Lemma c_at_beyond s i : (String.length s <= i)%nat -> c_at s i = Ascii.zero.
Proof.
  revert i. induction s as [|a s IH]; intros i H; [now destruct i|].
  cbn [String.length] in H. destruct i as [|i]; [lia|].
  rewrite c_at_cons. apply IH. lia.
Qed.

Lemma c_at_app_l p rest i :
  (i < String.length p)%nat -> c_at (p +:+ rest) i = c_at p i.
Proof.
  revert i. induction p as [|a p IH]; intros i H; cbn [String.length] in H;
    [lia|].
  change (String a p +:+ rest) with (String a (p +:+ rest)).
  destruct i as [|i]; [reflexivity|]. rewrite !c_at_cons. apply IH. lia.
Qed.

Lemma c_at_lower_string s i : c_at (lower_string s) i = lower (c_at s i).
Proof.
  revert i. induction s as [|a s IH]; intros i; [now destruct i|].
  cbn [lower_string]. destruct i as [|i]; [reflexivity|].
  rewrite !c_at_cons. apply IH.
Qed.

Lemma length_lower_string s : String.length (lower_string s) = String.length s.
Proof. induction s as [|a s IH]; [reflexivity|]. cbn. now rewrite IH. Qed.

Lemma md5_matches_from_spec n line md5 :
  md5_matches_from n line md5 = true <->
  forall i, (i < n)%nat ->
    code (c_at line i) <> 0 /\
    code (c_at md5 i) = tolower (code (c_at line i)).
Proof.
  revert line md5. induction n as [|n IH]; intros line md5.
  - split; [intros _ i Hi; lia|reflexivity].
  - cbn [md5_matches_from]. cbv zeta.
    destruct (code (c_at line 0) =? 0) eqn:E0.
    { cbn [orb]. split; [discriminate|]. intros H.
      destruct (H 0%nat ltac:(lia)) as [H0 _]. apply Z.eqb_eq in E0. lia. }
    destruct (code (c_at md5 0) =? tolower (code (c_at line 0))) eqn:E1.
    + cbn [orb negb]. rewrite IH. split.
      * intros H [|i] Hi.
        -- split; [now apply Z.eqb_neq|now apply Z.eqb_eq].
        -- rewrite <- !c_at_str_plus_1. apply H. lia.
      * intros H i Hi. rewrite !c_at_str_plus_1. apply H. lia.
    + cbn [orb negb]. split; [discriminate|]. intros H.
      destruct (H 0%nat ltac:(lia)) as [_ H1]. apply Z.eqb_neq in E1. lia.
Qed.

(** X2. [md5_matches] accepts a line exactly when each of its first 32
    characters is present and, put in lower case, equals the character
    of the lookup hash at its position.  A line of fewer than 32
    characters is never accepted; what follows the 32 characters does
    not matter. *)
Theorem md5_matches_first_32_characters (line md5 : string) :
  (md5_matches line md5 = true <->
   forall i, (i < 32)%nat ->
     code (c_at line i) <> 0 /\
     code (c_at md5 i) = tolower (code (c_at line i))) /\
  ((String.length line < 32)%nat -> md5_matches line md5 = false) /\
  (forall p rest rest', String.length p = 32%nat ->
     md5_matches (p +:+ rest) md5 = md5_matches (p +:+ rest') md5).
Proof.
  assert (Hspec : forall line, md5_matches line md5 = true <->
            forall i, (i < 32)%nat ->
              code (c_at line i) <> 0 /\
              code (c_at md5 i) = tolower (code (c_at line i)))
    by (intros l; apply (md5_matches_from_spec 32)).
  split; [apply Hspec|]. split.
  - intros Hlen. apply not_true_is_false. intros H.
    destruct (proj1 (Hspec line) H (String.length line) Hlen) as [H0 _].
    now rewrite c_at_beyond in H0 by lia.
  - intros p rest rest' Hp.
    assert (Hdir : forall r r', md5_matches (p +:+ r) md5 = true ->
              md5_matches (p +:+ r') md5 = true).
    { intros r r' H. apply Hspec. intros i Hi.
      rewrite c_at_app_l by lia.
      rewrite <- (c_at_app_l p r) by lia. now apply Hspec. }
    destruct (md5_matches (p +:+ rest) md5) eqn:E1,
             (md5_matches (p +:+ rest') md5) eqn:E2; try reflexivity.
    + now rewrite (Hdir _ rest' E1) in E2.
    + now rewrite (Hdir _ rest E2) in E1.
Qed.

(** ** Hexadecimal digits *)

Lemma code_hex_digit upper d :
  0 <= d < 16 ->
  code (hex_digit upper d)
  = if d <? 10 then 48 + d else (if upper then 65 else 97) + d - 10.
Proof.
  intros H. unfold hex_digit. apply code_ascii_of.
  destruct (d <? 10) eqn:E; [lia|]. apply Z.ltb_ge in E. destruct upper; lia.
Qed.

Lemma hex_to_dec_hex_digit upper d :
  0 <= d < 16 -> hex_to_dec (hex_digit upper d) = d.
Proof.
  intros H. unfold hex_to_dec. cbv zeta. rewrite code_hex_digit by assumption.
  destruct (d <? 10) eqn:E.
  - apply Z.ltb_lt in E.
    replace ((48 <=? 48 + d) && (48 + d <=? 57)) with true; [lia|].
    symmetry. apply andb_true_iff. lia.
  - apply Z.ltb_ge in E. destruct upper.
    + replace ((48 <=? 65 + d - 10) && (65 + d - 10 <=? 57)) with false
        by (symmetry; apply andb_false_iff; lia).
      replace ((65 <=? 65 + d - 10) && (65 + d - 10 <=? 70)) with true
        by (symmetry; apply andb_true_iff; lia).
      lia.
    + replace ((48 <=? 97 + d - 10) && (97 + d - 10 <=? 57)) with false
        by (symmetry; apply andb_false_iff; lia).
      replace ((65 <=? 97 + d - 10) && (97 + d - 10 <=? 70)) with false
        by (symmetry; apply andb_false_iff; lia).
      replace ((97 <=? 97 + d - 10) && (97 + d - 10 <=? 102)) with true
        by (symmetry; apply andb_true_iff; lia).
      lia.
Qed.

Lemma lower_hex_digit d : 0 <= d < 16 -> lower (hex_digit false d) = hex_digit false d.
Proof.
  intros H. apply code_inj. rewrite code_lower, code_hex_digit by assumption.
  unfold tolower. destruct (d <? 10) eqn:E.
  - apply Z.ltb_lt in E.
    replace ((65 <=? 48 + d) && (48 + d <=? 90)) with false; [reflexivity|].
    symmetry. apply andb_false_iff. lia.
  - apply Z.ltb_ge in E.
    replace ((65 <=? 97 + d - 10) && (97 + d - 10 <=? 90)) with false;
      [reflexivity|].
    symmetry. apply andb_false_iff. lia.
Qed.

(** The string of [sprintf("%02x")] calls on the bytes [g k], [k] in [l]. *)
Lemma hex_concat_cons upper (g : nat -> Z) k l :
  String.concat "" (map (fun i => hex_byte upper (g i)) (k :: l))
  = String (hex_digit upper (g k / 16))
      (String (hex_digit upper (g k mod 16))
         (String.concat "" (map (fun i => hex_byte upper (g i)) l))).
Proof. destruct l; reflexivity. Qed.

Lemma hex_concat_length upper (g : nat -> Z) l :
  String.length (String.concat "" (map (fun i => hex_byte upper (g i)) l))
  = (2 * length l)%nat.
Proof.
  induction l as [|k l IH]; [reflexivity|].
  rewrite hex_concat_cons. cbn [String.length length]. rewrite IH. lia.
Qed.

Lemma hex_concat_at upper (g : nat -> Z) l i :
  (i < length l)%nat ->
  let s := String.concat "" (map (fun i => hex_byte upper (g i)) l) in
  c_at s (2 * i) = hex_digit upper (g (nth i l O) / 16) /\
  c_at s (2 * i + 1) = hex_digit upper (g (nth i l O) mod 16).
Proof.
  revert i. induction l as [|k l IH]; intros i Hi; cbn [length] in Hi; [lia|].
  cbv zeta. rewrite hex_concat_cons. destruct i as [|i].
  - split; reflexivity.
  - replace (2 * S i)%nat with (S (S (2 * i))) by lia.
    replace (S (S (2 * i)) + 1)%nat with (S (S (2 * i + 1))) by lia.
    rewrite !c_at_cons. cbn [nth]. apply IH. lia.
Qed.

Lemma byte_at_range md5 i :
  Forall (fun b => 0 <= b < 256) md5 -> 0 <= byte_at md5 i < 256.
Proof.
  intros H. unfold byte_at. destruct (md5 !! i) as [b|] eqn:E; cbn; [|lia].
  exact (proj1 (Forall_lookup _ _) H i b E).
Qed.

(** X3. For a digest of bytes, [md5_to_hex] gives 32 lower-case
    hexadecimal digits, two per byte, high digit first: [hex_to_dec]
    reads each byte back from its two digits.  A line that starts with
    the digest, spelled in any mix of letter cases, passes
    [md5_matches] against the string. *)
Theorem md5_to_hex_digits (md5 : list Z) :
  Forall (fun b => 0 <= b < 256) md5 ->
  let hex := md5_to_hex md5 in
  String.length hex = 32%nat /\
  lower_string hex = hex /\
  (forall i, (i < 16)%nat ->
     16 * hex_to_dec (c_at hex (2 * i)) + hex_to_dec (c_at hex (2 * i + 1))
     = byte_at md5 i) /\
  (forall p rest, lower_string p = hex -> md5_matches (p +:+ rest) hex = true).
Proof.
  intros Hb hex.
  assert (Hlen : String.length hex = 32%nat).
  { subst hex. unfold md5_to_hex. now rewrite hex_concat_length. }
  assert (Hat : forall i, (i < 16)%nat ->
            c_at hex (2 * i) = hex_digit false (byte_at md5 i / 16) /\
            c_at hex (2 * i + 1) = hex_digit false (byte_at md5 i mod 16)).
  { intros i Hi. subst hex. unfold md5_to_hex.
    change (Z.to_nat MD5_LENGTH) with 16%nat.
    pose proof (hex_concat_at false (byte_at md5) (seq 0 16) i) as H.
    rewrite length_seq in H. specialize (H Hi). cbv zeta in H.
    now rewrite seq_nth in H by assumption. }
  assert (Hdigit : forall i, (i < 32)%nat ->
            exists d, 0 <= d < 16 /\ c_at hex i = hex_digit false d).
  { intros i Hi. pose proof (byte_at_range md5 (i / 2) Hb) as Hr.
    destruct (Hat (i / 2)%nat) as [H0 H1];
      [apply Nat.Div0.div_lt_upper_bound; lia|].
    pose proof (Nat.div_mod_eq i 2) as Hd.
    pose proof (Nat.mod_upper_bound i 2 ltac:(lia)) as Hm.
    destruct (i mod 2)%nat as [|[|?]] eqn:Em; [| |lia].
    - exists (byte_at md5 (i / 2) / 16). split.
      + split; [apply Z.div_pos; lia|apply Z.div_lt_upper_bound; lia].
      + now replace i with (2 * (i / 2))%nat at 1 by lia.
    - exists (byte_at md5 (i / 2) mod 16). split.
      + apply Z.mod_pos_bound. lia.
      + now replace i with (2 * (i / 2) + 1)%nat at 1 by lia. }
  assert (Hlow : forall i, lower (c_at hex i) = c_at hex i).
  { intros i. destruct (Nat.lt_ge_cases i 32) as [Hi|Hi].
    - destruct (Hdigit i Hi) as (d & Hd & ->). now apply lower_hex_digit.
    - rewrite c_at_beyond by lia. reflexivity. }
  split; [exact Hlen|]. split; [|split].
  - clear -Hlow. revert Hlow. generalize hex. clear hex.
    induction hex as [|c s IH]; intros H; [reflexivity|].
    cbn [lower_string]. f_equal.
    + apply (H 0%nat).
    + apply IH. intros i. apply (H (S i)).
  - intros i Hi. destruct (Hat i Hi) as [-> ->].
    pose proof (byte_at_range md5 i Hb) as Hr.
    rewrite !hex_to_dec_hex_digit.
    + pose proof (Z.div_mod (byte_at md5 i) 16). lia.
    + apply Z.mod_pos_bound. lia.
    + split; [apply Z.div_pos; lia|apply Z.div_lt_upper_bound; lia].
  - intros p rest Hp.
    assert (Hplen : String.length p = 32%nat)
      by (rewrite <- length_lower_string, Hp; exact Hlen).
    apply (md5_matches_from_spec 32). intros i Hi.
    rewrite c_at_app_l by lia.
    assert (Hc : c_at hex i = lower (c_at p i))
      by (rewrite <- Hp; apply c_at_lower_string).
    destruct (Hdigit i Hi) as (d & Hd & Hx).
    assert (Hnz : code (c_at hex i) <> 0).
    { rewrite Hx, code_hex_digit by assumption.
      destruct (d <? 10); lia. }
    rewrite Hc, code_lower in Hnz |- *. split; [|reflexivity].
    intros H0. rewrite H0 in Hnz. now apply Hnz.
Qed.

Lemma md5_to_hex_digits_witness :
  let md5 := [0xd4; 0x1d; 0x8c; 0xd9; 0x8f; 0x00; 0xb2; 0x04;
              0xe9; 0x80; 0x09; 0x98; 0xec; 0xf8; 0x42; 0x7e] in
  Forall (fun b => 0 <= b < 256) md5 /\
  md5_to_hex md5 = "d41d8cd98f00b204e9800998ecf8427e" /\
  md5_matches "D41D8CD98F00B204E9800998ECF8427E ntsc" (md5_to_hex md5) = true.
Proof.
  intros md5.
  assert (Hb : Forall (fun b => 0 <= b < 256) md5)
    by (repeat (apply List.Forall_cons; [lia|]); apply List.Forall_nil).
  split; [exact Hb|]. split; [reflexivity|].
  destruct (md5_to_hex_digits md5 Hb) as (_ & _ & _ & Hm).
  apply (Hm "D41D8CD98F00B204E9800998ECF8427E" " ntsc"). reflexivity.
Defined.

(** ** The save-type option *)

Lemma status_get_bound o st :
  0 <= opt_width o -> 0 <= status_get o st < 2 ^ opt_width o.
Proof. apply status_get_range. Qed.

(** X4. The save-type option holds what [set_cart_save_type] stores:
    each of the five cartridge save types and [NONE] is read back by
    [get_cart_save_type] as itself, and [UNKNOWN] as [NONE].  Whatever
    the option holds, [get_cart_save_type] returns one of these six
    values, never a pak type; and storing what was read changes nothing
    that is read later. *)
Theorem cart_save_type_round_trip (st : State) :
  (forall v,
     v <> MemoryType.CPAK -> v <> MemoryType.TPAK ->
     get_cart_save_type (set_cart_save_type v st)
     = if bool_decide (v = MemoryType.UNKNOWN) then MemoryType.NONE else v) /\
  In (get_cart_save_type st)
     [MemoryType.NONE; MemoryType.EEPROM_512; MemoryType.EEPROM_2k;
      MemoryType.SRAM_32k; MemoryType.SRAM_96k; MemoryType.FLASH_128k] /\
  get_cart_save_type (set_cart_save_type (get_cart_save_type st) st)
  = get_cart_save_type st.
Proof.
  assert (Hset : forall v,
            v <> MemoryType.CPAK -> v <> MemoryType.TPAK ->
            get_cart_save_type (set_cart_save_type v st)
            = if bool_decide (v = MemoryType.UNKNOWN) then MemoryType.NONE
              else v).
  { intros v Hc Ht. unfold get_cart_save_type, set_cart_save_type.
    rewrite status_get_status_set_same by opt_side.
    destruct v; try contradiction; reflexivity. }
  assert (Hin : In (get_cart_save_type st)
            [MemoryType.NONE; MemoryType.EEPROM_512; MemoryType.EEPROM_2k;
             MemoryType.SRAM_32k; MemoryType.SRAM_96k; MemoryType.FLASH_128k]).
  { unfold get_cart_save_type.
    pose proof (status_get_bound SAVE_TYPE_OPT st ltac:(opt_side)) as Hr.
    change (2 ^ opt_width SAVE_TYPE_OPT) with 8 in Hr.
    set (x := status_get SAVE_TYPE_OPT st) in *.
    assert (Hx : x = 0 \/ x = 1 \/ x = 2 \/ x = 3 \/ x = 4 \/ x = 5
                 \/ x = 6 \/ x = 7) by lia.
    destruct Hx as [->|[->|[->|[->|[->|[->|[->| ->]]]]]]]; cbn; tauto. }
  split; [exact Hset|]. split; [exact Hin|].
  rewrite Hset.
  - cbn in Hin. destruct Hin as [<-|[<-|[<-|[<-|[<-|[<-|[]]]]]]]; reflexivity.
  - intros E. rewrite E in Hin. cbn in Hin.
    repeat (destruct Hin as [Hin|Hin]; [discriminate|]). exact Hin.
  - intros E. rewrite E in Hin. cbn in Hin.
    repeat (destruct Hin as [Hin|Hin]; [discriminate|]). exact Hin.
Qed.

(** ** The homebrew header *)

Lemma status_get_printf o m st : status_get o (printf m st) = status_get o st.
Proof. reflexivity. Qed.

Lemma status_get_with_old_ar o a st :
  status_get o (with_old_ar a st) = status_get o st.
Proof. reflexivity. Qed.

Lemma homebrew_controller_other cs i o st :
  (i < 4)%nat -> 0 <= opt_lo o -> 0 <= opt_width o ->
  opt_hi o < 49 \/ 60 < opt_lo o ->
  status_get o (homebrew_controller cs i st) = status_get o st.
Proof.
  intros Hi Hlo Hw Hd. unfold homebrew_controller. cbv zeta.
  assert (Hset : forall v,
            status_get o (status_set (CONTROLLER_OPT i) v st) = status_get o st).
  { intros v. apply status_get_status_set_other; try assumption;
      destruct i as [|[|[|[|?]]]]; try lia; opt_side. }
  destruct (_ && _); [|reflexivity].
  destruct (_ <? _); [apply Hset|].
  destruct (_ =? _); [apply Hset|reflexivity].
Qed.

Lemma get_cart_save_type_set v st :
  In v [MemoryType.NONE; MemoryType.EEPROM_512; MemoryType.EEPROM_2k;
        MemoryType.SRAM_32k; MemoryType.SRAM_96k; MemoryType.FLASH_128k] ->
  get_cart_save_type (set_cart_save_type v st) = v.
Proof.
  intros Hin. unfold get_cart_save_type, set_cart_save_type.
  rewrite status_get_status_set_same by opt_side.
  cbn in Hin. destruct Hin as [<-|[<-|[<-|[<-|[<-|[<-|[]]]]]]]; reflexivity.
Qed.

(** The cart ID that the first chunk yields when its header carries a
    game code. *)
Lemma first_chunk_cart_id MD5 buf l st :
  String.eqb (read_cart_id buf) "????" = false ->
  cart_id (fst (first_chunk MD5 buf l st))
  = read_cart_id buf +:+ hex_byte true (byte_at buf 0x3f).
Proof.
  intros H. unfold first_chunk.
  destruct (detect_rom_settings_in_dbs_with_md5 _ _) as [detected st1].
  rewrite H. reflexivity.
Qed.

(** X5. A ROM whose header carries ['E'] and ['D'] at 0x3c and 0x3d is
    a homebrew ROM: with auto-detection on, [detect_homebrew_header] on
    the cart ID of its first chunk succeeds, takes the save type from
    the high half of the byte at 0x3f (1 to 5 are the five cartridge
    save types in order, anything else none) and the clock from the
    lowest bit of that byte, and turns the rumble, controller and
    transfer pak on exactly if one of the four controller bytes asks
    for it. *)
Theorem homebrew_header_settings
  (MD5 : list Z -> list Z) (buf controller_settings : list Z)
  (l : RomLocals) (st0 st : State) :
  byte_at buf 0x3c = 69 -> byte_at buf 0x3d = 68 ->
  0 <= byte_at buf 0x3f < 256 ->
  is_auto st = true ->
  let version := byte_at buf 0x3f in
  let r := detect_homebrew_header controller_settings
             (cart_id (fst (first_chunk MD5 buf l st0))) st in
  fst r = true /\
  get_cart_save_type (snd r)
  = (if version / 16 =? 1 then MemoryType.EEPROM_512
     else if version / 16 =? 2 then MemoryType.EEPROM_2k
     else if version / 16 =? 3 then MemoryType.SRAM_32k
     else if version / 16 =? 4 then MemoryType.SRAM_96k
     else if version / 16 =? 5 then MemoryType.FLASH_128k
     else MemoryType.NONE) /\
  status_get RTC_OPT (snd r) = version mod 2 /\
  status_get RPAK_OPT (snd r)
  = bool_to_uint32 (any_controller controller_settings 1) /\
  status_get CPAK_OPT (snd r)
  = bool_to_uint32 (any_controller controller_settings 2) /\
  status_get TPAK_OPT (snd r)
  = bool_to_uint32 (any_controller controller_settings 3) /\
  is_auto (snd r) = true.
Proof.
  intros HE HD Hv Hauto version r.
  assert (Hid : cart_id (fst (first_chunk MD5 buf l st0))
                = read_cart_id buf +:+ hex_byte true version).
  { apply first_chunk_cart_id. unfold read_cart_id. cbv zeta. rewrite HE.
    change (if isalnum (ascii_of_N (Z.to_N 69))
            then ascii_of_N (Z.to_N 69) else "?"%char) with "E"%char.
    apply String.eqb_neq. intros E. injection E as _ E _ _. discriminate E. }
  assert (H1 : c_at (cart_id (fst (first_chunk MD5 buf l st0))) 1 = "E"%char).
  { rewrite Hid. unfold read_cart_id. cbv zeta. rewrite HE. reflexivity. }
  assert (H2 : c_at (cart_id (fst (first_chunk MD5 buf l st0))) 2 = "D"%char).
  { rewrite Hid. unfold read_cart_id. cbv zeta. rewrite HD. reflexivity. }
  assert (H4 : hex_to_dec (c_at (cart_id (fst (first_chunk MD5 buf l st0))) 4)
               = version / 16).
  { rewrite Hid. unfold read_cart_id. cbv zeta.
    change (c_at _ 4) with (hex_digit true (version / 16)).
    apply hex_to_dec_hex_digit.
    split; [apply Z.div_pos; lia|apply Z.div_lt_upper_bound; lia]. }
  assert (H5 : hex_to_dec (c_at (cart_id (fst (first_chunk MD5 buf l st0))) 5)
               = version mod 16).
  { rewrite Hid. unfold read_cart_id. cbv zeta.
    change (c_at _ 5) with (hex_digit true (version mod 16)).
    apply hex_to_dec_hex_digit. apply Z.mod_pos_bound. lia. }
  subst r. unfold detect_homebrew_header.
  rewrite H1, H2, H4, H5.
  change (Ascii.eqb "E" "E") with true. change (Ascii.eqb "D" "D") with true.
  cbn [negb orb]. cbv zeta.
  replace (is_auto (printf MsgHomebrewHeader st)) with true
    by (symmetry; exact Hauto).
  cbn [negb fst snd].
  set (T := if version / 16 =? 1 then MemoryType.EEPROM_512 else _).
  assert (HT : In T [MemoryType.NONE; MemoryType.EEPROM_512;
                      MemoryType.EEPROM_2k; MemoryType.SRAM_32k;
                      MemoryType.SRAM_96k; MemoryType.FLASH_128k]).
  { subst T. repeat destruct (_ =? _); cbn; tauto. }
  set (st2 := set_cart_save_type T (printf MsgHomebrewHeader st)).
  assert (Hsave : get_cart_save_type st2 = T).
  { subst st2. now apply get_cart_save_type_set. }
  split; [reflexivity|]. cbn [fst snd].
  unfold get_cart_save_type in Hsave |- *. unfold is_auto.
  rewrite !homebrew_controller_other by (lia || opt_side).
  repeat first
    [ rewrite status_get_status_set_same by opt_side
    | rewrite status_get_status_set_other by opt_side
    | rewrite status_get_printf ].
  split; [exact Hsave|]. split.
  { change (Z.ones (opt_width RTC_OPT)) with 1.
    change 1 with (Z.ones 1) at 1 2. rewrite !Z.land_ones by lia.
    change (2 ^ 1) with 2. Z.div_mod_to_equations. lia. }
  assert (Hb : forall b : bool,
            Z.land (bool_to_uint32 b) (Z.ones 1) = bool_to_uint32 b)
    by (now intros []).
  change (opt_width RPAK_OPT) with 1. change (opt_width CPAK_OPT) with 1.
  change (opt_width TPAK_OPT) with 1. rewrite !Hb.
  repeat split.
  unfold set_cart_save_type in st2. subst st2.
  rewrite status_get_status_set_other by opt_side.
  exact Hauto.
Qed.

Lemma homebrew_header_settings_witness :
  let buf := homebrew_rom_header in
  let cs := take 4 (drop 0x34 buf) in
  let r := detect_homebrew_header cs
             (cart_id (fst (first_chunk toy_digest buf RomLocals_init
                              power_on))) power_on in
  (byte_at buf 0x3c = 69 /\ byte_at buf 0x3d = 68 /\
   0 <= byte_at buf 0x3f < 256 /\ is_auto power_on = true) /\
  get_cart_save_type (snd r) = MemoryType.SRAM_32k /\
  status_get RTC_OPT (snd r) = 1 /\
  status_get RPAK_OPT (snd r) = 1.
Proof.
  intros buf cs r.
  assert (HE : byte_at buf 0x3c = 69) by reflexivity.
  assert (HD : byte_at buf 0x3d = 68) by reflexivity.
  assert (Hv : 0 <= byte_at buf 0x3f < 256) by (vm_compute; split; [discriminate|reflexivity]).
  assert (Ha : is_auto power_on = true) by reflexivity.
  split; [exact (conj HE (conj HD (conj Hv Ha)))|].
  destruct (homebrew_header_settings toy_digest buf cs RomLocals_init
              power_on power_on HE HD Hv Ha)
    as (_ & Hsave & Hrtc & Hrpak & _).
  split; [exact Hsave|]. split; [exact Hrtc|exact Hrpak].
Defined.

(** ** Dump formats *)

Lemma load32_cons4 b0 b1 b2 b3 rest :
  load32 (b0 :: b1 :: b2 :: b3 :: rest) 0
  = b0 + b1 * 2 ^ 8 + b2 * 2 ^ 16 + b3 * 2 ^ 24.
Proof. reflexivity. Qed.

Lemma swap16_two n b0 b1 b2 b3 rest :
  (2 <= n)%nat ->
  exists rest', swap16 n (b0 :: b1 :: b2 :: b3 :: rest)
                = b1 :: b0 :: b3 :: b2 :: rest'.
Proof.
  intros H. destruct n as [|[|n]]; try lia. now exists (swap16 n rest).
Qed.

Lemma swap32_one n b0 b1 b2 b3 rest :
  (1 <= n)%nat ->
  exists rest', swap32 n (b0 :: b1 :: b2 :: b3 :: rest)
                = b3 :: b2 :: b1 :: b0 :: rest'.
Proof.
  intros H. destruct n as [|n]; try lia. now exists (swap32 n rest).
Qed.

(** The first word of a buffer of at least four bytes after
    normalization, by format. *)
Lemma normalized_first_word data format :
  Forall (fun b => 0 <= b < 256) data ->
  (4 <= length data)%nat -> Z.of_nat (length data) < 2 ^ 32 ->
  exists b0 b1 b2 b3 rest rest',
    data = b0 :: b1 :: b2 :: b3 :: rest /\
    0 <= b0 < 256 /\ 0 <= b1 < 256 /\ 0 <= b2 < 256 /\ 0 <= b3 < 256 /\
    normalizeData data (Z.of_nat (length data)) format
    = match format with
      | DataFormat.BYTE_SWAPPED => b1 :: b0 :: b3 :: b2 :: rest'
      | DataFormat.LITTLE_ENDIAN => b3 :: b2 :: b1 :: b0 :: rest'
      | _ => data
      end.
Proof.
  intros Hb Hlen Hsz.
  destruct data as [|b0 [|b1 [|b2 [|b3 rest]]]]; cbn [length] in Hlen; try lia.
  apply Forall_cons in Hb as [H0 Hb]. apply Forall_cons in Hb as [H1 Hb].
  apply Forall_cons in Hb as [H2 Hb]. apply Forall_cons in Hb as [H3 Hb].
  set (data := b0 :: b1 :: b2 :: b3 :: rest) in *.
  assert (Hs : 0 <= Z.of_nat (length data) < 2 ^ 32) by lia.
  assert (H4 : 4 <= Z.of_nat (length data)) by (cbn [length data]; lia).
  destruct format; cbn [normalizeData].
  - exists b0, b1, b2, b3, rest, rest. now repeat split.
  - rewrite (pairs_of_size _ Hs).
    destruct (swap16_two (Z.to_nat (Z.of_nat (length data) / 2))
                b0 b1 b2 b3 rest) as [rest' Hr].
    { apply (Z2Nat.inj_le 2); [lia| |]; Z.div_mod_to_equations; lia. }
    exists b0, b1, b2, b3, rest, rest'. now repeat split.
  - rewrite (words_of_size _ Hs).
    destruct (swap32_one (Z.to_nat (Z.of_nat (length data) / 4))
                b0 b1 b2 b3 rest) as [rest' Hr].
    { apply (Z2Nat.inj_le 1); [lia| |]; Z.div_mod_to_equations; lia. }
    exists b0, b1, b2, b3, rest, rest'. now repeat split.
  - exists b0, b1, b2, b3, rest, rest. now repeat split.
Qed.

(** X6. A ROM that starts with one of the nine known header words is
    brought to big-endian order: after [normalizeData] under the
    detected format its first word is one of the three big-endian
    header words, [detectRomFormat] finds it big-endian, and normalizing
    it once more changes nothing.  The byte-swapped and the little-endian dump
    of a big-endian ROM are detected as such and normalize back to the
    ROM. *)
Theorem normalized_rom_is_big_endian (data : list Z) :
  Forall (fun b => 0 <= b < 256) data ->
  (4 <= length data)%nat -> Z.of_nat (length data) < 2 ^ 32 ->
  let size := Z.of_nat (length data) in
  let out := normalizeData data size (detectRomFormat data) in
  (In (load32 data 0)
      [0x40123780; 0x40072780; 0x41123780;
       0x12408037; 0x07408027; 0x12418037;
       0x80371240; 0x80270740; 0x80371241] ->
   In (load32 out 0) [0x40123780; 0x40072780; 0x41123780] /\
   detectRomFormat out = DataFormat.BIG_ENDIAN /\
   normalizeData out size (detectRomFormat out) = out) /\
  (In (load32 data 0) [0x40123780; 0x40072780; 0x41123780] ->
   forall format,
     format = DataFormat.BYTE_SWAPPED \/ format = DataFormat.LITTLE_ENDIAN ->
     let dump := normalizeData data size format in
     detectRomFormat dump = format /\
     normalizeData dump size (detectRomFormat dump) = data).
Proof.
  intros Hb Hlen Hsz size out.
  assert (Hword : forall format,
            exists b0 b1 b2 b3 rest rest',
              data = b0 :: b1 :: b2 :: b3 :: rest /\
              0 <= b0 < 256 /\ 0 <= b1 < 256 /\ 0 <= b2 < 256 /\
              0 <= b3 < 256 /\
              normalizeData data size format
              = match format with
                | DataFormat.BYTE_SWAPPED => b1 :: b0 :: b3 :: b2 :: rest'
                | DataFormat.LITTLE_ENDIAN => b3 :: b2 :: b1 :: b0 :: rest'
                | _ => data
                end)
    by (intros format; now apply normalized_first_word).
  split.
  - intros Hin.
    destruct (Hword (detectRomFormat data))
      as (b0 & b1 & b2 & b3 & rest & rest' & Hd & H0 & H1 & H2 & H3 & Hout).
    fold out in Hout.
    assert (Hfmt : detectRomFormat data
                   = if (load32 data 0 =? 0x40123780)
                        || (load32 data 0 =? 0x40072780)
                        || (load32 data 0 =? 0x41123780)
                     then DataFormat.BIG_ENDIAN
                     else if (load32 data 0 =? 0x12408037)
                             || (load32 data 0 =? 0x07408027)
                             || (load32 data 0 =? 0x12418037)
                     then DataFormat.BYTE_SWAPPED
                     else DataFormat.LITTLE_ENDIAN).
    { unfold detectRomFormat. cbv zeta.
      cbn [In] in Hin.
      destruct Hin as [E|[E|[E|[E|[E|[E|[E|[E|[E|[]]]]]]]]]]; rewrite <- E;
        reflexivity. }
    assert (Hbig : In (load32 out 0) [0x40123780; 0x40072780; 0x41123780]).
    { rewrite Hout, Hfmt. rewrite Hd, load32_cons4 in Hin |- *.
      cbn [In] in Hin |- *.
      destruct Hin as [E|[E|[E|[E|[E|[E|[E|[E|[E|[]]]]]]]]]]; rewrite <- E;
        cbn [Z.eqb orb]; rewrite ?load32_cons4;
        match goal with
        | |- context [Z.eqb ?a ?a] => rewrite (Z.eqb_refl a)
        | _ => idtac
        end; cbn; rewrite ?load32_cons4; lia. }
    assert (Hbe : detectRomFormat out = DataFormat.BIG_ENDIAN).
    { unfold detectRomFormat. cbv zeta. cbn [In] in Hbig.
      destruct Hbig as [<-|[<-|[<-|[]]]]; reflexivity. }
    split; [exact Hbig|]. split; [exact Hbe|]. now rewrite Hbe.
  - intros Hin format Hf dump.
    destruct (Hword format)
      as (b0 & b1 & b2 & b3 & rest & rest' & Hd & H0 & H1 & H2 & H3 & Hout).
    fold dump in Hout.
    assert (Hfmt : detectRomFormat dump = format).
    { unfold detectRomFormat. cbv zeta. rewrite Hd, load32_cons4 in Hin.
      cbn [In] in Hin.
      destruct Hf as [-> | ->]; rewrite Hout, load32_cons4;
        destruct Hin as [E|[E|[E|[]]]];
        assert (b0 = 0x80) by lia;
        assert (b1 = 0x37 \/ b1 = 0x27) by lia;
        assert (b2 = 0x12 \/ b2 = 0x07) by lia;
        assert (b3 = 0x40 \/ b3 = 0x41) by lia;
        subst b0;
        repeat match goal with
               | H : _ \/ _ |- _ => destruct H
               end; subst; try lia; reflexivity. }
    split; [exact Hfmt|]. rewrite Hfmt. subst dump.
    apply normalizeData_involutive.
Qed.

Lemma normalized_rom_is_big_endian_witness :
  let data := [0x37; 0x80; 0x40; 0x12; 0xAA; 0xBB; 0xCC] in
  (Forall (fun b => 0 <= b < 256) data /\ (4 <= length data)%nat /\
   Z.of_nat (length data) < 2 ^ 32 /\
   In (load32 data 0)
      [0x40123780; 0x40072780; 0x41123780;
       0x12408037; 0x07408027; 0x12418037;
       0x80371240; 0x80270740; 0x80371241]) /\
  detectRomFormat (normalizeData data 7 (detectRomFormat data))
  = DataFormat.BIG_ENDIAN.
Proof.
  intros data.
  assert (Hb : Forall (fun b => 0 <= b < 256) data)
    by (repeat (apply List.Forall_cons; [lia|]); apply List.Forall_nil).
  assert (Hl : (4 <= length data)%nat) by (cbn; lia).
  assert (Hs : Z.of_nat (length data) < 2 ^ 32) by (cbn; lia).
  assert (Hin : In (load32 data 0)
                  [0x40123780; 0x40072780; 0x41123780;
                   0x12408037; 0x07408027; 0x12418037;
                   0x80371240; 0x80270740; 0x80371241])
    by (do 3 right; left; reflexivity).
  split; [exact (conj Hb (conj Hl (conj Hs Hin)))|].
  exact (proj1 (proj2 (proj1 (normalized_rom_is_big_endian data Hb Hl Hs) Hin))).
Defined.

(** ** The transfer in chunks *)

Lemma swap16_app_full k m (a b : list Z) :
  length a = (2 * k)%nat ->
  swap16 (k + m) (a ++ b) = swap16 k a ++ swap16 m b.
Proof.
  revert a. induction k as [|k IH]; intros a Ha.
  - destruct a; [reflexivity|discriminate].
  - destruct a as [|c0 [|c1 a]]; cbn [length] in Ha; try lia.
    cbn [Nat.add app swap16]. rewrite IH by lia. reflexivity.
Qed.

Lemma swap32_app_full k m (a b : list Z) :
  length a = (4 * k)%nat ->
  swap32 (k + m) (a ++ b) = swap32 k a ++ swap32 m b.
Proof.
  revert a. induction k as [|k IH]; intros a Ha.
  - destruct a; [reflexivity|discriminate].
  - destruct a as [|c0 [|c1 [|c2 [|c3 a]]]]; cbn [length] in Ha; try lia.
    cbn [Nat.add app swap32]. rewrite IH by lia. reflexivity.
Qed.

(** Normalizing a buffer is normalizing its first 4096 bytes and the
    rest. *)
Lemma normalizeData_chunk (a b : list Z) format :
  length a = Z.to_nat 4096 -> Z.of_nat (length (a ++ b)) < 2 ^ 32 ->
  normalizeData (a ++ b) (Z.of_nat (length (a ++ b))) format
  = normalizeData a (Z.of_nat (length a)) format
    ++ normalizeData b (Z.of_nat (length b)) format.
Proof.
  intros Ha Hsz. rewrite length_app in *.
  assert (Hla : Z.of_nat (length a) = 4096) by lia.
  destruct format; cbn [normalizeData]; try reflexivity.
  - rewrite !pairs_of_size by lia.
    replace (Z.to_nat (Z.of_nat (length a + length b) / 2))
      with (Z.to_nat 2048 + Z.to_nat (Z.of_nat (length b) / 2))%nat.
    + rewrite Hla. change (Z.to_nat (4096 / 2)) with (Z.to_nat 2048).
      apply swap16_app_full. lia.
    + rewrite <- Z2Nat.inj_add by (try lia; apply Z.div_pos; lia).
      f_equal. rewrite Nat2Z.inj_add, Hla. Z.div_mod_to_equations. lia.
  - rewrite !words_of_size by lia.
    replace (Z.to_nat (Z.of_nat (length a + length b) / 4))
      with (Z.to_nat 1024 + Z.to_nat (Z.of_nat (length b) / 4))%nat.
    + rewrite Hla. change (Z.to_nat (4096 / 4)) with (Z.to_nat 1024).
      apply swap32_app_full. lia.
    + rewrite <- Z2Nat.inj_add by (try lia; apply Z.div_pos; lia).
      f_equal. rewrite Nat2Z.inj_add, Hla. Z.div_mod_to_equations. lia.
Qed.

Lemma rom_chunks_nil fuel : rom_chunks fuel [] = [].
Proof. now destruct fuel. Qed.

Lemma rom_chunks_cons fuel x (data : list Z) :
  rom_chunks (S fuel) (x :: data)
  = take (Z.to_nat 4096) (x :: data)
    :: rom_chunks fuel (drop (Z.to_nat 4096) (x :: data)).
Proof. reflexivity. Qed.

(** The chunks are the file, cut. *)
Lemma concat_rom_chunks fuel (data : list Z) :
  (length data < fuel)%nat -> concat (rom_chunks fuel data) = data.
Proof.
  revert data. induction fuel as [|fuel IH]; intros data H; [lia|].
  destruct data as [|x data]; [reflexivity|].
  rewrite rom_chunks_cons. cbn [concat]. rewrite IH.
  - apply take_drop.
  - rewrite length_drop. cbn [length] in *. lia.
Qed.

Lemma first_chunk_ctx MD5 buf l st :
  ctx (fst (first_chunk MD5 buf l st)) = ctx l.
Proof.
  unfold first_chunk.
  destruct (detect_rom_settings_in_dbs_with_md5 _ _) as [detected st1].
  destruct (negb (String.eqb _ _)); reflexivity.
Qed.

Lemma rom_chunk_ctx MD5 is_first_chunk buf l st l' st' :
  rom_chunk MD5 is_first_chunk buf l st = Some (l', st') ->
  let format :=
    if is_first_chunk then detectRomFormat buf else rom_format l in
  ctx l' = ctx l ++ normalizeData buf (Z.of_nat (length buf)) format /\
  (is_first_chunk = true -> 4096 <= Z.of_nat (length buf)).
Proof.
  unfold rom_chunk.
  destruct (is_first_chunk && _) eqn:E; [discriminate|]. cbv zeta.
  set (format := if is_first_chunk then detectRomFormat buf else rom_format l).
  set (l1 := mkRomLocals _ format _ _ _ _).
  assert (Hlen : is_first_chunk = true -> 4096 <= Z.of_nat (length buf)).
  { intros ->. cbn [andb] in E. now apply Z.ltb_ge in E. }
  destruct is_first_chunk.
  - pose proof (first_chunk_ctx MD5
                  (normalizeData buf (Z.of_nat (length buf)) format) l1 st)
      as Hc.
    destruct (first_chunk MD5 _ l1 st) as [l2 st2]. cbn [fst] in Hc.
    intros [= <- <-]. now split.
  - intros [= <- <-]. now split.
Qed.

Lemma rom_loop_later_whole MD5 fuel (data : list Z) l st l' st' :
  (length data < fuel)%nat -> Z.of_nat (length data) < 2 ^ 32 ->
  rom_loop MD5 false (rom_chunks fuel data) l st = Some (l', st') ->
  let out := normalizeData data (Z.of_nat (length data)) (rom_format l) in
  ctx l' = ctx l ++ out /\
  io st' = io st ++ map io_file_tx_data (rom_chunks fuel out).
Proof.
  revert data l st. induction fuel as [|fuel IH]; intros data l st Hf Hsz;
    [lia|].
  destruct data as [|x data].
  - cbn [rom_chunks rom_loop]. intros [= <- <-].
    replace (normalizeData [] (Z.of_nat (length [])) (rom_format l))
      with (@nil Z) by (now destruct (rom_format l)).
    cbn [rom_chunks map]. now rewrite !app_nil_r.
  - rewrite rom_chunks_cons. cbn [rom_loop].
    set (whole := x :: data) in *.
    set (a := take (Z.to_nat 4096) whole).
    set (b := drop (Z.to_nat 4096) whole).
    destruct (rom_chunk MD5 false a l st) as [[l1 st1]|] eqn:E;
      [|discriminate].
    destruct (rom_chunk_sends _ _ _ _ _ _ _ E) as (Hfmt & Hio & _ & _).
    destruct (rom_chunk_ctx _ _ _ _ _ _ _ E) as [Hctx _].
    cbv zeta in Hfmt, Hio, Hctx.
    intros Hrest.
    assert (Hwhole : whole = a ++ b) by (symmetry; apply take_drop).
    assert (Hb : (length b < fuel)%nat).
    { subst b. rewrite length_drop. subst whole. cbn [length] in *. lia. }
    assert (Hbz : Z.of_nat (length b) < 2 ^ 32).
    { subst b. rewrite length_drop. lia. }
    destruct (IH b l1 st1 Hb Hbz Hrest) as [Hctx' Hio'].
    rewrite Hfmt in Hctx', Hio'. cbv zeta.
    set (f := rom_format l) in *.
    assert (Hout : normalizeData whole (Z.of_nat (length whole)) f
                   = normalizeData a (Z.of_nat (length a)) f
                     ++ normalizeData b (Z.of_nat (length b)) f).
    { destruct (Nat.le_gt_cases (Z.to_nat 4096) (length whole)) as [Hge|Hlt].
      - rewrite Hwhole at 1 2. apply normalizeData_chunk.
        + subst a. rewrite length_take. lia.
        + now rewrite <- Hwhole.
      - assert (Ha : a = whole) by (subst a; apply take_ge; lia).
        assert (Hb0 : b = []) by (subst b; apply drop_ge; lia).
        rewrite Ha, Hb0.
        replace (normalizeData [] (Z.of_nat (length [])) f) with (@nil Z)
          by (now destruct f).
        now rewrite app_nil_r. }
    rewrite Hout, Hctx', Hctx, Hio', Hio, <- !app_assoc. split; [reflexivity|].
    f_equal. cbn [app]. 
    assert (Hna : length (normalizeData a (Z.of_nat (length a)) f) = length a)
      by apply normalizeData_length.
    destruct (normalizeData a (Z.of_nat (length a)) f ++
              normalizeData b (Z.of_nat (length b)) f) as [|y out] eqn:Eo.
    { apply app_eq_nil in Eo as [Ea _]. rewrite Ea in Hna.
      subst a. rewrite length_take in Hna. subst whole.
      cbn [length] in Hna. lia. }
    rewrite rom_chunks_cons, <- Eo. cbn [map]. 
    destruct (Nat.le_gt_cases (Z.to_nat 4096) (length whole)) as [Hge|Hlt].
    + assert (Hla : length a = Z.to_nat 4096)
        by (subst a; rewrite length_take; lia).
      rewrite take_app_length' by lia. rewrite drop_app_length' by lia.
      reflexivity.
    + assert (Ha : a = whole) by (subst a; apply take_ge; lia).
      assert (Hb0 : b = []) by (subst b; apply drop_ge; lia).
      rewrite Hb0.
      replace (normalizeData [] (Z.of_nat (length [])) f) with (@nil Z)
        by (now destruct f).
      rewrite app_nil_r, take_ge, drop_ge by (rewrite Hna, Ha; lia).
      now rewrite !rom_chunks_nil.
Qed.

Lemma byte_at_take n (data : list Z) i :
  (i < n)%nat -> byte_at (take n data) i = byte_at data i.
Proof. intros H. unfold byte_at. now rewrite lookup_take_lt. Qed.

Lemma detectRomFormat_take (data : list Z) :
  detectRomFormat (take (Z.to_nat 4096) data) = detectRomFormat data.
Proof.
  unfold detectRomFormat, load32.
  rewrite !byte_at_take by (change (Z.to_nat 4096) with 4096%nat; lia).
  reflexivity.
Qed.

(** X7. What the transfer loop sends and hashes is the file, normalized
    as a whole.  When the loop runs through on the chunks of a file,
    the bytes fed to the MD5 context are the file normalized under the
    format of its first word, and the chunks sent to the core are the
    4096-byte chunks of that normalized file: cutting into chunks and
    normalizing commute, also for a last chunk of odd length. *)
Theorem transfer_sends_normalized_file
  (MD5 : list Z -> list Z) (data : list Z) (l l' : RomLocals)
  (st st' : State) :
  Z.of_nat (length data) < 2 ^ 32 ->
  rom_loop MD5 true (rom_chunks (S (length data)) data) l st
  = Some (l', st') ->
  let out :=
    normalizeData data (Z.of_nat (length data)) (detectRomFormat data) in
  ctx l' = ctx l ++ out /\
  io st' = io st ++ map io_file_tx_data (rom_chunks (S (length data)) out) /\
  concat (rom_chunks (S (length data)) out) = out /\
  (data <> [] -> 4096 <= Z.of_nat (length data)).
Proof.
  intros Hsz Hrun out.
  assert (Hcat : concat (rom_chunks (S (length data)) out) = out).
  { apply concat_rom_chunks. subst out. rewrite normalizeData_length. lia. }
  destruct data as [|x data].
  - cbn [length rom_chunks rom_loop] in Hrun. injection Hrun as <- <-.
    subst out. cbn [length].
    replace (normalizeData [] (Z.of_nat 0) (detectRomFormat []))
      with (@nil Z) by reflexivity.
    cbn [rom_chunks map]. rewrite !app_nil_r. repeat split. 
    intros H. contradiction.
  - set (whole := x :: data) in *.
    assert (Hlen : length whole = S (length data)) by reflexivity.
    rewrite Hlen in Hrun |- *. rewrite <- Hlen.
    unfold whole in Hrun at 1. rewrite rom_chunks_cons in Hrun.
    fold whole in Hrun. cbn [rom_loop] in Hrun.
    set (a := take (Z.to_nat 4096) whole) in *.
    set (b := drop (Z.to_nat 4096) whole) in *.
    destruct (rom_chunk MD5 true a l st) as [[l1 st1]|] eqn:E;
      [|discriminate].
    destruct (rom_chunk_sends _ _ _ _ _ _ _ E) as (Hfmt & Hio & _ & _).
    destruct (rom_chunk_ctx _ _ _ _ _ _ _ E) as [Hctx Hfirst].
    cbv zeta in Hfmt, Hio, Hctx. specialize (Hfirst eq_refl).
    assert (Hla : length a = Z.to_nat 4096).
    { pose proof (length_take_le whole (Z.to_nat 4096)).
      assert (length a <= Z.to_nat 4096)%nat
        by (subst a; rewrite length_take; lia).
      lia. }
    assert (Hge : (Z.to_nat 4096 <= length whole)%nat).
    { subst a. rewrite length_take in Hla. lia. }
    assert (Hwhole : whole = a ++ b) by (symmetry; apply take_drop).
    assert (Hb : (length b < length whole)%nat)
      by (subst b; rewrite length_drop; lia).
    assert (Hbz : Z.of_nat (length b) < 2 ^ 32) by lia.
    destruct (rom_loop_later_whole MD5 (length whole) b l1 st1 l' st'
                Hb Hbz) as [Hctx' Hio'].
    { rewrite Hlen. exact Hrun. }
    rewrite Hfmt in Hctx', Hio'.
    assert (Hd : detectRomFormat a = detectRomFormat whole)
      by apply detectRomFormat_take.
    rewrite Hd in *. set (f := detectRomFormat whole) in *.
    assert (Hout : out = normalizeData a (Z.of_nat (length a)) f
                         ++ normalizeData b (Z.of_nat (length b)) f).
    { subst out. rewrite Hwhole at 1 2. apply normalizeData_chunk.
      - exact Hla.
      - now rewrite <- Hwhole. }
    split; [now rewrite Hctx', Hctx, Hout, <- app_assoc|].
    split; [|split; [exact Hcat|intros _; lia]].
    rewrite Hio', Hio, <- app_assoc. f_equal. cbn [app].
    assert (Hna : length (normalizeData a (Z.of_nat (length a)) f) = length a)
      by apply normalizeData_length.
    rewrite Hout.
    destruct (normalizeData a (Z.of_nat (length a)) f ++
              normalizeData b (Z.of_nat (length b)) f) as [|y o] eqn:Eo.
    { apply app_eq_nil in Eo as [Ea _]. rewrite Ea in Hna. cbn in Hna. lia. }
    rewrite Hlen, rom_chunks_cons, <- Eo, <- Hlen. cbn [map].
    rewrite take_app_length' by lia. rewrite drop_app_length' by lia.
    reflexivity.
Qed.

Lemma transfer_sends_normalized_file_witness :
  let data := example_rom_v64 in
  let run := rom_loop toy_digest true (rom_chunks (S (length data)) data)
               RomLocals_init example_session in
  (Z.of_nat (length data) < 2 ^ 32 /\
   run = Some (default (RomLocals_init, example_session) run)) /\
  ctx (default (RomLocals_init, example_session) run).1
  = normalizeData data (Z.of_nat (length data)) DataFormat.BYTE_SWAPPED.
Proof.
  intros data run.
  assert (Hsz : Z.of_nat (length data) < 2 ^ 32) by (vm_compute; reflexivity).
  assert (Hrun : run = Some (default (RomLocals_init, example_session) run)).
  { apply loop_to_end. vm_compute. exact I. }
  split; [exact (conj Hsz Hrun)|].
  destruct (default (RomLocals_init, example_session) run) as [l' st'] eqn:E.
  destruct (transfer_sends_normalized_file toy_digest data RomLocals_init l'
              example_session st' Hsz Hrun) as (Hctx & _).
  cbn [fst]. rewrite Hctx. reflexivity.
Defined.

(** ** The outcome of a transfer *)

Lemma gb_tx_sends chunks st :
  io (gb_tx chunks st) = io st ++ map io_file_tx_data chunks /\
  status (gb_tx chunks st) = status st /\
  old_ar (gb_tx chunks st) = old_ar st /\
  same_devices_but_io st (gb_tx chunks st).
Proof.
  unfold gb_tx. revert st. induction chunks as [|c chunks IH]; intros st.
  - cbn [foldl map]. rewrite app_nil_r. now repeat split.
  - cbn [foldl map]. destruct (IH (emit (io_file_tx_data c) st))
      as (Hio & Hs & Ha & Hm & Hf & Hi & Hfl & Hdb).
    rewrite Hio, Hs, Ha. cbn [emit io status old_ar]. rewrite <- app_assoc.
    repeat split; try reflexivity; [rewrite Hm|rewrite Hf|rewrite Hi
                                    |rewrite Hfl|rewrite Hdb]; reflexivity.
Qed.

Lemma rom_chunks_sizes fuel (data : list Z) :
  Forall (fun c => (0 < length c <= Z.to_nat 4096)%nat) (rom_chunks fuel data).
Proof.
  revert data. induction fuel as [|fuel IH]; intros data;
    [apply List.Forall_nil|].
  destruct data as [|x data]; [apply List.Forall_nil|].
  rewrite rom_chunks_cons. apply List.Forall_cons; [|apply IH].
  rewrite length_take. cbn [length].
  change (Z.to_nat 4096) with (S (Z.to_nat 4095)). lia.
Qed.

(** X8. A file sent with index 2 (low six bits), the GameBoy branch,
    goes to the core as it is: the transfer announces the index, opens
    the download, sends the file cut into chunks of at most 4096 bytes
    in order and unchanged, and closes the download.  Nothing is
    detected, mounted or unmounted, and the configuration stays. *)
Theorem gameboy_file_is_passed_through
  (SAVE_DIR CoreName : string) (cpak_header : list (list Z))
  (MD5 : list Z -> list Z) (name : string) (idx : Z) (data : list Z)
  (st : State) :
  Z.land idx 0x3f = 2 -> files st !! name = Some data ->
  Z.of_nat (length data) < 2 ^ 32 ->
  let r := n64_rom_tx SAVE_DIR CoreName cpak_header MD5 name idx st in
  let chunks := rom_chunks (S (length data)) data in
  fst r = 1 /\
  io (snd r) = io st ++ [io_set_index idx; io_set_download true]
               ++ map io_file_tx_data chunks ++ [io_set_download false] /\
  concat chunks = data /\
  Forall (fun c => (0 < length c <= 4096)%nat) chunks /\
  status (snd r) = status st /\ old_ar (snd r) = old_ar st /\
  same_devices_but_io st (snd r).
Proof.
  intros Hidx Hfile Hsz r chunks.
  assert (Hcat : concat chunks = data) by (apply concat_rom_chunks; lia).
  assert (Hsizes : Forall (fun c => (0 < length c <= 4096)%nat) chunks)
    by apply rom_chunks_sizes.
  subst r. unfold n64_rom_tx. rewrite Hfile. cbv zeta.
  rewrite Hidx. change (2 =? 2) with true. cbv iota.
  assert (Hds : uint32 (Z.of_nat (length data)) = Z.of_nat (length data))
    by (unfold uint32; apply Z.mod_small; lia).
  rewrite Hds, Nat2Z.id, take_ge by lia. fold chunks.
  cbn [fst snd].
  set (st1 := emit _ (emit _ (printf _ st))).
  destruct (gb_tx_sends chunks st1) as (Hio & Hs & Ha & Hm & Hf & Hi & Hfl & Hdb).
  cbn [emit printf io status old_ar].
  rewrite Hio, Hs, Ha. subst st1. cbn [emit printf io status old_ar].
  rewrite <- !app_assoc. repeat split; try assumption; try reflexivity.
Qed.

Lemma gameboy_file_is_passed_through_witness :
  let st := with_files (<["games/tetris.gb" := [1; 2; 3]]> ∅) power_on in
  let r := n64_rom_tx "saves" "N64" [] toy_digest "games/tetris.gb" 0x42 st in
  (Z.land 0x42 0x3f = 2 /\ files st !! "games/tetris.gb" = Some [1; 2; 3] /\
   Z.of_nat (length [1; 2; 3]) < 2 ^ 32) /\
  fst r = 1 /\
  io (snd r) = [io_set_index 0x42; io_set_download true;
                io_file_tx_data [1; 2; 3]; io_set_download false].
Proof.
  intros st r.
  assert (H1 : Z.land 0x42 0x3f = 2) by reflexivity.
  assert (H2 : files st !! "games/tetris.gb" = Some [1; 2; 3])
    by (vm_compute; reflexivity).
  assert (H3 : Z.of_nat (length [1; 2; 3]) < 2 ^ 32) by (cbn; lia).
  split; [exact (conj H1 (conj H2 H3))|].
  destruct (gameboy_file_is_passed_through "saves" "N64" [] toy_digest
              "games/tetris.gb" 0x42 [1; 2; 3] st H1 H2 H3)
    as (Hr & Hio & _).
  split; [exact Hr|exact Hio].
Defined.

Lemma rom_loop_later_runs MD5 chunks l st :
  exists l' st', rom_loop MD5 false chunks l st = Some (l', st').
Proof.
  revert l st. induction chunks as [|c chunks IH]; intros l st.
  - now exists l, st.
  - cbn [rom_loop]. unfold rom_chunk. cbn [andb]. cbv zeta. apply IH.
Qed.

Lemma rom_loop_runs MD5 chunks l st :
  rom_loop MD5 true chunks l st = None
  <-> exists c rest, chunks = c :: rest /\ Z.of_nat (length c) < 4096.
Proof.
  destruct chunks as [|c chunks].
  - split; [discriminate|]. intros (c & rest & H & _). discriminate.
  - cbn [rom_loop]. unfold rom_chunk. cbn [andb]. cbv zeta.
    destruct (Z.of_nat (length c) <? 4096) eqn:E.
    + split; [|reflexivity]. intros _. exists c, chunks.
      split; [reflexivity|now apply Z.ltb_lt].
    + destruct (first_chunk MD5 _ _ st) as [l1 st1].
      destruct (rom_loop_later_runs MD5 chunks l1
                  (emit (io_file_tx_data
                           (normalizeData c (Z.of_nat (length c))
                              (detectRomFormat c))) st1))
        as (l' & st' & ->).
      split; [discriminate|]. intros (c' & rest & [= <- <-] & H).
      apply Z.ltb_ge in E. lia.
Qed.

(** X9. [n64_rom_tx] returns 0 or 1.  It returns 0 exactly if the file
    cannot be opened, or if it is sent as an N64 ROM (index other than
    2 in the low six bits) and is not empty but shorter than 4096
    bytes.  A missing file changes nothing.  A ROM that is too short has
    the download opened and closed without any data sent, and the save
    files of the ROM before it are unmounted by then. *)
Theorem n64_rom_tx_result
  (SAVE_DIR CoreName : string) (cpak_header : list (list Z))
  (MD5 : list Z -> list Z) (name : string) (idx : Z) (st : State) :
  let r := n64_rom_tx SAVE_DIR CoreName cpak_header MD5 name idx st in
  let too_short data :=
    Z.land idx 0x3f <> 2 /\ 0 < uint32 (Z.of_nat (length data)) < 4096 in
  (fst r = 0 \/ fst r = 1) /\
  (fst r = 0 <->
   files st !! name = None
   \/ exists data, files st !! name = Some data /\ too_short data) /\
  (files st !! name = None -> snd r = st) /\
  (forall data, files st !! name = Some data -> too_short data ->
     io (snd r) = io st ++ [io_set_index idx; io_set_download true;
                            io_set_download false] /\
     mounted_save_files (snd r) = 0 /\
     status (snd r) = status st /\ files (snd r) = files st).
Proof.
  intros r too_short. subst r. unfold n64_rom_tx.
  destruct (files st !! name) as [data|] eqn:Hfile.
  2:{ cbn [fst snd]. split; [now left|]. split; [|split].
      - split; [now left|reflexivity].
      - reflexivity.
      - intros data H. discriminate. }
  cbv zeta.
  set (data_size := uint32 (Z.of_nat (length data))).
  assert (Hds : 0 <= data_size < 2 ^ 32) by (apply Z.mod_pos_bound; lia).
  set (st1 := emit _ (emit _ (printf _ st))).
  set (file := take (Z.to_nat data_size) data).
  assert (Hfl : Z.of_nat (length file) = data_size).
  { subst file. rewrite length_take. subst data_size. unfold uint32 in *.
    pose proof (Z.mod_le (Z.of_nat (length data)) (2 ^ 32)). lia. }
  destruct (Z.land idx 63 =? 2) eqn:Hidx.
  { apply Z.eqb_eq in Hidx. cbn [fst snd]. split; [now right|].
    split; [|split].
    - split; [discriminate|].
      intros [H|(d & _ & H & _)]; [discriminate|contradiction].
    - discriminate.
    - intros d _ [H _]. contradiction. }
  apply Z.eqb_neq in Hidx.
  set (l0 := mkRomLocals _ _ _ _ _ _).
  set (st2 := unmount_all_save_files st1).
  set (chunks := rom_chunks (S (Z.to_nat data_size)) file).
  assert (Hshort : rom_loop MD5 true chunks l0 st2 = None
                   <-> 0 < data_size < 4096).
  { rewrite rom_loop_runs. subst chunks. destruct file as [|x file'] eqn:Ef.
    - cbn [length] in Hfl. split; [|lia].
      intros (c & rest & H & _). discriminate.
    - rewrite rom_chunks_cons. rewrite <- Ef in *.
      assert (Hlen : Z.of_nat (length (take (Z.to_nat 4096) file))
                     = Z.min 4096 data_size)
        by (rewrite length_take; lia).
      assert (Hpos : 0 < data_size) by (rewrite <- Hfl, Ef; cbn [length]; lia).
      split.
      + intros (c & rest & [= <- _] & H). lia.
      + intros H. eexists _, _. split; [reflexivity|]. lia. }
  destruct (rom_loop MD5 true chunks l0 st2) as [[l' st']|] eqn:Hrun.
  - destruct (resolve_settings _ _ _ _) as [detected st3].
    destruct (mount_save_files _ _ _ _ _) as [do_reset st4].
    cbn [fst snd]. split; [now right|]. split; [|split].
    + split; [discriminate|].
      intros [H|(d & [= <-] & _ & H)]; [discriminate|].
      fold data_size in H. apply Hshort in H. discriminate.
    + discriminate.
    + intros d [= <-] [_ H]. fold data_size in H. apply Hshort in H.
      discriminate.
  - cbn [fst snd]. split; [now left|]. split; [|split].
    + split; [|reflexivity]. intros _. right. exists data.
      split; [reflexivity|]. split; [exact Hidx|].
      fold data_size. now apply Hshort.
    + discriminate.
    + intros d _ _. cbn [emit printf io mounted_save_files status files].
      destruct (unmount_all_save_files_registry st1) as [Hm _].
      fold st2 in Hm. rewrite Hm.
      assert (Hun : io st2 = io st1 /\ status st2 = status st1
                    /\ files st2 = files st1).
      { subst st2. unfold unmount_all_save_files. cbn [seq foldl].
        now repeat split. }
      destruct Hun as (-> & -> & ->). subst st1.
      cbn [emit printf io status files]. rewrite <- !app_assoc.
      now repeat split.
Qed.

(** ** Boot-code checksums *)

Lemma load32_range buf i :
  Forall (fun b => 0 <= b < 256) buf -> 0 <= load32 buf i < 2 ^ 32.
Proof.
  intros H. unfold load32.
  pose proof (byte_at_range buf (4 * i) H).
  pose proof (byte_at_range buf (4 * i + 1) H).
  pose proof (byte_at_range buf (4 * i + 2) H).
  pose proof (byte_at_range buf (4 * i + 3) H). lia.
Qed.

Lemma sum_words_range (f : nat -> Z) i n :
  (forall k, 0 <= f k < 2 ^ 32) ->
  0 <= foldr Z.add 0 (map f (seq i n)) <= Z.of_nat n * (2 ^ 32 - 1).
Proof.
  intros H. revert i. induction n as [|n IH]; intros i; [cbn; lia|].
  cbn [seq map foldr]. specialize (IH (S i)). specialize (H i). lia.
Qed.

Lemma sum_words_app (f : nat -> Z) i n m :
  foldr Z.add 0 (map f (seq i (n + m)))
  = foldr Z.add 0 (map f (seq i n)) + foldr Z.add 0 (map f (seq (i + n) m)).
Proof.
  revert i. induction n as [|n IH]; intros i.
  - cbn [Nat.add seq map foldr]. now rewrite Nat.add_0_r.
  - cbn [Nat.add seq map foldr]. rewrite IH.
    replace (S i + n)%nat with (i + S n)%nat by lia. lia.
Qed.

(** X10. The two boot-code checksums of a buffer of bytes are exact
    sums: [bootcode_sums[1]] is the sum of the 32-bit words at the byte
    offsets 0x40 up to 0xc00 and [bootcode_sums[0]] that sum plus the
    words up to 0x1000, neither wraps around in 64 bits (both stay
    below 2^42), and the short sum never exceeds the long one.  The
    sums depend on the bytes 0x40 up to 0x1000 only: the ROM header in
    front of them and anything behind do not enter. *)
Theorem bootcode_checksums_are_exact (buf : list Z) :
  Forall (fun b => 0 <= b < 256) buf ->
  let words lo n := foldr Z.add 0 (map (load32 buf) (seq lo n)) in
  calc_bootcode_checksums buf = [words 16 1008; words 16 752]%nat /\
  words 16%nat 1008%nat = words 16%nat 752%nat + words 768%nat 256%nat /\
  0 <= words 16%nat 752%nat <= words 16%nat 1008%nat /\
  words 16%nat 1008%nat < 2 ^ 42 /\
  (forall buf',
     (forall i, (0x40 <= i < 0x1000)%nat -> byte_at buf' i = byte_at buf i) ->
     calc_bootcode_checksums buf' = calc_bootcode_checksums buf).
Proof.
  intros Hb words.
  assert (Hr : forall k, 0 <= load32 buf k < 2 ^ 32)
    by (intros k; now apply load32_range).
  pose proof (sum_words_range (load32 buf) 16 1008 Hr) as H0.
  pose proof (sum_words_range (load32 buf) 16 752 Hr) as H1.
  pose proof (sum_words_range (load32 buf) 768 256 Hr) as H2.
  pose proof (sum_words_app (load32 buf) 16 752 256) as Hsplit.
  change (752 + 256)%nat with 1008%nat in Hsplit.
  change (16 + 752)%nat with 768%nat in Hsplit.
  fold (words 16%nat 1008%nat) in H0, Hsplit.
  fold (words 16%nat 752%nat) in H1, Hsplit.
  fold (words 768%nat 256%nat) in H2, Hsplit.
  assert (Hspec : forall b, calc_bootcode_checksums b
            = [uint64 (foldr Z.add 0 (map (load32 b) (seq 16 1008)));
               uint64 (foldr Z.add 0 (map (load32 b) (seq 16 752)))]).
  { intros b. rewrite calc_bootcode_checksums_spec. reflexivity. }
  split; [|split; [exact Hsplit|split; [lia|split; [lia|]]]].
  - rewrite Hspec. fold (words 16%nat 1008%nat). fold (words 16%nat 752%nat).
    unfold uint64. rewrite !Z.mod_small by lia. reflexivity.
  - intros buf' Heq. rewrite !Hspec.
    assert (Hw : forall k, (16 <= k < 1024)%nat -> load32 buf' k = load32 buf k).
    { intros k Hk. unfold load32. rewrite !Heq by lia. reflexivity. }
    assert (Hm : forall n, (n <= 1008)%nat ->
              map (load32 buf') (seq 16 n) = map (load32 buf) (seq 16 n)).
    { intros n Hn. apply map_ext_in. intros k Hk. apply in_seq in Hk.
      apply Hw. lia. }
    now rewrite !Hm by lia.
Qed.

Lemma bootcode_checksums_are_exact_witness :
  let buf := chunk_6101_short_7102_long in
  Forall (fun b => 0 <= b < 256) buf /\
  calc_bootcode_checksums buf = [0xa405397b05; 0xa0f26f62fe] /\
  calc_bootcode_checksums (repeat 7 64 ++ drop 64 buf ++ [1; 2; 3])
  = calc_bootcode_checksums buf.
Proof.
  intros buf.
  assert (Hb : Forall (fun b => 0 <= b < 256) buf).
  { apply List.Forall_forall. intros b Hin.
    assert (H : forallb (fun b => (0 <=? b) && (b <? 256)) buf = true)
      by (vm_compute; reflexivity).
    rewrite forallb_forall in H. specialize (H b Hin). lia. }
  split; [exact Hb|].
  destruct (bootcode_checksums_are_exact buf Hb) as (Hs & _ & _ & _ & Hind).
  split.
  - vm_compute. reflexivity.
  - apply Hind. intros i Hi. unfold byte_at.
    rewrite lookup_app_r by (rewrite repeat_length; lia).
    rewrite repeat_length, lookup_app_l
      by (rewrite length_drop; change (length buf) with 4096%nat; lia).
    rewrite lookup_drop. f_equal. f_equal. lia.
Defined.

(** ** Region and boot chip from the first chunk *)

Lemma chip_identified_hd signatures :
  chip_identified signatures
  = match signature_case (hd 0 signatures) with
    | Some _ => true
    | None => match signature_case (hd 0 (tl signatures)) with
              | Some _ => true
              | None => false
              end
    end.
Proof.
  unfold chip_identified.
  replace (nth 0 signatures 0) with (hd 0 signatures)
    by (now destruct signatures).
  replace (nth 1 signatures 0) with (hd 0 (tl signatures))
    by (now destruct signatures as [|? [|? ?]]).
  destruct (signature_case (hd 0 signatures)); [reflexivity|].
  destruct (signature_case (hd 0 (tl signatures))); reflexivity.
Qed.

(** X11. With auto-detection on, the boot-chip heuristic always stores
    a known region and a known boot chip, and the two agree: a chip of
    the 61xx family is stored with NTSC only and a chip of the 71xx
    family with PAL only.  It returns [true] exactly if one of the two
    checksums is in the signature table; otherwise it stores the
    default chip of the region given by the region code, 7101 for the
    PAL codes and 6102 for all others.  No option but the region and
    the boot chip changes. *)
Theorem first_chunk_heuristic_stores_region_and_chip
  (region_code : ascii) (signatures : list Z) (st : State) :
  is_auto st = true ->
  let r := detect_rom_settings_from_first_chunk region_code signatures st in
  exists system_type cic,
    status_get SYS_TYPE_OPT (snd r) = SystemType_to_uint32 system_type /\
    status_get CIC_TYPE_OPT (snd r) = CIC_to_uint32 cic /\
    system_type <> SystemType.UNKNOWN /\ cic <> CIC.UNKNOWN /\
    (In cic [CIC.CIC_NUS_6101; CIC.CIC_NUS_6102; CIC.CIC_NUS_6103;
             CIC.CIC_NUS_6105; CIC.CIC_NUS_6106] ->
     system_type = SystemType.NTSC) /\
    (In cic [CIC.CIC_NUS_7101; CIC.CIC_NUS_7102; CIC.CIC_NUS_7103;
             CIC.CIC_NUS_7105; CIC.CIC_NUS_7106] ->
     system_type = SystemType.PAL) /\
    fst r = chip_identified signatures /\
    (fst r = false ->
     system_type = (if region_is_pal region_code
                    then SystemType.PAL else SystemType.NTSC) /\
     cic = (if region_is_pal region_code
            then CIC.CIC_NUS_7101 else CIC.CIC_NUS_6102)) /\
    (forall o, 0 <= opt_lo o -> 0 <= opt_width o ->
       opt_hi o < 65 \/ (68 < opt_lo o /\ opt_hi o < 79) \/ 80 < opt_lo o ->
       status_get o (snd r) = status_get o st).
Proof.
  intros Hauto r. subst r. unfold detect_rom_settings_from_first_chunk.
  cbv zeta. rewrite chip_identified_hd.
  set (region := if region_is_pal region_code
                 then SystemType.PAL else SystemType.NTSC).
  assert (Hstore : forall system_type cic msgs,
            system_type <> SystemType.UNKNOWN -> cic <> CIC.UNKNOWN ->
            let st1 := foldl (fun s m => printf m s) st msgs in
            let st' := status_set CIC_TYPE_OPT (CIC_to_uint32 cic)
                         (status_set SYS_TYPE_OPT
                            (SystemType_to_uint32 system_type)
                            (printf MsgAutoDetectOn
                               (printf (MsgRegionCIC system_type cic) st1))) in
            is_auto (printf (MsgRegionCIC system_type cic) st1) = true /\
            status_get SYS_TYPE_OPT st' = SystemType_to_uint32 system_type /\
            status_get CIC_TYPE_OPT st' = CIC_to_uint32 cic /\
            (forall o, 0 <= opt_lo o -> 0 <= opt_width o ->
               opt_hi o < 65 \/ (68 < opt_lo o /\ opt_hi o < 79)
               \/ 80 < opt_lo o ->
               status_get o st' = status_get o st)).
  { intros system_type cic msgs Hs Hc st1 st'.
    assert (Hst1 : status st1 = status st).
    { subst st1. clear. revert st. induction msgs as [|m msgs IH]; intros st;
        [reflexivity|]. cbn [foldl]. now rewrite IH. }
    assert (Hget : forall o, status_get o st1 = status_get o st)
      by (intros o; unfold status_get; now rewrite Hst1).
    split; [unfold is_auto; rewrite status_get_printf, Hget; exact Hauto|].
    subst st'. split; [|split].
    - rewrite status_get_status_set_other by opt_side.
      rewrite status_get_status_set_same by opt_side.
      destruct system_type; try contradiction; reflexivity.
    - rewrite status_get_status_set_same by opt_side.
      destruct cic; try contradiction; reflexivity.
    - intros o Hlo Hw Hd.
      rewrite !status_get_status_set_other by (try assumption; opt_side).
      rewrite !status_get_printf. apply Hget. }
  assert (Hregion : region <> SystemType.UNKNOWN)
    by (subst region; destruct (region_is_pal region_code); discriminate).
  cbn [signature_loop].
  destruct (signature_case (hd 0 signatures)) as [c|] eqn:E0.
  - destruct (signature_result c region) as [system_type cic] eqn:Er.
    assert (Hk : system_type <> SystemType.UNKNOWN /\ cic <> CIC.UNKNOWN).
    { subst region. destruct c, (region_is_pal region_code);
        injection Er as <- <-; split; discriminate. }
    destruct (Hstore system_type cic [] (proj1 Hk) (proj2 Hk))
      as (Ha & Hsys & Hcic & Hother).
    cbn [foldl] in Ha, Hsys, Hcic, Hother. rewrite Ha. cbn [negb fst snd].
    exists system_type, cic. repeat split; try tauto.
    + intros Hin. subst region.
      destruct c, (region_is_pal region_code); injection Er as <- <-;
        cbn [In] in Hin; try reflexivity;
        repeat (destruct Hin as [Hin|Hin]; [discriminate|]); contradiction.
    + intros Hin. subst region.
      destruct c, (region_is_pal region_code); injection Er as <- <-;
        cbn [In] in Hin; try reflexivity;
        repeat (destruct Hin as [Hin|Hin]; [discriminate|]); contradiction.
    + discriminate.
    + discriminate.
  - destruct (signature_case (hd 0 (tl signatures))) as [c|] eqn:E1.
    + destruct (signature_result c region) as [system_type cic] eqn:Er.
      assert (Hk : system_type <> SystemType.UNKNOWN /\ cic <> CIC.UNKNOWN).
      { subst region. destruct c, (region_is_pal region_code);
          injection Er as <- <-; split; discriminate. }
      destruct (Hstore system_type cic
                  [MsgUnknownCICTriesNext (hd 0 signatures)]
                  (proj1 Hk) (proj2 Hk)) as (Ha & Hsys & Hcic & Hother).
      cbn [foldl] in Ha, Hsys, Hcic, Hother. rewrite Ha. cbn [negb fst snd].
      exists system_type, cic. repeat split; try tauto.
      * intros Hin. subst region.
        destruct c, (region_is_pal region_code); injection Er as <- <-;
          cbn [In] in Hin; try reflexivity;
          repeat (destruct Hin as [Hin|Hin]; [discriminate|]); contradiction.
      * intros Hin. subst region.
        destruct c, (region_is_pal region_code); injection Er as <- <-;
          cbn [In] in Hin; try reflexivity;
          repeat (destruct Hin as [Hin|Hin]; [discriminate|]); contradiction.
      * discriminate.
      * discriminate.
    + destruct (signature_result ipl3_x102 region) as [system_type cic] eqn:Er.
      assert (Hk : system_type = region /\
                   cic = (if region_is_pal region_code
                          then CIC.CIC_NUS_7101 else CIC.CIC_NUS_6102)).
      { subst region. destruct (region_is_pal region_code);
          injection Er as <- <-; split; reflexivity. }
      destruct Hk as [-> ->].
      assert (Hc : (if region_is_pal region_code
                    then CIC.CIC_NUS_7101 else CIC.CIC_NUS_6102)
                   <> CIC.UNKNOWN)
        by (destruct (region_is_pal region_code); discriminate).
      destruct (Hstore region _
                  [MsgUnknownCICTriesNext (hd 0 signatures);
                   MsgUnknownCICUsesDefault (hd 0 (tl signatures))]
                  Hregion Hc) as (Ha & Hsys & Hcic & Hother).
      cbn [foldl] in Ha, Hsys, Hcic, Hother. rewrite Ha. cbn [negb fst snd].
      eexists region, _. repeat split; try eassumption; try reflexivity.
      * intros Hin. subst region.
        destruct (region_is_pal region_code); cbn [In] in Hin;
          try reflexivity;
          repeat (destruct Hin as [Hin|Hin]; [discriminate|]); contradiction.
      * intros Hin. subst region.
        destruct (region_is_pal region_code); cbn [In] in Hin;
          try reflexivity;
          repeat (destruct Hin as [Hin|Hin]; [discriminate|]); contradiction.
Qed.

Lemma first_chunk_heuristic_stores_region_and_chip_witness :
  let r := detect_rom_settings_from_first_chunk "P" [7; 0xa405397b05]
             power_on in
  is_auto power_on = true /\
  fst r = chip_identified [7; 0xa405397b05] /\
  status_get AR_TYPE_OPT (snd r) = status_get AR_TYPE_OPT power_on.
Proof.
  intros r.
  assert (Ha : is_auto power_on = true) by reflexivity.
  split; [exact Ha|].
  destruct (first_chunk_heuristic_stores_region_and_chip "P"
              [7; 0xa405397b05] power_on Ha)
    as (system_type & cic & _ & _ & _ & _ & _ & _ & Hr & _ & Hother).
  split; [exact Hr|].
  apply Hother; [opt_side|opt_side|left; opt_side].
Defined.

(** ** What a tag list stores *)

Lemma parse_tags_locals toks l st st' :
  fst (parse_tags toks l st) = fst (parse_tags toks l st').
Proof.
  revert l st st'. induction toks as [|tag toks IH]; intros l st st';
    [reflexivity|].
  cbn [parse_tags]. destruct (tag_case tag l); apply IH.
Qed.

Lemma tag_case_save_type tag l l' :
  tag_case tag l = Some l' ->
  In (save_type l) cart_save_types -> In (save_type l') cart_save_types.
Proof.
  unfold tag_case. cbv zeta. destruct l as [s ? ? ? ? ? ? ? ? ?].
  repeat match goal with
         | |- (if ?b then _ else _) = _ -> _ =>
             destruct b;
             [intros [= <-]; cbn [save_type set_save_type]; intros H;
              first [exact H | cbn; tauto] |]
         end.
  discriminate.
Qed.

Lemma parse_tags_save_type toks l st :
  In (save_type l) cart_save_types ->
  In (save_type (fst (parse_tags toks l st))) cart_save_types.
Proof.
  revert l st. induction toks as [|tag toks IH]; intros l st H; [exact H|].
  cbn [parse_tags]. destruct (tag_case tag l) as [l'|] eqn:E.
  - apply IH. now apply (tag_case_save_type tag l).
  - now apply IH.
Qed.

Lemma apply_wide_other w o st :
  0 <= opt_lo o -> 0 <= opt_width o -> opt_hi o < 47 \/ 48 < opt_lo o ->
  status_get o (apply_wide w st) = status_get o st.
Proof.
  intros Hlo Hw Hd. unfold apply_wide. cbv zeta.
  destruct w.
  - rewrite status_get_status_set_other by (try assumption; opt_side).
    now destruct (bool_decide _).
  - destruct (_ && _); [|reflexivity].
    rewrite status_get_with_old_ar.
    apply status_get_status_set_other; try assumption; opt_side.
Qed.

Lemma status_get_if_set_other (b : bool) o o' v st :
  0 <= opt_lo o -> 0 <= opt_lo o' -> 0 <= opt_width o -> 0 <= opt_width o' ->
  opt_hi o < opt_lo o' \/ opt_hi o' < opt_lo o ->
  status_get o' (if b then status_set o v st else st) = status_get o' st.
Proof.
  intros. destruct b; [|reflexivity]. now apply status_get_status_set_other.
Qed.

Ltac read_back :=
  repeat first
    [ rewrite apply_wide_other by opt_side
    | rewrite status_get_if_set_other by opt_side
    | rewrite status_get_status_set_same by opt_side
    | rewrite status_get_status_set_other by opt_side
    | rewrite status_get_printf
    | progress unfold set_cart_save_type ].

Lemma tag_case_prefered_pad tag l l' :
  tag_case tag l = Some l' ->
  In (prefered_pad l) tag_pads -> In (prefered_pad l') tag_pads.
Proof.
  unfold tag_case. cbv zeta. destruct l as [? ? ? ? ? ? ? ? ? p].
  repeat match goal with
         | |- (if ?b then _ else _) = _ -> _ =>
             destruct b;
             [intros [= <-];
              cbn [prefered_pad set_save_type set_no_epak set_cpak set_rpak
                   set_tpak set_rtc set_wide goto_ntsc goto_pal
                   set_system_type set_cic_type prefer_pad];
              intros H;
              first [exact H | (destruct p; cbn in H |- *; tauto)] |]
         end.
  discriminate.
Qed.

Lemma parse_tags_prefered_pad toks l st :
  In (prefered_pad l) tag_pads ->
  In (prefered_pad (fst (parse_tags toks l st))) tag_pads.
Proof.
  revert l st. induction toks as [|tag toks IH]; intros l st H; [exact H|].
  cbn [parse_tags]. destruct (tag_case tag l) as [l'|] eqn:E.
  - apply IH. now apply (tag_case_prefered_pad tag l).
  - now apply IH.
Qed.

Lemma status_get_if_set_same (b : bool) o v st :
  0 <= opt_lo o -> 0 <= opt_width o ->
  status_get o (if b then status_set o v st else st)
  = if b then Z.land v (Z.ones (opt_width o)) else status_get o st.
Proof.
  intros. destruct b; [|reflexivity]. now apply status_get_status_set_same.
Qed.

Lemma get_cart_save_type_same st st' :
  status_get SAVE_TYPE_OPT st' = status_get SAVE_TYPE_OPT st ->
  get_cart_save_type st' = get_cart_save_type st.
Proof. intros H. unfold get_cart_save_type. now rewrite H. Qed.

Lemma is_auto_same st st' :
  status_get AUTODETECT_OPT st' = status_get AUTODETECT_OPT st ->
  is_auto st' = is_auto st.
Proof. intros H. unfold is_auto. now rewrite H. Qed.

Ltac opt_goal :=
  cbv [opt_width opt_lo opt_hi AR_TYPE_OPT AUTODETECT_OPT CIC_TYPE_OPT
       NO_EPAK_OPT CPAK_OPT RPAK_OPT TPAK_OPT RTC_OPT SAVE_TYPE_OPT
       SYS_TYPE_OPT CONTROLLER_OPT CONTROLLER_OPTS RESET_OPT nth];
  lia.

Lemma bool_to_uint32_bit (b : bool) :
  Z.land (bool_to_uint32 b) (Z.ones 1) = bool_to_uint32 b.
Proof. now destruct b. Qed.

(** With auto-detection on, [parse_and_apply_db_tags] stores the
    locals that the token loop ends with. *)
Lemma parse_and_apply_db_tags_stores_locals (tags : string) (st : State) :
  is_auto st = true ->
  let l := tag_settings tags in
  let r := parse_and_apply_db_tags tags st in
  fst r = bool_decide (system_type l <> SystemType.UNKNOWN)
          && bool_decide (cic_type l <> CIC.UNKNOWN) /\
  get_cart_save_type (snd r) = save_type l /\
  status_get NO_EPAK_OPT (snd r) = bool_to_uint32 (no_epak l) /\
  status_get CPAK_OPT (snd r) = bool_to_uint32 (cpak l) /\
  status_get RPAK_OPT (snd r) = bool_to_uint32 (rpak l) /\
  status_get TPAK_OPT (snd r) = bool_to_uint32 (tpak l) /\
  status_get RTC_OPT (snd r) = bool_to_uint32 (rtc l) /\
  status_get SYS_TYPE_OPT (snd r)
  = (if bool_decide (system_type l <> SystemType.UNKNOWN)
     then SystemType_to_uint32 (system_type l)
     else status_get SYS_TYPE_OPT st) /\
  status_get CIC_TYPE_OPT (snd r)
  = (if bool_decide (cic_type l <> CIC.UNKNOWN)
     then CIC_to_uint32 (cic_type l)
     else status_get CIC_TYPE_OPT st) /\
  status_get (CONTROLLER_OPT 0) (snd r)
  = (if status_get (CONTROLLER_OPT 0) st =? PadType_to_uint32 PadType.SNAC
     then PadType_to_uint32 PadType.SNAC
     else PadType_to_uint32 (prefered_pad l)) /\
  (forall i, (1 <= i < 4)%nat ->
     status_get (CONTROLLER_OPT i) (snd r) = status_get (CONTROLLER_OPT i) st) /\
  is_auto (snd r) = true /\
  mount_order (snd r)
  = (if bool_decide (save_type l <> MemoryType.NONE) then [save_type l]
     else [])
    ++ (if tpak l then [MemoryType.TPAK]
        else if cpak l then [MemoryType.CPAK] else [])
    ++ (if cpak l then [MemoryType.CPAK; MemoryType.CPAK; MemoryType.CPAK]
        else []).
Proof.
  intros Ha l r. subst l r. unfold tag_settings, parse_and_apply_db_tags.
  pose proof (parse_tags_console (strtok tags "| ") TagLocals_init st) as Hc.
  pose proof (parse_tags_save_type (strtok tags "| ") TagLocals_init st) as Hty.
  pose proof (parse_tags_prefered_pad (strtok tags "| ") TagLocals_init st)
    as Hpad.
  rewrite (parse_tags_locals _ _ power_on st).
  destruct (parse_tags (strtok tags "| ") TagLocals_init st) as [l0 st0].
  cbn [fst snd] in Hc, Hty, Hpad |- *.
  specialize (Hty ltac:(cbn; tauto)). specialize (Hpad ltac:(cbn; tauto)).
  cbv zeta.
  set (l := if bool_decide (system_type l0 = SystemType.UNKNOWN)
               && bool_decide (cic_type l0 <> CIC.UNKNOWN)
            then set_system_type SystemType.NTSC l0 else l0) in *.
  assert (Hl : In (save_type l) cart_save_types)
    by (subst l; now destruct (_ && _)).
  assert (Hp : In (prefered_pad l) tag_pads)
    by (subst l; now destruct (_ && _)).
  clearbody l. clear Hty Hpad l0.
  change (is_auto (printf ?m ?s)) with (is_auto s).
  rewrite (same_but_console_is_auto _ _ Hc), Ha. cbn [negb fst snd].
  assert (Hget : forall o, status_get o st0 = status_get o st)
    by (intros o; now apply same_but_console_status_get).
  match goal with
  | |- context [apply_wide _ (if negb (status_get _ ?s =? _) then _ else _)] =>
      set (s7 := s) in *
  end.
  assert (Hsave : get_cart_save_type s7 = save_type l)
    by (subst s7; now apply get_cart_save_type_set).
  assert (Hc0 : forall i, (i < 4)%nat ->
            status_get (CONTROLLER_OPT i) s7 = status_get (CONTROLLER_OPT i) st).
  { intros i Hi. subst s7.
    destruct i as [|[|[|[|?]]]]; try lia; read_back; apply Hget. }
  assert (Hsys : status_get SYS_TYPE_OPT s7
                 = if bool_decide (system_type l <> SystemType.UNKNOWN)
                   then SystemType_to_uint32 (system_type l)
                   else status_get SYS_TYPE_OPT st).
  { subst s7. read_back. rewrite status_get_if_set_same by opt_side.
    rewrite status_get_printf, status_get_printf, Hget.
    destruct (system_type l); reflexivity. }
  assert (Hcic : status_get CIC_TYPE_OPT s7
                 = if bool_decide (cic_type l <> CIC.UNKNOWN)
                   then CIC_to_uint32 (cic_type l)
                   else status_get CIC_TYPE_OPT st).
  { subst s7. read_back. rewrite status_get_if_set_same by opt_side.
    read_back. rewrite Hget. destruct (cic_type l); reflexivity. }
  assert (Hflag : status_get NO_EPAK_OPT s7 = bool_to_uint32 (no_epak l) /\
                  status_get CPAK_OPT s7 = bool_to_uint32 (cpak l) /\
                  status_get RPAK_OPT s7 = bool_to_uint32 (rpak l) /\
                  status_get TPAK_OPT s7 = bool_to_uint32 (tpak l) /\
                  status_get RTC_OPT s7 = bool_to_uint32 (rtc l)).
  { subst s7. repeat split; read_back; apply bool_to_uint32_bit. }
  assert (Hauto : is_auto s7 = true).
  { unfold is_auto. subst s7. read_back. rewrite Hget. exact Ha. }
  clearbody s7.
  set (sF := apply_wide _ _).
  assert (Hother : forall o, 0 <= opt_lo o -> 0 <= opt_width o ->
            opt_hi o < 47 \/ 51 < opt_lo o ->
            status_get o sF = status_get o s7).
  { intros o Hlo Hw Hd. subst sF.
    rewrite apply_wide_other by (try assumption; lia).
    apply status_get_if_set_other; try assumption; opt_side. }
  assert (HsaveF : get_cart_save_type sF = save_type l).
  { rewrite <- Hsave. apply get_cart_save_type_same, Hother; opt_goal. }
  destruct Hflag as (Hne & Hcp & Hrp & Htp & Hrt).
  assert (HcpF : status_get CPAK_OPT sF = bool_to_uint32 (cpak l))
    by (rewrite Hother by opt_goal; exact Hcp).
  assert (HtpF : status_get TPAK_OPT sF = bool_to_uint32 (tpak l))
    by (rewrite Hother by opt_goal; exact Htp).
  split; [reflexivity|]. split; [exact HsaveF|].
  split; [rewrite Hother by opt_goal; exact Hne|].
  split; [exact HcpF|].
  split; [rewrite Hother by opt_goal; exact Hrp|].
  split; [exact HtpF|].
  split; [rewrite Hother by opt_goal; exact Hrt|].
  split; [rewrite Hother by opt_goal; exact Hsys|].
  split; [rewrite Hother by opt_goal; exact Hcic|].
  split; [|split; [|split; [|]]].
  - subst sF. rewrite apply_wide_other by opt_goal.
    rewrite (Hc0 0%nat) by lia.
    destruct (status_get (CONTROLLER_OPT 0) st =? PadType_to_uint32 PadType.SNAC)
      eqn:E; cbn [negb].
    + rewrite (Hc0 0%nat) by lia. now apply Z.eqb_eq in E.
    + rewrite status_get_status_set_same by opt_goal.
      cbn in Hp. destruct Hp as [<-|[<-|[<-|[<-|[]]]]]; reflexivity.
  - intros i Hi.
    assert (Hi' : (i = 1 \/ i = 2 \/ i = 3)%nat) by lia.
    rewrite <- (Hc0 i) by lia.
    destruct Hi' as [-> |[-> | ->]]; apply Hother; opt_goal.
  - rewrite <- Hauto. apply is_auto_same, Hother; opt_goal.
  - unfold mount_order. rewrite HsaveF, HcpF, HtpF.
    destruct (tpak l), (cpak l); reflexivity.
Qed.

(** *** The token loop against the names of the tags *)

Lemma lower_tag_names :
  Forall (fun entry => lower_string (fst entry) = fst entry) tag_names.
Proof. repeat constructor. Qed.

(** The case of the [switch] that the spelling of a tag selects, said
    field by field. *)
Lemma tag_case_known token tag l :
  tag_of token = Some tag ->
  exists l',
    tag_case token l = Some l' /\
    save_type l' = default (save_type l) (save_of tag) /\
    cic_type l' = default (cic_type l) (chip_of tag) /\
    system_type l' = default (system_type l) (region_of tag) /\
    no_epak l' = (if bool_decide (tag = NoEpakTag) then true else no_epak l) /\
    cpak l' = (if bool_decide (tag = CpakTag) then true else cpak l) /\
    rpak l' = (if bool_decide (tag = RpakTag) then true else rpak l) /\
    tpak l' = (if bool_decide (tag = TpakTag) then true else tpak l) /\
    rtc l' = (if bool_decide (tag = RtcTag) then true else rtc l) /\
    prefered_pad l'
    = match pad_of tag with
      | Some pad => prefer_pad pad l
      | None => prefered_pad l
      end.
Proof.
  unfold tag_of. intros H.
  destruct (List.find _ tag_names) as [[name tag']|] eqn:Efind;
    [|discriminate].
  cbn [fmap option_fmap option_map snd] in H. injection H as ->.
  apply List.find_some in Efind as [Hin Hname].
  cbn [fst] in Hname. apply String.eqb_eq in Hname.
  assert (Hlow : lower_string token = lower_string name).
  { pose proof lower_tag_names as Hl.
    rewrite List.Forall_forall in Hl. specialize (Hl _ Hin).
    cbn [fst] in Hl. congruence. }
  unfold tag_case. rewrite (fnv_hash_lower token name Hlow). clear Hlow Hname.
  cbn [tag_names In] in Hin.
  repeat (destruct Hin as [Hin|Hin];
          [injection Hin as <- <-; eexists;
           split; [vm_compute; reflexivity|];
           cbn; repeat split; reflexivity|]).
  destruct Hin.
Qed.

Lemma default_last_cons {A : Type} (f : Tag -> option A) tag tags (a : A) :
  default (default a (f tag)) (last (omap f tags))
  = default a (last (omap f (tag :: tags))).
Proof.
  cbn [omap list_omap]. destruct (f tag) as [v|]; [|reflexivity].
  cbn [default]. destruct (omap f tags) as [|x xs]; [reflexivity|].
  change (last (v :: x :: xs)) with (last (x :: xs)).
  destruct (last_is_Some (x :: xs)) as [_ H].
  destruct (H ltac:(discriminate)) as [y ->]. reflexivity.
Qed.

(** A list of known tags runs through the token loop without a
    message, and the locals at the end are what the list says. *)
Lemma parse_tags_known toks tags l st :
  Forall2 (fun token tag => tag_of token = Some tag) toks tags ->
  exists l',
    parse_tags toks l st = (l', st) /\
    save_type l' = default (save_type l) (last (omap save_of tags)) /\
    cic_type l' = default (cic_type l) (last (omap chip_of tags)) /\
    system_type l' = default (system_type l) (last (omap region_of tags)) /\
    no_epak l' = names NoEpakTag tags || no_epak l /\
    cpak l' = names CpakTag tags || cpak l /\
    rpak l' = names RpakTag tags || rpak l /\
    tpak l' = names TpakTag tags || tpak l /\
    rtc l' = names RtcTag tags || rtc l /\
    prefered_pad l'
    = (if bool_decide (prefered_pad l = PadType.N64_PAD)
       then default PadType.N64_PAD (head (omap pad_of tags))
       else prefered_pad l).
Proof.
  intros H. revert l.
  induction H as [|token tag toks tags Htag _ IH]; intros l.
  - exists l. split; [reflexivity|]. cbn.
    repeat split; try reflexivity.
    destruct (bool_decide _) eqn:E; [|reflexivity].
    now apply bool_decide_eq_true in E.
  - destruct (tag_case_known token tag l Htag)
      as (l1 & Hcase & Hs & Hc & Hr & Hne & Hcp & Hrp & Htp & Hrt & Hp).
    destruct (IH l1)
      as (l' & Hrun & Hs' & Hc' & Hr' & Hne' & Hcp' & Hrp' & Htp' & Hrt' & Hp').
    exists l'. cbn [parse_tags]. rewrite Hcase.
    split; [exact Hrun|].
    split; [rewrite Hs', Hs; apply default_last_cons|].
    split; [rewrite Hc', Hc; apply default_last_cons|].
    split; [rewrite Hr', Hr; apply default_last_cons|].
    unfold names in *. cbn [existsb]. cbv beta.
    split; [rewrite Hne', Hne; destruct (bool_decide (tag = NoEpakTag));
            rewrite ?orb_true_r; reflexivity|].
    split; [rewrite Hcp', Hcp; destruct (bool_decide (tag = CpakTag));
            rewrite ?orb_true_r; reflexivity|].
    split; [rewrite Hrp', Hrp; destruct (bool_decide (tag = RpakTag));
            rewrite ?orb_true_r; reflexivity|].
    split; [rewrite Htp', Htp; destruct (bool_decide (tag = TpakTag));
            rewrite ?orb_true_r; reflexivity|].
    split; [rewrite Hrt', Hrt; destruct (bool_decide (tag = RtcTag));
            rewrite ?orb_true_r; reflexivity|].
    rewrite Hp', Hp. cbn [omap list_omap]. unfold prefer_pad.
    destruct (pad_of tag) as [pad|] eqn:Epad; [|reflexivity].
    assert (Hpad : pad <> PadType.N64_PAD)
      by (destruct tag; try discriminate Epad; injection Epad as <-;
          discriminate).
    cbn [head default].
    destruct (bool_decide (prefered_pad l = PadType.N64_PAD)) eqn:E.
    + now rewrite bool_decide_eq_false_2.
    + now rewrite E.
Qed.

(** X12. With auto-detection on, a tag list whose tokens spell known
    tags, in any letter case, leaves the configuration that the tags
    say: the save type of the last save tag (none without one); the
    expansion-pak, controller-pak, rumble-pak, transfer-pak and clock
    switches on exactly if the list names them; the boot chip of the
    last chip tag and the region of the last tag that says one, NTSC
    if only a chip is named, both left as they were if the list says
    neither; the first controller on the pad of the first pak tag
    unless it is set to SNAC, the other three controllers as they
    were.  The result is [true] exactly if region and boot chip are
    both known.  The regions that the next mount creates follow from
    the tags alone. *)
Theorem known_tags_set_the_configuration
  (text : string) (tags : list Tag) (st : State) :
  is_auto st = true ->
  Forall2 (fun token tag => tag_of token = Some tag) (strtok text "| ") tags ->
  let r := parse_and_apply_db_tags text st in
  let region := named_region tags in
  let chip := named_chip tags in
  let save := named_save_type tags in
  fst r = bool_decide (region <> SystemType.UNKNOWN)
          && bool_decide (chip <> CIC.UNKNOWN) /\
  get_cart_save_type (snd r) = save /\
  status_get NO_EPAK_OPT (snd r) = bool_to_uint32 (names NoEpakTag tags) /\
  status_get CPAK_OPT (snd r) = bool_to_uint32 (names CpakTag tags) /\
  status_get RPAK_OPT (snd r) = bool_to_uint32 (names RpakTag tags) /\
  status_get TPAK_OPT (snd r) = bool_to_uint32 (names TpakTag tags) /\
  status_get RTC_OPT (snd r) = bool_to_uint32 (names RtcTag tags) /\
  status_get SYS_TYPE_OPT (snd r)
  = (if bool_decide (region <> SystemType.UNKNOWN)
     then SystemType_to_uint32 region
     else status_get SYS_TYPE_OPT st) /\
  status_get CIC_TYPE_OPT (snd r)
  = (if bool_decide (chip <> CIC.UNKNOWN)
     then CIC_to_uint32 chip
     else status_get CIC_TYPE_OPT st) /\
  status_get (CONTROLLER_OPT 0) (snd r)
  = (if status_get (CONTROLLER_OPT 0) st =? PadType_to_uint32 PadType.SNAC
     then PadType_to_uint32 PadType.SNAC
     else PadType_to_uint32 (named_pad tags)) /\
  (forall i, (1 <= i < 4)%nat ->
     status_get (CONTROLLER_OPT i) (snd r) = status_get (CONTROLLER_OPT i) st) /\
  is_auto (snd r) = true /\
  mount_order (snd r)
  = (if bool_decide (save <> MemoryType.NONE) then [save] else [])
    ++ (if names TpakTag tags then [MemoryType.TPAK]
        else if names CpakTag tags then [MemoryType.CPAK] else [])
    ++ (if names CpakTag tags
        then [MemoryType.CPAK; MemoryType.CPAK; MemoryType.CPAK] else []).
Proof.
  intros Ha Htags r region chip save.
  pose proof (parse_and_apply_db_tags_stores_locals text st Ha) as Hstored.
  cbv zeta in Hstored. fold r in Hstored.
  destruct (parse_tags_known _ _ TagLocals_init power_on Htags)
    as (l0 & Hrun & Hs & Hc & Hr & Hne & Hcp & Hrp & Htp & Hrt & Hp).
  cbn [TagLocals_init save_type cic_type system_type no_epak cpak rpak tpak
         rtc prefered_pad] in Hs, Hc, Hr, Hne, Hcp, Hrp, Htp, Hrt, Hp.
  rewrite bool_decide_eq_true_2 in Hp by reflexivity.
  rewrite orb_false_r in Hne, Hcp, Hrp, Htp, Hrt.
  fold (named_save_type tags) in Hs. fold (named_chip tags) in Hc.
  fold (named_pad tags) in Hp. fold save in Hs. fold chip in Hc.
  assert (Hl : save_type (tag_settings text) = save /\
               cic_type (tag_settings text) = chip /\
               system_type (tag_settings text) = region /\
               no_epak (tag_settings text) = names NoEpakTag tags /\
               cpak (tag_settings text) = names CpakTag tags /\
               rpak (tag_settings text) = names RpakTag tags /\
               tpak (tag_settings text) = names TpakTag tags /\
               rtc (tag_settings text) = names RtcTag tags /\
               prefered_pad (tag_settings text) = named_pad tags).
  { unfold tag_settings. rewrite Hrun. cbn [fst].
    subst region. unfold named_region. fold chip. rewrite <- Hr, <- Hc.
    destruct (bool_decide (system_type l0 = SystemType.UNKNOWN)
              && bool_decide (cic_type l0 <> CIC.UNKNOWN));
      cbn [set_system_type save_type cic_type system_type no_epak cpak rpak
             tpak rtc prefered_pad];
      repeat split; congruence. }
  destruct Hl as (-> & -> & -> & -> & -> & -> & -> & -> & ->) in Hstored.
  exact Hstored.
Qed.

Lemma known_tags_set_the_configuration_witness :
  let r := parse_and_apply_db_tags "SRAM32k|cpak cic7101 TPak" power_on in
  let tags := [SaveTag MemoryType.SRAM_32k; CpakTag;
               ChipTag CIC.CIC_NUS_7101; TpakTag] in
  (is_auto power_on = true /\
   Forall2 (fun token tag => tag_of token = Some tag)
     (strtok "SRAM32k|cpak cic7101 TPak" "| ") tags) /\
  fst r = true /\
  get_cart_save_type (snd r) = MemoryType.SRAM_32k /\
  status_get SYS_TYPE_OPT (snd r) = SystemType_to_uint32 SystemType.PAL /\
  status_get (CONTROLLER_OPT 0) (snd r)
  = PadType_to_uint32 PadType.N64_PAD_WITH_CPAK /\
  mount_order (snd r)
  = [MemoryType.SRAM_32k; MemoryType.TPAK; MemoryType.CPAK; MemoryType.CPAK;
     MemoryType.CPAK].
Proof.
  intros r tags.
  assert (Ha : is_auto power_on = true) by reflexivity.
  assert (Ht : Forall2 (fun token tag => tag_of token = Some tag)
                 (strtok "SRAM32k|cpak cic7101 TPak" "| ") tags)
    by (vm_compute; repeat constructor).
  split; [exact (conj Ha Ht)|].
  destruct (known_tags_set_the_configuration "SRAM32k|cpak cic7101 TPak"
              tags power_on Ha Ht)
    as (Hr & Hsave & _ & _ & _ & _ & _ & Hsys & _ & Hpad & _ & _ & Hm).
  split; [exact Hr|]. split; [exact Hsave|]. split; [exact Hsys|].
  split; [exact Hpad|exact Hm].
Defined.

(** ** What a ROM load inherits from its steps *)

Section Inherits.

(** A relation between the state before and after a step that is
    reflexive and transitive and holds for each of the basic steps
    holds for the detection chain and for the whole ROM load. *)
Variable R : State -> State -> Prop.
Variables (SAVE_DIR CoreName : string) (cpak_header : list (list Z)).
Variable MD5 : list Z -> list Z.

Hypothesis R_refl : forall st, R st st.
Hypothesis R_trans : forall st1 st2 st3, R st1 st2 -> R st2 st3 -> R st1 st3.
Hypothesis R_printf : forall m st, R st (printf m st).
Hypothesis R_emit : forall e st, R st (emit e st).
Hypothesis R_tags :
  forall tags st, R st (snd (parse_and_apply_db_tags tags st)).
Hypothesis R_homebrew :
  forall cs cart_id st, R st (snd (detect_homebrew_header cs cart_id st)).
Hypothesis R_heuristic :
  forall region_code signatures st,
    R st (snd (detect_rom_settings_from_first_chunk region_code signatures st)).
Hypothesis R_default : forall st, R st (default_settings st).
Hypothesis R_unmount : forall st, R st (unmount_all_save_files st).
Hypothesis R_mount :
  forall name type old_path st,
    R st (snd (mount_save_file SAVE_DIR CoreName cpak_header
                 name type old_path st)).
Hypothesis R_reset : forall v st, R st (status_set RESET_OPT v st).

Lemma scan_db_md5_inherits lookup_hash lines st :
  R st (snd (scan_db_md5 lookup_hash lines st)).
Proof.
  induction lines as [|line lines IH]; [apply R_refl|].
  cbn [scan_db_md5]. destruct (negb (md5_matches line lookup_hash)); [exact IH|].
  destruct (sscanf_tags _) as [tags|]; [|apply R_printf].
  pose proof (R_tags tags (printf (MsgFoundMD5 lookup_hash tags) st)) as H.
  destruct (parse_and_apply_db_tags tags _) as [ok st1]. cbn [snd] in *.
  eapply R_trans; [apply R_printf|exact H].
Qed.

Lemma scan_db_cartid_inherits cart_id lines st :
  R st (snd (scan_db_cartid cart_id lines st)).
Proof.
  induction lines as [|line lines IH]; [apply R_refl|].
  cbn [scan_db_cartid]. destruct (cart_id_is_match line cart_id =? 0);
    [exact IH|].
  destruct (sscanf_tags _) as [tags|]; [|apply R_printf].
  pose proof (R_tags tags (printf (MsgFoundID cart_id tags) st)) as H.
  destruct (parse_and_apply_db_tags tags _) as [ok st1]. cbn [snd] in *.
  eapply R_trans; [apply R_printf|exact H].
Qed.

Lemma dbs_with_md5_inherits lookup_hash st :
  R st (snd (detect_rom_settings_in_dbs_with_md5 lookup_hash st)).
Proof.
  unfold detect_rom_settings_in_dbs_with_md5.
  apply (in_dbs_inherits R); [apply R_refl|apply R_trans|].
  intros name st'. unfold detect_rom_settings_in_db.
  destruct (db_files st' !! name);
    [apply scan_db_md5_inherits|apply R_printf].
Qed.

Lemma dbs_with_cartid_inherits lookup_id st :
  R st (snd (detect_rom_settings_in_dbs_with_cartid lookup_id st)).
Proof.
  unfold detect_rom_settings_in_dbs_with_cartid.
  destruct (negb _); [apply R_printf|].
  apply (in_dbs_inherits R); [apply R_refl|apply R_trans|].
  intros name st'. unfold detect_rom_settings_in_db_with_cartid.
  destruct (db_files st' !! name);
    [apply scan_db_cartid_inherits|apply R_printf].
Qed.

Lemma resolve_settings_inherits detected md5_hex l st :
  R st (snd (resolve_settings detected md5_hex l st)).
Proof.
  unfold resolve_settings.
  assert (Htail : forall (d : bool -> Z) st0, R st st0 ->
            R st
              (snd (let '(ok, st1) :=
                      detect_rom_settings_from_first_chunk
                        (c_at (cart_id l) 3) (bootcode_sums l) st0 in
                    (d ok, st1)))).
  { intros d st0 H0.
    pose proof (R_heuristic (c_at (cart_id l) 3) (bootcode_sums l) st0) as H.
    destruct (detect_rom_settings_from_first_chunk _ _ st0).
    eapply R_trans; eauto. }
  assert (H1 : R st
                 (snd (if detected =? 0
                       then detect_rom_settings_in_dbs_with_md5 md5_hex st
                       else (detected, st)))).
  { destruct (detected =? 0); [apply dbs_with_md5_inherits|apply R_refl]. }
  destruct (if detected =? 0 then _ else _) as [d1 st1]. cbn [snd] in H1.
  destruct (d1 =? 0).
  - pose proof (dbs_with_cartid_inherits (cart_id l)
                  (printf (MsgNoInfoForFileHash md5_hex) st1)) as H2.
    destruct (detect_rom_settings_in_dbs_with_cartid _ _) as [d2 st2].
    cbn [snd] in H2.
    assert (H12 : R st st2).
    { eapply R_trans; [exact H1|].
      eapply R_trans; [apply R_printf|exact H2]. }
    clear H1 H2.
    destruct (d2 =? 0).
    + pose proof (R_homebrew (controller_settings l) (cart_id l) st2) as H3.
      destruct (detect_homebrew_header _ _ st2) as [[|] st3]; cbn [snd] in H3.
      * destruct (_ || _); [|eapply R_trans; eauto].
        apply (Htail (fun ok => if ok then Z.lor 2 1 else 2)).
        eapply R_trans; eauto.
      * assert (H4 : R st
                       (if is_auto (printf (MsgNoInfoForCartID (cart_id l)) st3)
                        then default_settings
                               (printf (MsgNoInfoForCartID (cart_id l)) st3)
                        else printf (MsgNoInfoForCartID (cart_id l)) st3)).
        { eapply R_trans; [exact H12|].
          eapply R_trans; [exact H3|].
          destruct (is_auto _).
          - eapply R_trans; [apply R_printf|apply R_default].
          - apply R_printf. }
        destruct (_ || _); [|exact H4].
        apply (Htail (fun ok => if ok then Z.lor d2 1 else d2)). exact H4.
    + destruct (_ || _); [|exact H12].
      apply (Htail (fun ok => if ok then Z.lor d2 1 else d2)). exact H12.
  - destruct (d1 =? 2); [|exact H1].
    apply (Htail (fun ok => if ok then 3 else d1)). exact H1.
Qed.

Lemma first_chunk_inherits buf l st : R st (snd (first_chunk MD5 buf l st)).
Proof.
  unfold first_chunk.
  pose proof (dbs_with_md5_inherits (md5_to_hex (MD5 (ctx l)))
                (printf (MsgHeaderMD5 (md5_to_hex (MD5 (ctx l)))) st)) as H.
  destruct (detect_rom_settings_in_dbs_with_md5 _ _) as [detected st1].
  cbn [snd] in H.
  assert (H1 : R st st1) by (eapply R_trans; [apply R_printf|exact H]).
  assert (H2 : R st (if detected =? 0
                     then printf (MsgNoInfoForHeaderHash
                                    (md5_to_hex (MD5 (ctx l)))) st1
                     else st1)).
  { destruct (detected =? 0); [|exact H1].
    eapply R_trans; [exact H1|apply R_printf]. }
  destruct (negb (String.eqb _ _)); cbn [snd]; [|exact H2].
  eapply R_trans; [exact H2|apply R_printf].
Qed.

Lemma rom_loop_inherits first chunks l st l' st' :
  rom_loop MD5 first chunks l st = Some (l', st') -> R st st'.
Proof.
  revert first l st. induction chunks as [|buf chunks IH]; intros first l st.
  - intros [= <- <-]. apply R_refl.
  - cbn [rom_loop]. unfold rom_chunk.
    destruct (first && _); [discriminate|]. cbv zeta.
    set (l1 := mkRomLocals _ _ _ _ _ _).
    set (nbuf := normalizeData _ _ _).
    assert (H1 : R st (snd (if first then first_chunk MD5 nbuf l1 st
                            else (l1, st)))).
    { destruct first; [apply first_chunk_inherits|apply R_refl]. }
    destruct (if first then first_chunk _ _ _ _ else _) as [l2 st2].
    cbn [snd] in H1.
    intros H. apply IH in H.
    eapply R_trans; [exact H1|]. eapply R_trans; [apply R_emit|exact H].
Qed.

Lemma mount_save_files_inherits name st :
  R st (snd (mount_save_files SAVE_DIR CoreName cpak_header name st)).
Proof.
  unfold mount_save_files. cbv zeta.
  set (old := get_old_save_path SAVE_DIR CoreName name).
  assert (Hstep : forall type st0 (b : bool), R st st0 ->
            R st (snd (let '(is_new, st1) :=
                         mount_save_file SAVE_DIR CoreName cpak_header
                           name type old st0 in
                       (b || is_new, st1)))).
  { intros type st0 b H0. pose proof (R_mount name type old st0) as H.
    destruct (mount_save_file _ _ _ name type old st0) as [is_new st1].
    eapply R_trans; eauto. }
  assert (H1 : R st (snd (if bool_decide (get_cart_save_type st
                                          <> MemoryType.NONE)
                          then let '(is_new, st1) :=
                                 mount_save_file SAVE_DIR CoreName cpak_header
                                   name (get_cart_save_type st) old st in
                               (false || is_new, st1)
                          else (false, st)))).
  { destruct (bool_decide _); [apply Hstep|]; apply R_refl. }
  destruct (if bool_decide _ then _ else _) as [r1 st1]. cbn [snd] in H1.
  assert (H2 : R st (snd (if negb (status_get TPAK_OPT st1 =? 0)
                             || negb (status_get CPAK_OPT st1 =? 0)
                          then let '(is_new, st2) :=
                                 mount_save_file SAVE_DIR CoreName cpak_header
                                   name
                                   (if negb (status_get TPAK_OPT st1 =? 0)
                                    then MemoryType.TPAK else MemoryType.CPAK)
                                   old st1 in
                               (r1 || is_new, st2)
                          else (r1, st1)))).
  { destruct (_ || _); [now apply Hstep|exact H1]. }
  destruct (if _ || _ then _ else _) as [r2 st2]. cbn [snd] in H2.
  destruct (negb (status_get CPAK_OPT st1 =? 0)); [|exact H2].
  pose proof (R_mount name MemoryType.CPAK old st2) as H3.
  destruct (mount_save_file _ _ _ name MemoryType.CPAK old st2) as [n1 st3].
  pose proof (R_mount name MemoryType.CPAK old st3) as H4.
  destruct (mount_save_file _ _ _ name MemoryType.CPAK old st3) as [n2 st4].
  pose proof (R_mount name MemoryType.CPAK old st4) as H5.
  destruct (mount_save_file _ _ _ name MemoryType.CPAK old st4) as [n3 st5].
  cbn [snd] in *. eauto.
Qed.

Lemma gb_tx_inherits chunks st : R st (gb_tx chunks st).
Proof.
  unfold gb_tx. revert st. induction chunks as [|c chunks IH]; intros st;
    [apply R_refl|].
  cbn [foldl]. eapply R_trans; [apply R_emit|apply IH].
Qed.

Lemma n64_rom_tx_inherits name idx st :
  R st (snd (n64_rom_tx SAVE_DIR CoreName cpak_header MD5 name idx st)).
Proof.
  unfold n64_rom_tx. destruct (files st !! name) as [data|]; [|apply R_refl].
  cbv zeta.
  set (st1 := emit _ (emit _ (printf _ st))).
  assert (H1 : R st st1) by (subst st1; eauto).
  clearbody st1.
  destruct (Z.land idx 63 =? 2).
  - cbn [snd]. eapply R_trans; [exact H1|].
    eapply R_trans; [apply gb_tx_inherits|]. eauto.
  - set (l0 := mkRomLocals _ _ _ _ _ _).
    destruct (rom_loop MD5 true _ l0 (unmount_all_save_files st1))
      as [[l' st2]|] eqn:Hrun.
    + apply rom_loop_inherits in Hrun.
      assert (H2 : R st st2) by eauto.
      pose proof (resolve_settings_inherits (rom_settings_detected l')
                    (md5_to_hex (MD5 (ctx l'))) l'
                    (printf (MsgFileMD5 (md5_to_hex (MD5 (ctx l')))) st2)) as H3.
      destruct (resolve_settings _ _ _ _) as [detected st3]. cbn [snd] in H3.
      pose proof (mount_save_files_inherits name (printf MsgDone st3)) as H4.
      destruct (mount_save_files _ _ _ _ _) as [do_reset st4]. cbn [snd] in *.
      assert (H5 : R st st4) by eauto 8.
      destruct do_reset; eauto 8.
    + cbn [snd]. eauto 8.
Qed.

End Inherits.

(** ** Options that a ROM load keeps *)

Lemma keeps_options_refl st : keeps_options st st.
Proof. split; auto. Qed.

Lemma keeps_options_trans st1 st2 st3 :
  keeps_options st1 st2 -> keeps_options st2 st3 -> keeps_options st1 st3.
Proof.
  intros [H1 S1] [H2 S2]. split.
  - intros o Ho. now rewrite H2, H1.
  - intros i Hi H. auto.
Qed.

Lemma keeps_options_status st st' :
  status st' = status st -> keeps_options st st'.
Proof.
  intros H. split; intros; unfold status_get in *; now rewrite H.
Qed.

Lemma keeps_options_status_set o v st :
  In o written_options -> keeps_options st (status_set o v st).
Proof.
  intros Hin. split.
  - intros o' (Hlo & Hw & Hd).
    apply status_get_status_set_other; try assumption;
      cbn [In written_options] in Hin;
      repeat (destruct Hin as [<-|Hin]; [opt_side|]); contradiction.
  - intros i Hi <-.
    apply status_get_status_set_other;
      destruct i as [|[|[|[|?]]]]; try lia;
      cbn [In written_options] in Hin;
      repeat (destruct Hin as [<-|Hin]; [opt_side|]); contradiction.
Qed.

Lemma keeps_options_controller i v st :
  (i < 4)%nat ->
  status_get (CONTROLLER_OPT i) st <> PadType_to_uint32 PadType.SNAC ->
  keeps_options st (status_set (CONTROLLER_OPT i) v st).
Proof.
  intros Hi Hns. split.
  - intros o' (Hlo & Hw & Hd).
    apply status_get_status_set_other; try assumption;
      destruct i as [|[|[|[|?]]]]; try lia; opt_side.
  - intros j Hj Hs.
    destruct (Nat.eq_dec i j) as [<-|Hne]; [contradiction|].
    rewrite <- Hs.
    apply status_get_status_set_other;
      destruct i as [|[|[|[|?]]]]; try lia;
      destruct j as [|[|[|[|?]]]]; try lia; opt_side.
Qed.

Lemma keeps_options_guarded i v st :
  (i < 4)%nat ->
  keeps_options st
    (if negb (status_get (CONTROLLER_OPT i) st =? PadType_to_uint32 PadType.SNAC)
     then status_set (CONTROLLER_OPT i) v st else st).
Proof.
  intros Hi. destruct (_ =? _) eqn:E; cbn [negb];
    [apply keeps_options_refl|].
  apply keeps_options_controller; [assumption|now apply Z.eqb_neq].
Qed.

Lemma keeps_options_homebrew_controller cs i st :
  (i < 4)%nat -> keeps_options st (homebrew_controller cs i st).
Proof.
  intros Hi. unfold homebrew_controller. cbv zeta.
  destruct (negb (byte_at cs i =? 0)); cbn [andb];
    [|apply keeps_options_refl].
  destruct (status_get (CONTROLLER_OPT i) st =? PadType_to_uint32 PadType.SNAC)
    eqn:E; cbn [negb]; [apply keeps_options_refl|].
  apply Z.eqb_neq in E.
  destruct (_ <? _); [now apply keeps_options_controller|].
  destruct (_ =? _); [now apply keeps_options_controller|].
  apply keeps_options_refl.
Qed.

Ltac keeps :=
  repeat first
    [ assumption
    | apply keeps_options_refl
    | match goal with
      | |- keeps_options ?s
             (if negb (status_get (CONTROLLER_OPT ?i) ?s' =? _)
              then status_set (CONTROLLER_OPT ?i) _ ?s' else ?s') =>
          apply (keeps_options_trans s s');
          [|apply keeps_options_guarded; lia]
      | |- keeps_options ?s (homebrew_controller _ _ ?s') =>
          apply (keeps_options_trans s s');
          [|apply keeps_options_homebrew_controller; lia]
      | |- keeps_options _ (if ?b then _ else _) => destruct b
      | |- keeps_options ?s (printf _ ?s') =>
          apply (keeps_options_trans s s');
          [|apply keeps_options_status; reflexivity]
      | |- keeps_options ?s (emit _ ?s') =>
          apply (keeps_options_trans s s');
          [|apply keeps_options_status; reflexivity]
      | |- keeps_options ?s (with_old_ar _ ?s') =>
          apply (keeps_options_trans s s');
          [|apply keeps_options_status; reflexivity]
      | |- keeps_options ?s (status_set _ _ ?s') =>
          apply (keeps_options_trans s s');
          [|apply keeps_options_status_set; cbn; tauto]
      end ].

Lemma keeps_options_console st st' :
  same_but_console st st' -> keeps_options st st'.
Proof. intros (H & _). now apply keeps_options_status. Qed.

Lemma parse_and_apply_db_tags_keeps tags st :
  keeps_options st (snd (parse_and_apply_db_tags tags st)).
Proof.
  unfold parse_and_apply_db_tags.
  pose proof (parse_tags_console (strtok tags "| ") TagLocals_init st) as Hc.
  destruct (parse_tags (strtok tags "| ") TagLocals_init st) as [l st1].
  apply keeps_options_console in Hc. cbn [snd] in Hc. cbv zeta.
  set (l' := if bool_decide (system_type l = SystemType.UNKNOWN)
                && bool_decide (cic_type l <> CIC.UNKNOWN)
             then set_system_type SystemType.NTSC l else l).
  clearbody l'.
  destruct (negb _); cbn [snd]; [keeps|].
  match goal with
  | |- keeps_options _ (apply_wide _ ?s) =>
      apply (keeps_options_trans st s);
      [unfold set_cart_save_type; keeps|]
  end.
  match goal with
  | |- keeps_options ?s (apply_wide ?w ?s) => generalize s; intros s0
  end.
  unfold apply_wide. cbv zeta. keeps.
Qed.

Lemma detect_homebrew_header_keeps cs cart_id st :
  keeps_options st (snd (detect_homebrew_header cs cart_id st)).
Proof.
  unfold detect_homebrew_header.
  destruct (_ || _); [apply keeps_options_refl|].
  destruct (negb _); cbn [snd]; unfold set_cart_save_type; cbv zeta; keeps.
Qed.

Lemma detect_rom_settings_from_first_chunk_keeps region_code signatures st :
  keeps_options st
    (snd (detect_rom_settings_from_first_chunk region_code signatures st)).
Proof.
  unfold detect_rom_settings_from_first_chunk.
  set (system_type := if region_is_pal region_code then _ else _).
  pose proof (signature_loop_known signatures system_type st) as H.
  destruct (signature_loop 2 signatures system_type st) as [[[sys cic] known] st1].
  destruct H as [_ Hc]. apply keeps_options_console in Hc.
  destruct (negb _); cbn [snd]; keeps.
Qed.

Lemma default_settings_keeps st : keeps_options st (default_settings st).
Proof. unfold default_settings, set_cart_save_type. cbv zeta. keeps. Qed.

Lemma unmount_all_save_files_status st :
  status (unmount_all_save_files st) = status st /\
  files (unmount_all_save_files st) = files st /\
  db_files (unmount_all_save_files st) = db_files st /\
  io (unmount_all_save_files st) = io st /\
  old_ar (unmount_all_save_files st) = old_ar st.
Proof. unfold unmount_all_save_files. cbn [seq foldl]. now repeat split. Qed.

Lemma mount_save_file_keeps SAVE_DIR CoreName cpak_header name type old st :
  keeps_options st
    (snd (mount_save_file SAVE_DIR CoreName cpak_header name type old st)).
Proof.
  apply keeps_options_status.
  apply (mount_save_file_registry SAVE_DIR CoreName cpak_header name type old st).
Qed.

(** X13. A ROM load keeps what it has no business with.  Whatever the
    file and the knowledge base hold, [n64_rom_tx] leaves every option
    of the configuration word outside the ones this file names as it
    was, among them the auto-detection switch; and a controller that
    is set to SNAC is still set to SNAC after the load, whether a tag
    list, a homebrew header or nothing at all described the ROM. *)
Theorem rom_load_keeps_other_options
  (SAVE_DIR CoreName : string) (cpak_header : list (list Z))
  (MD5 : list Z -> list Z) (name : string) (idx : Z) (st : State) :
  let st' := snd (n64_rom_tx SAVE_DIR CoreName cpak_header MD5 name idx st) in
  (forall o, untouched_option o -> status_get o st' = status_get o st) /\
  is_auto st' = is_auto st /\
  (forall i, (i < 4)%nat ->
     status_get (CONTROLLER_OPT i) st = PadType_to_uint32 PadType.SNAC ->
     status_get (CONTROLLER_OPT i) st' = PadType_to_uint32 PadType.SNAC).
Proof.
  intros st'.
  assert (H : keeps_options st st').
  { subst st'. apply n64_rom_tx_inherits.
    - apply keeps_options_refl.
    - apply keeps_options_trans.
    - intros m s. now apply keeps_options_status.
    - intros e s. now apply keeps_options_status.
    - apply parse_and_apply_db_tags_keeps.
    - apply detect_homebrew_header_keeps.
    - apply detect_rom_settings_from_first_chunk_keeps.
    - apply default_settings_keeps.
    - intros s. apply keeps_options_status, unmount_all_save_files_status.
    - intros. apply mount_save_file_keeps.
    - intros v s. apply keeps_options_status_set. cbn. tauto. }
  destruct H as [Ho Hs]. split; [exact Ho|]. split; [|exact Hs].
  unfold is_auto. rewrite Ho; [reflexivity|].
  unfold untouched_option. opt_side.
Qed.

(** ** Files that a ROM load keeps *)

Lemma read_file_console filename data offset sz st :
  same_but_console st (snd (read_file filename data offset sz st)).
Proof.
  unfold read_file. cbv zeta.
  change (files (printf ?m ?s)) with (files s).
  destruct (files st !! filename); [|now repeat split].
  destruct (_ >? _); now repeat split.
Qed.

(** [create_if_missing] leaves the files as they are or adds the one
    that was missing; nothing else changes but the console. *)
Lemma create_if_missing_files cpak_header f path old_path st :
  let st' := snd (create_if_missing cpak_header f path old_path st) in
  (files st' = files st
   \/ files st !! path = None /\
      exists content, files st' = <[path := content]> (files st)) /\
  status st' = status st /\ old_ar st' = old_ar st /\
  mounted_save_files st' = mounted_save_files st /\
  save_files st' = save_files st /\ sd_image st' = sd_image st /\
  db_files st' = db_files st /\ io st' = io st.
Proof.
  unfold create_if_missing. cbv zeta.
  destruct (FileExists path st) eqn:Ex; [cbn [snd]; now repeat split; try left|].
  assert (Hnone : files st !! path = None).
  { unfold FileExists in Ex. apply bool_decide_eq_false in Ex.
    destruct (files st !! path); [|reflexivity].
    exfalso. apply Ex. eauto. }
  assert (H : exists found buf st1,
             (if negb (SaveFile.get_size f =? 0) && FileExists old_path st
              then
                let '(n, buf, st0) :=
                  read_file old_path
                    (repeat 0 (Z.to_nat (SaveFile.get_size f)))
                    (get_save_file_offset (uint8 (slot_of f st)) st)
                    (SaveFile.get_size f) st in
                if negb (n =? 0)
                then
                  (true,
                   if is_pak (SaveFile.type f)
                   then normalizeData buf (SaveFile.get_size f)
                          DataFormat.LITTLE_ENDIAN
                   else buf,
                   printf (MsgFoundOldSave old_path (SaveFile.type f)) st0)
                else (false, buf, st0)
              else (false, repeat 0 (Z.to_nat (SaveFile.get_size f)), st))
             = (found, buf, st1)
             /\ same_but_console st st1).
  { destruct (_ && _);
      [|eexists _, _, _; split; [reflexivity|apply same_but_console_refl]].
    pose proof (read_file_console old_path
                  (repeat 0 (Z.to_nat (SaveFile.get_size f)))
                  (get_save_file_offset (uint8 (slot_of f st)) st)
                  (SaveFile.get_size f) st) as Hr.
    destruct (read_file _ _ _ _ st) as [[n buf] st0]. cbn [snd] in Hr.
    destruct (negb (n =? 0)); eexists _, _, _; (split; [reflexivity|]);
      [|exact Hr].
    eapply same_but_console_trans; [exact Hr|apply same_but_console_printf]. }
  destruct H as (found & buf & st1 & -> & Hs & Ha & Hm & Hf & Hi & Hfl & Hdb & Hio).
  unfold create_file. cbv zeta.
  destruct (negb (writable _ path));
    [cbn [snd printf files status old_ar mounted_save_files save_files
            sd_image db_files io Z.eqb];
     split; [left; exact Hfl|now repeat split]|].
  destruct (_ =? 0); cbn [snd printf with_files files status old_ar
                          mounted_save_files save_files sd_image db_files io];
    (split; [right; split; [exact Hnone|]; rewrite Hfl; eauto|]);
    now repeat split.
Qed.

Lemma mount_save_file_files SAVE_DIR CoreName cpak_header name type old st :
  keeps_files st
    (snd (mount_save_file SAVE_DIR CoreName cpak_header name type old st)).
Proof.
  unfold mount_save_file. cbv zeta.
  pose proof (create_if_missing_files cpak_header (SaveFile.mk (-1) type)
                (save_path_of SAVE_DIR CoreName name (save_ext type st))
                old st) as H.
  destruct (create_if_missing _ _ _ _ st) as [is_new st1]. cbn [snd] in H.
  destruct H as (Hfiles & _ & _ & _ & _ & _ & Hdb & _).
  unfold SaveFile_mount, user_io_file_mount. cbv zeta. cbn [snd].
  set (sfin := with_save_files _ _).
  assert (Hfin : files sfin = files st1 /\ db_files sfin = db_files st1)
    by (split; reflexivity).
  clearbody sfin. destruct Hfin as [Hf1 Hd1].
  split; [congruence|]. intros path data Hp. rewrite Hf1.
  destruct Hfiles as [-> |[Hnone [content ->]]]; [exact Hp|].
  rewrite lookup_insert_ne; [exact Hp|]. intros <-. congruence.
Qed.

Lemma keeps_files_devices st st' : same_devices st st' -> keeps_files st st'.
Proof.
  intros (_ & _ & _ & Hf & Hdb & _). split; [exact Hdb|].
  intros path data H. now rewrite Hf.
Qed.

(** X14. A ROM load never overwrites, truncates or removes a file that
    exists: every file present before [n64_rom_tx] is present after it
    with the same bytes, the ROM itself and save files of earlier loads
    included, and the knowledge-base files are as they were.  All that
    a load can do to the files is add files that were missing. *)
Theorem rom_load_keeps_existing_files
  (SAVE_DIR CoreName : string) (cpak_header : list (list Z))
  (MD5 : list Z -> list Z) (name : string) (idx : Z) (st : State) :
  let st' := snd (n64_rom_tx SAVE_DIR CoreName cpak_header MD5 name idx st) in
  db_files st' = db_files st /\
  (forall path data, files st !! path = Some data ->
                     files st' !! path = Some data) /\
  (forall path, files st' !! path = None -> files st !! path = None).
Proof.
  intros st'.
  assert (H : keeps_files st st').
  { subst st'. apply n64_rom_tx_inherits.
    - intros s. now split.
    - intros s1 s2 s3 [D1 F1] [D2 F2]. split; [congruence|]. auto.
    - intros m s. now split.
    - intros e s. now split.
    - intros tags s. apply keeps_files_devices,
                       parse_and_apply_db_tags_devices.
    - intros cs c s. apply keeps_files_devices, detect_homebrew_header_devices.
    - intros c sg s. apply keeps_files_devices,
                       detect_rom_settings_from_first_chunk_devices.
    - intros s. apply keeps_files_devices, default_settings_devices.
    - intros s. destruct (unmount_all_save_files_status s)
        as (_ & Hf & Hd & _). split; [exact Hd|]. intros p d Hp.
      now rewrite Hf.
    - intros. apply mount_save_file_files.
    - intros v s. now split. }
  destruct H as [Hd Hf]. split; [exact Hd|]. split; [exact Hf|].
  intros path Hn. destruct (files st !! path) as [data|] eqn:E;
    [|reflexivity].
  rewrite (Hf _ _ E) in Hn. discriminate.
Qed.

(** ** New backing files *)

Lemma FileExists_Some path st data :
  files st !! path = Some data -> FileExists path st = true.
Proof.
  intros H. unfold FileExists. apply bool_decide_eq_true. rewrite H. eauto.
Qed.

Lemma FileExists_None path st :
  files st !! path = None -> FileExists path st = false.
Proof.
  intros H. unfold FileExists. apply bool_decide_eq_false. rewrite H.
  intros [x Hx]. discriminate.
Qed.

Lemma get_save_file_offset_range idx st :
  0 <= get_save_file_offset idx st < 2 ^ 32.
Proof.
  unfold get_save_file_offset. cbv zeta.
  destruct (_ && _); destruct (_ && _); apply Z.mod_pos_bound; lia.
Qed.

(** Reading [sz] bytes that the file has at [offset]. *)
Lemma read_file_complete filename data offset sz st old :
  files st !! filename = Some old ->
  0 <= offset -> 0 <= sz -> offset + sz <= Z.of_nat (length old) ->
  Z.of_nat (length old) < 2 ^ 32 ->
  let slice := take (Z.to_nat sz) (drop (Z.to_nat offset) old) in
  length slice = Z.to_nat sz /\
  fst (fst (read_file filename data offset sz st)) = sz /\
  snd (fst (read_file filename data offset sz st)) = overlay slice data.
Proof.
  intros Hold Ho Hs Hfit Hfs slice.
  assert (Hlen : length slice = Z.to_nat sz).
  { subst slice. rewrite length_take, length_drop. lia. }
  split; [exact Hlen|].
  unfold read_file. cbv zeta.
  change (files (printf ?m ?s)) with (files s). rewrite Hold.
  replace (offset >? Z.of_nat (length old)) with false
    by (symmetry; rewrite Z.gtb_ltb; apply Z.ltb_ge; lia).
  assert (Hu : uint32 (offset + sz) = offset + sz)
    by (unfold uint32; apply Z.mod_small; lia).
  rewrite Hu.
  replace (offset + sz >? Z.of_nat (length old)) with false
    by (symmetry; rewrite Z.gtb_ltb; apply Z.ltb_ge; lia).
  cbn [fst snd]. fold slice. split; [|reflexivity]. rewrite Hlen. lia.
Qed.

(** Reading where the file has no bytes. *)
Lemma read_file_nothing filename data offset sz st :
  0 <= offset ->
  (forall old, files st !! filename = Some old ->
     Z.of_nat (length old) <= offset) ->
  fst (fst (read_file filename data offset sz st)) = 0 /\
  snd (fst (read_file filename data offset sz st)) = data.
Proof.
  intros Ho Hshort. unfold read_file. cbv zeta.
  change (files (printf ?m ?s)) with (files s).
  destruct (files st !! filename) as [old|] eqn:E; [|now split].
  specialize (Hshort old eq_refl).
  destruct (offset >? Z.of_nat (length old)) eqn:Eg; [now split|].
  rewrite Z.gtb_ltb in Eg. apply Z.ltb_ge in Eg.
  assert (Hd : drop (Z.to_nat offset) old = []) by (apply drop_ge; lia).
  rewrite Hd, take_nil. cbn [fst snd length]. split; [reflexivity|].
  unfold overlay. cbn [length app]. apply drop_0.
Qed.

Lemma overlay_length (data buffer : list Z) :
  (length buffer <= length (overlay data buffer))%nat.
Proof. unfold overlay. rewrite length_app, length_drop. lia. Qed.

Lemma read_file_length filename data offset sz st :
  (length data
   <= length (snd (fst (read_file filename data offset sz st))))%nat.
Proof.
  unfold read_file. cbv zeta.
  destruct (files _ !! filename); [|reflexivity].
  destruct (_ >? _); [reflexivity|]. cbn [fst snd]. apply overlay_length.
Qed.

Lemma overlay_full (data buffer : list Z) :
  length data = length buffer -> overlay data buffer = data.
Proof.
  intros H. unfold overlay. rewrite drop_ge by lia. apply app_nil_r.
Qed.

Lemma read_file_writable filename data offset sz st :
  writable (snd (read_file filename data offset sz st)) = writable st.
Proof.
  unfold read_file. cbv zeta.
  destruct (files _ !! filename); [|reflexivity].
  destruct (_ >? _); reflexivity.
Qed.

(** X15. What [mount_save_file] finds or creates as the backing file
    of a region.  A file that exists is left alone ([false]).  A file
    that is missing and cannot be opened for writing stays missing
    ([false]): no file is created or changed.  A file that is missing
    and can be opened for writing is created with exactly the size of
    the region ([true]).  If there is no old combined save file, or it
    has no bytes at the offset of the region, the new file is all
    zeros, a controller pak starting with the built-in image of its
    slot instead.  If the old save file holds the whole range of the
    region, the new file is that range, for a pak with the bytes of
    every 32-bit word reversed. *)
Theorem new_backing_file
  (cpak_header : list (list Z)) (type : MemoryType.t)
  (path old_path : string) (st : State) :
  let sz := get_save_size type in
  let off := get_save_file_offset (uint8 (mounted_save_files st)) st in
  let zeros := repeat 0 (Z.to_nat sz) in
  let header :=
    nth (Z.to_nat (mounted_save_files st) mod length cpak_header)%nat
        cpak_header [] in
  let r := create_if_missing cpak_header (SaveFile.mk (-1) type)
             path old_path st in
  0 < sz ->
  (forall data, files st !! path = Some data -> r = (false, st)) /\
  (files st !! path = None -> writable st path = false ->
   fst r = false /\ files (snd r) = files st) /\
  (files st !! path = None -> writable st path = true ->
   fst r = true /\
   exists content,
     files (snd r) = <[path := content]> (files st) /\
     length content = Z.to_nat sz /\
     ((forall old, files st !! old_path = Some old ->
         Z.of_nat (length old) <= off) ->
      content = if bool_decide (type = MemoryType.CPAK)
                then take (Z.to_nat sz) (overlay header zeros)
                else zeros) /\
     (forall old, files st !! old_path = Some old ->
        off + sz <= Z.of_nat (length old) < 2 ^ 32 ->
        let slice := take (Z.to_nat sz) (drop (Z.to_nat off) old) in
        content = if is_pak type
                  then swap32 (Z.to_nat (sz / 4)) slice else slice)).
Proof.
  intros sz off zeros header r Hsz.
  assert (Hszb : sz < 2 ^ 32) by (subst sz; destruct type; cbn; lia).
  assert (Hoff : 0 <= off < 2 ^ 32) by apply get_save_file_offset_range.
  assert (Hzl : length zeros = Z.to_nat sz) by apply repeat_length.
  split.
  { intros data Hp. subst r. unfold create_if_missing.
    now rewrite (FileExists_Some _ _ _ Hp). }
  assert (Hboth :
            files st !! path = None ->
            (writable st path = false ->
             fst r = false /\ files (snd r) = files st) /\
            (writable st path = true ->
             fst r = true /\
             exists content,
               files (snd r) = <[path := content]> (files st) /\
               length content = Z.to_nat sz /\
               ((forall old, files st !! old_path = Some old ->
                   Z.of_nat (length old) <= off) ->
                content = if bool_decide (type = MemoryType.CPAK)
                          then take (Z.to_nat sz) (overlay header zeros)
                          else zeros) /\
               (forall old, files st !! old_path = Some old ->
                  off + sz <= Z.of_nat (length old) < 2 ^ 32 ->
                  let slice := take (Z.to_nat sz) (drop (Z.to_nat off) old) in
                  content = if is_pak type
                            then swap32 (Z.to_nat (sz / 4)) slice
                            else slice)));
    [|split; intros Hnone Hw; [exact (proj1 (Hboth Hnone) Hw)
                              |exact (proj2 (Hboth Hnone) Hw)]].
  subst r. unfold create_if_missing. cbv zeta.
  change (SaveFile.get_size (SaveFile.mk (-1) type)) with sz.
  change (SaveFile.type (SaveFile.mk (-1) type)) with type.
  change (slot_of (SaveFile.mk (-1) type) st) with (mounted_save_files st).
  fold zeros. fold off.
  intros Hnone. rewrite (FileExists_None _ _ Hnone).
  replace (sz =? 0) with false by (symmetry; apply Z.eqb_neq; lia).
  cbn [negb andb].
  (* the buffer after the attempt to read old data *)
  assert (Hold : exists found buf st1,
            (if FileExists old_path st
             then let '(n, buf, st0) := read_file old_path zeros off sz st in
                  if negb (n =? 0)
                  then (true,
                        if is_pak type
                        then normalizeData buf sz DataFormat.LITTLE_ENDIAN
                        else buf,
                        printf (MsgFoundOldSave old_path type) st0)
                  else (false, buf, st0)
             else (false, zeros, st)) = (found, buf, st1) /\
            (files st1 = files st
             /\ mounted_save_files st1 = mounted_save_files st
             /\ writable st1 = writable st) /\
            (Z.to_nat sz <= length buf)%nat /\
            ((forall old, files st !! old_path = Some old ->
                Z.of_nat (length old) <= off) ->
             found = false /\ buf = zeros) /\
            (forall old, files st !! old_path = Some old ->
               off + sz <= Z.of_nat (length old) < 2 ^ 32 ->
               found = true /\
               buf = (if is_pak type
                      then swap32 (Z.to_nat (sz / 4))
                             (take (Z.to_nat sz) (drop (Z.to_nat off) old))
                      else take (Z.to_nat sz) (drop (Z.to_nat off) old)))).
  { destruct (files st !! old_path) as [old|] eqn:Eold.
    2:{ rewrite (FileExists_None _ _ Eold).
        exists false, zeros, st. split; [reflexivity|].
        split; [now repeat split|].
        split; [lia|]. split; [now split|]. intros old H. discriminate. }
    rewrite (FileExists_Some _ _ _ Eold).
    pose proof (read_file_console old_path zeros off sz st) as Hc.
    pose proof (read_file_writable old_path zeros off sz st) as Hwr.
    pose proof (read_file_length old_path zeros off sz st) as Hl.
    pose proof (read_file_nothing old_path zeros off sz st (proj1 Hoff))
      as Hnothing.
    pose proof (read_file_complete old_path zeros off sz st old Eold
                  (proj1 Hoff) ltac:(lia)) as Hcomplete.
    cbv zeta in Hcomplete.
    destruct (read_file old_path zeros off sz st) as [[n buf] st0].
    cbn [fst snd] in Hc, Hwr, Hl, Hnothing, Hcomplete.
    destruct Hc as (_ & _ & Hm1 & _ & _ & Hfl & _).
    destruct (n =? 0) eqn:En; cbn [negb].
    - apply Z.eqb_eq in En. subst n.
      exists false, buf, st0. split; [reflexivity|].
      split; [now repeat split|].
      split; [lia|]. split.
      + intros Hshort. split; [reflexivity|].
        apply Hnothing. intros old' Heq. apply Hshort. congruence.
      + intros old' Heq Hfit.
        assert (old' = old) by congruence. subst old'.
        destruct (Hcomplete ltac:(lia) ltac:(lia)) as (_ & Hn & _). lia.
    - apply Z.eqb_neq in En.
      eexists true, _, _. split; [reflexivity|].
      split; [now repeat split|].
      split; [destruct (is_pak type); rewrite ?normalizeData_length; lia|].
      split.
      + intros Hshort.
        destruct Hnothing as [Hn _];
          [intros old' Heq; apply Hshort; congruence|contradiction].
      + intros old' Heq Hfit. split; [reflexivity|].
        assert (old' = old) by congruence. subst old'.
        destruct (Hcomplete ltac:(lia) ltac:(lia)) as (Hsl & _ & ->).
        rewrite overlay_full by lia.
        destruct (is_pak type); [|reflexivity].
        cbn [normalizeData]. rewrite words_of_size by lia. reflexivity. }
  destruct Hold
    as (found & buf & st1 & -> & (Hfl & Hm1 & Hwr) & Hbl & Hfresh & Hmig).
  change (slot_of (SaveFile.mk (-1) type) st1) with (mounted_save_files st1).
  rewrite Hm1. fold header.
  set (bufF := if negb found && bool_decide (type = MemoryType.CPAK)
               then overlay header buf else buf).
  assert (HbF : (Z.to_nat sz <= length bufF)%nat).
  { subst bufF. destruct (_ && _); [|exact Hbl].
    pose proof (overlay_length header buf). lia. }
  unfold create_file. cbv zeta.
  change (writable (printf (MsgOpenFile path) st1) path)
    with (writable st1 path).
  rewrite Hwr.
  split; intros Hcan; rewrite Hcan; cbn [negb];
    [cbn [Z.eqb fst snd printf files]; now split|].
  assert (Hw : length (take (Z.to_nat sz) bufF) = Z.to_nat sz)
    by (rewrite length_take; lia).
  rewrite Hw.
  replace (Z.of_nat (Z.to_nat sz) =? 0) with false
    by (symmetry; apply Z.eqb_neq; lia).
  cbn [fst snd]. split; [reflexivity|].
  exists (take (Z.to_nat sz) bufF).
  split; [cbn [printf with_files files]; now rewrite Hfl|].
  split; [exact Hw|]. split.
  - intros Hshort. destruct (Hfresh Hshort) as [-> ->]. subst bufF.
    cbn [negb andb]. destruct (bool_decide _); [reflexivity|].
    apply take_ge. lia.
  - intros old Ho Hfit. destruct (Hmig old Ho Hfit) as [-> ->].
    subst bufF. cbn [negb andb].
    set (slice := take (Z.to_nat sz) (drop (Z.to_nat off) old)).
    assert (Hsl : length slice = Z.to_nat sz).
    { subst slice. rewrite length_take, length_drop. lia. }
    apply take_ge. destruct (is_pak type); rewrite ?swap32_length; lia.
Qed.

Lemma new_backing_file_witness :
  let create := create_if_missing [] (SaveFile.mk (-1) MemoryType.EEPROM_512)
                  "saves/N64/mario.eep" "saves/N64/mario.sav" in
  0 < get_save_size MemoryType.EEPROM_512 /\
  (fst (create power_on) = true /\
   exists content,
     files (snd (create power_on))
     = <["saves/N64/mario.eep" := content]> (files power_on) /\
     length content = 512%nat) /\
  (fst (create read_only_storage) = false /\
   files (snd (create read_only_storage)) = files read_only_storage).
Proof.
  intros create.
  assert (Hsz : 0 < get_save_size MemoryType.EEPROM_512) by reflexivity.
  split; [exact Hsz|]. split.
  - destruct (new_backing_file [] MemoryType.EEPROM_512 "saves/N64/mario.eep"
                "saves/N64/mario.sav" power_on Hsz) as (_ & _ & Hnew).
    destruct (Hnew eq_refl eq_refl) as (Hr & content & Hf & Hl & _).
    split; [exact Hr|]. exists content. split; [exact Hf|exact Hl].
  - destruct (new_backing_file [] MemoryType.EEPROM_512 "saves/N64/mario.eep"
                "saves/N64/mario.sav" read_only_storage Hsz)
      as (_ & Hfail & _).
    exact (Hfail eq_refl eq_refl).
Defined.

(** ** Names of the backing files *)

Lemma strrchr_absent s c : occurs c s = false -> strrchr s c = None.
Proof.
  induction s as [|a s IH]; [reflexivity|]. cbn [occurs strrchr].
  intros H. apply orb_false_iff in H as [Ha Hs]. now rewrite (IH Hs), Ha.
Qed.

Lemma strrchr_last a b c :
  occurs c b = false -> strrchr (a +:+ String c b) c = Some (a, b).
Proof.
  intros Hb. induction a as [|x a IH].
  - change ("" +:+ String c b) with (String c b). cbn [strrchr].
    now rewrite (strrchr_absent _ _ Hb), Ascii.eqb_refl.
  - change (String x a +:+ String c b) with (String x (a +:+ String c b)).
    cbn [strrchr]. now rewrite IH.
Qed.

Lemma append_assoc (a b c : string) : (a +:+ b) +:+ c = a +:+ (b +:+ c).
Proof.
  induction a as [|x a IH]; [reflexivity|].
  change ((String x a +:+ b) +:+ c) with (String x ((a +:+ b) +:+ c)).
  now rewrite IH.
Qed.

(** X16. The backing file of a region lives in [SAVE_DIR/CoreName/] and
    is named after the ROM: the directory of the ROM is dropped, and
    what follows the last dot of its file name is replaced by the
    extension of the region.  A name without a dot gets the extension
    appended, and a dot in the directory part does not count. *)
Theorem save_path_is_named_after_rom
  (SAVE_DIR CoreName dir stem ext new_ext : string) :
  occurs "/" stem = false -> occurs "/" ext = false ->
  occurs "." ext = false ->
  let prefix := SAVE_DIR +:+ "/" +:+ CoreName +:+ "/" in
  save_path_of SAVE_DIR CoreName (dir +:+ "/" +:+ stem +:+ "." +:+ ext) new_ext
  = prefix +:+ stem +:+ new_ext /\
  save_path_of SAVE_DIR CoreName (stem +:+ "." +:+ ext) new_ext
  = prefix +:+ stem +:+ new_ext /\
  (occurs "." stem = false ->
   save_path_of SAVE_DIR CoreName (dir +:+ "/" +:+ stem) new_ext
   = prefix +:+ stem +:+ new_ext /\
   save_path_of SAVE_DIR CoreName stem new_ext
   = prefix +:+ stem +:+ new_ext).
Proof.
  intros Hs He Hd prefix.
  assert (Hbase : occurs "/" (stem +:+ String "." ext) = false).
  { clear -Hs He. induction stem as [|x s IH].
    - cbn. exact He.
    - cbn [occurs] in Hs. apply orb_false_iff in Hs as [Hx Hs].
      change (String x s +:+ String "." ext)
        with (String x (s +:+ String "." ext)).
      cbn [occurs]. now rewrite Hx, IH. }
  assert (Hdot : strrchr (stem +:+ String "." ext) "." = Some (stem, ext))
    by now apply strrchr_last.
  change ("." +:+ ext) with (String "." ext).
  change ("/" +:+ stem +:+ String "." ext)
    with (String "/" (stem +:+ String "." ext)).
  change ("/" +:+ stem) with (String "/" stem).
  unfold save_path_of. cbv zeta.
  rewrite (strrchr_last dir _ "/" Hbase), (strrchr_absent _ _ Hbase), Hdot.
  subst prefix. rewrite !append_assoc.
  split; [reflexivity|]. split; [reflexivity|].
  intros Hnd.
  rewrite (strrchr_last dir _ "/" Hs), (strrchr_absent _ _ Hs),
    (strrchr_absent _ _ Hnd).
  now split.
Qed.

Lemma save_path_is_named_after_rom_witness :
  (occurs "/" "Super Mario 64 (v1.0)" = false /\ occurs "/" "z64" = false /\
   occurs "." "z64" = false) /\
  save_path_of "saves" "N64" "games/N64/1 A-M/Super Mario 64 (v1.0).z64" ".eep"
  = "saves/N64/Super Mario 64 (v1.0).eep".
Proof.
  assert (H1 : occurs "/" "Super Mario 64 (v1.0)" = false) by reflexivity.
  assert (H2 : occurs "/" "z64" = false) by reflexivity.
  assert (H3 : occurs "." "z64" = false) by reflexivity.
  split; [exact (conj H1 (conj H2 H3))|].
  exact (proj1 (save_path_is_named_after_rom "saves" "N64" "games/N64/1 A-M"
                  "Super Mario 64 (v1.0)" "z64" ".eep" H1 H2 H3)).
Defined.

Lemma mount_save_file_io SAVE_DIR CoreName cpak_header name type old st :
  let st' := snd (mount_save_file SAVE_DIR CoreName cpak_header
                    name type old st) in
  io st' = io st ++ [io_file_mount
                       (save_path_of SAVE_DIR CoreName name (save_ext type st))
                       (mounted_save_files st)] /\
  status st' = status st /\
  mounted_save_files st' = uint8 (mounted_save_files st + 1).
Proof.
  unfold mount_save_file. cbv zeta.
  pose proof (create_if_missing_files cpak_header (SaveFile.mk (-1) type)
                (save_path_of SAVE_DIR CoreName name (save_ext type st))
                old st) as H.
  destruct (create_if_missing _ _ _ _ st) as [is_new st1]. cbn [snd] in H.
  destruct H as (_ & Hs & _ & Hm & _ & _ & _ & Hio).
  unfold SaveFile_mount, user_io_file_mount. cbv zeta. cbn [snd].
  set (sfin := with_save_files _ _).
  assert (Hfin : io sfin = io st1 ++ [io_file_mount
                    (save_path_of SAVE_DIR CoreName name (save_ext type st))
                    (mounted_save_files st1)] /\
                 status sfin = status st1 /\
                 mounted_save_files sfin = uint8 (mounted_save_files st1 + 1))
    by (repeat split; reflexivity).
  clearbody sfin. destruct Hfin as (-> & -> & ->).
  now rewrite Hio, Hs, Hm.
Qed.

Lemma save_ext_status type st st' :
  status st' = status st -> mounted_save_files st' = mounted_save_files st ->
  save_ext type st' = save_ext type st.
Proof.
  intros Hs Hm. unfold save_ext, get_cart_save_type, status_get.
  now rewrite Hs, Hm.
Qed.

(** The extension that [mount_save_file] picks in slot [slot] of a
    load. *)
Lemma save_ext_slot type st0 st slot :
  status st = status st0 -> mounted_save_files st = slot ->
  In type [MemoryType.CPAK; MemoryType.TPAK] ->
  save_ext type st
  = region_ext type
      (slot + (if bool_decide (get_cart_save_type st0 = MemoryType.NONE)
               then 1 else 0)).
Proof.
  intros Hs Hm Hin. unfold save_ext, get_cart_save_type, status_get.
  rewrite Hs, Hm. cbn [In] in Hin.
  destruct Hin as [<-|[<-|[]]]; reflexivity.
Qed.

Ltac mount_io_step :=
  match goal with
  | |- context [mount_save_file ?a ?b ?c ?n ?t ?o ?s] =>
      let H := fresh "Hmount" in
      pose proof (mount_save_file_io a b c n t o s) as H;
      cbv zeta in H;
      destruct (mount_save_file a b c n t o s) as [? ?];
      cbn [snd] in H;
      let Hio := fresh "Hio" in
      let Hs := fresh "Hs" in
      let Hm := fresh "Hm" in
      destruct H as (Hio & Hs & Hm);
      unfold status_get; rewrite ?Hs; fold (status_get CPAK_OPT s);
      fold (status_get TPAK_OPT s)
  end.

Lemma cart_save_type_in_range st :
  In (get_cart_save_type st)
     [MemoryType.NONE; MemoryType.EEPROM_512; MemoryType.EEPROM_2k;
      MemoryType.SRAM_32k; MemoryType.SRAM_96k; MemoryType.FLASH_128k].
Proof.
  unfold get_cart_save_type.
  pose proof (status_get_bound SAVE_TYPE_OPT st ltac:(opt_side)) as Hr.
  change (2 ^ opt_width SAVE_TYPE_OPT) with 8 in Hr.
  set (x := status_get SAVE_TYPE_OPT st) in *.
  assert (Hx : x = 0 \/ x = 1 \/ x = 2 \/ x = 3 \/ x = 4 \/ x = 5
               \/ x = 6 \/ x = 7) by lia.
  destruct Hx as [->|[->|[->|[->|[->|[->|[->| ->]]]]]]]; cbn; tauto.
Qed.

Lemma save_ext_cart type st pak :
  In type [MemoryType.EEPROM_512; MemoryType.EEPROM_2k; MemoryType.SRAM_32k;
           MemoryType.SRAM_96k; MemoryType.FLASH_128k] ->
  save_ext type st = region_ext type pak.
Proof.
  cbn [In]. intros [<-|[<-|[<-|[<-|[<-|[]]]]]]; reflexivity.
Qed.

Ltac mount_io_chain st Hnone :=
  repeat (mount_io_step;
          match goal with
          | Hi : io ?s' = io ?s ++ _, Hst : status ?s = status st,
            Hmm : mounted_save_files ?s = ?k |- _ =>
              rewrite (save_ext_slot _ st s k Hst Hmm) in Hi
                by (cbn; tauto);
              rewrite Hnone in Hi
          end;
          match goal with
          | Hm' : mounted_save_files ?s' = uint8 (mounted_save_files ?s + 1),
            Hmm : mounted_save_files ?s = ?k |- _ =>
              rewrite Hmm in Hm';
              let v := eval vm_compute in (uint8 (k + 1)) in
              change (uint8 (k + 1)) with v in Hm'
          end;
          try match goal with
              | Hs' : status ?s' = status ?s, Hst : status ?s = status st
                |- _ =>
                  tryif constr_eq s st then fail else rewrite Hst in Hs'
              end);
  cbn [snd imap app];
  repeat match goal with
         | H : io _ = _ |- _ => rewrite H; clear H
         end;
  repeat match goal with
         | H : mounted_save_files ?s = _
           |- context [mounted_save_files ?s] => rewrite H
         end;
  rewrite <- ?app_assoc, ?app_nil_r; reflexivity.

(** X17. The mounts of a ROM load, as the transport sees them.  The
    cartridge save, if the ROM has one, is mounted first, in slot 0,
    on the file with the extension of its type.  The paks follow in
    the next slots, and their files are numbered from 1 in mount order
    ([_1.tpk] or [_1.cpk], then [_2.cpk], [_3.cpk], [_4.cpk]): the
    number is that of the controller, whether or not a cartridge save
    takes the first slot. *)
Theorem pak_files_are_numbered_from_1
  (SAVE_DIR CoreName : string) (cpak_header : list (list Z))
  (name : string) (st : State) :
  mounted_save_files st = 0 ->
  let st' := snd (mount_save_files SAVE_DIR CoreName cpak_header name st) in
  let cart := get_cart_save_type st in
  let path ext := save_path_of SAVE_DIR CoreName name ext in
  let first_pak_slot := if bool_decide (cart <> MemoryType.NONE) then 1 else 0 in
  io st'
  = io st
    ++ (if bool_decide (cart <> MemoryType.NONE)
        then [io_file_mount (path (region_ext cart 0)) 0] else [])
    ++ imap (fun k type =>
               io_file_mount (path (region_ext type (Z.of_nat k + 1)))
                 (Z.of_nat k + first_pak_slot))
         (mount_order_paks st).
Proof.
  intros Hm0 st' cart path first_pak_slot.
  subst st' first_pak_slot. unfold mount_save_files, mount_order_paks.
  cbv zeta. fold cart.
  assert (Hcart : In cart cart_save_types).
  { subst cart. unfold cart_save_types.
    apply (cart_save_type_in_range st). }
  destruct (bool_decide (cart <> MemoryType.NONE)) eqn:Ec.
  - apply bool_decide_eq_true in Ec.
    assert (Hc5 : In cart [MemoryType.EEPROM_512; MemoryType.EEPROM_2k;
                           MemoryType.SRAM_32k; MemoryType.SRAM_96k;
                           MemoryType.FLASH_128k]).
    { cbn [In cart_save_types] in Hcart |- *.
      destruct Hcart as [E|Hcart]; [now symmetry in E|exact Hcart]. }
    assert (Hnone : bool_decide (get_cart_save_type st = MemoryType.NONE)
                    = false) by (now apply bool_decide_eq_false).
    mount_io_step. rewrite Hm0 in Hio, Hm.
    change (uint8 (0 + 1)) with 1 in Hm.
    rewrite (save_ext_cart cart st 0 Hc5) in Hio.
    destruct (status_get TPAK_OPT st =? 0), (status_get CPAK_OPT st =? 0);
      cbn [negb orb];
      mount_io_chain st Hnone.
  - apply bool_decide_eq_false in Ec.
    assert (Hnone : bool_decide (get_cart_save_type st = MemoryType.NONE)
                    = true).
    { apply bool_decide_eq_true. fold cart.
      destruct (decide (cart = MemoryType.NONE)); [assumption|contradiction]. }
    assert (Hst0 : status st = status st) by reflexivity.
    destruct (status_get TPAK_OPT st =? 0), (status_get CPAK_OPT st =? 0);
      cbn [negb orb];
      mount_io_chain st Hnone.
Qed.

Lemma pak_files_are_numbered_from_1_witness :
  mounted_save_files tpak_session = 0 /\
  io (snd (mount_save_files "saves" "N64" [] "games/mario.z64" tpak_session))
  = [io_file_mount "saves/N64/mario_1.tpk" 0].
Proof.
  split; [reflexivity|].
  exact (pak_files_are_numbered_from_1 "saves" "N64" [] "games/mario.z64"
           tpak_session eq_refl).
Defined.
(** ** Block I/O inside the mounted regions *)

(** The search of the read and the write path ends within [fuel]
    rounds: the 8-bit index never runs past the number of slots. *)
Lemma find_save_file_total fuel pos file_idx st :
  0 <= mounted_save_files st < 256 ->
  0 <= file_idx ->
  file_idx < mounted_save_files st \/ file_idx = 0 ->
  (Z.to_nat (mounted_save_files st - file_idx) < fuel)%nat ->
  exists found invalid,
    find_save_file fuel pos file_idx st = Some (found, invalid).
Proof.
  intros Hm. revert file_idx.
  induction fuel as [|fuel IH]; intros file_idx H0 Hidx Hfuel; [lia|].
  cbn [find_save_file].
  assert (H8 : uint8 (file_idx + 1) = file_idx + 1)
    by (unfold uint8; apply Z.mod_small; lia).
  rewrite H8.
  destruct (pos >=? _); [|eauto].
  destruct (Z.geb_spec (file_idx + 1) (mounted_save_files st)); [eauto|].
  apply IH; lia.
Qed.

(** Below the end of the last region the search stops at a mounted
    slot, and the position is below the offset of the next slot. *)
Lemma find_save_file_upper fuel pos file_idx st :
  0 <= file_idx < mounted_save_files st ->
  mounted_save_files st < 256 ->
  (Z.to_nat (mounted_save_files st - file_idx) <= fuel)%nat ->
  pos < get_save_file_offset (mounted_save_files st) st ->
  exists found,
    find_save_file fuel pos file_idx st = Some (found, false) /\
    file_idx <= found < mounted_save_files st /\
    pos < get_save_file_offset (found + 1) st.
Proof.
  intros Hidx Hm Hfuel Hpos. revert file_idx Hidx Hfuel.
  induction fuel as [|fuel IH]; intros file_idx Hidx Hfuel; [lia|].
  cbn [find_save_file].
  assert (H8 : uint8 (file_idx + 1) = file_idx + 1)
    by (unfold uint8; apply Z.mod_small; lia).
  rewrite H8.
  destruct (Z.geb_spec pos (get_save_file_offset (file_idx + 1) st))
    as [Hge|Hlt].
  - destruct (Z.geb_spec (file_idx + 1) (mounted_save_files st)) as [Hl|Hl].
    + assert (E : file_idx + 1 = mounted_save_files st) by lia.
      rewrite E in Hge. lia.
    + destruct (IH (file_idx + 1)) as (found & Hf & Hr & Hu); [lia|lia|].
      exists found. split; [exact Hf|]. split; [lia|exact Hu].
  - exists file_idx. split; [reflexivity|]. split; [lia|exact Hlt].
Qed.

Lemma FileSeek_open path pos : 0 <= pos -> FileSeek (Some path) pos = true.
Proof.
  intros H. unfold FileSeek. rewrite bool_decide_eq_true_2 by eauto.
  now apply Z.leb_le.
Qed.

Lemma overlay_same_length (data buffer : list Z) :
  (length data <= length buffer)%nat ->
  length (overlay data buffer) = length buffer.
Proof. intros H. unfold overlay. rewrite length_app, length_drop. lia. Qed.

Lemma FileReadAdv_length file pos len st :
  0 <= len -> Z.of_nat (length (FileReadAdv file pos len st)) <= len.
Proof. intros H. unfold FileReadAdv. rewrite length_take. lia. Qed.

Lemma overlay_head (data buffer : list Z) n :
  n = length data -> take n (overlay data buffer) = data.
Proof. intros ->. unfold overlay. now rewrite take_app_length. Qed.

(** X18. A block address below the end of the last mounted region is
    served by the region whose range holds it: the search of the read
    and the write path stops at a mounted slot, at or behind whose
    offset the position lies, and before the offset of the next slot. *)
Theorem find_save_file_holds_position (pos : Z) (st : State) :
  0 <= mounted_save_files st < 256 ->
  0 <= pos < get_save_file_offset (mounted_save_files st) st ->
  exists file_idx,
    find_save_file 256 pos 0 st = Some (file_idx, false) /\
    0 <= file_idx < mounted_save_files st /\
    get_save_file_offset file_idx st <= pos
    < get_save_file_offset (file_idx + 1) st.
Proof.
  intros Hm Hpos.
  assert (H0 : 0 < mounted_save_files st).
  { destruct (Z.eqb_spec (mounted_save_files st) 0) as [E|E]; [|lia].
    rewrite E, get_save_file_offset_0 in Hpos. lia. }
  destruct (find_save_file_upper 256 pos 0 st) as (found & Hf & Hr & Hu);
    [lia|lia|change 256%nat with (Z.to_nat 256); lia|lia|].
  exists found. split; [exact Hf|]. split; [lia|]. split; [|exact Hu].
  destruct (find_save_file_lower _ _ _ _ _ Hf) as [->|Hle]; [|exact Hle].
  rewrite get_save_file_offset_0. lia.
Qed.

Lemma find_save_file_holds_position_witness :
  let st := snd (mount_save_files "saves" "N64" [] "games/mario.z64"
                   tpak_session) in
  (0 <= mounted_save_files st < 256 /\
   0 <= 512 < get_save_file_offset (mounted_save_files st) st) /\
  exists file_idx,
    find_save_file 256 512 0 st = Some (file_idx, false) /\
    0 <= file_idx < mounted_save_files st /\
    get_save_file_offset file_idx st <= 512
    < get_save_file_offset (file_idx + 1) st.
Proof.
  intros st.
  assert (H1 : 0 <= mounted_save_files st < 256)
    by (vm_compute; split; [discriminate|reflexivity]).
  assert (H2 : 0 <= 512 < get_save_file_offset (mounted_save_files st) st)
    by (vm_compute; split; [discriminate|reflexivity]).
  split; [exact (conj H1 H2)|].
  exact (find_save_file_holds_position 512 st H1 H2).
Defined.

(** X19. The transport contract of block I/O, at every block address.
    The read path answers with one sector-read handshake and one block
    of [sz] bytes, and changes nothing but the transport; the write
    path performs one sector-write handshake and takes the [sz] inbound
    bytes, and neither mounts nor closes anything.  Both return: the
    search for the region ends, whatever the position. *)
Theorem block_io_always_answers
  (lba ack blksz sz buffer_size : Z) (buffer block : list Z) (st : State) :
  0 <= mounted_save_files st < 256 ->
  0 <= sz <= buffer_size ->
  Z.of_nat (length buffer) = buffer_size ->
  (exists buffer_lba buffer' sent,
     n64_load_savedata lba ack buffer buffer_size blksz sz st
     = Some (buffer_lba, buffer',
             emit (io_spi_block_write sent)
               (emit (io_spi_w UIO_SECTOR_RD ack) st)) /\
     Z.of_nat (length sent) = sz /\ length buffer' = length buffer) /\
  (exists buffer_lba buffer' st',
     n64_save_savedata lba ack buffer blksz sz block st
     = Some (buffer_lba, buffer', st') /\
     io st' = io st ++ [io_spi_w UIO_SECTOR_WR ack;
                        io_spi_block_read (take (Z.to_nat sz) block)] /\
     mounted_save_files st' = mounted_save_files st /\
     save_files st' = save_files st /\ sd_image st' = sd_image st /\
     status st' = status st).
Proof.
  intros Hm Hsz Hlen.
  destruct (find_save_file_total 256 (int64 (lba * blksz)) 0 st)
    as (file_idx & invalid & Hfind);
    [exact Hm|lia|now right|change 256%nat with (Z.to_nat 256); lia|].
  split.
  - unfold n64_load_savedata. rewrite Hfind.
    set (read := if negb invalid then _ else _).
    assert (Hread : length (snd read) = length buffer).
    { subst read. destruct invalid; cbn [negb]; [reflexivity|].
      destruct (negb (file_size _ _ =? 0)); [|reflexivity].
      destruct (_ && _); [|reflexivity]. cbn [snd].
      apply overlay_same_length.
      pose proof (FileReadAdv_length (get_image file_idx st)
                    (int64 (lba * blksz) - get_save_file_offset file_idx st)
                    buffer_size st ltac:(lia)).
      lia. }
    destruct read as [[done lba'] buf']. cbn [snd] in Hread.
    eexists _, _, _. split; [reflexivity|].
    assert (Hout : length (if negb done || invalid
                           then overlay (repeat 0 (Z.to_nat buffer_size)) buf'
                           else if region_is_pak file_idx st
                                then normalizeData buf' sz
                                       DataFormat.LITTLE_ENDIAN
                                else buf') = length buffer).
    { destruct (negb done || invalid).
      - rewrite overlay_same_length; [exact Hread|].
        rewrite repeat_length. lia.
      - destruct (region_is_pak _ _); [|exact Hread].
        now rewrite normalizeData_length. }
    split; [|exact Hout].
    rewrite length_take, Hout. lia.
  - unfold n64_save_savedata. rewrite Hfind.
    destruct invalid.
    + eexists _, _, _. split; [reflexivity|].
      cbn [emit io mounted_save_files save_files sd_image status].
      rewrite <- app_assoc. now repeat split.
    + destruct (negb (sz =? 0) && FileSeek _ _).
      * eexists _, _, _. split; [reflexivity|].
        unfold FileWriteAdv.
        destruct (get_image file_idx _);
          cbn [emit with_files io mounted_save_files save_files sd_image
                 status];
          rewrite <- app_assoc; now repeat split.
      * eexists _, _, _. split; [reflexivity|].
        cbn [emit io mounted_save_files save_files sd_image status].
        rewrite <- app_assoc. now repeat split.
Qed.

Lemma block_io_always_answers_witness :
  let st := snd (mount_save_files "saves" "N64" [] "games/mario.z64"
                   tpak_session) in
  (0 <= mounted_save_files st < 256 /\ 0 <= 512 <= 1024 /\
   Z.of_nat (length (repeat 9 1024)) = 1024) /\
  exists buffer_lba buffer' sent,
    n64_load_savedata 70 0 (repeat 9 1024) 1024 512 512 st
    = Some (buffer_lba, buffer',
            emit (io_spi_block_write sent)
              (emit (io_spi_w UIO_SECTOR_RD 0) st)) /\
    Z.of_nat (length sent) = 512 /\ length buffer' = length (repeat 9 1024).
Proof.
  intros st.
  assert (H1 : 0 <= mounted_save_files st < 256)
    by (vm_compute; split; [discriminate|reflexivity]).
  assert (H2 : 0 <= 512 <= 1024) by lia.
  assert (H3 : Z.of_nat (length (repeat 9 1024)) = 1024) by reflexivity.
  split; [exact (conj H1 (conj H2 H3))|].
  exact (proj1 (block_io_always_answers 70 0 512 512 1024 (repeat 9 1024) []
                  st H1 H2 H3)).
Defined.

(** X20. A block of a region that is no pak (the cartridge save) is
    stored as it comes: the write path puts the [sz] bytes of the block
    into the backing file at the position within the region, without
    transcoding, and the read path hands the same bytes back to the
    hardware and reports the block address as loaded. *)
Theorem cart_save_block_is_stored_verbatim
  (lba ack blksz sz buffer_size file_idx : Z)
  (block buffer buffer' : list Z) (path : string) (st : State) :
  let pos := int64 (lba * blksz) in
  0 <= pos ->
  find_save_file 256 pos 0 st = Some (file_idx, false) ->
  region_is_pak file_idx st = false ->
  get_image file_idx st = Some path ->
  Z.of_nat (length block) = sz -> 0 < sz -> sz <= buffer_size ->
  exists buffer1 st1 buffer2 st2,
    n64_save_savedata lba ack buffer blksz sz block st
    = Some (uint64 (-1), buffer1, st1) /\
    FileReadAdv (Some path) (pos - get_save_file_offset file_idx st) sz st1
    = block /\
    n64_load_savedata lba ack buffer' buffer_size blksz sz st1
    = Some (lba, buffer2, st2) /\
    io st2 = io st1 ++ [io_spi_w UIO_SECTOR_RD ack; io_spi_block_write block].
Proof.
  intros pos Hpos Hfind Hpak Himg Hlen Hsz Hbuf.
  assert (Hlocal : 0 <= pos - get_save_file_offset file_idx st).
  { destruct (find_save_file_lower _ _ _ _ _ Hfind) as [->|H]; [|lia].
    rewrite get_save_file_offset_0. lia. }
  set (local := pos - get_save_file_offset file_idx st) in *.
  assert (Hblock : take (Z.to_nat sz) block = block)
    by (apply take_ge; lia).
  unfold n64_save_savedata. fold pos. rewrite Hfind.
  rewrite !get_image_emit, !get_save_file_offset_emit, !region_is_pak_emit.
  rewrite Himg. fold local. rewrite Hblock, Hpak.
  set (st_e := emit (io_spi_block_read block)
                 (emit (io_spi_w UIO_SECTOR_WR ack) st)).
  assert (Hnz : (sz =? 0) = false) by (apply Z.eqb_neq; lia).
  rewrite Hnz, (FileSeek_open path local Hlocal). cbn [negb andb].
  assert (Hwritten : take (Z.to_nat sz) (overlay block buffer) = block)
    by (apply overlay_head; lia).
  rewrite Hwritten.
  set (st1 := FileWriteAdv (Some path) local block st_e).
  eexists _, st1.
  assert (Hfind' : find_save_file 256 pos 0 st1 = Some (file_idx, false))
    by (rewrite <- Hfind; now apply find_save_file_registry).
  assert (Hoff : get_save_file_offset file_idx st1
                 = get_save_file_offset file_idx st)
    by now apply get_save_file_offset_status.
  destruct (FileReadAdv_written path local buffer_size block st_e)
    as [more Hread]; [lia|lia|]. fold st1 in Hread.
  unfold n64_load_savedata. fold pos. rewrite Hfind'.
  change (get_image file_idx st1) with (get_image file_idx st).
  change (region_is_pak file_idx st1) with (region_is_pak file_idx st).
  rewrite Himg, Hoff, Hpak. fold local.
  rewrite Hread, (FileSeek_open path local Hlocal).
  assert (Hsize : (file_size (Some path) st1 =? 0) = false).
  { apply Z.eqb_neq. unfold file_size. subst st1.
    rewrite image_data_written, !length_app. lia. }
  rewrite Hsize.
  assert (Hgot : (Z.of_nat (length (block ++ more)) =? 0) = false)
    by (apply Z.eqb_neq; rewrite length_app; lia).
  rewrite Hgot. cbn [negb andb orb].
  eexists _, _. split; [reflexivity|]. split; [|split; [reflexivity|]].
  - unfold FileReadAdv. subst st1.
    rewrite image_data_written.
    rewrite drop_app_length'.
    2:{ rewrite length_take, length_app, repeat_length. lia. }
    apply take_app_length'. lia.
  - cbn [emit io]. rewrite <- app_assoc. cbn [app]. do 3 f_equal.
    unfold overlay at 1. rewrite <- app_assoc.
    f_equal. apply take_app_length'. lia.
Qed.

Lemma cart_save_block_is_stored_verbatim_witness :
  let st := snd (n64_rom_tx "saves" "N64" [] toy_digest "games/mario.z64" 0
                   example_session) in
  let block := [0x11; 0x22; 0x33; 0x44; 0x55; 0x66] in
  let path := "saves/N64/mario.eep" in
  (0 <= int64 (1 * 4) /\
   find_save_file 256 (int64 (1 * 4)) 0 st = Some (0, false) /\
   region_is_pak 0 st = false /\
   get_image 0 st = Some path /\
   Z.of_nat (length block) = 6 /\ 0 < 6 /\ 6 <= 8) /\
  exists buffer1 st1 buffer2 st2,
    n64_save_savedata 1 0 (repeat 0 8) 4 6 block st
    = Some (uint64 (-1), buffer1, st1) /\
    FileReadAdv (Some path) (int64 (1 * 4) - get_save_file_offset 0 st) 6 st1
    = block /\
    n64_load_savedata 1 0 (repeat 9 8) 8 4 6 st1
    = Some (1, buffer2, st2) /\
    io st2 = io st1 ++ [io_spi_w UIO_SECTOR_RD 0; io_spi_block_write block].
Proof.
  intros st block path.
  assert (H1 : 0 <= int64 (1 * 4)) by (vm_compute; discriminate).
  assert (H2 : find_save_file 256 (int64 (1 * 4)) 0 st = Some (0, false))
    by (vm_compute; reflexivity).
  assert (H3 : region_is_pak 0 st = false) by (vm_compute; reflexivity).
  assert (H4 : get_image 0 st = Some path) by (vm_compute; reflexivity).
  assert (H5 : Z.of_nat (length block) = 6) by reflexivity.
  assert (H6 : 0 < 6) by reflexivity.
  assert (H7 : 6 <= 8) by (vm_compute; discriminate).
  split; [repeat split; assumption|].
  exact (cart_save_block_is_stored_verbatim 1 0 4 6 8 0 block (repeat 0 8)
           (repeat 9 8) path st H1 H2 H3 H4 H5 H6 H7).
Defined.
(** ** Region boundaries *)

Lemma uint32_aligned x : x mod 512 = 0 -> uint32 x mod 512 = 0.
Proof.
  intros H. unfold uint32. change (2 ^ 32) with 4294967296.
  Z.div_mod_to_equations. lia.
Qed.

Lemma get_save_size_aligned v : get_save_size v mod 512 = 0.
Proof. destruct v; reflexivity. Qed.

(** X21. Every region starts on a 512-byte boundary of the logical
    block space: the offset of every slot is a multiple of 512, in
    every configuration. *)
Theorem save_file_offsets_are_block_aligned (idx : Z) (st : State) :
  get_save_file_offset idx st mod 512 = 0.
Proof.
  unfold get_save_file_offset.
  pose proof (get_save_size_aligned (get_cart_save_type st)) as Hcart.
  set (size := get_save_size (get_cart_save_type st)) in *.
  change (get_save_size MemoryType.TPAK) with 0x8000.
  change (get_save_size MemoryType.CPAK) with 0x8000.
  assert (H1 : uint32 (0 + size) mod 512 = 0)
    by (apply uint32_aligned; exact Hcart).
  assert (Hadd : forall x, x mod 512 = 0 -> uint32 (x + 0x8000) mod 512 = 0).
  { intros x Hx. apply uint32_aligned. Z.div_mod_to_equations. lia. }
  assert (Hmul : forall x k, x mod 512 = 0 ->
                             uint32 (x + 0x8000 * k) mod 512 = 0).
  { intros x k Hx. apply uint32_aligned.
    replace (x + 0x8000 * k) with (x + (64 * k) * 512) by lia.
    now rewrite Z.mod_add by lia. }
  destruct (negb (idx =? 0) && bool_decide _); cbv beta iota;
    destruct (negb (_ =? 0) && negb (status_get TPAK_OPT st =? 0));
    cbv beta iota; apply Hmul; auto.
Qed.

(** ** Order of the knowledge-base files *)

Lemma scan_db_md5_found lookup_hash line rest st :
  md5_matches line lookup_hash = true ->
  scan_db_md5 lookup_hash (line :: rest) st
  = scan_db_md5 lookup_hash [line] st /\
  fst (scan_db_md5 lookup_hash [line] st) <> 0.
Proof.
  intros H. cbn [scan_db_md5]. rewrite H. cbn [negb].
  destruct (sscanf_tags _); [|split; [reflexivity|discriminate]].
  destruct (parse_and_apply_db_tags _ _) as [[] ?];
    (split; [reflexivity|discriminate]).
Qed.

Lemma scan_db_md5_none lookup_hash lines st :
  Forall (fun line => md5_matches line lookup_hash = false) lines ->
  scan_db_md5 lookup_hash lines st = (0, st).
Proof.
  intros H. rewrite <- (app_nil_r lines).
  now rewrite scan_db_md5_skip.
Qed.

Lemma scan_db_cartid_found cart_id line rest st :
  cart_id_is_match line cart_id <> 0 ->
  scan_db_cartid cart_id (line :: rest) st
  = scan_db_cartid cart_id [line] st /\
  fst (scan_db_cartid cart_id [line] st) <> 0.
Proof.
  intros H. cbn [scan_db_cartid].
  destruct (Z.eqb_spec (cart_id_is_match line cart_id) 0) as [E|_];
    [contradiction|].
  destruct (sscanf_tags _); [|split; [reflexivity|discriminate]].
  destruct (parse_and_apply_db_tags _ _) as [[] ?];
    (split; [reflexivity|discriminate]).
Qed.

Lemma scan_db_cartid_none cart_id lines st :
  Forall (fun line => cart_id_is_match line cart_id = 0) lines ->
  scan_db_cartid cart_id lines st = (0, st).
Proof.
  intros H. rewrite <- (app_nil_r lines).
  now rewrite scan_db_cartid_skip.
Qed.

(** X22. The user's knowledge-base file comes before the bundled one
    in the lookup by hash.  If the user's file has a line with the hash
    of the ROM, the first such line alone gives the result, which is
    not 0, and the bundled file is not opened.  If it has none, the
    result is that of the bundled file; if it cannot be opened, that is
    reported first. *)
Theorem user_database_takes_precedence (lookup_hash : string) (st : State) :
  let user := "N64-database_user.txt" in
  let bundled := "N64-database.txt" in
  let result := detect_rom_settings_in_dbs_with_md5 lookup_hash st in
  match db_files st !! user with
  | None =>
      result = detect_rom_settings_in_db lookup_hash bundled
                 (printf (MsgDbOpenFailed user) st)
  | Some lines =>
      (forall before line rest,
         lines = before ++ line :: rest ->
         Forall (fun l => md5_matches l lookup_hash = false) before ->
         md5_matches line lookup_hash = true ->
         result = scan_db_md5 lookup_hash [line] st /\ fst result <> 0) /\
      (Forall (fun l => md5_matches l lookup_hash = false) lines ->
       result = detect_rom_settings_in_db lookup_hash bundled st)
  end.
Proof.
  intros user bundled result.
  assert (Heq : result
                = let '(d, s) := detect_rom_settings_in_db lookup_hash user st in
                  if negb (d =? 0) then (d, s)
                  else detect_rom_settings_in_db lookup_hash bundled s).
  { subst result.
    unfold detect_rom_settings_in_dbs_with_md5, DB_FILE_NAMES.
    cbn [in_dbs]. fold user bundled.
    destruct (detect_rom_settings_in_db lookup_hash user st) as [d s].
    destruct (negb (d =? 0)); [reflexivity|].
    destruct (detect_rom_settings_in_db lookup_hash bundled s) as [d0 s0].
    destruct (Z.eqb_spec d0 0); cbn [negb]; congruence. }
  clearbody result. subst result.
  assert (Huser : detect_rom_settings_in_db lookup_hash user st
                  = match db_files st !! user with
                    | None => (0, printf (MsgDbOpenFailed user) st)
                    | Some lines => scan_db_md5 lookup_hash lines st
                    end) by reflexivity.
  rewrite Huser. clear Huser.
  destruct (db_files st !! user) as [lines|].
  - split.
    + intros before line rest -> Hbefore Hline.
      rewrite scan_db_md5_skip by exact Hbefore.
      destruct (scan_db_md5_found lookup_hash line rest st Hline)
        as [-> Hnz].
      destruct (scan_db_md5 lookup_hash [line] st) as [detected st1].
      cbn [fst] in Hnz.
      destruct (Z.eqb_spec detected 0) as [E|_]; [contradiction|].
      cbn [negb]. split; [reflexivity|exact Hnz].
    + intros Hnone. now rewrite scan_db_md5_none by exact Hnone.
  - reflexivity.
Qed.

(** X23. The lookup by cart code.  A code with a character among its
    six that is neither a letter nor a digit is reported and not looked
    up: no file is opened.  For any other code the user's file comes
    before the bundled one: the first line of the user's file whose
    pattern fits the code, if it holds its key, alone gives the result,
    which is not 0; with no line that fits the result is that of the
    bundled file.  A fitting line that ends inside its key is the case
    of C5 and is left out. *)
Theorem cart_id_lookup_order (lookup_id : string) (st : State) :
  let user := "N64-database_user.txt" in
  let bundled := "N64-database.txt" in
  let result := detect_rom_settings_in_dbs_with_cartid lookup_id st in
  if forallb (fun i => isalnum (c_at lookup_id i)) (seq 0 6) then
    match db_files st !! user with
    | None =>
        result = detect_rom_settings_in_db_with_cartid lookup_id bundled
                   (printf (MsgDbOpenFailed user) st)
    | Some lines =>
        (forall before line rest,
           lines = before ++ line :: rest ->
           Forall (fun l => cart_id_is_match l lookup_id = 0) before ->
           cart_id_is_match line lookup_id <> 0 ->
           holds_key line lookup_id = true ->
           result = scan_db_cartid lookup_id [line] st /\ fst result <> 0) /\
        (Forall (fun l => cart_id_is_match l lookup_id = 0) lines ->
         result = detect_rom_settings_in_db_with_cartid lookup_id bundled st)
    end
  else result = (0, printf (MsgInvalidCartID lookup_id) st).
Proof.
  intros user bundled result.
  assert (Heq : result
                = if forallb (fun i => isalnum (c_at lookup_id i)) (seq 0 6)
                  then
                    let '(d, s) :=
                      detect_rom_settings_in_db_with_cartid lookup_id user st in
                    if negb (d =? 0) then (d, s)
                    else detect_rom_settings_in_db_with_cartid lookup_id
                           bundled s
                  else (0, printf (MsgInvalidCartID lookup_id) st)).
  { subst result.
    unfold detect_rom_settings_in_dbs_with_cartid, DB_FILE_NAMES.
    change (Z.to_nat CARTID_LENGTH) with 6%nat.
    destruct (forallb _ _); cbn [negb]; [|reflexivity].
    cbn [in_dbs]. fold user bundled.
    destruct (detect_rom_settings_in_db_with_cartid lookup_id user st)
      as [d s].
    destruct (negb (d =? 0)); [reflexivity|].
    destruct (detect_rom_settings_in_db_with_cartid lookup_id bundled s)
      as [d0 s0].
    destruct (Z.eqb_spec d0 0); cbn [negb]; congruence. }
  clearbody result. subst result.
  destruct (forallb _ _); [|reflexivity].
  assert (Huser : detect_rom_settings_in_db_with_cartid lookup_id user st
                  = match db_files st !! user with
                    | None => (0, printf (MsgDbOpenFailed user) st)
                    | Some lines => scan_db_cartid lookup_id lines st
                    end) by reflexivity.
  rewrite Huser. clear Huser.
  destruct (db_files st !! user) as [lines|].
  - split.
    + intros before line rest -> Hbefore Hline _.
      rewrite scan_db_cartid_skip by exact Hbefore.
      destruct (scan_db_cartid_found lookup_id line rest st Hline)
        as [-> Hnz].
      destruct (scan_db_cartid lookup_id [line] st) as [detected st1].
      cbn [fst] in Hnz.
      destruct (Z.eqb_spec detected 0) as [E|_]; [contradiction|].
      cbn [negb]. split; [reflexivity|exact Hnz].
    + intros Hnone. now rewrite scan_db_cartid_none by exact Hnone.
  - reflexivity.
Qed.
(** ** Block I/O with nothing mounted *)

Lemma get_image_unmounted st :
  get_image 0 (unmount_all_save_files st) = None.
Proof.
  unfold get_image, unmount_all_save_files. cbn [seq foldl].
  unfold FileClose. cbn [sd_image with_sd_image with_save_files
                           with_mounted_save_files].
  destruct (sd_image st) as [|image images]; reflexivity.
Qed.

(** X24. After [unmount_all_save_files], as at the start of a ROM load
    and after a ROM that was too short, no block request reaches a
    file: every read is answered with a block of [sz] zero bytes, and
    every write takes the inbound block and stores it nowhere. *)
Theorem unmounted_block_io
  (lba ack blksz sz buffer_size : Z) (buffer block : list Z) (st0 : State) :
  let st := unmount_all_save_files st0 in
  0 <= sz <= buffer_size ->
  (exists buffer_lba,
     n64_load_savedata lba ack buffer buffer_size blksz sz st
     = Some (buffer_lba, overlay (repeat 0 (Z.to_nat buffer_size)) buffer,
             emit (io_spi_block_write (repeat 0 (Z.to_nat sz)))
               (emit (io_spi_w UIO_SECTOR_RD ack) st))) /\
  n64_save_savedata lba ack buffer blksz sz block st
  = Some (uint64 (-1), overlay (take (Z.to_nat sz) block) buffer,
          emit (io_spi_block_read (take (Z.to_nat sz) block))
            (emit (io_spi_w UIO_SECTOR_WR ack) st)).
Proof.
  intros st Hsz.
  assert (Hzeros : forall b : list Z,
             take (Z.to_nat sz) (overlay (repeat 0 (Z.to_nat buffer_size)) b)
             = repeat 0 (Z.to_nat sz)).
  { intros b. unfold overlay.
    rewrite take_app_le by (rewrite repeat_length; lia).
    apply take_repeat_le. lia. }
  assert (Hfind : find_save_file 256 (int64 (lba * blksz)) 0 st
                  = Some (1, true)
                  \/ find_save_file 256 (int64 (lba * blksz)) 0 st
                     = Some (0, false)).
  { change 256%nat with (S 255). cbn [find_save_file].
    change (uint8 (0 + 1)) with 1.
    destruct (_ >=? _); [left|right]; reflexivity. }
  pose proof (get_image_unmounted st0) as Himg. fold st in Himg.
  split.
  - unfold n64_load_savedata.
    destruct Hfind as [-> | ->]; cbn [negb orb].
    + eexists. now rewrite Hzeros.
    + rewrite Himg. change (file_size None st =? 0) with true.
      cbn [negb orb]. eexists. now rewrite Hzeros.
  - unfold n64_save_savedata.
    destruct Hfind as [-> | ->]; [reflexivity|].
    rewrite !get_image_emit, Himg.
    change (FileSeek None _) with false. now rewrite andb_false_r.
Qed.

Lemma unmounted_block_io_witness :
  let st := unmount_all_save_files
              (snd (mount_save_files "saves" "N64" [] "games/mario.z64"
                      tpak_session)) in
  0 <= 512 <= 1024 /\
  n64_save_savedata 1 0 (repeat 9 1024) 512 512 (repeat 7 512) st
  = Some (uint64 (-1), overlay (take (Z.to_nat 512) (repeat 7 512))
                         (repeat 9 1024),
          emit (io_spi_block_read (take (Z.to_nat 512) (repeat 7 512)))
            (emit (io_spi_w UIO_SECTOR_WR 0) st)).
Proof.
  intros st.
  assert (H : 0 <= 512 <= 1024) by lia.
  split; [exact H|].
  exact (proj2 (unmounted_block_io 1 0 512 512 1024 (repeat 9 1024)
                  (repeat 7 512) _ H)).
Defined.

(** ** The storage's verdict on writing is never changed *)

(** A step that leaves [writable] as it is. *)
Ltac writable_same :=
  repeat first
    [ reflexivity
    | match goal with
      | |- context [if ?b then _ else _] => destruct b
      | |- context [match ?x with Some _ => _ | None => _ end] => destruct x
      end ].

Lemma parse_tags_writable toks l st :
  writable (snd (parse_tags toks l st)) = writable st.
Proof.
  revert l st. induction toks as [|tag toks IH]; intros l st; [reflexivity|].
  cbn [parse_tags]. destruct (tag_case tag l); now rewrite IH.
Qed.

Lemma parse_and_apply_db_tags_writable tags st :
  writable (snd (parse_and_apply_db_tags tags st)) = writable st.
Proof.
  unfold parse_and_apply_db_tags.
  pose proof (parse_tags_writable (strtok tags "| ") TagLocals_init st) as H.
  destruct (parse_tags _ _ st) as [l st1]. cbn [snd] in H. cbv zeta.
  set (l' := if _ && _ then _ else l). clearbody l'.
  unfold apply_wide. cbv zeta. rewrite <- H. writable_same.
Qed.

Lemma homebrew_controller_writable cs i st :
  writable (homebrew_controller cs i st) = writable st.
Proof. unfold homebrew_controller. cbv zeta. writable_same. Qed.

Lemma detect_homebrew_header_writable cs cart_id st :
  writable (snd (detect_homebrew_header cs cart_id st)) = writable st.
Proof.
  unfold detect_homebrew_header. cbv zeta.
  destruct (_ || _); [reflexivity|].
  destruct (negb _); [reflexivity|]. cbn [snd].
  now rewrite !homebrew_controller_writable.
Qed.

Lemma signature_loop_writable n signatures system_type st :
  writable (snd (signature_loop n signatures system_type st)) = writable st.
Proof.
  revert signatures st.
  induction n as [|n IH]; intros signatures st; [reflexivity|].
  cbn [signature_loop]. cbv zeta.
  destruct (signature_case _);
    [now destruct (signature_result _ _)|].
  destruct n; [now destruct (signature_result _ _)|].
  now rewrite IH.
Qed.

Lemma detect_rom_settings_from_first_chunk_writable region_code signatures st :
  writable (snd (detect_rom_settings_from_first_chunk region_code signatures st))
  = writable st.
Proof.
  unfold detect_rom_settings_from_first_chunk. cbv zeta.
  pose proof (signature_loop_writable 2 signatures
                (if region_is_pal region_code
                 then SystemType.PAL else SystemType.NTSC) st) as H.
  destruct (signature_loop _ _ _ st) as [[[system_type cic] known] st1].
  cbn [snd] in H. rewrite <- H. now destruct (negb _).
Qed.

Lemma default_settings_writable st :
  writable (default_settings st) = writable st.
Proof. unfold default_settings. cbv zeta. now destruct (bool_decide _). Qed.

Lemma create_if_missing_writable cpak_header f path old_path st :
  writable (snd (create_if_missing cpak_header f path old_path st))
  = writable st.
Proof.
  unfold create_if_missing. cbv zeta.
  destruct (FileExists path st); [reflexivity|].
  assert (H : forall found buf st1,
             writable st1 = writable st ->
             writable
               (snd (let '(n, st2) :=
                       create_file path
                         (if negb found
                             && bool_decide (SaveFile.type f = MemoryType.CPAK)
                          then overlay
                                 (nth (Z.to_nat (slot_of f st1)
                                       mod length cpak_header)%nat
                                    cpak_header []) buf
                          else buf) (SaveFile.get_size f) st1 in
                     if n =? 0 then (false, st2)
                     else (true,
                           printf (MsgCreatedFile path (SaveFile.get_size f))
                             st2)))
             = writable st).
  { intros found buf st1 H1. unfold create_file. cbv zeta.
    destruct (negb (writable _ path)); [exact H1|].
    destruct (_ =? 0); exact H1. }
  destruct (_ && FileExists old_path st); [|now apply H].
  pose proof (read_file_writable old_path
                (repeat 0 (Z.to_nat (SaveFile.get_size f)))
                (get_save_file_offset (uint8 (slot_of f st)) st)
                (SaveFile.get_size f) st) as Hr.
  destruct (read_file _ _ _ _ st) as [[n buf] st0]. cbn [snd] in Hr.
  destruct (negb (n =? 0)); now apply H.
Qed.

Lemma mount_save_file_writable SAVE_DIR CoreName cpak_header
  name type old_path st :
  writable (snd (mount_save_file SAVE_DIR CoreName cpak_header
                   name type old_path st)) = writable st.
Proof.
  unfold mount_save_file. cbv zeta.
  pose proof (create_if_missing_writable cpak_header (SaveFile.mk (-1) type)
                (save_path_of SAVE_DIR CoreName name (save_ext type st))
                old_path st) as H.
  destruct (create_if_missing _ _ _ _ st) as [is_new st1]. cbn [snd] in H.
  exact H.
Qed.

(** Neither a ROM load nor a block request changes what the storage
    opens for writing. *)
Lemma n64_rom_tx_writable SAVE_DIR CoreName cpak_header MD5 name idx st :
  writable (snd (n64_rom_tx SAVE_DIR CoreName cpak_header MD5 name idx st))
  = writable st.
Proof.
  apply (n64_rom_tx_inherits (fun st st' => writable st' = writable st)).
  - reflexivity.
  - intros s1 s2 s3 H1 H2. congruence.
  - reflexivity.
  - reflexivity.
  - apply parse_and_apply_db_tags_writable.
  - apply detect_homebrew_header_writable.
  - apply detect_rom_settings_from_first_chunk_writable.
  - apply default_settings_writable.
  - reflexivity.
  - apply mount_save_file_writable.
  - reflexivity.
Qed.

Lemma serve_writable request st : writable (serve request st) = writable st.
Proof.
  destruct request as [lba ack buffer buffer_size blksz sz
                      |lba ack buffer blksz sz block]; cbn [serve].
  - unfold n64_load_savedata.
    destruct (find_save_file _ _ _ st) as [[file_idx invalid]|];
      [|reflexivity].
    now destruct (if negb invalid then _ else _) as [[done lba'] buf'].
  - unfold n64_save_savedata.
    destruct (find_save_file _ _ _ st) as [[file_idx invalid]|];
      [|reflexivity].
    destruct invalid; [reflexivity|].
    destruct (negb (sz =? 0) && FileSeek _ _); [|reflexivity].
    unfold FileWriteAdv. now destruct (get_image file_idx _).
Qed.
